(* ===== verification/_CoqProject ===== *)
-Q . S2P
Prelude.v
F64.v
Text.v
Graph.v
TopoSort.v
Executor.v
Dataflow.v
Persistence.v
Calendar.v
Hardware.v
IOKit.v
Envelope.v
Governor.v
Atomics.v
Counters.v
Ceiling.v
Scheduler.v
Supervisor.v
Sections.v
Locks.v
Agent.v
Store.v
Rpc.v
Socket.v
Handler.v
Deadlock.v
Daemon.v
Requests.v
Concurrent.v
Shutdown.v
System.v
Adapter.v
Testing.v
TestDag.v
TestSupervisor.v
TestAdapter.v
TestGovernor.v
TestHardware.v
TestHandler.v
