(* ===== verification/Prelude.v ===== *)
(** * A verification of the AROS kernel

    The AROS kernel (src/src/) is a daemon, written in Rust, that runs graphs of
    agent tasks on one machine: it keeps the task graph, starts tasks when
    their dependencies are done, admits them within memory, token and
    concurrency budgets, supervises the processes of the system, answers
    JSON-RPC requests on a Unix socket, and keeps its state in SQLite. This
    development models its code as executable Rocq definitions, one file per
    part, and proves what the parts promise.

    ** Conventions (this file)

    - A fallible function returns [result E A]; code that can panic returns
      [outcome A] ([Ret] or [Panic]). Both are monads with stdpp's notation.
    - A [w]-bit integer is a [Z]; [add_u], [sub_u], [mul_u], [add_i] and [sum_u]
      panic or wrap on overflow according to the class [BuildProfile], the one
      setting of the build that changes the meaning of the code. Theorems
      quantify over it. [usize] is 64 bits wide.
    - A [HashMap] is a [gmap]; where the code iterates over one, the order is
      given by the class [HashOrder], over which theorems quantify.
    - A [Duration] or [Instant] is a number of nanoseconds. Every reading of a
      clock is an argument of the definition that needs it.
    - [f64] is IEEE binary64 (F64.v), with rounding, comparison, casts and the
      shortest decimal text.
    - Code outside the repository is a class: a type of states, the operations
      the code calls and, in a second class, their documented laws: [Fs] and
      [Disk] with [GraphJson] and [GraphJsonLaws] (Persistence.v), [IOKit] (IOKit.v), [Sql] with
      [SqlLaws] (Store.v), [Json] with [JsonLaws] and [Transport] (Rpc.v), [Os]
      (Agent.v). Concrete instances show that the laws can hold together.
    - Fuel appears where the source loops: [S (size nodes)] for the depth-first
      search (every nested call visits a new node), the number of nodes for
      Kahn's algorithm (a node enters the queue once), [S (pending_count g)]
      ticks for the executor (a tick that does not end the loop finishes a
      pending node), the length of the input for UTF-8. The theorems prove
      that this fuel is enough.
    - An asynchronous function is the sequence of its critical sections; where
      interleaving matters, a step relation lets others run in between: the
      graph and its executor (Executor.v, Dataflow.v), the single accesses to
      the governor's atomics (Atomics.v), the critical sections of the
      supervisor (Locks.v) and of the requests (Requests.v), and the tasks of
      the whole daemon (System.v), whose connections take a request one critical
      section at a time. Sections.v has what programs of critical
      sections on a shared state have in common.
    - Liveness is stated on steps that still can be taken, not on infinite
      runs: from every reachable state some number of steps, which the theorem
      bounds or exhibits, leads to the goal.

    ** The parts

    - Graph.v, TopoSort.v: dag/graph.rs. [DagGraph] with add, remove, ready
      nodes, the cycle check and Kahn's topological sort.
    - Executor.v: dag/executor.rs and dag/runtime.rs. [Executor.execute_tick]
      and [Executor.run]; [RuntimeDag] changes the graph while it runs; Module
      Interleaving is the step relation of the two together.
    - Dataflow.v: what the executor promises, an abstract scheduler that knows
      only which node waits for which ([lstep]), and the simulation of the
      executor's steps by it. Which nodes are added to the graph during a run is
      a parameter of the steps ([adds]); the properties are for pending ones.
    - Persistence.v: dag/persistence.rs, checkpoints on a model of the file
      system whose operations may fail half done.
    - Text.v: which bytes are UTF-8, for files (Persistence.v) and the output of
      subprocesses (Agent.v).
    - Calendar.v: the two ISO 8601 functions (envelope, hardware/snapshot.rs).
    - Hardware.v: hardware/probe.rs, pressure.rs, thermal.rs.
    - IOKit.v: hardware/gpu.rs, power.rs, with the trace of foreign objects.
    - Envelope.v: envelope/task_envelope.rs, error.rs.
    - Governor.v: governor/, admission control and budgets, one step for each
      operation; Atomics.v takes the operations apart into their accesses, for
      one counter at a time; Counters.v adds up what threads record, Ceiling.v
      is about the memory of all tiers together.
    - Scheduler.v: scheduler/, resource allocation and recommendations.
    - Supervisor.v: supervisor/process.rs, kernel.rs, health.rs.
    - Sections.v: programs of critical sections on any state ([prog], [exec],
      [locked], [zoom]), pools of tasks that interleave them (Module Tasks), and
      the ways to reason about a pool: relations that every section keeps
      ([moves]), accounts of what each task may still do ([pays]), and what a
      task achieves when the others keep to a relation ([upholds]).
    - Locks.v: the operations of the supervisor as such programs.
    - Store.v: store/, the store trait ([StateStore], with the contract
      [StoreSpec]), the access-control guard over any store, the SQLite store
      and its transactions.
    - Rpc.v: dispatch/, messages, server connection and client; Socket.v: the
      socket file of the server in dispatch/server.rs, and several servers.
    - Handler.v: supervisor/handler.rs, every request on the state of the whole
      kernel: it calls the supervisor, the governor, the task registry and any
      store that meets [StoreSpec].
    - Deadlock.v: the order in which every operation of the program takes and
      drops its locks, and the waiting for them.
    - Daemon.v: main.rs, start, health tick and shutdown.
    - Requests.v: every request of the handler and the health tick as a program
      of critical sections on the kernel state, made of those of Atomics.v and
      Locks.v; Concurrent.v is about any number of them at once, Shutdown.v
      about the shutdown among them.
    - System.v: the whole daemon, main.rs with the accept loop of
      dispatch/server.rs: main task, server, connections, health loop and
      signal on one kernel state.
    - Agent.v: agent/, the lifecycle and the two kinds of agents.
    - Adapter.v: adapter/, circuit breakers, provider registry and resolution.
    - Testing.v, TestDag.v, TestSupervisor.v, TestAdapter.v, TestGovernor.v,
      TestHardware.v, TestHandler.v: the unit tests in the test modules of these
      files, as programs on the definitions above.

    Inside a file, a Module carries the name of the Rust type or Rust module
    whose functions it models, and definitions keep the names of the source.

    ** What the theorems show

    - Task graphs: the cycle check is exact ([Graph.has_cycle_iff]); the
      topological sort is a valid order exactly when it should be
      ([TopoSort.topological_sort_spec]), but reports a cycle for a repeated
      dependency ([TopoSort.topological_sort_duplicate_dep]).
    - Execution: the loop terminates, gives every node to a task at most once and
      after its dependencies, and says why it ended ([Dataflow.run_terminates]);
      it completes every node when all tasks succeed
      ([Executor.run_all_succeed]). Under every interleaving with changes of
      the graph it refines the abstract scheduler
      ([Dataflow.executor_refines_dataflow]): each node starts once, after its
      dependencies, and ends once ([Dataflow.executor_trace]); and it can
      always go on until nothing is ready ([Dataflow.executor_liveness]).
    - Resources: admission is exact ([Governor.check_admission_exact]) and the
      limits are invariant when check and start are adjacent
      ([Governor.governor_limits]). On several threads, access by access, the
      counters are what the operations amount to ([Atomics.programs_agree]) and
      what is recorded adds up ([Counters.counters_add_up]); a limit can be
      exceeded by as many as the requests in flight
      ([Atomics.concurrent_overshoot]), and by no more, be it the limit of a
      tier or the ceiling of the system ([Concurrent.kernel_limits]); the
      scheduler's counts are exact ([Scheduler.available_slots_greedy]).
    - Processes: restarts respect the window, between two resets
      ([Supervisor.restart_window_limit]), also under interleaving
      ([Locks.restart_limit_concurrent]); the backoff is as computed
      ([Supervisor.backoff_spec]); a process that keeps reaching Running is
      never limited ([Supervisor.crash_loop_never_limited]).
    - Requests: a server that has its path for itself is reached there
      ([Socket.socket_reachable]); a call over a connection is the handler's
      answer ([Rpc.rpc_roundtrip]); submission, triggers and meta cycles do what they
      say ([Handler.task_submit_exact], [Handler.loop_trigger_guarded],
      [Handler.meta_cycle_persisted]); but no task is ever ended
      ([Handler.no_task_completes]).
    - Requests at once: alone, the programs of critical sections are the
      requests of Handler.v ([Requests.requests_agree], [Requests.lines_agree]
      and [Requests.upkeep_agrees]), a check of the one model against the other;
      under every
      interleaving a task is completed at most once for each registration
      ([Concurrent.completions_registered]), no meta cycle is authorized twice
      ([Concurrent.cycles_distinct]), the stored results are never mixed
      ([Concurrent.meta_results_consistent]), and to the governor the requests
      are threads that submit ([Concurrent.requests_refine_threads]). The check
      of a trigger can be passed by a process that was stopped before the
      trigger arrived ([Concurrent.stopped_source_authorized]). The shutdown
      stops every process whatever requests come between its critical sections
      ([Shutdown.shutdown_under_load]). No set of
      operations can deadlock ([Deadlock.kernel_deadlock_free]).
    - The daemon: every line of every connection is answered in order
      ([System.connections_answered]), the kernel state stays well formed
      ([System.kernel_state_typed]), the shutdown stops every process
      ([System.shutdown_clean]) and ends ([System.daemon_stops]), except when
      the message precedes the subscription ([System.shutdown_lost]).
    - State: guarded writers are isolated ([Store.acl_isolation]), transactions
      are atomic ([Store.transaction_atomic]), checkpoints read back when their
      durations are finite numbers ([Persistence.checkpoint_roundtrip]) but are
      not replaced atomically ([Persistence.failed_save]).
    - Model access: breakers trip and recover exactly
      ([Adapter.breaker_opens_exactly], [Adapter.breaker_recovery]), the
      provider chosen is the best eligible one ([Adapter.resolve_spec]).
    - The unit tests of the repository pass on the definitions, under several
      orders of hash map iteration and both build profiles
      ([TestDag.dag_tests_pass] and the last theorems of the other test files).
      They fix the meaning of the definitions by the expectations of the
      authors of the code, test by test.

    ** What is not modelled

    Logging and the asynchronous runtime; what clap makes of the
    text of the command line; the foreign functions of IOKit, beyond the class
    [IOKit]; what serde derives; the text of errors of third-party libraries. In
    System.v the task of a connection that panics ends; for the other tasks
    there is no such step. One health tick and one state update of the shutdown
    are one step of System.v; Shutdown.v and Concurrent.v take these apart as
    well, without the connections around them. The health of all processes is
    computed with one reading of the clock, where the code reads it for each
    process (only the uptimes could differ). A lock of Deadlock.v knows only who holds it and
    that a reader may have to stand behind a writer; the queue of tokio's locks
    is not modelled. Trimming in Hardware.v is for ASCII white space, which is
    what the files of the system contain, and [LIKE] in Store.v works on
    characters of one byte. Left out of the unit tests are those of derived
    serializers and [Debug] texts and those under src/tests/.

    ** Plan

    In the order of importance: health ticks and the state updates of the
    shutdown as critical sections in System.v too, and the ends of tasks in
    Ceiling.v, whose memory no code of the repository gives back yet. *)

From stdpp Require Export base gmap strings list fin_maps option pretty.
From Stdlib Require Export ZArith Lia.

#[global] Open Scope Z_scope.

(** * Rust results and panics *)

(** [Result<A, E>], with the error type first so that [result E] is a monad. *)
Inductive result (E A : Type) : Type :=
| Ok (a : A)
| Err (e : E).
Arguments Ok {E A} a.
Arguments Err {E A} e.

(** The outcome of code that may panic (arithmetic overflow under overflow
    checks, [unwrap] of a [None], an [Instant] out of range). *)
Inductive outcome (A : Type) : Type :=
| Ret (a : A)
| Panic.
Arguments Ret {A} a.
Arguments Panic {A}.

#[global] Instance result_ret E : MRet (result E) := fun A a => Ok a.
#[global] Instance result_bind E : MBind (result E) := fun A B f m =>
  match m with Ok a => f a | Err e => Err e end.
#[global] Instance outcome_ret : MRet outcome := fun A a => Ret a.
#[global] Instance outcome_bind : MBind outcome := fun A B f m =>
  match m with Ret a => f a | Panic => Panic end.

Definition is_ok {E A} (r : result E A) : bool :=
  match r with Ok _ => true | Err _ => false end.

(** [Option::ok_or]. *)
Definition ok_or {E A} (o : option A) (e : E) : result E A :=
  match o with Some a => Ok a | None => Err e end.

(** [Option::unwrap]. *)
Definition unwrap {A} (o : option A) : outcome A :=
  match o with Some a => Ret a | None => Panic end.

(** * Machine integers *)

(** The one bit of the build profile that changes the meaning of the code:
    with overflow checks (debug builds) [+], [-] and [*] panic on overflow,
    without them (release builds) they wrap. *)
Class BuildProfile := { overflow_checks : bool }.

Definition debug_profile : BuildProfile := {| overflow_checks := true |}.
Definition release_profile : BuildProfile := {| overflow_checks := false |}.

(** [z] is a value of the unsigned type of [w] bits. *)
Definition in_u (w z : Z) : Prop := 0 <= z < 2 ^ w.

(** [z] is a value of the signed type of [w] bits. *)
Definition in_i (w z : Z) : Prop := - 2 ^ (w - 1) <= z < 2 ^ (w - 1).

(** [as uN]: truncation to the low [w] bits. *)
Definition cast_u (w z : Z) : Z := z mod 2 ^ w.

(** Two's complement truncation to the signed type of [w] bits. *)
Definition cast_i (w z : Z) : Z := (z + 2 ^ (w - 1)) mod 2 ^ w - 2 ^ (w - 1).

Definition u_max (w : Z) : Z := 2 ^ w - 1.

Section Arith.
Context `{BuildProfile}.

(** The result of an unsigned operation whose exact value is [z]. *)
Definition arith_u (w z : Z) : outcome Z :=
  if (0 <=? z) && (z <? 2 ^ w) then Ret z
  else if overflow_checks then Panic else Ret (cast_u w z).

(** The result of a signed operation whose exact value is [z]. *)
Definition arith_i (w z : Z) : outcome Z :=
  if (- 2 ^ (w - 1) <=? z) && (z <? 2 ^ (w - 1)) then Ret z
  else if overflow_checks then Panic else Ret (cast_i w z).

Definition add_u (w a b : Z) : outcome Z := arith_u w (a + b).
Definition sub_u (w a b : Z) : outcome Z := arith_u w (a - b).
Definition mul_u (w a b : Z) : outcome Z := arith_u w (a * b).
Definition add_i (w a b : Z) : outcome Z := arith_i w (a + b).

(** [Iterator::sum] over an unsigned type: a left fold of [+]. *)
Definition sum_u (w : Z) (l : list Z) : outcome Z :=
  foldl (fun acc x => a ← acc; add_u w a x) (Ret 0) l.

End Arith.

(** Saturating and wrapping operations, the same in every profile. *)
Definition saturating_sub (a b : Z) : Z := Z.max 0 (a - b).
Definition saturating_add (w a b : Z) : Z := Z.min (u_max w) (a + b).
Definition saturating_pow (w a b : Z) : Z := Z.min (u_max w) (a ^ b).
Definition wrapping_add (w a b : Z) : Z := cast_u w (a + b).
Definition wrapping_sub (w a b : Z) : Z := cast_u w (a - b).

(** * Time *)

(** A [Duration] and an [Instant] are both counted in nanoseconds; an
    [Instant] is relative to an arbitrary origin of the monotonic clock. *)
Abbreviation Duration := Z (only parsing).
Abbreviation Instant := Z (only parsing).

Definition nanos_per_sec : Z := 1000000000.
Definition from_secs (s : Z) : Duration := s * nanos_per_sec.
Definition from_millis (ms : Z) : Duration := ms * 1000000.
Definition as_secs (d : Duration) : Z := d / nanos_per_sec.

(** [Duration::MAX]: [u64::MAX] seconds and 999999999 nanoseconds. *)
Definition duration_max : Duration := 2 ^ 64 * nanos_per_sec - 1.

(** [Duration::saturating_mul]. *)
Definition duration_saturating_mul (d : Duration) (k : Z) : Duration :=
  Z.min duration_max (d * k).

(** [Instant - Duration] panics when the difference is not representable:
    the seconds of an [Instant] are a signed 64-bit number. *)
Definition instant_sub (t : Instant) (d : Duration) : outcome Instant :=
  if (- 2 ^ 63 * nanos_per_sec <=? t - d) && (t - d <? 2 ^ 63 * nanos_per_sec)
  then Ret (t - d) else Panic.

(** [Instant::elapsed] at the moment [now]: never negative. *)
Definition elapsed (now t : Instant) : Duration := saturating_sub now t.

(** * Text *)

(** [{}] of an integer: its decimal digits. *)
Definition display_int (z : Z) : string := pretty z.

Definition display_bool (b : bool) : string := if b then "true" else "false".

Definition zero_digit : Ascii.ascii := Ascii.ascii_of_nat 48.

(** [n] copies of a character. *)
Fixpoint repeat_char (c : Ascii.ascii) (n : nat) : string :=
  match n with
  | O => EmptyString
  | S n => String c (repeat_char c n)
  end.

(** [{:0w}] of a non-negative integer: zero padded to width [w]. *)
Definition display_padded (w : nat) (z : Z) : string :=
  let s := display_int z in
  (repeat_char zero_digit (w - String.length s) +:+ s)%string.

(** [str::starts_with]. *)
Definition starts_with (s pre : string) : bool := String.prefix pre s.

(** [String::is_empty]. *)
Definition str_is_empty (s : string) : bool := bool_decide (s = ""%string).

(** [CString::new] fails on text with a NUL. *)
Fixpoint has_nul (s : string) : bool :=
  match s with
  | EmptyString => false
  | String c s => Ascii.eqb c (Ascii.ascii_of_nat 0) || has_nul s
  end.

Definition cstring_new (s : string) : option string :=
  if has_nul s then None else Some s.

(** * Hash map iteration *)

(** [HashMap] iteration visits every entry once, in an order the program
    cannot rely on. [HashOrder] is one such order; the theorems quantify over
    all of them, and code that iterates more than once at different times may
    be given a different order each time. *)
Class HashOrder := {
  hm_iter : forall {K : Type} {EK : EqDecision K} {CK : Countable K} {V : Type},
    gmap K V -> list (K * V);
  hm_iter_perm : forall {K : Type} {EK : EqDecision K} {CK : Countable K}
      {V : Type} (m : gmap K V),
    hm_iter m ≡ₚ map_to_list m
}.

(** A concrete order, for evaluating the model. *)
Definition std_order : HashOrder :=
  {| hm_iter := fun _ _ _ _ m => map_to_list m;
     hm_iter_perm := fun _ _ _ _ m => Permutation_refl _ |}.

(** The opposite order, to show that results can depend on it. *)
Program Definition rev_order : HashOrder :=
  {| hm_iter := fun _ _ _ _ m => rev (map_to_list m) |}.
Next Obligation. intros. simpl. by rewrite <- Permutation_rev. Qed.

Section HashMap.
Context `{HashOrder} {K : Type} `{Countable K} {V : Type}.
Implicit Types m : gmap K V.

(** [HashMap::keys], [HashMap::values] and [HashMap::contains_key]. *)
Definition hm_keys m : list K := (hm_iter m).*1.
Definition hm_values m : list V := (hm_iter m).*2.
Definition contains_key m (k : K) : bool := bool_decide (is_Some (m !! k)).

(** Deriving [HashMap::iter_mut] with an update of every value. *)
Definition hm_update_all (f : V -> V) m : gmap K V := f <$> m.

Lemma elem_of_hm_iter m k v : (k, v) ∈ hm_iter m <-> m !! k = Some v.
Proof. by rewrite hm_iter_perm, elem_of_map_to_list. Qed.

Lemma elem_of_hm_keys m k : k ∈ hm_keys m <-> is_Some (m !! k).
Proof.
  unfold hm_keys. rewrite list_elem_of_fmap. split.
  - intros [[k' v] [-> Hin]]. apply elem_of_hm_iter in Hin. by eexists.
  - intros [v Hv]. exists (k, v). by rewrite elem_of_hm_iter.
Qed.

Lemma elem_of_hm_values m v : v ∈ hm_values m <-> exists k, m !! k = Some v.
Proof.
  unfold hm_values. rewrite list_elem_of_fmap. split.
  - intros [[k v'] [-> Hin]]. apply elem_of_hm_iter in Hin. by exists k.
  - intros [k Hk]. exists (k, v). by rewrite elem_of_hm_iter.
Qed.

Lemma NoDup_hm_keys m : NoDup (hm_keys m).
Proof. unfold hm_keys. rewrite hm_iter_perm. apply NoDup_fst_map_to_list. Qed.

Lemma NoDup_hm_iter m : NoDup (hm_iter m).
Proof. rewrite hm_iter_perm. apply NoDup_map_to_list. Qed.

Lemma length_hm_keys m : length (hm_keys m) = size m.
Proof.
  unfold hm_keys. rewrite length_fmap, hm_iter_perm. apply length_map_to_list.
Qed.

Lemma length_hm_values m : length (hm_values m) = size m.
Proof.
  unfold hm_values. rewrite length_fmap, hm_iter_perm. apply length_map_to_list.
Qed.

Lemma hm_iter_empty : hm_iter (∅ : gmap K V) = [].
Proof. apply Permutation_nil_r. by rewrite hm_iter_perm, map_to_list_empty. Qed.

Lemma contains_key_true m k : contains_key m k = true <-> is_Some (m !! k).
Proof. apply bool_decide_eq_true. Qed.

Lemma contains_key_false m k : contains_key m k = false <-> m !! k = None.
Proof.
  unfold contains_key. rewrite bool_decide_eq_false. symmetry.
  apply eq_None_not_Some.
Qed.

Lemma hm_iter_insert m k v :
  m !! k = None -> hm_iter (<[k := v]> m) ≡ₚ (k, v) :: hm_iter m.
Proof. intros Hk. by rewrite !hm_iter_perm, map_to_list_insert. Qed.

End HashMap.

(** Two iteration orders of one map visit the same entries. *)
Lemma hm_iter_orders (o1 o2 : HashOrder) `{Countable K} {V} (m : gmap K V) :
  @hm_iter o1 _ _ _ _ m ≡ₚ @hm_iter o2 _ _ _ _ m.
Proof. by rewrite (@hm_iter_perm o1), (@hm_iter_perm o2). Qed.

(** * Lemmas on integers *)

Lemma in_u_cast w z : 0 < w -> in_u w (cast_u w z).
Proof. intros. unfold in_u, cast_u. apply Z.mod_pos_bound. lia. Qed.

Lemma in_i_cast w z : 0 < w -> in_i w (cast_i w z).
Proof.
  intros. unfold in_i, cast_i.
  assert (2 ^ w = 2 * 2 ^ (w - 1)) as E
    by (rewrite <- Z.pow_succ_r by lia; f_equal; lia).
  pose proof (Z.mod_pos_bound (z + 2 ^ (w - 1)) (2 ^ w)). lia.
Qed.

Lemma cast_u_id w z : in_u w z -> cast_u w z = z.
Proof. unfold in_u, cast_u. intros. by apply Z.mod_small. Qed.

Lemma arith_u_ok `{BuildProfile} w z : in_u w z -> arith_u w z = Ret z.
Proof.
  unfold in_u, arith_u. intros.
  rewrite (proj2 (Z.leb_le 0 z)), (proj2 (Z.ltb_lt z _)); [done | lia ..].
Qed.

Lemma arith_u_not_panic `{BuildProfile} w z z' :
  arith_u w z = Ret z' -> 0 < w -> in_u w z'.
Proof.
  unfold arith_u. intros Heq Hw.
  destruct ((0 <=? z) && (z <? 2 ^ w)) eqn:E.
  - injection Heq as <-. unfold in_u. lia.
  - destruct overflow_checks; [done|]. injection Heq as <-. by apply in_u_cast.
Qed.

Lemma arith_i_ok `{BuildProfile} w z : in_i w z -> arith_i w z = Ret z.
Proof.
  unfold in_i, arith_i. intros.
  rewrite (proj2 (Z.leb_le _ z)), (proj2 (Z.ltb_lt z _)); [done | lia ..].
Qed.

(** Stepping through checked arithmetic. *)
Lemma bind_arith_u `{BuildProfile} {A} w z (k : Z -> outcome A) :
  in_u w z -> (arith_u w z ≫= k) = k z.
Proof. intros. by rewrite arith_u_ok. Qed.

Lemma bind_arith_i `{BuildProfile} {A} w z (k : Z -> outcome A) :
  in_i w z -> (arith_i w z ≫= k) = k z.
Proof. intros. by rewrite arith_i_ok. Qed.

Lemma bind_Ret {A B} (a : A) (k : A -> outcome B) : (Ret a ≫= k) = k a.
Proof. done. Qed.

(** The exact sum, independent of the order. *)
Definition sum_Z (l : list Z) : Z := foldr Z.add 0 l.

#[export] Instance sum_Z_proper : Proper ((≡ₚ) ==> (=)) sum_Z.
Proof. induction 1; simpl; lia. Qed.

Lemma sum_Z_cons x l : sum_Z (x :: l) = x + sum_Z l.
Proof. done. Qed.

Lemma sum_Z_app l1 l2 : sum_Z (l1 ++ l2) = sum_Z l1 + sum_Z l2.
Proof. induction l1; simpl; lia. Qed.

Lemma sum_Z_insert (l : list Z) i x y :
  l !! i = Some x -> sum_Z (<[i := y]> l) = sum_Z l - x + y.
Proof.
  intros Hi. rewrite insert_take_drop by (by eapply lookup_lt_Some).
  rewrite <- (take_drop_middle l i x Hi) at 3.
  rewrite !sum_Z_app, !sum_Z_cons. lia.
Qed.

Lemma sum_Z_nonneg l : Forall (fun z => 0 <= z) l -> 0 <= sum_Z l.
Proof. induction 1; simpl; lia. Qed.

Lemma sum_Z_ge_two l i j x y :
  Forall (fun z => 0 <= z) l -> l !! i = Some x -> l !! j = Some y -> i <> j -> x + y <= sum_Z l.
Proof.
  intros Hl Hi Hj Hij.
  pose proof (sum_Z_insert l i x 0 Hi) as Hs.
  pose proof (sum_Z_insert (<[i:=0]> l) j y 0) as Hs2. rewrite list_lookup_insert_ne in Hs2 by done.
  specialize (Hs2 Hj).
  pose proof (sum_Z_nonneg (<[j:=0]> (<[i:=0]> l))) as Hn.
  assert (0 <= sum_Z (<[j:=0]> (<[i:=0]> l))) by (apply Hn; repeat apply Forall_insert; done).
  lia.
Qed.

(** Sums of bounded terms, and what is left when one of them is nothing. *)
Lemma sum_Z_between D l : Forall (fun z => 0 <= z <= D) l -> 0 <= sum_Z l <= Z.of_nat (length l) * D.
Proof. induction 1; cbn [sum_Z foldr length]; [lia|]. fold (sum_Z l). lia. Qed.

Lemma sum_Z_others D l i x :
  0 <= D -> Forall (fun z => 0 <= z <= D) l -> l !! i = Some x ->
  sum_Z l - x <= (Z.of_nat (length l) - 1) * D.
Proof.
  intros HD Hl Hi. pose proof (sum_Z_insert l i x D Hi) as Hs.
  assert (Forall (fun z => 0 <= z <= D) (<[i := D]> l)) as Hf by (apply Forall_insert; [done|lia]).
  apply sum_Z_between in Hf. rewrite length_insert in Hf. lia.
Qed.

Lemma sum_Z_ge_elem l x : Forall (fun z => 0 <= z) l -> x ∈ l -> x <= sum_Z l.
Proof.
  intros Hl Hx. induction Hl as [|y l Hy Hl IH]; [by apply elem_of_nil in Hx|].
  simpl. apply elem_of_cons in Hx as [-> | Hx].
  - pose proof (sum_Z_nonneg _ Hl). lia.
  - specialize (IH Hx). lia.
Qed.

(** [Iterator::sum] is the exact sum when that fits. *)
Lemma sum_u_exact `{BuildProfile} w l :
  Forall (fun z => 0 <= z) l -> sum_Z l < 2 ^ w -> sum_u w l = Ret (sum_Z l).
Proof.
  unfold sum_u. intros Hl Hs.
  assert (forall acc, 0 <= acc -> acc + sum_Z l < 2 ^ w ->
    foldl (fun acc x => a ← acc; add_u w a x) (Ret acc) l
      = Ret (acc + sum_Z l)) as Hgen.
  { clear Hs. induction Hl as [|x l Hx Hl IH]; intros acc Hacc Hs; simpl in *.
    - by rewrite Z.add_0_r.
    - pose proof (sum_Z_nonneg _ Hl). unfold add_u at 2.
      rewrite arith_u_ok by (unfold in_u; lia).
      change (foldl (fun acc x => a ← acc; add_u w a x) (Ret (acc + x)) l
                = Ret (acc + (x + sum_Z l))).
      rewrite IH by lia. f_equal. lia. }
  by rewrite Hgen.
Qed.

(** * Lemmas on text *)

Lemma starts_with_app s pre :
  starts_with s pre = true <-> exists t, s = (pre +:+ t)%string.
Proof.
  unfold starts_with. revert s. induction pre as [|c pre IH]; intros s; simpl.
  - split; [by exists s|by destruct s].
  - destruct s as [|d s]; [split; [done|by intros [t ?]]|].
    change (String.prefix (String c pre) (String d s))
      with (if Ascii.ascii_dec c d then String.prefix pre s else false).
    change (exists t, String d s = (String c pre +:+ t)%string)
      with (exists t, String d s = String c (pre +:+ t)).
    destruct (Ascii.ascii_dec c d) as [->|Hne].
    + rewrite IH. split; intros [t Ht]; exists t; congruence.
    + split; [done|]. intros [t Ht]. congruence.
Qed.

(** * Lemmas on lists *)

Lemma elem_of_filter_bool {A} (f : A -> bool) x l :
  x ∈ List.filter f l <-> x ∈ l /\ f x = true.
Proof. by rewrite !list_elem_of_In, filter_In. Qed.

Lemma NoDup_filter_fmap {A B} (f : A -> bool) (h : A -> B) l :
  NoDup (h <$> l) -> NoDup (h <$> List.filter f l).
Proof.
  induction l as [|x l IH]; [done|]. rewrite fmap_cons, NoDup_cons.
  intros [Hx Hnd]. cbn [List.filter]. destruct (f x); [|by apply IH].
  rewrite fmap_cons, NoDup_cons. split; [|by apply IH].
  intros (y & Hy & Hin)%list_elem_of_fmap. apply Hx.
  apply elem_of_filter_bool in Hin as [Hin _]. rewrite Hy.
  by apply list_elem_of_fmap_2.
Qed.

(** * Automation *)

Create HintDb aros discriminated.
Create Rewrite HintDb aros.
#[export] Hint Resolve arith_u_ok arith_i_ok in_u_cast cast_u_id : aros.
#[export] Hint Rewrite @contains_key_true @contains_key_false : aros.

(** Split the boolean tests of the code into propositions. *)
Ltac split_bools :=
  repeat match goal with
  | H : (_ && _) = true |- _ => apply andb_true_iff in H as [? ?]
  | H : (_ || _) = false |- _ => apply orb_false_iff in H as [? ?]
  | H : negb _ = true |- _ => apply negb_true_iff in H
  | H : negb _ = false |- _ => apply negb_false_iff in H
  | H : (_ <? _) = true |- _ => apply Z.ltb_lt in H
  | H : (_ <? _) = false |- _ => apply Z.ltb_ge in H
  | H : (_ <=? _) = true |- _ => apply Z.leb_le in H
  | H : (_ <=? _) = false |- _ => apply Z.leb_gt in H
  | H : (_ =? _) = true |- _ => apply Z.eqb_eq in H
  | H : (_ =? _) = false |- _ => apply Z.eqb_neq in H
  | H : bool_decide _ = true |- _ => apply bool_decide_eq_true in H
  | H : bool_decide _ = false |- _ => apply bool_decide_eq_false in H
  end.

(** One step of checked arithmetic whose result [tac] proves in range. *)
Ltac arith_step tac :=
  first [ rewrite bind_Ret
        | rewrite bind_arith_u by (unfold in_u; tac)
        | rewrite bind_arith_i by (unfold in_i; tac) ]; cbv beta zeta.

(** Case analysis on the next scrutinee of the goal, remembering it. *)
Ltac case_goal :=
  match goal with
  | |- context [match ?x with _ => _ end] =>
    lazymatch x with
    | context [match _ with _ => _ end] => fail
    | _ => let E := fresh "E" in destruct x eqn:E
    end
  end.

(** Case analysis on the next scrutinee of a hypothesis. *)
Ltac case_hyp H :=
  match type of H with
  | context [match ?x with _ => _ end] =>
    lazymatch x with
    | context [match _ with _ => _ end] => fail
    | _ => let E := fresh "E" in destruct x eqn:E
    end
  end.
