(* ===== verification/F64.v ===== *)
(** Double-precision floating point.

    The [f64] values of the code are binary64 numbers of the specification of
    IEEE 754 arithmetic in the Rocq core library ([SpecFloat], with 53 bits of
    mantissa and [emax] 1024); every operation below rounds to nearest, ties
    to even, as the language requires. The file gives the casts, literals,
    operations and comparisons the code uses, and the lemmas that say when a
    product is exact. *)

From S2P Require Import Prelude.
From Stdlib Require Import Floats.SpecFloat.

Abbreviation f64 := spec_float (only parsing).

Definition prec : Z := 53.
Definition emax : Z := 1024.

(** [z as f64] for an integer. *)
Definition of_int (z : Z) : f64 := binary_normalize prec emax z 0 false.

Definition fmul (x y : f64) : f64 := SFmul prec emax x y.
Definition fdiv (x y : f64) : f64 := SFdiv prec emax x y.

(** Comparisons are false on NaN. *)
Definition flt (x y : f64) : bool := SFltb x y.
Definition fle (x y : f64) : bool := SFleb x y.
Definition fgt (x y : f64) : bool := SFltb y x.
Definition fge (x y : f64) : bool := SFleb y x.

(** A decimal literal [n / d] denotes the nearest double to the exact
    quotient, which is the correctly rounded quotient of [n] and [d]. *)
Definition lit (n d : Z) : f64 := fdiv (of_int n) (of_int d).

Definition fzero : f64 := S754_zero false.

(** The integer part of the magnitude of a finite number. *)
Definition trunc_mag (m : positive) (e : Z) : Z :=
  if 0 <=? e then Zpos m * 2 ^ e else Zpos m / 2 ^ (- e).

(** [x as uN]: truncates towards zero, saturates, and sends NaN to 0. *)
Definition to_uint (w : Z) (x : f64) : Z :=
  match x with
  | S754_nan | S754_zero _ => 0
  | S754_infinity s => if s then 0 else u_max w
  | S754_finite true _ _ => 0
  | S754_finite false m e => Z.min (u_max w) (trunc_mag m e)
  end.

Definition is_finite (x : f64) : bool :=
  match x with S754_nan | S754_infinity _ => false | _ => true end.

(** [f64::max]: the other operand when one is NaN. *)
Definition fmax (x y : f64) : f64 :=
  match x, y with
  | S754_nan, _ => y
  | _, S754_nan => x
  | _, _ => if SFltb x y then y else x
  end.

#[export] Instance spec_float_eq_dec : EqDecision spec_float.
Proof. solve_decision. Defined.

(** * Rounding an exact shift *)

(** [m] shifted left by [n] bits. *)
Lemma digits2_log2 p : Zpos (digits2_pos p) = Z.log2 (Zpos p) + 1.
Proof.
  assert (forall q, digits2_pos q = Pos.size q) as Hsz.
  { induction q as [q IH|q IH|]; simpl; [by rewrite IH .. | done]. }
  rewrite Hsz. destruct p; simpl; lia.
Qed.

Lemma pos_iter_xO m n : Zpos (Pos.iter xO m n) = Zpos m * 2 ^ Zpos n.
Proof.
  induction n as [|n IH] using Pos.peano_ind.
  - simpl. lia.
  - rewrite Pos.iter_succ, Pos2Z.inj_xO, IH, Pos2Z.inj_succ, Z.pow_succ_r; lia.
Qed.

(** Shifting right by [n] bits loses nothing when the low [n] bits are 0. *)
Lemma iter_shr_exact n : forall m,
  0 < m ->
  iter_pos shr_1 n {| shr_m := m * 2 ^ Zpos n; shr_r := false; shr_s := false |}
  = {| shr_m := m; shr_r := false; shr_s := false |}.
Proof.
  assert (forall m, 0 < m ->
    shr_1 {| shr_m := m * 2; shr_r := false; shr_s := false |}
    = {| shr_m := m; shr_r := false; shr_s := false |}) as H1.
  { intros m Hm. destruct m as [|m|m]; [lia | | lia].
    rewrite <- Pos2Z.inj_mul, Pos.mul_comm. done. }
  induction n as [n IH|n IH|]; intros m Hm; cbn [iter_pos].
  - replace (2 ^ Zpos n~1) with (2 ^ Zpos n * (2 ^ Zpos n * 2)).
    2:{ rewrite Z.mul_assoc, <- Z.pow_add_r, <- (Z.pow_1_r 2) at 1 by lia.
        rewrite (Z.pow_1_r 2) at 1. rewrite <- (Z.pow_1_r 2) at 2.
        rewrite <- Z.pow_add_r by lia. f_equal. lia. }
    rewrite !Z.mul_assoc.
    rewrite H1 by (apply Z.mul_pos_pos; [apply Z.mul_pos_pos|]; lia).
    rewrite IH by (apply Z.mul_pos_pos; lia). by apply IH.
  - replace (2 ^ Zpos n~0) with (2 ^ Zpos n * 2 ^ Zpos n)
      by (rewrite <- Z.pow_add_r by lia; f_equal; lia).
    rewrite Z.mul_assoc. rewrite IH by (apply Z.mul_pos_pos; lia). by apply IH.
  - by apply H1.
Qed.

(** Rounding a number whose significant bits fit the mantissa is exact: [t]
    of the low bits of [q * 2 ^ t] are dropped. *)
Lemma round_aux_exact q t e :
  2 ^ 52 <= Zpos q < 2 ^ 53 -> 0 <= t -> -1074 <= e + t <= 971 ->
  binary_round_aux prec emax false (Zpos q * 2 ^ t) e loc_Exact
  = S754_finite false q (e + t).
Proof.
  intros Hq Ht He.
  assert (Hlog : Z.log2 (Zpos q) = 52) by (apply Z.log2_unique; lia).
  assert (Hfix : shr_fexp prec emax (Zpos q) (e + t) loc_Exact
    = ({| shr_m := Zpos q; shr_r := false; shr_s := false |}, e + t)).
  { unfold shr_fexp, Zdigits2, fexp, emin, prec, emax.
    rewrite digits2_log2, Hlog.
    replace (Z.max _ _ - (e + t)) with 0 by lia. done. }
  unfold binary_round_aux.
  assert (Hsh : shr_fexp prec emax (Zpos q * 2 ^ t) e loc_Exact
    = ({| shr_m := Zpos q; shr_r := false; shr_s := false |}, e + t)).
  { assert (exists p, Zpos q * 2 ^ t = Zpos p) as [p Hp].
    { exists (Z.to_pos (Zpos q * 2 ^ t)). rewrite Z2Pos.id; [done|].
      apply Z.mul_pos_pos; [lia|]. apply Z.pow_pos_nonneg; lia. }
    unfold shr_fexp, fexp, emin, prec, emax.
    rewrite Hp at 2. unfold Zdigits2. rewrite digits2_log2, <- Hp.
    rewrite Z.log2_mul_pow2, Hlog by lia.
    replace (Z.max _ _ - e) with t by lia.
    unfold shr. destruct t as [|t|t]; [| |lia].
    - rewrite Z.mul_1_r, Z.add_0_r. done.
    - cbn [shr_record_of_loc]. by rewrite iter_shr_exact by lia. }
  rewrite Hsh. cbn [shr_m loc_of_shr_record round_nearest_even].
  rewrite Hfix. cbn [shr_m].
  unfold prec, emax. by rewrite (proj2 (Z.leb_le _ _)) by lia.
Qed.

(** An integer of at most 53 bits is represented exactly, with its mantissa
    shifted up to 53 bits. *)
Lemma of_int_exact a :
  0 < a < 2 ^ 53 ->
  let t := 52 - Z.log2 a in
  of_int a = S754_finite false (Z.to_pos (a * 2 ^ t)) (- t)
  /\ 2 ^ 52 <= a * 2 ^ t < 2 ^ 53 /\ 0 <= t <= 52.
Proof.
  intros Ha t.
  assert (Hl : 0 <= Z.log2 a <= 52).
  { split; [apply Z.log2_nonneg|].
    apply Z.lt_succ_r. apply Z.log2_lt_pow2; lia. }
  assert (Ht : 0 <= t <= 52) by (unfold t; lia).
  assert (Hr : 2 ^ 52 <= a * 2 ^ t < 2 ^ 53).
  { pose proof (Z.log2_spec a ltac:(lia)) as [H1 H2].
    assert (2 ^ 52 = 2 ^ Z.log2 a * 2 ^ t) as ->
      by (rewrite <- Z.pow_add_r by lia; f_equal; unfold t; lia).
    assert (2 ^ 53 = 2 ^ Z.succ (Z.log2 a) * 2 ^ t) as ->
      by (rewrite <- Z.pow_add_r by lia; f_equal; unfold t; lia).
    pose proof (Z.pow_pos_nonneg 2 t ltac:(lia) ltac:(lia)). nia. }
  split_and!; [|lia..].
  unfold of_int, binary_normalize. destruct a as [|a|a]; [lia| |lia].
  unfold binary_round, shl_align, fexp, emin, prec, emax.
  rewrite digits2_log2.
  replace (Z.max _ _ - 0) with (- t) by (unfold t; lia).
  assert (Hfin : binary_round_aux 53 1024 false (Zpos a * 2 ^ t) (- t) loc_Exact
    = S754_finite false (Z.to_pos (Zpos a * 2 ^ t)) (- t)).
  { pose proof (round_aux_exact (Z.to_pos (Zpos a * 2 ^ t)) 0 (- t)) as Hx.
    rewrite Z2Pos.id, Z.mul_1_r, Z.add_0_r in Hx by lia. apply Hx; lia. }
  assert (Htd : t = 52 - Z.log2 (Zpos a)) by done.
  clearbody t. destruct t as [|t|t]; [| |lia].
  - rewrite Z.pow_0_r, Z.mul_1_r in *. done.
  - change (- Zpos t) with (Zneg t) in *. cbn [fst snd].
    rewrite pos_iter_xO.
    replace (Z.max _ _) with (Zneg t) by lia. done.
Qed.

(** Multiplying an integer by a literal [c / 2 ^ j] and truncating is exact
    as long as the product [a * c] has at most 53 bits. *)
Lemma to_uint_mul_exact w a c j s mk :
  0 <= w -> 0 <= a -> 0 < c -> 0 <= j <= 64 -> 0 <= s -> a * c < 2 ^ 53 ->
  Zpos mk = c * 2 ^ s -> 2 ^ 52 <= Zpos mk < 2 ^ 53 ->
  to_uint w (fmul (of_int a) (S754_finite false mk (- j - s)))
  = Z.min (u_max w) (a * c / 2 ^ j).
Proof.
  intros Hw Ha Hc Hj Hs Hac Hmk Hmkr.
  destruct (Z.eq_dec a 0) as [->|Hne].
  { simpl. rewrite Zdiv_0_l. unfold u_max.
    pose proof (Z.pow_pos_nonneg 2 w ltac:(lia) Hw). lia. }
  destruct (of_int_exact a) as (-> & Hr & Ht); [nia|].
  set (t := 52 - Z.log2 a) in *.
  set (b := a * c) in *. assert (Hb : 0 < b) by (unfold b; nia).
  set (u := 52 - Z.log2 b).
  assert (Hlb : 0 <= Z.log2 b <= 52).
  { split; [apply Z.log2_nonneg|]. apply Z.lt_succ_r, Z.log2_lt_pow2; lia. }
  assert (Hbu : 2 ^ 52 <= b * 2 ^ u < 2 ^ 53).
  { destruct (of_int_exact b) as (_ & Hx & _); [lia|]. exact Hx. }
  assert (Hle : u <= t + s).
  { assert (Hab : a <= b) by (unfold b; nia).
    pose proof (Z.log2_le_mono a b Hab). unfold u, t. lia. }
  unfold fmul, SFmul. cbn [xorb].
  assert (Hprod : Zpos (Z.to_pos (a * 2 ^ t) * mk)
    = Zpos (Z.to_pos (b * 2 ^ u)) * 2 ^ (t + s - u)).
  { rewrite Pos2Z.inj_mul, !Z2Pos.id, Hmk by lia. unfold b.
    rewrite <- Z.mul_assoc with (p := 2 ^ (t + s - u)), <- Z.pow_add_r by lia.
    replace (u + (t + s - u)) with (t + s) by lia.
    rewrite Z.pow_add_r by lia. lia. }
  rewrite Hprod.
  assert (Hs53 : s <= 52).
  { assert (2 ^ s < 2 ^ 53) as Hlt by nia.
    apply Z.pow_lt_mono_r_iff in Hlt; lia. }
  rewrite round_aux_exact by (rewrite ?Z2Pos.id; lia).
  replace (- t + (- j - s) + (t + s - u)) with (- (j + u)) by lia.
  unfold to_uint, trunc_mag. rewrite Z2Pos.id by lia.
  assert (Hdiv : b * 2 ^ u / 2 ^ (j + u) = b / 2 ^ j).
  { rewrite Z.pow_add_r by lia. apply Z.div_mul_cancel_r; lia. }
  destruct (0 <=? - (j + u)) eqn:E; split_bools.
  - assert (j = 0 /\ u = 0) as [-> ->] by lia.
    replace (- (0 + 0)) with 0 by lia. by rewrite Z.pow_0_r, !Z.mul_1_r, Z.div_1_r.
  - by rewrite Z.opp_involutive, Hdiv.
Qed.

(** * Comparisons *)

(** [SFltb] is a strict weak order on the numbers that are not NaN. *)
Lemma flt_nan_r x : flt x S754_nan = false.
Proof. by destruct x. Qed.

Lemma flt_asym x y : flt x y = true -> flt y x = false.
Proof.
  unfold flt, SFltb, SFcompare. destruct x as [[]|[]| |[] mx ex], y as [[]|[]| |[] my ey];
    try done.
  all: rewrite (Z.compare_antisym ex ey); destruct (Z.compare_spec ex ey); simpl; try done.
  all: repeat match goal with
    | |- context [Pos.compare_cont Eq ?a ?b] =>
      change (Pos.compare_cont Eq a b) with (a ?= b)%positive;
      destruct (Pos.compare_spec a b); simpl; try done
    end; lia.
Qed.

Lemma flt_cotrans x y z :
  flt x y = true -> z <> S754_nan -> flt x z = false -> flt z y = true.
Proof.
  unfold flt, SFltb, SFcompare. intros Hxy Hz Hxz.
  destruct x as [[]|[]| |[] mx ex], y as [[]|[]| |[] my ey], z as [[]|[]| |[] mz ez];
    try done.
  all: destruct (Z.compare_spec ex ey); try done.
  all: destruct (Z.compare_spec ex ez); try done.
  all: destruct (Z.compare_spec ez ey); try done; try lia.
  all: repeat match goal with
    | H : context [Pos.compare_cont Eq ?a ?b] |- _ =>
      change (Pos.compare_cont Eq a b) with (a ?= b)%positive in H;
      destruct (Pos.compare_spec a b); simpl in H; try done
    | |- context [Pos.compare_cont Eq ?a ?b] =>
      change (Pos.compare_cont Eq a b) with (a ?= b)%positive;
      destruct (Pos.compare_spec a b); simpl; try done
    end; lia.
Qed.

Lemma flt_between x y z :
  flt x y = true -> flt x z = false -> z <> S754_nan -> flt y z = false.
Proof. intros Hxy Hxz Hz. apply flt_asym. by eapply flt_cotrans. Qed.

(** Folding [f64::max] gives an element that no element exceeds. *)
Lemma fold_fmax_spec l : forall seen m,
  m ∈ seen -> (forall d, d ∈ seen -> flt m d = false) ->
  (m = S754_nan -> forall d, d ∈ seen -> d = S754_nan) ->
  exists m', foldl (fun acc c => Some (match acc with None => c | Some m => fmax m c end))
      (Some m) l = Some m'
    /\ m' ∈ seen ++ l /\ forall d, d ∈ seen ++ l -> flt m' d = false.
Proof.
  induction l as [|c l IH]; intros seen m Hin Hle Hnan; cbn [foldl].
  { exists m. rewrite app_nil_r. done. }
  assert (seen ++ c :: l = (seen ++ [c]) ++ l) as -> by (by rewrite <- app_assoc).
  assert (Hself : forall x, flt x x = false).
  { intros x. destruct (flt x x) eqn:E; [|done]. by rewrite (flt_asym x x E) in E. }
  destruct (decide (m = S754_nan)) as [->|Hm].
  - apply IH; simpl.
    + set_solver.
    + intros d [Hd|Hd]%elem_of_app; [rewrite (Hnan eq_refl d Hd); apply flt_nan_r|].
      apply list_elem_of_singleton in Hd as ->. apply Hself.
    + intros -> d [Hd|Hd]%elem_of_app; [by apply Hnan|].
      by apply list_elem_of_singleton in Hd as ->.
  - destruct (decide (c = S754_nan)) as [->|Hc].
    + assert (fmax m S754_nan = m) as -> by (by destruct m).
      apply IH; [set_solver| |done].
      intros d [Hd|Hd]%elem_of_app; [by apply Hle|].
      apply list_elem_of_singleton in Hd as ->. apply flt_nan_r.
    + assert (fmax m c = if flt m c then c else m) as -> by (by destruct m, c).
      destruct (flt m c) eqn:E.
      * apply IH; [set_solver| |done].
        intros d [Hd|Hd]%elem_of_app.
        -- destruct (decide (d = S754_nan)) as [->|Hdn]; [apply flt_nan_r|].
           eapply flt_between; [exact E|by apply Hle|done].
        -- apply list_elem_of_singleton in Hd as ->. apply Hself.
      * apply IH; [set_solver| |done].
        intros d [Hd|Hd]%elem_of_app; [by apply Hle|].
        by apply list_elem_of_singleton in Hd as ->.
Qed.

(** * Decimal text *)

(** The double nearest to [n / d], for positive [n] and [d], ties to even: the
    quotient is taken with at least 64 bits, the last of them sticky. *)
Definition of_ratio (n d : Z) : f64 :=
  let s := Z.max 0 (66 + Z.log2 d - Z.log2 n) in
  let q := (n * 2 ^ s) / d in
  let sticky := if (n * 2 ^ s) mod d =? 0 then 0 else 1 in
  binary_normalize prec emax (2 * q + sticky) (- s - 1) false.

(** The exact value of a positive finite double as a quotient. *)
Definition ratio (m : positive) (e : Z) : Z * Z :=
  if 0 <=? e then (Zpos m * 2 ^ e, 1) else (Zpos m, 2 ^ (- e)).

(** [10 ^ z] as a quotient. *)
Definition pow10 (z : Z) : Z * Z := if 0 <=? z then (10 ^ z, 1) else (1, 10 ^ (- z)).

(** The [k] with [10 ^ (k - 1) <= n / d < 10 ^ k], searched from an estimate. *)
Definition decimal_exponent (n d : Z) : Z :=
  let k0 := (Z.log2 n - Z.log2 d) * 30103 / 100000 in
  let above k := let '(a, b) := pow10 k in n * b <? a * d in
  default (k0 + 3) (List.find above [k0 - 1; k0; k0 + 1; k0 + 2]).

(** The number written with [digits] and the point at position [k]. *)
Definition place_point (digits : string) (k : Z) : string :=
  let n := Z.of_nat (String.length digits) in
  if k <=? 0 then ("0." +:+ repeat_char zero_digit (Z.to_nat (- k)) +:+ digits)%string
  else if n <=? k then (digits +:+ repeat_char zero_digit (Z.to_nat (k - n)))%string
  else (String.substring 0 (Z.to_nat k) digits +:+ "."
        +:+ String.substring (Z.to_nat k) (Z.to_nat (n - k)) digits)%string.

(** The decimal numbers of [len] digits next to [n / d] that read back as
    [x], the nearer one first. *)
Definition candidate (x : f64) (n d k len : Z) : option Z :=
  let '(a, b) := pow10 (len - k) in
  let lo := (n * a) / (d * b) in
  let reads c := let '(a', b') := pow10 (k - len) in
                 bool_decide (of_ratio (c * a') b' = x) in
  let near := if 2 * ((n * a) mod (d * b)) <? d * b then [lo; lo + 1] else [lo + 1; lo] in
  List.find reads near.

Fixpoint shortest (x : f64) (n d k : Z) (len : Z) (fuel : nat) : option (Z * Z) :=
  match fuel with
  | O => None
  | S fuel =>
    match candidate x n d k len with
    | Some c => Some (c, len)
    | None => shortest x n d k (len + 1) fuel
    end
  end.

(** [{}] of an [f64]: the shortest decimal number that reads back as it. *)
Definition display_f64 (x : f64) : string :=
  match x with
  | S754_nan => "NaN"
  | S754_infinity s => if s then "-inf" else "inf"
  | S754_zero s => if s then "-0" else "0"
  | S754_finite s m e =>
    let '(n, d) := ratio m e in
    let k := decimal_exponent n d in
    let '(c, _) := default (0, 0) (shortest (S754_finite false m e) n d k 1 17) in
    ((if s then "-" else "") +:+ place_point (display_int c) k)%string
  end.

Example display_tenth_sum : display_f64 (fmul (lit 1 10) (of_int 3)) = "0.30000000000000004"%string.
Proof. by vm_compute. Qed.

Example display_large : display_f64 (of_int (10 ^ 21)) = "1000000000000000000000"%string.
Proof. by vm_compute. Qed.
