(* ===== verification/Text.v ===== *)
(** Text as bytes: which bytes are UTF-8, for the files and the subprocesses
    that the program reads as strings. *)

From S2P Require Import Prelude.

Module Utf8.

(** A byte as a number, and whether it continues a character. *)
Definition num (b : Byte.byte) : Z := Z.of_N (Byte.to_N b).

Definition between (lo hi : Z) (b : Byte.byte) : bool := (lo <=? num b) && (num b <=? hi).

Definition is_cont (b : Byte.byte) : bool := between 128 191 b.

(** The bytes that may follow the first byte [b] of a character of [n] bytes. *)
Definition second_ok (b c : Byte.byte) : bool :=
  if num b =? 224 then between 160 191 c
  else if num b =? 237 then between 128 159 c
  else if num b =? 240 then between 144 191 c
  else if num b =? 244 then between 128 143 c
  else is_cont c.

(** The length of the character that [b] begins. *)
Definition width (b : Byte.byte) : nat :=
  if between 0 127 b then 1
  else if between 194 223 b then 2
  else if between 224 239 b then 3
  else if between 240 244 b then 4
  else 0.

(** The longest prefix of [l] that begins a character: its length, and
    whether it is a whole character. *)
Definition chunk (b : Byte.byte) (l : list Byte.byte) : nat * bool :=
  match width b, l with
  | 0%nat, _ => (1%nat, false)
  | 1%nat, _ => (1%nat, true)
  | n, c1 :: l =>
    if negb (second_ok b c1) then (1%nat, false)
    else if bool_decide (n = 2%nat) then (2%nat, true)
    else match l with
         | c2 :: l =>
           if negb (is_cont c2) then (2%nat, false)
           else if bool_decide (n = 3%nat) then (3%nat, true)
           else match l with
                | c3 :: _ => if is_cont c3 then (4%nat, true) else (3%nat, false)
                | [] => (3%nat, false)
                end
         | [] => (2%nat, false)
         end
  | _, [] => (1%nat, false)
  end.

(** The replacement character U+FFFD. *)
Definition replacement : list Byte.byte := [Byte.xef; Byte.xbf; Byte.xbd].

Fixpoint lossy_fuel (fuel : nat) (l : list Byte.byte) : list Byte.byte :=
  match fuel, l with
  | S fuel, b :: rest =>
    let '(n, whole) := chunk b rest in
    (if whole then take n l else replacement) ++ lossy_fuel fuel (drop n l)
  | _, _ => []
  end.

(** [String::from_utf8_lossy]: every step takes at least one byte, so the
    length of the input is enough fuel. *)
Definition from_utf8_lossy (l : list Byte.byte) : list Byte.byte := lossy_fuel (length l) l.

(** [std::str::from_utf8]: every character is whole. *)
Fixpoint valid_fuel (fuel : nat) (l : list Byte.byte) : bool :=
  match l, fuel with
  | [], _ => true
  | b :: rest, S fuel =>
    let '(n, whole) := chunk b rest in whole && valid_fuel fuel (drop n l)
  | _ :: _, O => false
  end.

Definition valid (l : list Byte.byte) : bool := valid_fuel (length l) l.

End Utf8.

(** Whether the bytes of a file are text. *)
Definition valid_string (s : string) : bool := Utf8.valid (String.list_byte_of_string s).


(** * Text that is UTF-8 passes unchanged *)

(** The code points of Unicode that text can contain, and their encoding. *)
Definition scalar_value (c : Z) : Prop := 0 <= c < 55296 \/ 57344 <= c < 1114112.

Definition utf8_encode (c : Z) : list Z :=
  if c <? 128 then [c]
  else if c <? 2048 then [192 + c / 64; 128 + c mod 64]
  else if c <? 65536 then [224 + c / 4096; 128 + (c / 64) mod 64; 128 + c mod 64]
  else [240 + c / 262144; 128 + (c / 4096) mod 64; 128 + (c / 64) mod 64; 128 + c mod 64].

Definition is_text (l : list Byte.byte) : Prop :=
  exists cs, Forall scalar_value cs /\ Utf8.num <$> l = mjoin (utf8_encode <$> cs).

(** The digits of [c] in base 64. *)
Lemma base64 c :
  exists q1 q2 q3 r0 r1 r2,
    c = 64 * q1 + r0 /\ q1 = 64 * q2 + r1 /\ q2 = 64 * q3 + r2
    /\ 0 <= r0 < 64 /\ 0 <= r1 < 64 /\ 0 <= r2 < 64
    /\ c / 64 = q1 /\ c mod 64 = r0 /\ c / 4096 = q2 /\ (c / 64) mod 64 = r1
    /\ c / 262144 = q3 /\ (c / 4096) mod 64 = r2.
Proof.
  exists (c / 64), (c / 64 / 64), (c / 64 / 64 / 64), (c mod 64), (c / 64 mod 64),
    (c / 64 / 64 mod 64).
  assert (c / 4096 = c / 64 / 64) as -> by (by rewrite Z.div_div).
  assert (c / 262144 = c / 64 / 64 / 64) as -> by (by rewrite !Z.div_div).
  split_and!; try done; first [apply Z.div_mod; lia | apply Z.mod_pos_bound; lia].
Qed.

Lemma chunk_encode c b l rest :
  scalar_value c -> Utf8.num <$> (b :: l) = utf8_encode c ->
  Utf8.chunk b (l ++ rest) = (length (b :: l), true).
Proof.
  unfold scalar_value, utf8_encode. intros Hc Henc.
  destruct (base64 c) as (q1 & q2 & q3 & r0 & r1 & r2 & E1 & E2 & E3 & B0 & B1 & B2
    & D1 & D2 & D3 & D4 & D5 & D6).
  rewrite D4, D6, D2, D5, D3, D1 in Henc. clear D1 D2 D3 D4 D5 D6.
  unfold Utf8.chunk, Utf8.width, Utf8.second_ok, Utf8.is_cont, Utf8.between.
  destruct (c <? 128) eqn:H1; [|destruct (c <? 2048) eqn:H2;
    [|destruct (c <? 65536) eqn:H3]]; split_bools; rewrite fmap_cons in Henc.
  - destruct l; [|done]. injection Henc as Hb. rewrite !(proj2 (Z.leb_le _ _)) by lia. done.
  - destruct l as [|c1 [|]]; try done. injection Henc as Hb Hc1. simpl app.
    repeat (case_goal; split_bools; try lia); done.
  - destruct l as [|c1 [|c2 [|]]]; try done. injection Henc as Hb Hc1 Hc2. simpl app.
    repeat (case_goal; split_bools; try lia); done.
  - destruct l as [|c1 [|c2 [|c3 [|]]]]; try done. injection Henc as Hb Hc1 Hc2 Hc3. simpl app.
    repeat (case_goal; split_bools; try lia); done.
Qed.

Lemma utf8_encode_length c : (1 <= length (utf8_encode c))%nat.
Proof. unfold utf8_encode. repeat case_goal; simpl; lia. Qed.

(** The bytes of the first character, and the rest. *)
Lemma text_cons c cs l :
  Utf8.num <$> l = mjoin (utf8_encode <$> (c :: cs)) ->
  exists b l1 l2, l = b :: l1 ++ l2 /\ Utf8.num <$> (b :: l1) = utf8_encode c
    /\ Utf8.num <$> l2 = mjoin (utf8_encode <$> cs).
Proof.
  rewrite fmap_cons. cbn [mjoin list_join].
  intros (l1 & l2 & Hl1 & Hl2 & ->)%fmap_app_inv. destruct l1 as [|b l1]; [|by exists b, l1, l2].
  pose proof (utf8_encode_length c) as Hlen. rewrite Hl1 in Hlen. simpl in Hlen. lia.
Qed.

Lemma lossy_text cs : forall fuel l,
  Forall scalar_value cs -> Utf8.num <$> l = mjoin (utf8_encode <$> cs) ->
  (length l <= fuel)%nat -> Utf8.lossy_fuel fuel l = l.
Proof.
  induction cs as [|c cs IH]; intros fuel l Hcs Hl Hfuel.
  - apply fmap_nil_inv in Hl as ->. by destruct fuel.
  - apply Forall_cons in Hcs as [Hc Hcs]. destruct (text_cons c cs l Hl) as (b & l1 & l2 & -> & Hl1 & Hl2).
    destruct fuel as [|fuel]; [simpl in Hfuel; lia|]. cbn [app Utf8.lossy_fuel].
    rewrite (chunk_encode c b l1 l2 Hc Hl1). change (b :: l1 ++ l2) with ((b :: l1) ++ l2).
    rewrite take_app_length, drop_app_length. f_equal. apply (IH fuel l2 Hcs Hl2).
    simpl in Hfuel. rewrite length_app in Hfuel. lia.
Qed.

Lemma valid_text cs : forall fuel l,
  Forall scalar_value cs -> Utf8.num <$> l = mjoin (utf8_encode <$> cs) ->
  (length l <= fuel)%nat -> Utf8.valid_fuel fuel l = true.
Proof.
  induction cs as [|c cs IH]; intros fuel l Hcs Hl Hfuel.
  - apply fmap_nil_inv in Hl as ->. by destruct fuel.
  - apply Forall_cons in Hcs as [Hc Hcs]. destruct (text_cons c cs l Hl) as (b & l1 & l2 & -> & Hl1 & Hl2).
    destruct fuel as [|fuel]; [simpl in Hfuel; lia|]. cbn [app Utf8.valid_fuel].
    rewrite (chunk_encode c b l1 l2 Hc Hl1). change (b :: l1 ++ l2) with ((b :: l1) ++ l2).
    rewrite drop_app_length. apply (IH fuel l2 Hcs Hl2). simpl in Hfuel.
    rewrite length_app in Hfuel. lia.
Qed.

(** Encoded code points are valid. *)
Lemma is_text_valid l : is_text l -> Utf8.valid l = true.
Proof. intros (cs & Hcs & Hl). by apply (valid_text cs). Qed.

(** Text is passed unchanged. *)
Lemma from_utf8_lossy_text l : is_text l -> Utf8.from_utf8_lossy l = l.
Proof. intros (cs & Hcs & Hl). by apply (lossy_text cs). Qed.

(** A file that ends inside a character is no text. *)
Example valid_cut :
  Utf8.valid [Byte.x61; Byte.xc3; Byte.xa9] = true /\ Utf8.valid [Byte.x61; Byte.xc3] = false.
Proof. done. Qed.
