(* ===== verification/Graph.v ===== *)
(** The task graph: [DagGraph] of src/src/dag/graph.rs.

    Nodes are kept in a hash map keyed by their id. The file models every
    operation of the type and proves that the depth-first cycle check is exact
    ([has_cycle_iff]), that it terminates, and that adding and removing nodes
    keep the graph well formed and acyclic. Topological sorting, which is a
    longer story, is in TopoSort.v. *)

From S2P Require Import Prelude F64.

(** * Data *)

Inductive DagError :=
| CycleDetected (id : string)
| NodeNotFound (id : string)
| HasDependents (id : string)
| DuplicateNode (id : string)
| NodeInProgress (id : string).

Inductive NodeStatus := Pending | InProgress | Done | Failed | Blocked.

Inductive AgentLevel := Session | Agent | SubAgent.

#[export] Instance NodeStatus_eq_dec : EqDecision NodeStatus.
Proof. solve_decision. Defined.

Record NodeResult := mkNodeResult {
  r_success : bool;
  r_output : string;
  r_error : option string;
  r_duration_secs : f64
}.

Record Node := mkNode {
  n_id : string;
  n_title : string;
  n_description : string;
  n_depends_on : list string;
  n_status : NodeStatus;
  n_agent_level : AgentLevel;
  n_output_files : list string;
  n_retry_count : Z;
  n_result : option NodeResult
}.

(** Field assignment through [&mut Node]. *)
Definition set_status (s : NodeStatus) (n : Node) : Node :=
  mkNode (n_id n) (n_title n) (n_description n) (n_depends_on n) s
    (n_agent_level n) (n_output_files n) (n_retry_count n) (n_result n).

Definition set_depends_on (ds : list string) (n : Node) : Node :=
  mkNode (n_id n) (n_title n) (n_description n) ds (n_status n)
    (n_agent_level n) (n_output_files n) (n_retry_count n) (n_result n).

Definition set_result (r : option NodeResult) (n : Node) : Node :=
  mkNode (n_id n) (n_title n) (n_description n) (n_depends_on n) (n_status n)
    (n_agent_level n) (n_output_files n) (n_retry_count n) r.

Record DagGraph := mkDag { nodes : gmap string Node }.

Module DagGraph.

Definition new : DagGraph := mkDag ∅.

(** ** Cycle detection *)

(** The [visited] and [stack] sets that the search mutates. *)
Definition dfs_state : Type := gset string * gset string.

(** The loop of [dfs_cycle] over the dependencies of one node; [rec] is the
    recursive call. [None] stands for running out of fuel. *)
Fixpoint dfs_deps (g : DagGraph)
    (rec : string -> dfs_state -> option (bool * dfs_state))
    (deps : list string) (st : dfs_state) : option (bool * dfs_state) :=
  match deps with
  | [] => Some (false, st)
  | dep_id :: rest =>
    if contains_key (nodes g) dep_id then
      if negb (bool_decide (dep_id ∈ st.1)) then
        match rec dep_id st with
        | Some (true, st') => Some (true, st')
        | Some (false, st') => dfs_deps g rec rest st'
        | None => None
        end
      else if bool_decide (dep_id ∈ st.2) then Some (true, st)
      else dfs_deps g rec rest st
    else dfs_deps g rec rest st
  end.

Fixpoint dfs_cycle (fuel : nat) (g : DagGraph) (id : string) (st : dfs_state)
    : option (bool * dfs_state) :=
  match fuel with
  | O => None
  | S fuel =>
    let st1 := ({[id]} ∪ st.1, {[id]} ∪ st.2) in
    match nodes g !! id with
    | Some node =>
      match dfs_deps g (dfs_cycle fuel g) (n_depends_on node) st1 with
      | Some (false, st2) => Some (false, (st2.1, st2.2 ∖ {[id]}))
      | other => other
      end
    | None => Some (false, (st1.1, st1.2 ∖ {[id]}))
    end
  end.

(** The loop of [has_cycle] over the keys of the map. *)
Fixpoint has_cycle_from (fuel : nat) (g : DagGraph) (keys : list string)
    (st : dfs_state) : option bool :=
  match keys with
  | [] => Some false
  | id :: rest =>
    if negb (bool_decide (id ∈ st.1)) then
      match dfs_cycle fuel g id st with
      | Some (true, _) => Some true
      | Some (false, st') => has_cycle_from fuel g rest st'
      | None => None
      end
    else has_cycle_from fuel g rest st
  end.

Section WithOrder.
Context `{HashOrder}.

(** Every nested call marks a new node as visited, so the recursion is never
    deeper than the number of nodes ([has_cycle_total]). *)
Definition has_cycle_opt (g : DagGraph) : option bool :=
  has_cycle_from (S (size (nodes g))) g (hm_keys (nodes g)) (∅, ∅).

Definition has_cycle (g : DagGraph) : bool := default false (has_cycle_opt g).

(** ** Operations *)

Definition add_node (g : DagGraph) (node : Node) : result DagError unit * DagGraph :=
  if contains_key (nodes g) (n_id node) then (Err (DuplicateNode (n_id node)), g)
  else
    let id := n_id node in
    let g1 := mkDag (<[id := node]> (nodes g)) in
    if has_cycle g1 then (Err (CycleDetected id), mkDag (delete id (nodes g1)))
    else (Ok tt, g1).

Definition has_dependents (g : DagGraph) (id : string) : bool :=
  existsb (fun '(other_id, other_node) =>
    negb (bool_decide (other_id = id))
    && bool_decide (id ∈ n_depends_on other_node)) (hm_iter (nodes g)).

Definition remove_node (g : DagGraph) (id : string)
    : outcome (result DagError Node * DagGraph) :=
  if negb (contains_key (nodes g) id) then Ret (Err (NodeNotFound id), g)
  else if has_dependents g id then Ret (Err (HasDependents id), g)
  else
    n ← unwrap (nodes g !! id);
    Ret (Ok n, mkDag (delete id (nodes g))).

Definition get_node (g : DagGraph) (id : string) : option Node := nodes g !! id.

(** [get_node_mut] followed by an assignment through the reference. *)
Definition get_node_mut (g : DagGraph) (id : string) (f : Node -> Node) : DagGraph :=
  mkDag (alter f id (nodes g)).

Definition dep_done (g : DagGraph) (dep_id : string) : bool :=
  match nodes g !! dep_id with
  | Some dep => bool_decide (n_status dep = Done)
  | None => false
  end.

Definition is_ready (g : DagGraph) (n : Node) : bool :=
  bool_decide (n_status n = Pending) && forallb (dep_done g) (n_depends_on n).

Definition ready_nodes (g : DagGraph) : list Node :=
  List.filter (is_ready g) (hm_values (nodes g)).

Definition is_complete (g : DagGraph) : bool :=
  negb (bool_decide (nodes g = ∅))
  && forallb (fun n => bool_decide (n_status n = Done)) (hm_values (nodes g)).

Definition has_failed (g : DagGraph) : bool :=
  existsb (fun n => bool_decide (n_status n = Failed)) (hm_values (nodes g)).

Definition node_count (g : DagGraph) : nat := size (nodes g).

Definition done_count (g : DagGraph) : nat :=
  length (List.filter (fun n => bool_decide (n_status n = Done)) (hm_values (nodes g))).

End WithOrder.
End DagGraph.

(** * Well-formedness *)

(** Every node is stored under its own id. *)
Definition wf_keys (g : DagGraph) : Prop :=
  forall k n, nodes g !! k = Some n -> n_id n = k.

(** [edge g x y]: [x] depends on [y], and both are in the graph. *)
Definition edge (g : DagGraph) (x y : string) : Prop :=
  exists n, nodes g !! x = Some n /\ y ∈ n_depends_on n /\ is_Some (nodes g !! y).

Definition cyclic (g : DagGraph) : Prop := exists x, tc (edge g) x x.

Definition acyclic (g : DagGraph) : Prop := forall x, ~ tc (edge g) x x.

(** Every dependency is a node of the graph. *)
Definition closed (g : DagGraph) : Prop :=
  forall k n d, nodes g !! k = Some n -> d ∈ n_depends_on n -> is_Some (nodes g !! d).

(** * The cycle check is exact *)

Section Dfs.
Context (g : DagGraph).

(** Nodes that are not on any infinite dependency chain. *)
Abbreviation safe := (Acc (flip (edge g))).

(** Visited nodes that left the stack are safe. *)
Definition black (st : DagGraph.dfs_state) : Prop :=
  forall x, x ∈ st.1 -> x ∉ st.2 -> safe x.

(** Nodes not visited yet: the measure of the recursion. *)
Definition unvisited (st : DagGraph.dfs_state) : nat := size (dom (nodes g) ∖ st.1).

Definition dfs_post (st : DagGraph.dfs_state) (found : list string)
    (r : option (bool * DagGraph.dfs_state)) : Prop :=
  match r with
  | None => False
  | Some (true, _) => cyclic g
  | Some (false, st') =>
    st'.2 = st.2 /\ st.1 ⊆ st'.1 /\ black st'
    /\ forall d, d ∈ found -> is_Some (nodes g !! d) -> d ∈ st'.1 /\ safe d
  end.

Lemma unvisited_mono (st st' : DagGraph.dfs_state) :
  st.1 ⊆ st'.1 -> (unvisited st' <= unvisited st)%nat.
Proof. intros. unfold unvisited. apply subseteq_size. set_solver. Qed.

Lemma unvisited_enter st id :
  is_Some (nodes g !! id) -> id ∉ st.1 ->
  (unvisited ({[id]} ∪ st.1, {[id]} ∪ st.2) < unvisited st)%nat.
Proof.
  intros Hid Hv. unfold unvisited. apply subset_size.
  apply elem_of_dom in Hid. simpl. set_solver.
Qed.

(** A cycle can be entered at the next node. *)
Lemma tc_self_step x :
  tc (edge g) x x -> exists y, edge g x y /\ tc (edge g) y y.
Proof.
  intros Hc. inversion Hc as [y Hxx|y z Hxz Hzx]; subst.
  - exists x. split; [done|]. by apply tc_once.
  - exists z. split; [done|]. by eapply tc_r.
Qed.

Lemma safe_not_cyclic x : safe x -> ~ tc (edge g) x x.
Proof.
  induction 1 as [x _ IH]. intros (y & Hxy & Hyy)%tc_self_step. by eapply IH.
Qed.

Lemma dfs_deps_spec fuel id :
  (forall d st, is_Some (nodes g !! d) -> d ∉ st.1 -> st.2 ⊆ st.1 -> black st ->
     (unvisited st <= fuel)%nat -> (forall x, x ∈ st.2 -> tc (edge g) x d) ->
     dfs_post st [d] (DagGraph.dfs_cycle fuel g d st)) ->
  forall deps st,
    (forall d, d ∈ deps -> is_Some (nodes g !! d) -> edge g id d) ->
    st.2 ⊆ st.1 -> black st -> (unvisited st <= fuel)%nat ->
    (forall x, x ∈ st.2 -> rtc (edge g) x id) ->
    dfs_post st deps (DagGraph.dfs_deps g (DagGraph.dfs_cycle fuel g) deps st).
Proof.
  intros Hrec. induction deps as [|d deps IH]; intros st Hedge Hsub Hbl Hfuel Hpath.
  { simpl. split_and!; [done..|]. intros d Hd. by apply elem_of_nil in Hd. }
  assert (Hrest : forall e, e ∈ deps -> is_Some (nodes g !! e) -> edge g id e)
    by (intros; apply Hedge; [by apply list_elem_of_further|done]).
  cbn [DagGraph.dfs_deps].
  destruct (contains_key (nodes g) d) eqn:Hk;
    [apply contains_key_true in Hk | apply contains_key_false in Hk].
  2:{ specialize (IH st Hrest Hsub Hbl Hfuel Hpath).
      destruct (DagGraph.dfs_deps _ _ _ _) as [[[] st']|]; [done| |done].
      destruct IH as (H1 & H2 & H3 & H4). split_and!; [done..|].
      intros e [->|He]%elem_of_cons Hs; [|by apply H4].
      rewrite Hk in Hs. by apply is_Some_None in Hs. }
  assert (He : edge g id d) by (apply Hedge; [apply list_elem_of_here|done]).
  destruct (decide (d ∈ st.1)) as [Hv|Hv].
  - rewrite bool_decide_true by done. cbn [negb].
    destruct (decide (d ∈ st.2)) as [Hst|Hst].
    + rewrite bool_decide_true by done. simpl. exists d.
      eapply tc_rtc_l; [by apply Hpath|]. by apply tc_once.
    + rewrite bool_decide_false by done.
      specialize (IH st Hrest Hsub Hbl Hfuel Hpath).
      destruct (DagGraph.dfs_deps _ _ _ _) as [[[] st']|]; [done| |done].
      destruct IH as (H1 & H2 & H3 & H4). split_and!; [done..|].
      intros e [->|Hin]%elem_of_cons Hs; [|by apply H4].
      split; [by apply H2|by apply Hbl].
  - rewrite bool_decide_false by done. cbn [negb].
    pose proof (Hrec d st Hk Hv Hsub Hbl Hfuel) as Hd.
    destruct (DagGraph.dfs_cycle fuel g d st) as [[[] st1]|]; simpl in *;
      [apply Hd; intros; eapply tc_rtc_l; eauto using tc_once | |
       apply Hd; intros; eapply tc_rtc_l; eauto using tc_once].
    destruct Hd as (H1 & H2 & H3 & H4).
    { intros. eapply tc_rtc_l; eauto using tc_once. }
    specialize (IH st1 Hrest). rewrite H1 in IH.
    pose proof (unvisited_mono st st1 H2) as Hle.
    specialize (IH ltac:(set_solver) H3 ltac:(lia) Hpath).
    destruct (DagGraph.dfs_deps _ _ _ _) as [[[] st']|]; [done| |done].
    destruct IH as (J1 & J2 & J3 & J4).
    split_and!; [congruence | set_solver | done |].
    intros e [->|Hin]%elem_of_cons Hs; [|by apply J4].
    destruct (H4 d (list_elem_of_here _ _) Hk) as [? ?]. split; [set_solver|done].
Qed.

Lemma dfs_cycle_spec fuel : forall id st,
  is_Some (nodes g !! id) -> id ∉ st.1 -> st.2 ⊆ st.1 -> black st ->
  (unvisited st <= fuel)%nat -> (forall x, x ∈ st.2 -> tc (edge g) x id) ->
  dfs_post st [id] (DagGraph.dfs_cycle fuel g id st).
Proof.
  induction fuel as [|fuel IH]; intros id st Hid Hv Hsub Hbl Hfuel Hpath.
  { exfalso. pose proof (unvisited_enter st id Hid Hv). lia. }
  cbn [DagGraph.dfs_cycle]. destruct Hid as [node Hnode]. rewrite Hnode.
  set (st1 := ({[id]} ∪ st.1, {[id]} ∪ st.2)).
  assert (Hlt : (unvisited st1 < unvisited st)%nat)
    by (apply unvisited_enter; [by eexists|done]).
  assert (Hbl1 : black st1) by (intros x; unfold st1; simpl; intros; apply Hbl; set_solver).
  pose proof (dfs_deps_spec fuel id IH (n_depends_on node) st1) as Hloop.
  specialize (Hloop ltac:(intros d Hd Hs; by exists node)
                ltac:(unfold st1; set_solver) Hbl1 ltac:(lia)).
  assert (Hgray : forall x, x ∈ st1.2 -> rtc (edge g) x id).
  { intros x. unfold st1. simpl. rewrite elem_of_union, elem_of_singleton.
    intros [->|Hx]; [done|]. by apply tc_rtc, Hpath. }
  specialize (Hloop Hgray).
  destruct (DagGraph.dfs_deps _ _ _ _) as [[[] st2]|]; [done| |done].
  destruct Hloop as (H1 & H2 & H3 & H4). simpl in *.
  assert (Hsafe : safe id).
  { constructor. intros d (n & Hn & Hin & Hs).
    rewrite Hnode in Hn. injection Hn as <-. by apply H4. }
  split_and!.
  - rewrite H1. set_solver.
  - set_solver.
  - intros x Hx Hnx. simpl in *. destruct (decide (x = id)) as [->|]; [done|].
    apply H3; set_solver.
  - intros d ->%list_elem_of_singleton _. split; [set_solver|done].
Qed.

Lemma has_cycle_from_spec fuel keys : forall st,
  (forall k, k ∈ keys -> is_Some (nodes g !! k)) ->
  st.2 = ∅ -> black st -> (unvisited st <= fuel)%nat ->
  match DagGraph.has_cycle_from fuel g keys st with
  | None => False
  | Some true => cyclic g
  | Some false => forall k, k ∈ keys -> safe k
  end.
Proof.
  induction keys as [|k keys IH]; intros st Hks Hst Hbl Hfuel; simpl.
  { intros k Hk. by apply elem_of_nil in Hk. }
  assert (Hks' : forall j, j ∈ keys -> is_Some (nodes g !! j))
    by (intros; apply Hks; by apply list_elem_of_further).
  pose proof (Hks k (list_elem_of_here _ _)) as Hk.
  destruct (decide (k ∈ st.1)) as [Hv|Hv].
  - rewrite bool_decide_true by done. simpl.
    specialize (IH st Hks' Hst Hbl Hfuel).
    destruct (DagGraph.has_cycle_from _ _ _ _) as [[]|]; [done| |done].
    intros j [->|Hj]%elem_of_cons; [|by apply IH].
    apply Hbl; [done|]. rewrite Hst. set_solver.
  - rewrite bool_decide_false by done. simpl.
    pose proof (dfs_cycle_spec fuel k st Hk Hv ltac:(set_solver) Hbl Hfuel
                  ltac:(set_solver)) as Hd.
    destruct (DagGraph.dfs_cycle _ _ _ _) as [[[] st']|]; [done| |done].
    destruct Hd as (H1 & H2 & H3 & H4).
    pose proof (unvisited_mono st st' H2) as Hle.
    specialize (IH st' Hks' ltac:(congruence) H3 ltac:(lia)).
    destruct (DagGraph.has_cycle_from _ _ _ _) as [[]|]; [done| |done].
    intros j [->|Hj]%elem_of_cons; [|by apply IH].
    by apply H4; [apply list_elem_of_here|].
Qed.

Lemma safe_outside x : ~ is_Some (nodes g !! x) -> safe x.
Proof.
  intros Hx. constructor. intros y (n & Hn & _). exfalso. apply Hx. by eexists.
Qed.

Context `{HashOrder}.

Lemma has_cycle_opt_spec :
  match DagGraph.has_cycle_opt g with
  | None => False
  | Some true => cyclic g
  | Some false => forall x, safe x
  end.
Proof.
  unfold DagGraph.has_cycle_opt.
  pose proof (has_cycle_from_spec (S (size (nodes g))) (hm_keys (nodes g)) (∅, ∅)) as Hs.
  specialize (Hs ltac:(intros k Hk; by apply elem_of_hm_keys in Hk) eq_refl
               ltac:(intros x Hx; simpl in Hx; set_solver)).
  assert (unvisited (∅, ∅) <= S (size (nodes g)))%nat as Hle.
  { unfold unvisited. simpl. rewrite difference_empty_L, size_dom. lia. }
  specialize (Hs Hle).
  destruct (DagGraph.has_cycle_from _ _ _ _) as [[]|]; [done| |done].
  intros x. destruct (nodes g !! x) eqn:Hx.
  - apply Hs, elem_of_hm_keys. by eexists.
  - apply safe_outside. rewrite Hx. by intros [? ?].
Qed.

Lemma has_cycle_opt_total : is_Some (DagGraph.has_cycle_opt g).
Proof.
  pose proof has_cycle_opt_spec as Hs.
  destruct (DagGraph.has_cycle_opt g) as [b|]; [by eexists|done].
Qed.

Lemma has_cycle_true : DagGraph.has_cycle g = true <-> cyclic g.
Proof.
  pose proof has_cycle_opt_spec as Hs. unfold DagGraph.has_cycle.
  destruct (DagGraph.has_cycle_opt g) as [[]|]; [done| |done].
  split; [done|]. intros [x Hx]. exfalso.
  by apply (safe_not_cyclic x (Hs x)).
Qed.

Lemma has_cycle_false : DagGraph.has_cycle g = false <-> acyclic g.
Proof.
  rewrite <- not_true_iff_false, has_cycle_true. unfold cyclic, acyclic.
  naive_solver.
Qed.

Lemma acyclic_wf : acyclic g -> forall x, safe x.
Proof.
  intros Ha%has_cycle_false. pose proof has_cycle_opt_spec as Hs.
  unfold DagGraph.has_cycle in Ha.
  by destruct (DagGraph.has_cycle_opt g) as [[]|].
Qed.

End Dfs.

(** * Graph lemmas *)

(** In an acyclic graph dependency chains are finite. *)
Lemma acyclic_safe g : acyclic g -> forall x, Acc (flip (edge g)) x.
Proof. intros Ha. by apply (@acyclic_wf g std_order). Qed.

Lemma edge_mono g1 g2 x y :
  nodes g1 !! x = nodes g2 !! x ->
  (is_Some (nodes g1 !! y) -> is_Some (nodes g2 !! y)) ->
  edge g1 x y -> edge g2 x y.
Proof. intros Hx Hy (n & Hn & Hin & Hs). exists n. rewrite <- Hx. auto. Qed.

Lemma acyclic_sub g1 g2 :
  (forall x y, edge g1 x y -> edge g2 x y) -> acyclic g2 -> acyclic g1.
Proof. intros Hsub Ha x Hx. apply (Ha x). by apply (tc_congruence (fun z => z) (edge g2) x x Hsub). Qed.

Lemma acyclic_delete g id : acyclic g -> acyclic (mkDag (delete id (nodes g))).
Proof.
  apply acyclic_sub. intros x y (n & Hn & Hin & Hs). simpl in *.
  apply lookup_delete_Some in Hn as [? Hn].
  exists n. split_and!; [done..|]. destruct Hs as [m Hm].
  apply lookup_delete_Some in Hm as [_ Hm]. by eexists.
Qed.

(** Two graphs with the same keys and the same dependency lists. *)
Definition same_shape (g1 g2 : DagGraph) : Prop :=
  forall k, n_depends_on <$> nodes g1 !! k = n_depends_on <$> nodes g2 !! k.

Lemma same_shape_some g1 g2 k :
  same_shape g1 g2 -> is_Some (nodes g1 !! k) <-> is_Some (nodes g2 !! k).
Proof.
  intros Hs. specialize (Hs k).
  destruct (nodes g1 !! k), (nodes g2 !! k); simpl in *; naive_solver.
Qed.

Lemma same_shape_edge g1 g2 x y : same_shape g1 g2 -> edge g1 x y -> edge g2 x y.
Proof.
  intros Hs (n & Hn & Hin & Hy). pose proof (Hs x) as Hx. rewrite Hn in Hx.
  destruct (nodes g2 !! x) as [m|] eqn:Hm; [|done]. simpl in Hx. injection Hx as Hx.
  exists m. split_and!; [done| by rewrite <- Hx |].
  by apply (same_shape_some g1 g2 y Hs).
Qed.

#[export] Instance same_shape_equiv : Equivalence same_shape.
Proof.
  split; [done | intros ? ? Hs ?; by rewrite Hs |].
  intros ? ? ? H1 H2 ?. by rewrite H1, H2.
Qed.

#[export] Instance acyclic_proper : Proper (same_shape ==> iff) acyclic.
Proof.
  intros g1 g2 Hs. split; apply acyclic_sub; intros x y;
    apply same_shape_edge; [by symmetry | done].
Qed.

(** Changing fields other than the dependencies keeps the shape. *)
Lemma same_shape_alter g id f :
  (forall n, n_depends_on (f n) = n_depends_on n) ->
  same_shape (DagGraph.get_node_mut g id f) g.
Proof.
  intros Hf k. unfold DagGraph.get_node_mut. simpl. rewrite lookup_alter.
  case_decide as Hk; [|done]. subst.
  destruct (nodes g !! k); simpl; [by rewrite Hf|done].
Qed.

Lemma get_node_mut_some g id f n :
  nodes g !! id = Some n -> DagGraph.get_node_mut g id f = mkDag (<[id := f n]> (nodes g)).
Proof.
  intros Hn. unfold DagGraph.get_node_mut. f_equal. apply map_eq. intros k.
  rewrite lookup_alter, lookup_insert. case_decide; [|done]. subst. by rewrite Hn.
Qed.

Lemma wf_keys_alter g id f :
  (forall n, n_id (f n) = n_id n) -> wf_keys g ->
  wf_keys (DagGraph.get_node_mut g id f).
Proof.
  intros Hf Hwf k n. unfold DagGraph.get_node_mut. simpl.
  intros Hl. apply lookup_alter_Some in Hl as [(-> & m & Hm & ->)|[_ Hl]];
    [rewrite Hf|]; by apply Hwf.
Qed.

Lemma wf_keys_insert g n :
  wf_keys g -> wf_keys (mkDag (<[n_id n := n]> (nodes g))).
Proof.
  intros Hwf k m Hl. simpl in Hl.
  apply lookup_insert_Some in Hl as [[<- <-]|[_ Hl]]; [done|by apply Hwf].
Qed.

Lemma wf_keys_delete g id : wf_keys g -> wf_keys (mkDag (delete id (nodes g))).
Proof.
  intros Hwf k m Hl. simpl in Hl. apply lookup_delete_Some in Hl as [_ Hl].
  by apply Hwf.
Qed.

Section Facts.
Context `{HashOrder}.

Lemma has_dependents_true g id :
  DagGraph.has_dependents g id = true
  <-> exists k n, nodes g !! k = Some n /\ k <> id /\ id ∈ n_depends_on n.
Proof.
  unfold DagGraph.has_dependents. rewrite existsb_exists. split.
  - intros [[k n] [Hin Hb]]. split_bools. apply list_elem_of_In in Hin.
    apply elem_of_hm_iter in Hin. by exists k, n.
  - intros (k & n & Hk & Hne & Hd). exists (k, n). split.
    + by apply list_elem_of_In, elem_of_hm_iter.
    + by rewrite bool_decide_false, bool_decide_true.
Qed.

Lemma dep_done_true g d :
  DagGraph.dep_done g d = true
  <-> exists n, nodes g !! d = Some n /\ n_status n = Done.
Proof.
  unfold DagGraph.dep_done. destruct (nodes g !! d); [|naive_solver].
  rewrite bool_decide_eq_true. naive_solver.
Qed.

Lemma is_ready_true g n :
  DagGraph.is_ready g n = true
  <-> n_status n = Pending
      /\ forall d, d ∈ n_depends_on n -> DagGraph.dep_done g d = true.
Proof.
  unfold DagGraph.is_ready.
  rewrite andb_true_iff, bool_decide_eq_true, forallb_forall.
  by setoid_rewrite list_elem_of_In.
Qed.

Lemma elem_of_ready_nodes g n :
  n ∈ DagGraph.ready_nodes g
  <-> (exists k, nodes g !! k = Some n) /\ DagGraph.is_ready g n = true.
Proof.
  unfold DagGraph.ready_nodes.
  rewrite list_elem_of_In, filter_In, <- list_elem_of_In, elem_of_hm_values. done.
Qed.

Lemma is_complete_true g :
  DagGraph.is_complete g = true
  <-> nodes g <> ∅ /\ forall k n, nodes g !! k = Some n -> n_status n = Done.
Proof.
  unfold DagGraph.is_complete.
  rewrite andb_true_iff, negb_true_iff, bool_decide_eq_false, forallb_forall.
  setoid_rewrite <- list_elem_of_In. setoid_rewrite elem_of_hm_values.
  setoid_rewrite bool_decide_eq_true. naive_solver.
Qed.

Lemma has_failed_true g :
  DagGraph.has_failed g = true
  <-> exists k n, nodes g !! k = Some n /\ n_status n = Failed.
Proof.
  unfold DagGraph.has_failed. rewrite existsb_exists.
  setoid_rewrite <- list_elem_of_In. setoid_rewrite elem_of_hm_values.
  setoid_rewrite bool_decide_eq_true. naive_solver.
Qed.

Lemma hm_values_ids g :
  wf_keys g -> n_id <$> hm_values (nodes g) = hm_keys (nodes g).
Proof.
  intros Hwf. unfold hm_values, hm_keys. rewrite <- list_fmap_compose.
  apply list_fmap_ext. intros i [k n] Hi. simpl.
  apply Hwf, elem_of_hm_iter. by eapply list_elem_of_lookup_2.
Qed.

Lemma NoDup_value_ids g : wf_keys g -> NoDup (n_id <$> hm_values (nodes g)).
Proof. intros Hwf. rewrite hm_values_ids by done. apply NoDup_hm_keys. Qed.

Lemma NoDup_ready_ids g :
  wf_keys g -> NoDup (n_id <$> DagGraph.ready_nodes g).
Proof. intros Hwf. by apply NoDup_filter_fmap, NoDup_value_ids. Qed.

End Facts.
#[export] Hint Resolve wf_keys_insert wf_keys_delete wf_keys_alter acyclic_delete : aros.

(** * Properties *)

(** The nodes built by the unit tests of the module. *)
Definition make_node (id : string) (deps : list string) : Node :=
  mkNode id ("Task " +:+ id)%string "" deps Pending Agent [] 0 None.

Section Properties.
Context `{HashOrder}.

(** C28. The depth-first cycle check terminates on every graph and is exact,
    whatever the iteration order of the hash map: it answers [true] exactly
    when some node depends on itself through nodes of the graph. Edges to ids
    that are not in the graph are ignored. *)
Theorem has_cycle_iff g :
  DagGraph.has_cycle_opt g = Some (DagGraph.has_cycle g)
  /\ (DagGraph.has_cycle g = true <-> cyclic g).
Proof.
  split; [|apply has_cycle_true].
  unfold DagGraph.has_cycle. destruct (has_cycle_opt_total g) as [b ->]. done.
Qed.

(** [add_node] stores a new node that closes no cycle and otherwise changes
    nothing. *)
Lemma add_node_cases g node :
  match DagGraph.add_node g node with
  | (Ok _, g') => nodes g !! n_id node = None
      /\ g' = mkDag (<[n_id node := node]> (nodes g)) /\ acyclic g'
  | (Err _, g') => g' = g
  end.
Proof.
  unfold DagGraph.add_node. destruct (contains_key _ _) eqn:Hk; [done|].
  apply contains_key_false in Hk. destruct (DagGraph.has_cycle _) eqn:Hc.
  - simpl. rewrite delete_insert_id by done. by destruct g.
  - by apply has_cycle_false in Hc.
Qed.

(** [add_node] on a well-formed acyclic graph: a duplicate id and a node
    that would close a cycle are refused with the matching error and leave the
    graph untouched; otherwise the node is stored under its id and the graph
    is still well formed and acyclic. *)
Theorem add_node_spec g node :
  wf_keys g -> acyclic g ->
  let g1 := mkDag (<[n_id node := node]> (nodes g)) in
  match DagGraph.add_node g node with
  | (Ok _, g') =>
      nodes g !! n_id node = None /\ g' = g1 /\ wf_keys g' /\ acyclic g'
  | (Err (DuplicateNode i), g') =>
      i = n_id node /\ is_Some (nodes g !! n_id node) /\ g' = g
  | (Err (CycleDetected i), g') =>
      i = n_id node /\ nodes g !! n_id node = None /\ cyclic g1 /\ g' = g
  | (Err _, _) => False
  end.
Proof.
  intros Hwf Hac g1. unfold DagGraph.add_node.
  destruct (contains_key (nodes g) (n_id node)) eqn:Hk.
  { apply contains_key_true in Hk. done. }
  apply contains_key_false in Hk. fold g1.
  destruct (DagGraph.has_cycle g1) eqn:Hc.
  - apply has_cycle_true in Hc. split_and!; [done..|].
    simpl. rewrite delete_insert_id by done. by destruct g.
  - apply has_cycle_false in Hc. split_and!; [done..| |done].
    by apply wf_keys_insert.
Qed.

(** [remove_node] never panics. It removes a node that exists and that no
    other node depends on, and otherwise reports the right error and changes
    nothing; the result is well formed and acyclic, and a graph without
    dangling dependencies stays so. *)
Theorem remove_node_spec g id :
  wf_keys g -> acyclic g ->
  exists r g', DagGraph.remove_node g id = Ret (r, g')
  /\ wf_keys g' /\ acyclic g' /\ (closed g -> closed g')
  /\ match r with
     | Ok n => nodes g !! id = Some n /\ g' = mkDag (delete id (nodes g))
         /\ forall k m, nodes g !! k = Some m -> id ∈ n_depends_on m -> k = id
     | Err (NodeNotFound i) => i = id /\ nodes g !! id = None /\ g' = g
     | Err (HasDependents i) => i = id /\ g' = g
         /\ exists k m, nodes g !! k = Some m /\ k <> id /\ id ∈ n_depends_on m
     | Err _ => False
     end.
Proof.
  intros Hwf Hac. unfold DagGraph.remove_node.
  destruct (contains_key (nodes g) id) eqn:Hk; simpl.
  2:{ apply contains_key_false in Hk. eexists _, _. split; [done|]. done. }
  apply contains_key_true in Hk as [n Hn].
  destruct (DagGraph.has_dependents g id) eqn:Hd.
  { apply has_dependents_true in Hd. eexists _, _. by split. }
  assert (Hnone : forall k m, nodes g !! k = Some m -> id ∈ n_depends_on m -> k = id).
  { intros k m Hm Hin. destruct (decide (k = id)) as [|Hne]; [done|]. exfalso.
    apply not_true_iff_false in Hd. apply Hd, has_dependents_true. by exists k, m. }
  rewrite Hn. simpl. eexists _, _. split; [done|].
  split_and!; [by apply wf_keys_delete | by apply acyclic_delete | | done..].
  intros Hcl k m d Hm Hin. simpl in *. apply lookup_delete_Some in Hm as [Hne Hm].
  destruct (decide (d = id)) as [->|Hdne].
  - exfalso. apply Hne. symmetry. by eapply Hnone.
  - rewrite lookup_delete_ne by done. by eapply Hcl.
Qed.

End Properties.

Definition sample_graph : DagGraph :=
  mkDag (<["a"%string := make_node "a" []]>
        (<["b"%string := make_node "b" ["a"%string]]> ∅)).

Lemma sample_graph_wf : wf_keys sample_graph.
Proof.
  intros k n. unfold sample_graph. simpl. rewrite lookup_insert_Some.
  intros [[<- <-]|[_ Hl]]; [done|].
  by apply lookup_insert_Some in Hl as [[<- <-]|[_ Hl]].
Qed.

Lemma sample_graph_acyclic : acyclic sample_graph.
Proof. apply (@has_cycle_false sample_graph std_order). by vm_compute. Qed.

(** Adding [c], which depends on [b], to [a <- b] succeeds. *)
Lemma add_node_spec_witness :
  fst (@DagGraph.add_node std_order sample_graph (make_node "c" ["b"%string])) = Ok tt
  /\ acyclic (snd (@DagGraph.add_node std_order sample_graph (make_node "c" ["b"%string]))).
Proof.
  pose proof (@add_node_spec std_order sample_graph (make_node "c" ["b"%string])
                sample_graph_wf sample_graph_acyclic) as Hs.
  split; [by vm_compute|].
  destruct (@DagGraph.add_node std_order sample_graph (make_node "c" ["b"%string]))
    as [[u|[]] g'] eqn:E; vm_compute in E; try discriminate E.
  apply Hs.
Defined.

(** Removing [b] from [a <- b] succeeds. *)
Lemma remove_node_spec_witness :
  exists n g', @DagGraph.remove_node std_order sample_graph "b" = Ret (Ok n, g')
    /\ acyclic g'.
Proof.
  destruct (@remove_node_spec std_order sample_graph "b"
              sample_graph_wf sample_graph_acyclic)
    as (r & g' & E & _ & Hac & _ & Hr).
  destruct r as [n|e].
  - exists n, g'. by split.
  - exfalso. vm_compute in E. discriminate E.
Defined.
