(* ===== verification/TopoSort.v ===== *)
(** Topological sorting of the task graph: [DagGraph::topological_sort] of
    src/src/dag/graph.rs (Kahn's algorithm).

    [usize] is 64 bits wide. The main theorem, [topological_sort_spec],
    determines the result on every well-formed graph: no panic, a valid order
    when one is returned, and an order is returned exactly when the graph is
    acyclic and no node lists an in-graph dependency twice. *)

From S2P Require Import Prelude F64 Graph.

Section TopoSort.
Context `{BuildProfile}.

(** [*in_degree.get_mut(id).unwrap() += 1]. *)
Definition incr_degree (id : string) (D : gmap string Z) : outcome (gmap string Z) :=
  d ← unwrap (D !! id);
  d' ← add_u 64 d 1;
  Ret (<[id := d']> D).

(** The inner loop that counts the in-graph dependencies of one node. *)
Fixpoint count_deps (g : DagGraph) (id : string) (deps : list string)
    (D : gmap string Z) : outcome (gmap string Z) :=
  match deps with
  | [] => Ret D
  | dep_id :: rest =>
    D' ← (if contains_key (nodes g) dep_id then incr_degree id D else Ret D);
    count_deps g id rest D'
  end.

Fixpoint count_all (g : DagGraph) (ns : list Node) (D : gmap string Z)
    : outcome (gmap string Z) :=
  match ns with
  | [] => Ret D
  | node :: rest =>
    D' ← count_deps g (n_id node) (n_depends_on node) D;
    count_all g rest D'
  end.

(** The loop that lowers the in-degree of the nodes depending on [id] and
    queues those that reach 0. *)
Fixpoint relax (id : string) (ns : list Node) (D : gmap string Z)
    (queue : list string) : outcome (gmap string Z * list string) :=
  match ns with
  | [] => Ret (D, queue)
  | node :: rest =>
    if bool_decide (id ∈ n_depends_on node) then
      d ← unwrap (D !! n_id node);
      d' ← sub_u 64 d 1;
      relax id rest (<[n_id node := d']> D)
        (if d' =? 0 then queue ++ [n_id node] else queue)
    else relax id rest D queue
  end.

Section WithOrder.
Context `{HashOrder}.

(** The [while let Some(id) = queue.pop_front()] loop; [None] stands for
    running out of fuel. *)
Fixpoint kahn_loop (fuel : nat) (g : DagGraph) (D : gmap string Z)
    (queue sorted : list string) : outcome (option (list string)) :=
  match queue with
  | [] => Ret (Some sorted)
  | id :: queue' =>
    match fuel with
    | O => Ret None
    | S fuel =>
      Dq ← relax id (hm_values (nodes g)) D queue';
      kahn_loop fuel g Dq.1 Dq.2 (sorted ++ [id])
    end
  end.

(** Each node enters the queue at most once, so one iteration per node is
    enough fuel. *)
Definition topological_sort (g : DagGraph) : outcome (result DagError (list string)) :=
  let in_degree : gmap string Z := (fun _ => 0) <$> nodes g in
  in_degree ← count_all g (hm_values (nodes g)) in_degree;
  let queue := (List.filter (fun kd => kd.2 =? 0) (hm_iter in_degree)).*1 in
  r ← kahn_loop (size (nodes g)) g in_degree queue [];
  sorted ← unwrap r;
  if negb (bool_decide (length sorted = size (nodes g))) then
    stuck ← unwrap (List.find (fun id => negb (bool_decide (id ∈ sorted)))
                      (hm_keys (nodes g)));
    Ret (Err (CycleDetected stuck))
  else Ret (Ok sorted).

End WithOrder.
End TopoSort.

(** * Specification *)

(** The dependencies of a node that are in the graph, with repetitions. *)
Definition in_deps (g : DagGraph) (n : Node) : list string :=
  filter (fun d => is_Some (nodes g !! d)) (n_depends_on n).

(** No node lists an in-graph dependency twice. *)
Definition nodup_deps (g : DagGraph) : Prop :=
  forall k n, nodes g !! k = Some n -> NoDup (in_deps g n).

(** Every element comes after its dependencies. *)
Definition ordered (g : DagGraph) (l : list string) : Prop :=
  forall l1 x l2, l = l1 ++ x :: l2 -> forall y, edge g x y -> y ∈ l1.

(** Dependency lists are shorter than the address space. *)
Definition deps_fit (g : DagGraph) : Prop :=
  forall k n, nodes g !! k = Some n -> Z.of_nat (length (n_depends_on n)) < 2 ^ 64.

(** * Counting in-degrees *)

Section Counting.
Context `{BuildProfile} (g : DagGraph).

Definition total (n : Node) : Z := Z.of_nat (length (in_deps g n)).

Lemma total_nonneg n : 0 <= total n.
Proof. unfold total. lia. Qed.

Lemma total_fit k n :
  deps_fit g -> nodes g !! k = Some n -> total n < 2 ^ 64.
Proof.
  intros Hfit Hn. specialize (Hfit k n Hn). unfold total, in_deps.
  pose proof (length_filter (fun d => is_Some (nodes g !! d)) (n_depends_on n)). lia.
Qed.

Lemma count_deps_spec id deps : forall D d,
  D !! id = Some d -> 0 <= d ->
  d + Z.of_nat (length (filter (fun d => is_Some (nodes g !! d)) deps)) < 2 ^ 64 ->
  count_deps g id deps D
  = Ret (<[id := d + Z.of_nat (length (filter (fun d => is_Some (nodes g !! d)) deps))]> D).
Proof.
  induction deps as [|x deps IH]; intros D d Hd Hpos Hfit; cbn [count_deps].
  { rewrite filter_nil. simpl. by rewrite Z.add_0_r, insert_id. }
  destruct (contains_key (nodes g) x) eqn:Hk.
  - apply contains_key_true in Hk. rewrite filter_cons_True in * by done.
    cbn [length] in *. unfold incr_degree. rewrite Hd. simpl.
    unfold add_u. rewrite arith_u_ok by (unfold in_u; lia). simpl.
    rewrite (IH _ (d + 1)); [|by rewrite lookup_insert_eq|lia|lia].
    rewrite insert_insert_eq. do 2 f_equal. lia.
  - apply contains_key_false in Hk.
    rewrite filter_cons_False in * by (rewrite Hk; apply is_Some_None).
    simpl. by apply IH.
Qed.

(** The in-degree that the nodes of [ns] contribute to the id [k]. *)
Definition added (ns : list Node) (k : string) : Z :=
  sum_Z ((fun n => if bool_decide (n_id n = k) then total n else 0) <$> ns).

Lemma added_cons n ns k :
  added (n :: ns) k = (if bool_decide (n_id n = k) then total n else 0) + added ns k.
Proof. done. Qed.

Lemma added_nonneg ns k : 0 <= added ns k.
Proof.
  apply sum_Z_nonneg, Forall_fmap, Forall_true. intros n. simpl.
  pose proof (total_nonneg n). case_bool_decide; lia.
Qed.

Lemma count_all_spec ns : forall D : gmap string Z,
  (forall n, n ∈ ns -> is_Some (D !! n_id n)) ->
  (forall k d, D !! k = Some d -> 0 <= d /\ d + added ns k < 2 ^ 64) ->
  exists D', count_all g ns D = Ret D'
    /\ forall k, D' !! k = (fun d => d + added ns k) <$> D !! k.
Proof.
  induction ns as [|n ns IH]; intros D Hdom Hfit; cbn [count_all].
  { exists D. split; [done|]. intros k. unfold added. simpl.
    destruct (D !! k); simpl; [by rewrite Z.add_0_r|done]. }
  destruct (Hdom n (list_elem_of_here _ _)) as [d Hd].
  destruct (Hfit _ _ Hd) as [Hpos Hlt]. rewrite added_cons, bool_decide_true in Hlt by done.
  pose proof (added_nonneg ns (n_id n)).
  rewrite (count_deps_spec _ _ _ d); [|done|lia|fold (in_deps g n) (total n); lia].
  fold (in_deps g n) (total n). simpl.
  destruct (IH (<[n_id n := d + total n]> D)) as (D' & -> & HD').
  - intros m Hm. rewrite lookup_insert. case_decide; [by eexists|].
    apply Hdom. by apply list_elem_of_further.
  - intros k e. rewrite lookup_insert. case_decide as Hk; [|].
    + intros [= <-]. subst. pose proof (total_nonneg n). lia.
    + intros He. specialize (Hfit k e He).
      rewrite added_cons, bool_decide_false in Hfit by done. lia.
  - exists D'. split; [done|]. intros k. rewrite HD', added_cons, lookup_insert.
    case_decide as Hk; [subst|]; [rewrite Hd, bool_decide_true by done |
      rewrite bool_decide_false by done]; simpl; [f_equal; lia|].
    by destruct (D !! k).
Qed.

Lemma added_notin ns k : k ∉ n_id <$> ns -> added ns k = 0.
Proof.
  induction ns as [|m ns IH]; [done|].
  rewrite fmap_cons, not_elem_of_cons, added_cons. intros [Hne Hk].
  rewrite bool_decide_false by done. rewrite IH by done. lia.
Qed.

Lemma added_NoDup ns n :
  NoDup (n_id <$> ns) -> n ∈ ns -> added ns (n_id n) = total n.
Proof.
  induction ns as [|m ns IH]; [by intros _ ?%elem_of_nil|].
  rewrite fmap_cons, NoDup_cons. intros [Hm Hnd] Hin.
  rewrite added_cons.
  apply elem_of_cons in Hin as [->|Hin].
  - rewrite bool_decide_true, added_notin by done. lia.
  - rewrite bool_decide_false, IH by
      (done || intros E; apply Hm; rewrite E; by apply list_elem_of_fmap_2). lia.
Qed.

End Counting.

(** * Lowering in-degrees *)

Section Relaxing.
Context `{BuildProfile}.

(** Whether processing [id] lowers the in-degree of [k]. *)
Definition lowers (id : string) (ns : list Node) (k : string) : bool :=
  existsb (fun n => bool_decide (n_id n = k) && bool_decide (id ∈ n_depends_on n)) ns.

Lemma lowers_true id ns k :
  lowers id ns k = true <-> exists n, n ∈ ns /\ n_id n = k /\ id ∈ n_depends_on n.
Proof.
  unfold lowers. rewrite existsb_exists. setoid_rewrite <- list_elem_of_In.
  setoid_rewrite andb_true_iff. by setoid_rewrite bool_decide_eq_true.
Qed.

Lemma lowers_notin id ns k : k ∉ n_id <$> ns -> lowers id ns k = false.
Proof.
  intros Hk. apply not_true_iff_false. rewrite lowers_true.
  intros (n & Hn & <- & _). apply Hk. by apply list_elem_of_fmap_2.
Qed.

(** [relax] subtracts one from the in-degree of each dependent and appends,
    in the iteration order, the dependents whose in-degree was one. *)
Lemma relax_spec id ns : forall D Q,
  NoDup (n_id <$> ns) ->
  (forall n, n ∈ ns -> id ∈ n_depends_on n ->
     exists d, D !! n_id n = Some d /\ 0 < d < 2 ^ 64) ->
  exists D', relax id ns D Q
    = Ret (D', Q ++ (n_id <$> List.filter (fun n =>
        bool_decide (id ∈ n_depends_on n) && bool_decide (D !! n_id n = Some 1)) ns))
    /\ forall k, D' !! k
        = (fun d => if lowers id ns k then d - 1 else d) <$> D !! k.
Proof.
  induction ns as [|n ns IH]; intros D Q Hnd Hpos; cbn [relax].
  { exists D. simpl. rewrite app_nil_r. split; [done|].
    intros k. by destruct (D !! k). }
  rewrite fmap_cons, NoDup_cons in Hnd. destruct Hnd as [Hn Hnd].
  assert (Hpos' : forall m, m ∈ ns -> id ∈ n_depends_on m ->
     exists d, D !! n_id m = Some d /\ 0 < d < 2 ^ 64)
    by (intros; apply Hpos; [by apply list_elem_of_further|done]).
  cbn [List.filter]. unfold lowers. cbn [existsb]. fold (lowers id ns).
  destruct (decide (id ∈ n_depends_on n)) as [Hdep|Hdep].
  2:{ rewrite !bool_decide_false by done.
      destruct (IH D Q Hnd Hpos') as (D' & -> & HD'). exists D'. split; [done|].
      intros k. rewrite HD'. by rewrite andb_false_r. }
  rewrite !bool_decide_true by done.
  destruct (Hpos n (list_elem_of_here _ _) Hdep) as (d & Hd & Hd1 & Hd2).
  rewrite Hd. simpl. unfold sub_u. rewrite arith_u_ok by (unfold in_u; lia). simpl.
  assert (Hother : forall m, m ∈ ns -> n_id m <> n_id n)
    by (intros m Hm E; apply Hn; rewrite <- E; by apply list_elem_of_fmap_2).
  edestruct (IH (<[n_id n := d - 1]> D)) as (D' & -> & HD'); [done| |].
  { intros m Hm Hdm. rewrite lookup_insert_ne by (symmetry; by apply Hother).
    by apply Hpos'. }
  exists D'. split.
  - do 2 f_equal. assert (List.filter (fun m => bool_decide (id ∈ n_depends_on m)
        && bool_decide (<[n_id n := d - 1]> D !! n_id m = Some 1)) ns
      = List.filter (fun m => bool_decide (id ∈ n_depends_on m)
        && bool_decide (D !! n_id m = Some 1)) ns) as ->.
    { apply filter_ext_in. intros m Hm%list_elem_of_In.
      by rewrite lookup_insert_ne by (symmetry; by apply Hother). }
    destruct (decide (d = 1)) as [->|Hd'].
    + rewrite bool_decide_true by done. simpl. by rewrite <- app_assoc.
    + rewrite bool_decide_false by congruence.
      by rewrite (proj2 (Z.eqb_neq _ _)) by lia.
  - intros k. rewrite HD', lookup_insert. case_decide as Hk.
    + subst k. rewrite lowers_notin, bool_decide_true, Hd by done. done.
    + rewrite bool_decide_false by done. done.
Qed.

End Relaxing.

(** * The invariant of the main loop *)

Section Kahn.
Context `{BuildProfile} `{HashOrder} (g : DagGraph).
Hypothesis Hwf : wf_keys g.
Hypothesis Hfit : deps_fit g.

(** The processed nodes that [n] depends on. *)
Definition hits (n : Node) (P : list string) : list string :=
  filter (fun d => d ∈ n_depends_on n) P.

Definition cnt (n : Node) (P : list string) : Z := Z.of_nat (length (hits n P)).

Record kinv (D : gmap string Z) (Q P : list string) : Prop := {
  ki_nodup : NoDup (P ++ Q);
  ki_deg : forall k n, nodes g !! k = Some n -> D !! k = Some (total g n - cnt n P);
  ki_mem : forall k, k ∈ P ++ Q <-> is_Some (nodes g !! k) /\ D !! k = Some 0;
  ki_ord : ordered g P
}.

Lemma NoDup_hits n P : NoDup P -> NoDup (hits n P).
Proof. apply NoDup_filter. Qed.

Lemma hits_sub n P :
  (forall k, k ∈ P -> is_Some (nodes g !! k)) -> NoDup P ->
  hits n P ⊆+ in_deps g n.
Proof.
  intros Hk Hnd. apply NoDup_submseteq; [by apply NoDup_hits|].
  intros x. unfold hits, in_deps. rewrite !list_elem_of_filter.
  intros [Hx HP]. split; [by apply Hk|done].
Qed.

Lemma cnt_le n P :
  (forall k, k ∈ P -> is_Some (nodes g !! k)) -> NoDup P -> cnt n P <= total g n.
Proof.
  intros Hk Hnd. pose proof (submseteq_length _ _ (hits_sub n P Hk Hnd)).
  unfold cnt, total. lia.
Qed.

Lemma cnt_lt n P d :
  (forall k, k ∈ P -> is_Some (nodes g !! k)) -> NoDup P ->
  d ∈ n_depends_on n -> is_Some (nodes g !! d) -> d ∉ P -> cnt n P < total g n.
Proof.
  intros Hk Hnd Hd Hs HdP.
  assert (d :: hits n P ⊆+ in_deps g n) as Hsub.
  { apply NoDup_submseteq.
    - apply NoDup_cons. split; [|by apply NoDup_hits].
      unfold hits. rewrite list_elem_of_filter. naive_solver.
    - intros x [->|Hx]%elem_of_cons; unfold in_deps; apply list_elem_of_filter;
        [done|]. unfold hits in Hx. apply list_elem_of_filter in Hx as [? ?].
      split; [by apply Hk|done]. }
  apply submseteq_length in Hsub. simpl in Hsub. unfold cnt, total. lia.
Qed.

Lemma cnt_snoc n P id :
  cnt n (P ++ [id]) = cnt n P + (if bool_decide (id ∈ n_depends_on n) then 1 else 0).
Proof.
  unfold cnt, hits. rewrite filter_app, length_app.
  case_bool_decide as Hd;
    [rewrite filter_cons_True by done|rewrite filter_cons_False by done];
    rewrite ?filter_nil; simpl; lia.
Qed.

(** In-degree 0 means that every in-graph dependency is processed and that
    none is listed twice. *)
Lemma deg_zero n P :
  (forall k, k ∈ P -> is_Some (nodes g !! k)) -> NoDup P ->
  total g n - cnt n P = 0 ->
  NoDup (in_deps g n) /\ forall y, y ∈ in_deps g n -> y ∈ P.
Proof.
  intros Hk Hnd Hz. pose proof (hits_sub n P Hk Hnd) as Hsub.
  apply submseteq_length_Permutation in Hsub; [|unfold cnt, total in Hz; lia].
  split; [rewrite <- Hsub; by apply NoDup_hits|].
  intros y. rewrite <- Hsub. unfold hits. rewrite list_elem_of_filter. naive_solver.
Qed.

Lemma kinv_in D Q P k : kinv D Q P -> k ∈ P ++ Q -> is_Some (nodes g !! k).
Proof. intros [] Hk. naive_solver. Qed.

Lemma kinv_P D Q P k : kinv D Q P -> k ∈ P -> is_Some (nodes g !! k).
Proof. intros Hi Hk. eapply kinv_in; [done|]. apply elem_of_app. by left. Qed.

Lemma kinv_NoDup_P D Q P : kinv D Q P -> NoDup P.
Proof. intros []. by apply NoDup_app in ki_nodup0 as [? _]. Qed.

(** An element of the queue has all its in-graph dependencies processed. *)
Lemma kinv_queue_deps D Q P id y :
  kinv D Q P -> id ∈ P ++ Q -> edge g id y -> y ∈ P.
Proof.
  intros Hi Hid (n & Hn & Hy & Hs).
  apply (ki_mem _ _ _ Hi) in Hid as [_ Hz]. rewrite (ki_deg _ _ _ Hi id n Hn) in Hz.
  injection Hz as Hz.
  apply deg_zero in Hz as [_ Hz];
    [|intros; by eapply kinv_P|by eapply kinv_NoDup_P].
  apply Hz. unfold in_deps. by apply list_elem_of_filter.
Qed.

Lemma ordered_snoc P id :
  ordered g P -> (forall y, edge g id y -> y ∈ P) -> ordered g (P ++ [id]).
Proof.
  intros Ho Hid l1 x l2 Heq y Hxy.
  destruct (decide (l2 = [])) as [->|Hne].
  - apply app_inj_tail in Heq as [-> ->]. by apply Hid.
  - destruct l2 as [|z l2] using rev_ind; [done|]. clear IHl2.
    rewrite app_comm_cons, app_assoc in Heq. apply app_inj_tail in Heq as [-> _].
    by eapply Ho.
Qed.

Lemma value_key n : n ∈ hm_values (nodes g) -> nodes g !! n_id n = Some n.
Proof.
  intros [k Hk]%elem_of_hm_values. by rewrite (Hwf k n Hk).
Qed.

Lemma lowers_value id k n :
  nodes g !! k = Some n ->
  lowers id (hm_values (nodes g)) k = bool_decide (id ∈ n_depends_on n).
Proof.
  intros Hn. apply eq_true_iff_eq. rewrite lowers_true, bool_decide_eq_true. split.
  - intros (m & Hm & <- & Hd). apply value_key in Hm. by simplify_eq.
  - intros Hd. exists n. split_and!; [|by apply Hwf|done].
    apply elem_of_hm_values. by exists k.
Qed.

(** A dependent of the popped node still has a positive in-degree. *)
Lemma kinv_popped_pos D Q P id k n :
  kinv D (id :: Q) P -> nodes g !! k = Some n -> id ∈ n_depends_on n ->
  0 < total g n - cnt n P < 2 ^ 64.
Proof.
  intros Hi Hn Hd.
  assert (Hin : id ∈ P ++ id :: Q) by (apply elem_of_app; right; apply list_elem_of_here).
  assert (HidP : id ∉ P).
  { intros HP. pose proof (ki_nodup _ _ _ Hi) as Hnd.
    apply NoDup_app in Hnd as (_ & Hdis & _). apply (Hdis id HP), list_elem_of_here. }
  pose proof (cnt_lt n P id (fun x => kinv_P _ _ _ x Hi) (kinv_NoDup_P _ _ _ Hi)
                Hd (kinv_in _ _ _ _ Hi Hin) HidP).
  pose proof (total_fit g k n Hfit Hn). unfold cnt in *. lia.
Qed.

Lemma elem_of_new_queue (D : gmap string Z) id k :
  k ∈ n_id <$> List.filter (fun n =>
        bool_decide (id ∈ n_depends_on n) && bool_decide (D !! n_id n = Some 1))
      (hm_values (nodes g))
  <-> exists n, nodes g !! k = Some n /\ id ∈ n_depends_on n /\ D !! k = Some 1.
Proof.
  rewrite list_elem_of_fmap. split.
  - intros (n & -> & Hin). apply list_elem_of_In, filter_In in Hin as [Hin Hb].
    split_bools. apply list_elem_of_In, value_key in Hin. by exists n.
  - intros (n & Hn & Hd & HD). exists n. pose proof (Hwf k n Hn) as Hk.
    split; [done|]. apply list_elem_of_In, filter_In. split.
    + apply list_elem_of_In, elem_of_hm_values. by exists k.
    + by rewrite Hk, !bool_decide_true.
Qed.

Lemma kinv_step D Q P id :
  kinv D (id :: Q) P ->
  exists D' Q', relax id (hm_values (nodes g)) D Q = Ret (D', Q')
    /\ kinv D' Q' (P ++ [id]).
Proof.
  intros Hi. destruct (relax_spec id (hm_values (nodes g)) D Q) as (D' & Hr & HD').
  { by apply NoDup_value_ids. }
  { intros n Hn%value_key Hd. eexists. split; [by apply (ki_deg _ _ _ Hi)|].
    by eapply kinv_popped_pos. }
  eexists D', _. split; [exact Hr|].
  assert (Hdeg : forall k n, nodes g !! k = Some n ->
    D' !! k = Some (total g n - cnt n (P ++ [id]))).
  { intros k n Hn. rewrite HD', (ki_deg _ _ _ Hi k n Hn), (lowers_value _ k n Hn).
    simpl. rewrite cnt_snoc. case_bool_decide; f_equal; lia. }
  split.
  - rewrite <- app_assoc. change ([id] ++ Q ++ ?x) with ((id :: Q) ++ x).
    rewrite app_assoc. apply NoDup_app. split_and!.
    + apply Hi.
    + intros x Hx Hnew. apply (ki_mem _ _ _ Hi) in Hx as [_ Hx].
      apply elem_of_new_queue in Hnew as (_ & _ & _ & Hx'). congruence.
    + by apply NoDup_filter_fmap, NoDup_value_ids.
  - exact Hdeg.
  - intros k. rewrite <- app_assoc. change ([id] ++ Q ++ ?x) with ((id :: Q) ++ x).
    rewrite app_assoc, elem_of_app, (ki_mem _ _ _ Hi), elem_of_new_queue. split.
    + intros [[[n Hn] Hz]|(n & Hn & Hd & Hone)]; (split; [by eexists|]);
        rewrite HD', (lowers_value _ k n Hn).
      * rewrite bool_decide_false, Hz; [done|]. intros Hd.
        pose proof (kinv_popped_pos _ _ _ _ _ _ Hi Hn Hd).
        rewrite (ki_deg _ _ _ Hi k n Hn) in Hz. simplify_eq. lia.
      * by rewrite bool_decide_true, Hone.
    + intros [[n Hn] Hz]. rewrite HD', (lowers_value _ k n Hn) in Hz.
      destruct (D !! k) as [d|] eqn:HDk; [|done]. simpl in Hz.
      case_bool_decide as Hd; injection Hz as Hz.
      * right. exists n. split_and!; [done..|]. f_equal. lia.
      * left. split; [by eexists|]. by rewrite Hz.
  - apply ordered_snoc; [apply Hi|]. intros y Hy. eapply kinv_queue_deps; [done| |done].
    apply elem_of_app. right. apply list_elem_of_here.
Qed.

Lemma kinv_length D Q P : kinv D Q P -> (length (P ++ Q) <= size (nodes g))%nat.
Proof.
  intros Hi. rewrite <- length_hm_keys. apply submseteq_length, NoDup_submseteq.
  - apply Hi.
  - intros x Hx. apply elem_of_hm_keys. by eapply kinv_in.
Qed.

Lemma kahn_loop_spec fuel : forall D Q P,
  kinv D Q P -> (size (nodes g) <= length P + fuel)%nat ->
  exists D' P', kahn_loop fuel g D Q P = Ret (Some P') /\ kinv D' [] P'.
Proof.
  induction fuel as [|fuel IH]; intros D Q P Hi Hfuel; destruct Q as [|id Q];
    cbn [kahn_loop]; eauto.
  - exfalso. pose proof (kinv_length _ _ _ Hi) as Hl.
    rewrite length_app in Hl. simpl in Hl. lia.
  - destruct (kinv_step _ _ _ _ Hi) as (D' & Q' & -> & Hi'). simpl.
    apply (IH _ _ _ Hi'). rewrite length_app. simpl. lia.
Qed.

(** * The result *)

Lemma kinv_covers D P :
  kinv D [] P -> length P = size (nodes g) -> P ≡ₚ hm_keys (nodes g).
Proof.
  intros Hi Hl. apply submseteq_length_Permutation.
  - apply NoDup_submseteq; [by eapply kinv_NoDup_P|].
    intros x Hx. apply elem_of_hm_keys. by eapply kinv_P.
  - rewrite length_hm_keys. lia.
Qed.

(** An order that lists every node and respects the edges rules out cycles. *)
Lemma ordered_acyclic l : (forall k, is_Some (nodes g !! k) -> k ∈ l) -> ordered g l -> acyclic g.
Proof.
  intros Hall Ho x Hx.
  assert (forall n y, tc (edge g) y y -> forall l1 l2,
    l = l1 ++ y :: l2 -> length l1 = n -> False) as Hgen.
  { induction n as [n IHn] using lt_wf_ind. intros y Hy l1 l2 Heq Hn.
    apply tc_self_step in Hy as (z & Hyz & Hzz).
    pose proof (Ho _ _ _ Heq _ Hyz) as Hz.
    apply list_elem_of_split in Hz as (k1 & k2 & ->).
    eapply (IHn (length k1)); [|done| |done].
    - rewrite <- Hn, length_app. simpl. lia.
    - rewrite Heq, <- app_assoc. done. }
  assert (Hs : is_Some (nodes g !! x)).
  { destruct (tc_self_step _ _ Hx) as (z & (n & Hn & _) & _). by exists n. }
  apply Hall in Hs. apply list_elem_of_split in Hs as (l1 & l2 & Heq).
  by eapply Hgen.
Qed.

Lemma kinv_complete_sound D P :
  kinv D [] P -> length P = size (nodes g) -> acyclic g /\ nodup_deps g.
Proof.
  intros Hi Hl. pose proof (kinv_covers _ _ Hi Hl) as Hc. split.
  - apply (ordered_acyclic P); [|apply Hi]. intros k Hk.
    by rewrite Hc, elem_of_hm_keys.
  - intros k n Hn.
    assert (k ∈ P ++ []) as HkP
      by (rewrite app_nil_r, Hc, elem_of_hm_keys; by eexists).
    apply (ki_mem _ _ _ Hi) in HkP as [_ Hz].
    rewrite (ki_deg _ _ _ Hi k n Hn) in Hz. injection Hz as Hz.
    apply deg_zero in Hz as [Hz _];
      [done|intros; by eapply kinv_P|by eapply kinv_NoDup_P].
Qed.

Lemma kinv_complete D P :
  kinv D [] P -> acyclic g -> nodup_deps g -> length P = size (nodes g).
Proof.
  intros Hi Hac Hnd.
  assert (Hall : forall k, is_Some (nodes g !! k) -> k ∈ P).
  { intros k. induction (acyclic_safe g Hac k) as [k _ IH]. intros [n Hn].
    rewrite <- (app_nil_r P). apply (ki_mem _ _ _ Hi). split; [by eexists|].
    rewrite (ki_deg _ _ _ Hi k n Hn). f_equal.
    pose proof (cnt_le n P (fun x => kinv_P _ _ _ x Hi) (kinv_NoDup_P _ _ _ Hi)) as Hle.
    assert (in_deps g n ⊆+ hits n P) as Hsub.
    { apply NoDup_submseteq; [by eapply Hnd|]. intros y.
      unfold in_deps, hits. rewrite !list_elem_of_filter. intros [Hy Hd].
      split; [done|]. apply IH; [|done]. by exists n. }
    apply submseteq_length in Hsub. unfold cnt, total in *. lia. }
  apply Nat.le_antisymm.
  - pose proof (kinv_length _ _ _ Hi) as Hl. by rewrite app_nil_r in Hl.
  - rewrite <- length_hm_keys. apply submseteq_length, NoDup_submseteq;
      [apply NoDup_hm_keys|]. intros x Hx%elem_of_hm_keys. by apply Hall.
Qed.

Lemma kinv_init :
  exists D, count_all g (hm_values (nodes g)) ((fun _ => 0) <$> nodes g) = Ret D
  /\ kinv D (List.filter (fun kd => kd.2 =? 0) (hm_iter D)).*1 [].
Proof.
  assert (Hadd : forall k n, nodes g !! k = Some n ->
    added g (hm_values (nodes g)) k = total g n).
  { intros k n Hn. rewrite <- (Hwf k n Hn). apply added_NoDup.
    - by apply NoDup_value_ids.
    - apply elem_of_hm_values. by exists k. }
  destruct (count_all_spec g (hm_values (nodes g)) ((fun _ => 0) <$> nodes g))
    as (D & -> & HD).
  { intros n Hn%value_key. rewrite lookup_fmap, Hn. by eexists. }
  { intros k d. rewrite lookup_fmap. destruct (nodes g !! k) as [n|] eqn:Hn; [|done].
    simpl. intros [= <-]. rewrite (Hadd k n Hn).
    pose proof (total_fit g k n Hfit Hn). lia. }
  assert (HDk : forall k n, nodes g !! k = Some n -> D !! k = Some (total g n)).
  { intros k n Hn. rewrite HD, lookup_fmap, Hn, (Hadd k n Hn). done. }
  exists D. split; [done|].
  assert (Hmem : forall k, k ∈ (List.filter (fun kd => kd.2 =? 0) (hm_iter D)).*1
    <-> D !! k = Some 0).
  { intros k. rewrite list_elem_of_fmap. split.
    - intros ([k' d] & -> & Hin). apply elem_of_filter_bool in Hin as [Hin Hz].
      apply elem_of_hm_iter in Hin. simpl in *. split_bools. by subst.
    - intros Hz. exists (k, 0). split; [done|]. apply elem_of_filter_bool.
      split; [by apply elem_of_hm_iter|done]. }
  split.
  - simpl. apply NoDup_filter_fmap, NoDup_hm_keys.
  - intros k n Hn. rewrite (HDk k n Hn). unfold cnt, hits.
    rewrite filter_nil. simpl. f_equal. lia.
  - intros k. simpl. rewrite Hmem. split; [|tauto]. intros Hz. split; [|done].
    rewrite HD, lookup_fmap in Hz. by destruct (nodes g !! k).
  - intros [|? ?] x l2 Heq; discriminate Heq.
Qed.

End Kahn.

(** * Properties *)

Section Properties.
Context `{BuildProfile} `{HashOrder}.

(** The two ways the main loop can end, and what the function returns. *)
Lemma topological_sort_cases g :
  wf_keys g -> deps_fit g ->
  exists D P, kinv g D [] P
  /\ (topological_sort g = Ret (Ok P) /\ length P = size (nodes g)
      \/ exists k, topological_sort g = Ret (Err (CycleDetected k))
         /\ is_Some (nodes g !! k) /\ k ∉ P /\ length P <> size (nodes g)).
Proof.
  intros Hwf Hfit. destruct (kinv_init g Hwf Hfit) as (D0 & HD0 & Hi0).
  destruct (kahn_loop_spec g Hwf Hfit (size (nodes g)) D0 _ [] Hi0) as (D & P & Hl & Hi);
    [simpl; lia|].
  exists D, P. split; [done|]. unfold topological_sort. rewrite HD0. simpl.
  rewrite Hl. simpl. case_bool_decide as Hlen; simpl; [by left|]. right.
  destruct (find _ _) as [k|] eqn:Hf.
  - apply find_some in Hf as [Hin Hb]. split_bools. exists k.
    apply list_elem_of_In, elem_of_hm_keys in Hin. done.
  - exfalso. apply Hlen. apply Nat.le_antisymm.
    + pose proof (kinv_length g _ _ _ Hi) as Hle. by rewrite app_nil_r in Hle.
    + rewrite <- length_hm_keys. apply submseteq_length, NoDup_submseteq;
        [apply NoDup_hm_keys|]. intros x Hx%list_elem_of_In.
      pose proof (find_none _ _ Hf x Hx) as Hb. simpl in Hb. by split_bools.
Qed.

(** C6. [topological_sort] never panics and is exact, on every graph whose keys
    are the ids of its nodes (a node stored under another key can make the
    [unwrap] of its in-degree panic) and whose lists of dependencies are shorter
    than 2^64. When it returns a list,
    the list is a permutation of the node ids in which every node comes after
    its dependencies, and the graph is acyclic; when it reports a cycle, the
    reported id is a node of the graph, and the graph has a cycle or a node
    that lists an in-graph dependency twice. *)
Theorem topological_sort_spec g :
  wf_keys g -> deps_fit g ->
  exists r, topological_sort g = Ret r
  /\ match r with
     | Ok l => l ≡ₚ hm_keys (nodes g) /\ ordered g l /\ acyclic g /\ nodup_deps g
     | Err (CycleDetected k) => is_Some (nodes g !! k) /\ ~ (acyclic g /\ nodup_deps g)
     | Err _ => False
     end.
Proof.
  intros Hwf Hfit.
  destruct (topological_sort_cases g Hwf Hfit) as (D & P & Hi & [[-> Hl]|(k & -> & Hk & _ & Hl)]);
    eexists; (split; [done|]).
  - destruct (kinv_complete_sound g _ _ Hi Hl). split_and!; [|apply Hi|done..].
    by eapply kinv_covers.
  - split; [done|]. intros [Hac Hnd]. apply Hl. by eapply kinv_complete.
Qed.

(** A graph in which a node lists the same in-graph dependency twice is
    reported as cyclic, even though [has_cycle] finds no cycle in it and
    [add_node] accepted it: the in-degree counts the repetition, and the
    processing of the dependency lowers it only once. *)
Theorem topological_sort_duplicate_dep g k n :
  wf_keys g -> deps_fit g -> acyclic g ->
  nodes g !! k = Some n -> ~ NoDup (in_deps g n) ->
  DagGraph.has_cycle g = false
  /\ exists i, topological_sort g = Ret (Err (CycleDetected i)).
Proof.
  intros Hwf Hfit Hac Hn Hdup. split; [by apply has_cycle_false|].
  destruct (topological_sort_cases g Hwf Hfit) as (D & P & Hi & [[-> Hl]|(i & -> & _)]);
    [|by exists i].
  destruct (kinv_complete_sound g _ _ Hi Hl) as [_ Hnd].
  exfalso. by apply Hdup, (Hnd k).
Qed.

End Properties.

(** The two-node graph [a <- b] is sorted. *)
Lemma topological_sort_spec_witness :
  exists l, @topological_sort debug_profile std_order sample_graph = Ret (Ok l)
    /\ ordered sample_graph l.
Proof.
  destruct (@topological_sort_spec debug_profile std_order sample_graph)
    as (r & Hr & Hs).
  - apply sample_graph_wf.
  - intros k n Hn. apply elem_of_map_to_list in Hn. vm_compute in Hn.
    apply list_elem_of_In in Hn. destruct Hn as [E|[E|[]]]; injection E as <- <-; done.
  - destruct r as [l|e]; [exists l; split; [done|apply Hs]|].
    exfalso. vm_compute in Hr. discriminate Hr.
Defined.

(** [b] depends on [a], listed twice. *)
Definition duplicate_graph : DagGraph :=
  mkDag (<["a"%string := make_node "a" []]>
        (<["b"%string := make_node "b" ["a"%string; "a"%string]]> ∅)).

Lemma topological_sort_duplicate_dep_witness :
  @DagGraph.has_cycle std_order duplicate_graph = false
  /\ exists i, @topological_sort debug_profile std_order duplicate_graph
       = Ret (Err (CycleDetected i)).
Proof.
  apply (@topological_sort_duplicate_dep debug_profile std_order duplicate_graph
           "b" (make_node "b" ["a"%string; "a"%string])).
  - intros k n. unfold duplicate_graph. simpl. rewrite lookup_insert_Some.
    intros [[<- <-]|[_ Hl]]; [done|].
    by apply lookup_insert_Some in Hl as [[<- <-]|[_ Hl]].
  - intros k n Hn. apply elem_of_map_to_list in Hn. vm_compute in Hn.
    apply list_elem_of_In in Hn. destruct Hn as [E|[E|[]]]; injection E as <- <-; done.
  - apply (@has_cycle_false duplicate_graph std_order). by vm_compute.
  - done.
  - vm_compute. inversion 1 as [|? ? Hx]. apply Hx. apply list_elem_of_here.
Defined.
