(* ===== verification/Executor.v ===== *)
(** The DAG executor and the runtime mutation of the graph:
    src/src/dag/executor.rs and src/src/dag/runtime.rs.

    A tick is two critical sections under the write lock of the graph
    ([dispatch] and [collect]) with the tasks running in between. [run] is the
    whole loop; the step relation of Module Interleaving lets the operations of
    [RuntimeDag] run between any two critical sections. What a task returns,
    and the iteration order of the hash map, may differ at every tick. *)

From S2P Require Import Prelude F64 Graph.

Record ExecutionResult := mkExecutionResult {
  er_node_id : string;
  er_result : NodeResult
}.

(** Awaiting the handle of a spawned task: its result, or the text of the
    [JoinError] when it panicked or was cancelled. *)
Definition TaskExecutor : Type := Node -> result string NodeResult.

Record DagExecutor := mkExecutor {
  max_parallel : Z;
  tick_interval_ms : Z
}.

Module Executor.

Definition new (max_parallel : Z) : DagExecutor := mkExecutor max_parallel 50.

(** The loop that marks the chosen nodes and clones them. *)
Fixpoint mark_in_progress (g : DagGraph) (ids : list string) (nodes_to_run : list Node)
    : list Node * DagGraph :=
  match ids with
  | [] => (nodes_to_run, g)
  | id :: rest =>
    match nodes g !! id with
    | Some node =>
      let node := set_status InProgress node in
      mark_in_progress (mkDag (<[id := node]> (nodes g))) rest (nodes_to_run ++ [node])
    | None => mark_in_progress g rest nodes_to_run
    end
  end.

Definition join_error (e : string) : NodeResult :=
  mkNodeResult false "" (Some ("Task panicked: " +:+ e)%string) fzero.

(** Spawning one task and waiting for it. *)
Definition await_task (task_fn : TaskExecutor) (node : Node) : ExecutionResult :=
  mkExecutionResult (n_id node)
    match task_fn node with
    | Ok node_result => node_result
    | Err e => join_error e
    end.

(** Step 4 of a tick: the statuses are updated from the results. *)
Definition apply_result (g : DagGraph) (er : ExecutionResult) : DagGraph :=
  match nodes g !! er_node_id er with
  | Some node =>
    let status := if r_success (er_result er) then Done else Failed in
    mkDag (<[er_node_id er := set_result (Some (er_result er)) (set_status status node)]>
             (nodes g))
  | None => g
  end.

Definition collect (g : DagGraph) (results : list ExecutionResult) : DagGraph :=
  foldl apply_result g results.

Section WithOrder.
Context `{HashOrder}.

(** Step 1 of a tick: up to [max_parallel] ready nodes become InProgress. *)
Definition dispatch (ex : DagExecutor) (g : DagGraph) : list Node * DagGraph :=
  let ready_ids :=
    n_id <$> firstn (Z.to_nat (max_parallel ex)) (DagGraph.ready_nodes g) in
  mark_in_progress g ready_ids [].

Definition execute_tick (ex : DagExecutor) (task_fn : TaskExecutor) (g : DagGraph)
    : list ExecutionResult * DagGraph :=
  let '(nodes_to_run, g1) := dispatch ex g in
  match nodes_to_run with
  | [] => ([], g1)
  | _ =>
    let results := await_task task_fn <$> nodes_to_run in
    (results, collect g1 results)
  end.

End WithOrder.

(** The loop of [run]: tick number [tick] uses the tasks [tasks tick] and the
    iteration order [orders tick]. [None] stands for running out of fuel. *)
Fixpoint run (fuel : nat) (orders : nat -> HashOrder) (tasks : nat -> TaskExecutor)
    (tick : nat) (ex : DagExecutor) (g : DagGraph)
    : option (result string unit * DagGraph) :=
  match fuel with
  | O => None
  | S fuel =>
    let H := orders tick in
    let '(results, g) := execute_tick ex (tasks tick) g in
    if DagGraph.is_complete g then Some (Ok tt, g)
    else if bool_decide (length results = 0%nat)
         && bool_decide (length (DagGraph.ready_nodes g) = 0%nat) then
      if DagGraph.has_failed g then
        Some (Err "DAG has failed nodes with no recovery path"%string, g)
      else Some (Err "DAG is stuck: no ready nodes and not complete"%string, g)
    else run fuel orders tasks (S tick) ex g
  end.

End Executor.

Record DagStats := mkStats {
  st_total : Z;
  st_pending : Z;
  st_in_progress : Z;
  st_done : Z;
  st_failed : Z
}.

Module RuntimeDag.
Section WithOrder.
Context `{HashOrder} `{BuildProfile}.

Definition add_node (g : DagGraph) (node : Node) : result DagError unit * DagGraph :=
  DagGraph.add_node g node.

Definition remove_node (g : DagGraph) (id : string)
    : outcome (result DagError Node * DagGraph) :=
  match DagGraph.get_node g id with
  | None => Ret (Err (NodeNotFound id), g)
  | Some node =>
    if bool_decide (n_status node = InProgress) then Ret (Err (NodeInProgress id), g)
    else if negb (bool_decide (n_status node = Pending)) then
      Ret (Err (NodeInProgress id), g)
    else DagGraph.remove_node g id
  end.

Definition update_dependencies (g : DagGraph) (node_id : string)
    (new_deps : list string) : result DagError unit * DagGraph :=
  match DagGraph.get_node g node_id with
  | None => (Err (NodeNotFound node_id), g)
  | Some node =>
    if negb (bool_decide (n_status node = Pending)) then
      (Err (NodeInProgress node_id), g)
    else
      let old_deps := n_depends_on node in
      let g1 := DagGraph.get_node_mut g node_id (set_depends_on new_deps) in
      if DagGraph.has_cycle g1 then
        (Err (CycleDetected node_id),
         DagGraph.get_node_mut g1 node_id (set_depends_on old_deps))
      else (Ok tt, g1)
  end.

Definition count_status (s : NodeStatus) (st : DagStats) : outcome DagStats :=
  let '(mkStats t p i d f) := st in
  match s with
  | Pending | Blocked => p ← add_u 64 p 1; Ret (mkStats t p i d f)
  | InProgress => i ← add_u 64 i 1; Ret (mkStats t p i d f)
  | Done => d ← add_u 64 d 1; Ret (mkStats t p i d f)
  | Failed => f ← add_u 64 f 1; Ret (mkStats t p i d f)
  end.

Definition count_node (st : DagStats) (node : Node) : outcome DagStats :=
  t ← add_u 64 (st_total st) 1;
  count_status (n_status node)
    (mkStats t (st_pending st) (st_in_progress st) (st_done st) (st_failed st)).

Definition stats (g : DagGraph) : outcome DagStats :=
  foldl (fun acc node => st ← acc; count_node st node)
    (Ret (mkStats 0 0 0 0 0)) (hm_values (nodes g)).

End WithOrder.
End RuntimeDag.

(** * One tick *)

(** The effect of a finished task on its node. *)
Definition finish (er : ExecutionResult) (n : Node) : Node :=
  set_result (Some (er_result er))
    (set_status (if r_success (er_result er) then Done else Failed) n).

(** The effect of a whole tick on a node that it ran. *)
Definition ran (task_fn : TaskExecutor) (n : Node) : Node :=
  finish (Executor.await_task task_fn (set_status InProgress n)) (set_status InProgress n).

Lemma ran_id f n : n_id (ran f n) = n_id n.
Proof. done. Qed.

Lemma ran_depends_on f n : n_depends_on (ran f n) = n_depends_on n.
Proof. done. Qed.

Lemma ran_status f n : n_status (ran f n) = Done \/ n_status (ran f n) = Failed.
Proof. unfold ran, finish. simpl. destruct (r_success _); [by left|by right]. Qed.

Lemma mark_nodes ids : forall g acc,
  (Executor.mark_in_progress g ids acc).1
  = acc ++ omap (fun id => set_status InProgress <$> nodes g !! id) ids.
Proof.
  induction ids as [|id ids IH]; intros g acc; cbn [Executor.mark_in_progress];
    [by rewrite app_nil_r|].
  destruct (nodes g !! id) as [n|] eqn:Hn; simpl; rewrite Hn, IH; [|done].
  simpl. rewrite <- app_assoc. do 2 f_equal.
  apply list_omap_ext, Forall2_same_length_lookup. split; [done|].
  intros i x y Hx Hy. simplify_eq. rewrite lookup_insert.
  case_decide; [|done]. simplify_eq. by rewrite Hn.
Qed.

Lemma mark_lookup ids k : forall g acc,
  nodes (Executor.mark_in_progress g ids acc).2 !! k
  = (if bool_decide (k ∈ ids) then set_status InProgress else fun n => n) <$> nodes g !! k.
Proof.
  induction ids as [|id ids IH]; intros g acc; cbn [Executor.mark_in_progress].
  { simpl. by destruct (nodes g !! k). }
  destruct (nodes g !! id) as [n|] eqn:Hn; rewrite IH; simpl.
  - destruct (decide (id = k)) as [->|Hk].
    + rewrite lookup_insert_eq, Hn,
        (bool_decide_true (k ∈ k :: ids)) by (apply list_elem_of_here).
      simpl. by case_bool_decide.
    + rewrite lookup_insert_ne by done. destruct (nodes g !! k); simpl; [|done].
      do 2 case_bool_decide; set_solver.
  - destruct (decide (id = k)) as [->|Hk]; [by rewrite Hn|].
    destruct (nodes g !! k); simpl; [|done]. do 2 case_bool_decide; set_solver.
Qed.

Lemma collect_notin rs k : forall g,
  k ∉ er_node_id <$> rs -> nodes (Executor.collect g rs) !! k = nodes g !! k.
Proof.
  unfold Executor.collect. induction rs as [|er rs IH]; intros g Hk; [done|].
  rewrite fmap_cons, not_elem_of_cons in Hk. destruct Hk as [Hne Hk]. simpl.
  rewrite IH by done. unfold Executor.apply_result. case_goal; [|done].
  simpl. by rewrite lookup_insert_ne.
Qed.

Lemma collect_in rs er : forall g,
  NoDup (er_node_id <$> rs) -> er ∈ rs ->
  nodes (Executor.collect g rs) !! er_node_id er
  = finish er <$> nodes g !! er_node_id er.
Proof.
  induction rs as [|er' rs IH]; intros g Hnd Hin; [by apply elem_of_nil in Hin|].
  rewrite fmap_cons, NoDup_cons in Hnd. destruct Hnd as [Hn Hnd].
  change (Executor.collect g (er' :: rs))
    with (Executor.collect (Executor.apply_result g er') rs).
  apply elem_of_cons in Hin as [->|Hin].
  - rewrite collect_notin by done. unfold Executor.apply_result.
    destruct (nodes g !! er_node_id er') eqn:E; [|by rewrite E].
    simpl. by rewrite lookup_insert_eq.
  - rewrite IH by done. unfold Executor.apply_result. case_goal; [|done].
    simpl. rewrite lookup_insert_ne; [done|]. intros E'. apply Hn. rewrite E'.
    by apply list_elem_of_fmap_2.
Qed.

Section Tick.
Context `{HashOrder}.

(** The nodes that a tick runs. *)
Definition chosen (ex : DagExecutor) (g : DagGraph) : list Node :=
  firstn (Z.to_nat (max_parallel ex)) (DagGraph.ready_nodes g).

Lemma chosen_ready ex g n :
  n ∈ chosen ex g ->
  (exists k, nodes g !! k = Some n) /\ DagGraph.is_ready g n = true.
Proof.
  intros Hn. apply elem_of_ready_nodes. apply list_elem_of_In in Hn.
  apply list_elem_of_In. unfold chosen in Hn.
  rewrite <- (firstn_skipn (Z.to_nat (max_parallel ex))). apply in_or_app. by left.
Qed.

Lemma chosen_lookup ex g n :
  wf_keys g -> n ∈ chosen ex g -> nodes g !! n_id n = Some n.
Proof. intros Hwf [[k Hk] _]%chosen_ready. by rewrite (Hwf k n Hk). Qed.

Lemma NoDup_chosen_ids ex g : wf_keys g -> NoDup (n_id <$> chosen ex g).
Proof.
  intros Hwf. pose proof (NoDup_ready_ids g Hwf) as Hnd. unfold chosen.
  rewrite <- (firstn_skipn (Z.to_nat (max_parallel ex)) (DagGraph.ready_nodes g)),
    fmap_app in Hnd.
  by apply NoDup_app in Hnd as [? _].
Qed.

Lemma chosen_nil ex g :
  0 < max_parallel ex -> chosen ex g = [] -> DagGraph.ready_nodes g = [].
Proof.
  unfold chosen. intros Hp. destruct (DagGraph.ready_nodes g); [done|].
  destruct (Z.to_nat (max_parallel ex)) eqn:E; [lia|done].
Qed.

Lemma dispatch_spec ex g :
  wf_keys g ->
  (Executor.dispatch ex g).1 = set_status InProgress <$> chosen ex g
  /\ forall k, nodes (Executor.dispatch ex g).2 !! k
       = (if bool_decide (k ∈ n_id <$> chosen ex g)
          then set_status InProgress else fun n => n) <$> nodes g !! k.
Proof.
  intros Hwf. unfold Executor.dispatch. fold (chosen ex g).
  split; [|intros k; apply mark_lookup]. rewrite mark_nodes. simpl.
  assert (Hl : forall n, n ∈ chosen ex g -> nodes g !! n_id n = Some n)
    by (intros; by eapply chosen_lookup).
  induction (chosen ex g) as [|n l IH]; [done|]. rewrite !fmap_cons. simpl.
  rewrite (Hl n) by (apply list_elem_of_here). simpl. f_equal. apply IH.
  intros m Hm. apply Hl. by apply list_elem_of_further.
Qed.

(** A tick runs exactly the chosen nodes and leaves the others alone. *)
Lemma tick_spec ex f g :
  wf_keys g ->
  (Executor.execute_tick ex f g).1
    = (fun n => Executor.await_task f (set_status InProgress n)) <$> chosen ex g
  /\ (forall n, n ∈ chosen ex g ->
        nodes (Executor.execute_tick ex f g).2 !! n_id n = Some (ran f n))
  /\ forall k, k ∉ n_id <$> chosen ex g ->
        nodes (Executor.execute_tick ex f g).2 !! k = nodes g !! k.
Proof.
  intros Hwf. destruct (dispatch_spec ex g Hwf) as [Hns Hg].
  pose proof (NoDup_chosen_ids ex g Hwf) as Hnd.
  unfold Executor.execute_tick. destruct (Executor.dispatch ex g) as [ns g1].
  simpl in *. destruct (decide (chosen ex g = [])) as [E|E].
  { rewrite E in *. simpl in Hns. subst ns. simpl. split_and!; [done| |].
    - by intros n Hn%elem_of_nil.
    - intros k _. rewrite Hg. simpl. by destruct (nodes g !! k). }
  set (rs := Executor.await_task f <$> ns).
  assert (match ns with [] => ([], g1) | _ => (rs, Executor.collect g1 rs) end
          = (rs, Executor.collect g1 rs)) as ->.
  { destruct ns; [|done]. symmetry in Hns. by apply fmap_nil_inv in Hns. }
  assert (Hids : er_node_id <$> rs = n_id <$> chosen ex g).
  { unfold rs. rewrite Hns, <- !list_fmap_compose. done. }
  simpl. split_and!.
  - unfold rs. by rewrite Hns, <- list_fmap_compose.
  - intros n Hn.
    set (er := Executor.await_task f (set_status InProgress n)).
    change (n_id n) with (er_node_id er).
    rewrite collect_in; [|by rewrite Hids|].
    + rewrite Hg. simpl. rewrite (chosen_lookup ex g n), bool_decide_true by
        (done || by apply list_elem_of_fmap_2). done.
    + unfold rs, er. rewrite Hns. do 2 apply list_elem_of_fmap_2. done.
  - intros k Hk. rewrite collect_notin by (by rewrite Hids). rewrite Hg.
    rewrite bool_decide_false by done. by destruct (nodes g !! k).
Qed.

End Tick.

(** * The whole loop *)

(** The number of pending nodes: every tick that runs something lowers it. *)
Definition pending_count (g : DagGraph) : nat :=
  size (filter (fun kn => n_status kn.2 = Pending) (nodes g)).

(** [g'] comes from [g] by running pending nodes to completion, each after its
    dependencies. *)
Definition progress (g g' : DagGraph) : Prop :=
  (forall k, is_Some (nodes g !! k) <-> is_Some (nodes g' !! k))
  /\ forall k n, nodes g !! k = Some n -> exists n', nodes g' !! k = Some n'
    /\ n_id n' = n_id n /\ n_depends_on n' = n_depends_on n
    /\ (n' = n
        \/ n_status n = Pending /\ (n_status n' = Done \/ n_status n' = Failed)
           /\ is_Some (n_result n')
           /\ forall d, d ∈ n_depends_on n -> DagGraph.dep_done g' d = true).

Lemma progress_refl g : progress g g.
Proof. split; [done|]. intros k n Hn. exists n. naive_solver. Qed.

Lemma progress_dep_done g g' d :
  progress g g' -> DagGraph.dep_done g d = true -> DagGraph.dep_done g' d = true.
Proof.
  intros [_ Hp]. rewrite !dep_done_true. intros (n & Hn & Hd).
  destruct (Hp d n Hn) as (n' & Hn' & _ & _ & [->|(Hpe & _)]); [by exists n|].
  congruence.
Qed.

Lemma progress_trans g1 g2 g3 : progress g1 g2 -> progress g2 g3 -> progress g1 g3.
Proof.
  intros H12 H23. split; [intros k; by rewrite (proj1 H12), (proj1 H23)|].
  intros k n Hn. destruct (proj2 H12 k n Hn) as (n2 & Hn2 & Hi2 & Hd2 & Hc2).
  destruct (proj2 H23 k n2 Hn2) as (n3 & Hn3 & Hi3 & Hd3 & Hc3).
  exists n3. split_and!; [done|congruence..|].
  destruct Hc2 as [->|(Hp & Hs & Hr & Hdeps)]; [done|].
  right. destruct Hc3 as [->|(Hp3 & _)]; [|destruct Hs; congruence].
  split_and!; [done..|]. intros d Hd. eapply progress_dep_done; [done|by apply Hdeps].
Qed.

Lemma progress_wf g g' : progress g g' -> wf_keys g -> wf_keys g'.
Proof.
  intros [Hk Hp] Hwf k n' Hn'.
  destruct (proj2 (Hk k) (mk_is_Some _ _ Hn')) as [n Hn].
  destruct (Hp k n Hn) as (m & Hm & Hi & _). simplify_eq. rewrite Hi. by apply Hwf.
Qed.

Lemma progress_shape g g' : progress g g' -> same_shape g' g.
Proof.
  intros [Hk Hp] k. destruct (nodes g !! k) as [n|] eqn:Hn.
  - destruct (Hp k n Hn) as (m & -> & _ & Hd & _). simpl. by rewrite Hd.
  - destruct (nodes g' !! k) eqn:Hn'; [|done].
    destruct (proj2 (Hk k)) as [? Hs]; [by eexists|]. congruence.
Qed.

Lemma tick_progress `{HashOrder} ex f g :
  wf_keys g -> progress g (Executor.execute_tick ex f g).2.
Proof.
  intros Hwf. destruct (tick_spec ex f g Hwf) as (_ & Hin & Hout).
  set (g' := (Executor.execute_tick ex f g).2) in *.
  assert (Hcase : forall k n, nodes g !! k = Some n ->
    n ∈ chosen ex g /\ nodes g' !! k = Some (ran f n)
    \/ nodes g' !! k = Some n).
  { intros k n Hn. destruct (decide (k ∈ n_id <$> chosen ex g)) as [Hk|Hk].
    - apply list_elem_of_fmap in Hk as (m & -> & Hm).
      rewrite (chosen_lookup ex g m Hwf Hm) in Hn. simplify_eq. left. auto.
    - right. by rewrite Hout. }
  assert (Hkey : forall k, is_Some (nodes g !! k) <-> is_Some (nodes g' !! k)).
  { intros k. split; intros [n Hn].
    - destruct (Hcase k n Hn) as [[_ ->]| ->]; by eexists.
    - destruct (decide (k ∈ n_id <$> chosen ex g)) as [Hk|Hk].
      + apply list_elem_of_fmap in Hk as (m & -> & Hm).
        rewrite (chosen_lookup ex g m Hwf Hm). by eexists.
      + rewrite <- Hout by done. by eexists. }
  split; [done|]. intros k n Hn.
  destruct (Hcase k n Hn) as [[Hch Hn']|Hn']; [|exists n; naive_solver].
  destruct (chosen_ready ex g n Hch) as [_ [Hst Hdeps]%is_ready_true].
  exists (ran f n). split_and!; [done..|]. right.
  split_and!; [done|apply ran_status|by eexists|].
  intros d Hd. apply Hdeps, dep_done_true in Hd as (m & Hm & Hdone).
  apply dep_done_true. exists m. split; [|done].
  destruct (Hcase d m Hm) as [[Hcm _]|Hm']; [|done].
  apply chosen_ready in Hcm as [_ [Hp _]%is_ready_true]. congruence.
Qed.

Lemma progress_pending g g' :
  progress g g' ->
  filter (fun kn => n_status kn.2 = Pending) (nodes g')
  ⊆ filter (fun kn => n_status kn.2 = Pending) (nodes g).
Proof.
  intros [Hk Hp]. apply map_subseteq_spec. intros k n'.
  rewrite !map_lookup_filter_Some. simpl. intros [Hn' Hs].
  destruct (proj2 (Hk k) (mk_is_Some _ _ Hn')) as [n Hn].
  destruct (Hp k n Hn) as (m & Hm & _ & _ & [->|(_ & [Hd|Hd] & _)]); simplify_eq;
    [done|congruence..].
Qed.

(** A tick that runs something lowers the number of pending nodes. *)
Lemma tick_pending `{HashOrder} ex f g :
  wf_keys g -> chosen ex g <> [] ->
  (pending_count (Executor.execute_tick ex f g).2 < pending_count g)%nat.
Proof.
  intros Hwf Hne. apply map_subset_size, map_subset_alt.
  split; [by apply progress_pending, tick_progress|].
  destruct (chosen ex g) as [|n l] eqn:Hch; [done|].
  assert (Hin : n ∈ chosen ex g) by (rewrite Hch; apply list_elem_of_here).
  destruct (chosen_ready ex g n Hin) as [_ [Hst _]%is_ready_true].
  exists (n_id n). split.
  - apply map_lookup_filter_None_2. right. intros m.
    destruct (tick_spec ex f g Hwf) as (_ & Hr & _). rewrite (Hr n Hin).
    intros [= <-]. destruct (ran_status f n) as [E|E]; cbn [snd]; by rewrite E.
  - exists n. apply map_lookup_filter_Some. split; [by apply chosen_lookup with ex|done].
Qed.

Lemma tick_idle `{HashOrder} ex f g :
  wf_keys g -> chosen ex g = [] ->
  (Executor.execute_tick ex f g).1 = [] /\ nodes (Executor.execute_tick ex f g).2 = nodes g.
Proof.
  intros Hwf E. destruct (tick_spec ex f g Hwf) as (Hr & _ & Hout).
  rewrite E in *. split; [done|]. apply map_eq. intros k. apply Hout.
  simpl. apply not_elem_of_nil.
Qed.

(** What the loop establishes about the final graph. *)
Definition run_post (r : result string unit) (g' : DagGraph) : Prop :=
  let finished := nodes g' <> ∅ /\ forall k n, nodes g' !! k = Some n -> n_status n = Done in
  let failed := exists k n, nodes g' !! k = Some n /\ n_status n = Failed in
  match r with
  | Ok _ => finished
  | Err e => ~ finished
      /\ (forall k n, nodes g' !! k = Some n -> DagGraph.is_ready g' n = false)
      /\ (failed /\ e = "DAG has failed nodes with no recovery path"%string
          \/ ~ failed /\ e = "DAG is stuck: no ready nodes and not complete"%string)
  end.

Lemma ready_nodes_nil `{HashOrder} g :
  DagGraph.ready_nodes g = []
  <-> forall k n, nodes g !! k = Some n -> DagGraph.is_ready g n = false.
Proof.
  split.
  - intros E k n Hn. apply not_true_iff_false. intros Hr.
    assert (n ∈ DagGraph.ready_nodes g) as Hin
      by (apply elem_of_ready_nodes; split; [by exists k|done]).
    rewrite E in Hin. by apply elem_of_nil in Hin.
  - intros Hall. destruct (DagGraph.ready_nodes g) as [|n l] eqn:E; [done|].
    assert (n ∈ DagGraph.ready_nodes g) as [[k Hk] Hr]%elem_of_ready_nodes
      by (rewrite E; apply list_elem_of_here).
    rewrite (Hall k n Hk) in Hr. done.
Qed.

Section Run.
Context (orders : nat -> HashOrder) (tasks : nat -> TaskExecutor) (ex : DagExecutor).

(** One iteration of the loop: it stops with the right answer or goes on with
    fewer pending nodes. *)
Lemma run_step fuel t g :
  0 < max_parallel ex -> wf_keys g ->
  let g1 := (@Executor.execute_tick (orders t) ex (tasks t) g).2 in
  (exists r, Executor.run (S fuel) orders tasks t ex g = Some (r, g1) /\ run_post r g1)
  \/ Executor.run (S fuel) orders tasks t ex g = Executor.run fuel orders tasks (S t) ex g1
     /\ (pending_count g1 < pending_count g)%nat.
Proof.
  intros Hmp Hwf g1. cbn [Executor.run].
  pose proof (@tick_spec (orders t) ex (tasks t) g Hwf) as (Hrs & _ & _).
  pose proof (@tick_pending (orders t) ex (tasks t) g Hwf) as Hlt.
  pose proof (@tick_idle (orders t) ex (tasks t) g Hwf) as Hidle.
  fold g1 in Hlt, Hidle. subst g1.
  destruct (@Executor.execute_tick (orders t) ex (tasks t) g) as [rs g1]. simpl in *.
  destruct (@DagGraph.is_complete (orders t) g1) eqn:Hc.
  { left. eexists. split; [done|]. by apply is_complete_true in Hc. }
  apply not_true_iff_false in Hc. rewrite is_complete_true in Hc.
  destruct (decide (@chosen (orders t) ex g = [])) as [E|E].
  - destruct (Hidle E) as [-> Hg].
    assert (Hrd : forall k n, nodes g1 !! k = Some n -> DagGraph.is_ready g1 n = false).
    { assert (g1 = g) as -> by (destruct g1, g; simpl in *; by subst).
      apply (@ready_nodes_nil (orders t)), (@chosen_nil (orders t) ex); done. }
    rewrite (proj2 (@ready_nodes_nil (orders t) g1) Hrd). simpl. left.
    destruct (@DagGraph.has_failed (orders t) g1) eqn:Hf.
    + apply has_failed_true in Hf. eexists. split; [done|]. split_and!; eauto.
    + apply not_true_iff_false in Hf. rewrite has_failed_true in Hf.
      eexists. split; [done|]. split_and!; eauto.
  - right. assert (length rs <> 0%nat) as Hl.
    { rewrite Hrs, length_fmap. by destruct (@chosen (orders t) ex g). }
    rewrite bool_decide_false by done. simpl. split; [done|]. by apply Hlt.
Qed.

Lemma run_spec fuel : forall t g,
  0 < max_parallel ex -> wf_keys g -> (pending_count g < fuel)%nat ->
  exists r g', Executor.run fuel orders tasks t ex g = Some (r, g')
    /\ progress g g' /\ run_post r g'.
Proof.
  induction fuel as [|fuel IH]; intros t g Hmp Hwf Hf; [lia|].
  pose proof (@tick_progress (orders t) ex (tasks t) g Hwf) as Hp.
  destruct (run_step fuel t g Hmp Hwf) as [(r & Hr & Hpost)|[-> Hlt]].
  - eauto.
  - edestruct (IH (S t) (@Executor.execute_tick (orders t) ex (tasks t) g).2)
      as (r & g' & Hr & Hp' & Hpost); [done| |lia|].
    + by eapply progress_wf.
    + exists r, g'. split_and!; [done|by eapply progress_trans|done].
Qed.

(** A property that every tick keeps holds at the end. *)
Lemma run_invariant (I : DagGraph -> Prop) :
  (forall t g, I g -> I (@Executor.execute_tick (orders t) ex (tasks t) g).2) ->
  forall fuel t g r g', I g -> Executor.run fuel orders tasks t ex g = Some (r, g') -> I g'.
Proof.
  intros Hstep. induction fuel as [|fuel IH]; intros t g r g' Hi; [done|].
  cbn [Executor.run]. pose proof (Hstep t g Hi) as Hi1.
  destruct (@Executor.execute_tick (orders t) ex (tasks t) g) as [rs g1]. simpl in Hi1.
  repeat case_goal; intros Hr; first [by simplify_eq | by eapply IH].
Qed.

End Run.

(** Only pending and finished nodes. *)
Definition fresh (g : DagGraph) : Prop :=
  forall k n, nodes g !! k = Some n -> n_status n = Pending \/ n_status n = Done.

(** In an acyclic graph without dangling dependencies, some pending node is
    ready unless every node is done. *)
Lemma exists_ready g k n :
  acyclic g -> closed g -> fresh g -> nodes g !! k = Some n -> n_status n = Pending ->
  exists k' n', nodes g !! k' = Some n' /\ DagGraph.is_ready g n' = true.
Proof.
  intros Hac Hcl Hfr. revert n.
  induction (acyclic_safe g Hac k) as [k _ IH]. intros n Hn Hs.
  destruct (DagGraph.is_ready g n) eqn:Hr; [by eauto|].
  unfold DagGraph.is_ready in Hr. rewrite bool_decide_true in Hr by done. simpl in Hr.
  apply not_true_iff_false in Hr. rewrite forallb_forall in Hr.
  assert (exists d, d ∈ n_depends_on n /\ DagGraph.dep_done g d = false) as (d & Hd & Hf).
  { destruct (existsb (fun d => negb (DagGraph.dep_done g d)) (n_depends_on n)) eqn:He.
    - apply existsb_exists in He as (d & Hd & Hb). exists d. split_bools.
      by rewrite list_elem_of_In.
    - exfalso. apply Hr. intros d Hd. destruct (DagGraph.dep_done g d) eqn:E; [done|].
      apply not_true_iff_false in He. exfalso. apply He, existsb_exists. exists d.
      by rewrite E. }
  destruct (Hcl k n d Hn Hd) as [m Hm].
  unfold DagGraph.dep_done in Hf. rewrite Hm in Hf. split_bools.
  destruct (Hfr d m Hm) as [Hp|]; [|done].
  eapply IH; [|done|done]. exists n. split_and!; [done|done|by eexists].
Qed.

Lemma progress_closed g g' : progress g g' -> closed g -> closed g'.
Proof.
  intros Hp Hcl k n' d Hn' Hd. destruct Hp as [Hk Hp].
  destruct (proj2 (Hk k) (mk_is_Some _ _ Hn')) as [n Hn].
  destruct (Hp k n Hn) as (m & Hm & _ & Hdeps & _). simplify_eq.
  apply Hk. eapply Hcl; [done|]. by rewrite <- Hdeps.
Qed.

(** A tick in which every task succeeds leaves no failed node behind. *)
Lemma tick_fresh `{HashOrder} ex f g :
  (forall n, exists r, f n = Ok r /\ r_success r = true) ->
  wf_keys g -> fresh g -> fresh (Executor.execute_tick ex f g).2.
Proof.
  intros Hf Hwf Hfr k n. destruct (tick_spec ex f g Hwf) as (_ & Hin & Hout).
  destruct (decide (k ∈ n_id <$> chosen ex g)) as [Hk|Hk].
  - apply list_elem_of_fmap in Hk as (m & -> & Hm). rewrite (Hin m Hm).
    intros [= <-]. right. unfold ran, finish, Executor.await_task. simpl.
    destruct (Hf (set_status InProgress m)) as (r & -> & Hr). by rewrite Hr.
  - rewrite Hout by done. apply Hfr.
Qed.

(** * Interleaving with runtime mutation *)

Module Interleaving.

(** The executor is between ticks, or waits for the tasks of some nodes. *)
Inductive phase :=
| Idle
| Running (nodes_to_run : list Node).

Record sys := mkSys { sys_graph : DagGraph; sys_phase : phase }.

Definition phase_of (ns : list Node) : phase :=
  match ns with [] => Idle | _ => Running ns end.

Definition running (p : phase) : list Node :=
  match p with Idle => [] | Running ns => ns end.

(** One critical section of the executor or of [RuntimeDag]; the callers of
    [add_node] pass nodes that satisfy [adds], the code itself takes any. *)
Inductive step (adds : Node -> Prop) (ex : DagExecutor) : sys -> sys -> Prop :=
| step_dispatch (o : HashOrder) g :
    step adds ex (mkSys g Idle)
      (mkSys (Executor.dispatch ex g).2 (phase_of (Executor.dispatch ex g).1))
| step_collect f g ns :
    step adds ex (mkSys g (Running ns))
      (mkSys (Executor.collect g (Executor.await_task f <$> ns)) Idle)
| step_add (o : HashOrder) g p node :
    adds node ->
    step adds ex (mkSys g p) (mkSys (RuntimeDag.add_node g node).2 p)
| step_remove (o : HashOrder) g p id r g' :
    RuntimeDag.remove_node g id = Ret (r, g') ->
    step adds ex (mkSys g p) (mkSys g' p)
| step_update (o : HashOrder) g p id deps :
    step adds ex (mkSys g p) (mkSys (RuntimeDag.update_dependencies g id deps).2 p).

(** Callers that add only nodes that have not been started. *)
Definition unstarted (n : Node) : Prop := n_status n = Pending.

(** A node that has been given to a task at some point. *)
Definition started (n : Node) : Prop :=
  n_status n = InProgress \/ n_status n = Done \/ n_status n = Failed.

Record inv (s : sys) : Prop := {
  inv_wf : wf_keys (sys_graph s);
  inv_acyclic : acyclic (sys_graph s);
  inv_deps : forall k n, nodes (sys_graph s) !! k = Some n -> started n ->
    forall d, d ∈ n_depends_on n -> DagGraph.dep_done (sys_graph s) d = true;
  inv_running : forall m, m ∈ running (sys_phase s) ->
    exists n, nodes (sys_graph s) !! n_id m = Some n /\ n_status n = InProgress;
  inv_in_progress : forall k n, nodes (sys_graph s) !! k = Some n ->
    n_status n = InProgress -> k ∈ n_id <$> running (sys_phase s);
  inv_nodup : NoDup (n_id <$> running (sys_phase s))
}.

(** Finished nodes are never changed or removed. *)
Definition done_stable (g g' : DagGraph) : Prop :=
  forall k n, nodes g !! k = Some n -> n_status n = Done -> nodes g' !! k = Some n.

Lemma done_stable_dep g g' d :
  done_stable g g' -> DagGraph.dep_done g d = true -> DagGraph.dep_done g' d = true.
Proof.
  intros Hs. rewrite !dep_done_true. intros (n & Hn & Hd). exists n. split; [|done].
  by apply Hs.
Qed.

End Interleaving.

Section RuntimeOps.
Context `{HashOrder}.

(** What [update_dependencies] does when it succeeds, and that a refusal
    changes nothing: the rollback restores the graph. *)
Lemma update_deps_cases g id deps :
  wf_keys g -> acyclic g ->
  match RuntimeDag.update_dependencies g id deps with
  | (Ok _, g') => exists n, nodes g !! id = Some n /\ n_status n = Pending
      /\ g' = mkDag (<[id := set_depends_on deps n]> (nodes g)) /\ acyclic g'
  | (Err _, g') => g' = g
  end.
Proof.
  intros Hwf Hac. unfold RuntimeDag.update_dependencies, DagGraph.get_node.
  destruct (nodes g !! id) as [n|] eqn:Hn; [|done].
  case_bool_decide as Hs; simpl; [|done].
  rewrite (get_node_mut_some g id _ n) by done.
  destruct (DagGraph.has_cycle _) eqn:Hc; cbn [snd].
  - erewrite get_node_mut_some by (simpl; apply lookup_insert_eq). cbn [nodes].
    rewrite insert_insert_eq, insert_id; [by destruct g|].
    rewrite Hn. by destruct n.
  - apply has_cycle_false in Hc. by exists n.
Qed.

(** [update_dependencies] on a well-formed acyclic graph changes only the
    dependencies of a pending node, and only when that closes no cycle. In
    every other case it reports the matching error and the graph is exactly
    what it was: the rollback restores it. *)
Theorem update_dependencies_spec g id deps :
  wf_keys g -> acyclic g ->
  match RuntimeDag.update_dependencies g id deps with
  | (Ok _, g') => exists n, nodes g !! id = Some n /\ n_status n = Pending
      /\ g' = mkDag (<[id := set_depends_on deps n]> (nodes g))
      /\ wf_keys g' /\ acyclic g'
  | (Err (NodeNotFound i), g') => i = id /\ nodes g !! id = None /\ g' = g
  | (Err (NodeInProgress i), g') => i = id /\ g' = g
      /\ exists n, nodes g !! id = Some n /\ n_status n <> Pending
  | (Err (CycleDetected i), g') => i = id /\ g' = g
      /\ exists n, nodes g !! id = Some n
           /\ cyclic (mkDag (<[id := set_depends_on deps n]> (nodes g)))
  | (Err _, _) => False
  end.
Proof.
  intros Hwf Hac. unfold RuntimeDag.update_dependencies, DagGraph.get_node.
  destruct (nodes g !! id) as [n|] eqn:Hn; [|done].
  case_bool_decide as Hs; simpl; [|split_and!; eauto].
  assert (Hg1 : DagGraph.get_node_mut g id (set_depends_on deps)
    = mkDag (<[id := set_depends_on deps n]> (nodes g))).
  { by apply get_node_mut_some. }
  destruct (DagGraph.has_cycle _) eqn:Hc.
  - apply has_cycle_true in Hc. rewrite Hg1 in *. split_and!; [done| |by exists n].
    unfold DagGraph.get_node_mut. simpl. destruct g as [ns]. f_equal. simpl in *.
    apply map_eq. intros k. rewrite lookup_alter. case_decide as Hk.
    + subst k. rewrite lookup_insert_eq, Hn. simpl. f_equal. by destruct n.
    + by rewrite lookup_insert_ne.
  - apply has_cycle_false in Hc. exists n. split_and!; [done..| |done].
    by apply wf_keys_alter.
Qed.

End RuntimeOps.

(** * The interleaving keeps the graph consistent *)

Section Preservation.
Import Interleaving.
Context (ex : DagExecutor).

(** Changing a node that is not done, keeping its id. *)
Lemma done_stable_insert g k n n' :
  nodes g !! k = Some n -> n_status n <> Done ->
  done_stable g (mkDag (<[k := n']> (nodes g))).
Proof.
  intros Hn Hs j m Hm Hd. simpl. rewrite lookup_insert_ne; [done|].
  intros ->. congruence.
Qed.

Lemma dispatch_done_stable `{HashOrder} g :
  wf_keys g -> done_stable g (Executor.dispatch ex g).2.
Proof.
  intros Hwf k n Hn Hd. destruct (dispatch_spec ex g Hwf) as [_ ->]. rewrite Hn.
  case_bool_decide as Hk; [|done].
  apply list_elem_of_fmap in Hk as (m & -> & Hm).
  rewrite (chosen_lookup ex g m Hwf Hm) in Hn. simplify_eq.
  apply chosen_ready in Hm as [_ [Hp _]%is_ready_true]. congruence.
Qed.

Lemma inv_dispatch (o : HashOrder) g :
  inv (mkSys g Idle) ->
  inv (mkSys (Executor.dispatch ex g).2 (phase_of (Executor.dispatch ex g).1)).
Proof.
  intros [Hwf Hac Hdeps _ Hip _]. simpl in *.
  pose proof (dispatch_done_stable g Hwf) as Hst.
  destruct (dispatch_spec ex g Hwf) as [Hns Hg].
  assert (Hrun : running (phase_of (Executor.dispatch ex g).1)
    = set_status InProgress <$> chosen ex g)
    by (rewrite Hns; by destruct (set_status InProgress <$> chosen ex g)).
  split; simpl; rewrite ?Hrun.
  - intros k n. rewrite Hg. destruct (nodes g !! k) as [m|] eqn:Hm; [|done].
    simpl. intros [= <-]. case_bool_decide; by apply (Hwf k m).
  - eapply acyclic_proper; [|exact Hac]. intros k. rewrite Hg.
    destruct (nodes g !! k); simpl; [|done]. by case_bool_decide.
  - intros k n. rewrite Hg. destruct (nodes g !! k) as [m|] eqn:Hm; [|done].
    simpl. intros [= <-] Hsn d Hd. eapply done_stable_dep; [done|].
    case_bool_decide as Hk; [|by eapply Hdeps].
    apply list_elem_of_fmap in Hk as (m' & -> & Hm').
    rewrite (chosen_lookup ex g m' Hwf Hm') in Hm. simplify_eq.
    apply chosen_ready in Hm' as [_ [_ Hr]%is_ready_true]. by apply Hr.
  - intros m (n & -> & Hn)%list_elem_of_fmap. change (n_id (set_status _ n)) with (n_id n).
    rewrite Hg, (chosen_lookup ex g n Hwf Hn), bool_decide_true
      by (by apply list_elem_of_fmap_2).
    by eexists.
  - intros k n. rewrite Hg. destruct (nodes g !! k) as [m|] eqn:Hm; [|done].
    rewrite <- list_fmap_compose. simpl. intros [= <-].
    case_bool_decide as Hk; [done|]. intros Hs. exfalso.
    specialize (Hip k m Hm Hs). by apply elem_of_nil in Hip.
  - rewrite <- list_fmap_compose. by apply NoDup_chosen_ids.
Qed.

Lemma collect_done_stable g f ns :
  inv (mkSys g (Running ns)) ->
  done_stable g (Executor.collect g (Executor.await_task f <$> ns)).
Proof.
  intros [_ _ _ Hr _ _] k n Hn Hd. rewrite collect_notin; [done|].
  rewrite <- list_fmap_compose. intros (m & -> & Hm)%list_elem_of_fmap.
  destruct (Hr m Hm) as (n' & Hn' & Hs). simpl in *. congruence.
Qed.

Lemma inv_collect f g ns :
  inv (mkSys g (Running ns)) ->
  inv (mkSys (Executor.collect g (Executor.await_task f <$> ns)) Idle).
Proof.
  intros Hinv. pose proof (collect_done_stable g f ns Hinv) as Hst.
  destruct Hinv as [Hwf Hac Hdeps Hr Hip Hnd]. simpl in *.
  assert (Hids : er_node_id <$> (Executor.await_task f <$> ns) = n_id <$> ns)
    by (by rewrite <- list_fmap_compose).
  set (g' := Executor.collect g (Executor.await_task f <$> ns)) in *.
  assert (Hcase : forall k n', nodes g' !! k = Some n' -> exists n, nodes g !! k = Some n
    /\ n_id n' = n_id n /\ n_depends_on n' = n_depends_on n
    /\ (n' = n /\ k ∉ n_id <$> ns
        \/ n_status n = InProgress /\ n_status n' <> InProgress)).
  { intros k n' Hn'. destruct (decide (k ∈ n_id <$> ns)) as [Hk|Hk].
    - apply list_elem_of_fmap in Hk as (m & -> & Hm).
      destruct (Hr m Hm) as (n & Hn & Hs). exists n. unfold g' in Hn'.
      change (n_id m) with (er_node_id (Executor.await_task f m)) in Hn'.
      rewrite collect_in in Hn' by (rewrite ?Hids; first [done|by apply list_elem_of_fmap_2]).
      simpl in Hn'. rewrite Hn in Hn'. injection Hn' as <-.
      split_and!; [done..|]. right. split; [done|]. unfold finish. simpl.
      by destruct (r_success _).
    - exists n'. unfold g' in Hn'. rewrite collect_notin in Hn' by (by rewrite Hids).
      split_and!; auto. }
  split; simpl.
  - intros k n' Hn'. destruct (Hcase k n' Hn') as (n & Hn & -> & _). by apply Hwf.
  - eapply acyclic_sub; [|exact Hac]. intros x y (n' & Hn' & Hy & m' & Hm').
    destruct (Hcase x n' Hn') as (n & Hn & _ & Hd & _).
    destruct (Hcase y m' Hm') as (m & Hm & _). exists n.
    rewrite <- Hd. split_and!; [done..|by eexists].
  - intros k n' Hn' Hs d Hd. eapply done_stable_dep; [done|].
    destruct (Hcase k n' Hn') as (n & Hn & _ & Hdn & Hc). rewrite Hdn in Hd.
    eapply Hdeps; [done| |done].
    destruct Hc as [[-> _]|[Hs' _]]; [done|by left].
  - intros m Hm. by apply elem_of_nil in Hm.
  - intros k n' Hn' Hs. exfalso.
    destruct (Hcase k n' Hn') as (n & Hn & _ & _ & [[-> Hk]|[_ Hs']]); [|done].
    by apply Hk, (Hip k n).
  - apply NoDup_nil_2.
Qed.

(** A change of the graph that leaves the started nodes alone. *)
Lemma inv_frame g g' p :
  inv (mkSys g p) -> wf_keys g' -> acyclic g' ->
  (forall k n, started n -> nodes g !! k = Some n <-> nodes g' !! k = Some n) ->
  done_stable g g' /\ inv (mkSys g' p).
Proof.
  intros [Hwf Hac Hdeps Hr Hip Hnd] Hwf' Hac' Hs. simpl in *.
  assert (Hst : done_stable g g')
    by (intros k n Hn Hd; apply Hs; [right; by left|done]).
  split; [done|]. split; simpl; [done..| | | |done].
  - intros k n Hn Hsn d Hd. eapply done_stable_dep; [done|].
    eapply Hdeps; [by apply Hs|done..].
  - intros m Hm. destruct (Hr m Hm) as (n & Hn & Hi). exists n.
    split; [|done]. apply Hs; [by left|done].
  - intros k n Hn Hi. apply (Hip k n); [|done]. apply Hs; [by left|done].
Qed.

Lemma not_started_pending n : n_status n = Pending -> ~ started n.
Proof. intros Hp [E|[E|E]]; congruence. Qed.

Lemma started_insert g id n k m :
  (forall n0, nodes g !! id = Some n0 -> n_status n0 = Pending) ->
  n_status n = Pending -> started m ->
  nodes g !! k = Some m <-> <[id := n]> (nodes g) !! k = Some m.
Proof.
  intros Hid Hn Hm. destruct (decide (id = k)) as [->|Hk].
  - rewrite lookup_insert_eq. split; intros E.
    + by destruct (not_started_pending m (Hid m E)).
    + injection E as ->. by destruct (not_started_pending m Hn).
  - by rewrite lookup_insert_ne.
Qed.

(** A step other than those of the executor leaves the started nodes alone
    and keeps the graph well formed and acyclic. *)
Lemma add_frame (o : HashOrder) g node :
  wf_keys g -> acyclic g -> n_status node = Pending ->
  let g' := (RuntimeDag.add_node g node).2 in
  wf_keys g' /\ acyclic g'
  /\ forall k n, started n -> nodes g !! k = Some n <-> nodes g' !! k = Some n.
Proof.
  intros Hwf Hac Hp. unfold RuntimeDag.add_node, DagGraph.add_node.
  destruct (contains_key (nodes g) (n_id node)) eqn:Hk; [done|].
  apply contains_key_false in Hk. case_goal; simpl.
  - rewrite delete_insert_id by done. by destruct g.
  - apply has_cycle_false in E. split_and!; [by apply wf_keys_insert|done|].
    intros k n Hn. apply started_insert; [|done..]. intros n0. congruence.
Qed.

Lemma remove_frame (o : HashOrder) g id r g' :
  wf_keys g -> acyclic g -> RuntimeDag.remove_node g id = Ret (r, g') ->
  wf_keys g' /\ acyclic g'
  /\ forall k n, started n -> nodes g !! k = Some n <-> nodes g' !! k = Some n.
Proof.
  intros Hwf Hac. unfold RuntimeDag.remove_node, DagGraph.get_node, DagGraph.remove_node.
  destruct (nodes g !! id) as [n|] eqn:Hn; [|by intros [= <- <-]].
  do 2 (case_bool_decide; simpl; [|try by intros [= <- <-]]; try by intros [= <- <-]).
  destruct (contains_key _ _); simpl; [|by intros [= <- <-]].
  destruct (DagGraph.has_dependents _ _); intros [= <- <-]; [done|].
  split_and!; [by apply wf_keys_delete|by apply acyclic_delete|].
  intros k m Hm. simpl. destruct (decide (id = k)) as [->|Hk].
  - rewrite lookup_delete_eq. split; [|done]. intros E.
    assert (m = n) as -> by congruence. by destruct (not_started_pending n).
  - by rewrite lookup_delete_ne.
Qed.

Lemma update_frame (o : HashOrder) g id deps :
  wf_keys g -> acyclic g ->
  let g' := (RuntimeDag.update_dependencies g id deps).2 in
  wf_keys g' /\ acyclic g'
  /\ forall k n, started n -> nodes g !! k = Some n <-> nodes g' !! k = Some n.
Proof.
  intros Hwf Hac. unfold RuntimeDag.update_dependencies, DagGraph.get_node.
  destruct (nodes g !! id) as [n|] eqn:Hn; [|done].
  case_bool_decide as Hp; simpl; [|done].
  rewrite (get_node_mut_some g id _ n) by done.
  destruct (DagGraph.has_cycle _) eqn:Hc; cbn [snd].
  - erewrite get_node_mut_some by (simpl; apply lookup_insert_eq). cbn [nodes].
    rewrite insert_insert_eq, insert_id; [by destruct g|].
    rewrite Hn. by destruct n.
  - apply has_cycle_false in Hc.
    pose proof (wf_keys_insert g (set_depends_on deps n) Hwf) as Hw. simpl in Hw.
    rewrite (Hwf id n Hn) in Hw. split_and!; [done|done|].
    intros k m Hm. apply started_insert; [|done..]. intros n0. congruence.
Qed.

Lemma step_inv s s' :
  inv s -> step unstarted ex s s' -> inv s' /\ done_stable (sys_graph s) (sys_graph s').
Proof.
  intros Hi Hs. destruct Hs as [o g|f g ns|o g p node Hp|o g p id r g' Hr|o g p id deps].
  - split; [by apply inv_dispatch|]. apply dispatch_done_stable, Hi.
  - split; [by apply inv_collect|by apply collect_done_stable].
  - destruct (add_frame o g node) as (? & ? & ?); [apply Hi..|done|].
    by destruct (inv_frame _ _ _ Hi H H0 H1).
  - destruct (remove_frame o g id r g') as (? & ? & ?); [apply Hi..|done|].
    by destruct (inv_frame _ _ _ Hi H H0 H1).
  - destruct (update_frame o g id deps) as (? & ? & ?); [apply Hi..|].
    by destruct (inv_frame _ _ _ Hi H H0 H1).
Qed.

Lemma done_stable_trans g1 g2 g3 :
  done_stable g1 g2 -> done_stable g2 g3 -> done_stable g1 g3.
Proof. intros H12 H23 k n Hn Hd. apply H23; [by apply H12|done]. Qed.

Lemma rtc_step_inv s s' :
  rtc (step unstarted ex) s s' -> inv s -> inv s' /\ done_stable (sys_graph s) (sys_graph s').
Proof.
  induction 1 as [s|s1 s2 s3 H12 _ IH]; [intros Hi; split; [done|by intros k n]|].
  intros Hi. destruct (step_inv _ _ Hi H12) as [Hi2 Hst].
  destruct (IH Hi2) as [Hi3 Hst3]. split; [done|]. by eapply done_stable_trans.
Qed.

Lemma inv_initial g :
  wf_keys g -> acyclic g -> (forall k n, nodes g !! k = Some n -> n_status n = Pending) ->
  inv (mkSys g Idle).
Proof.
  intros Hwf Hac Hp. split; simpl; [done..| | | |apply NoDup_nil_2].
  - intros k n Hn Hs. by destruct (not_started_pending n (Hp k n Hn)).
  - intros m Hm. by apply elem_of_nil in Hm.
  - intros k n Hn Hs. rewrite (Hp k n Hn) in Hs. done.
Qed.

End Preservation.

(** * Properties *)

(** C2. With [max_parallel > 0], on a graph that has a node, whose keys are the
    ids of its nodes, that has no cycle and no dependency that is missing, and
    all of whose nodes are Pending or Done: when every task succeeds, [run]
    finishes with [Ok], after at most one tick per pending node and a last one,
    and every node is Done. (An empty graph is reported as
    stuck, and [run_zero_parallel_livelock] shows that with
    [max_parallel = 0] the loop never returns.) *)
Theorem run_all_succeed orders tasks ex g :
  0 < max_parallel ex -> wf_keys g -> acyclic g -> closed g -> fresh g ->
  nodes g <> ∅ ->
  (forall t n, exists r, tasks t n = Ok r /\ r_success r = true) ->
  exists g', Executor.run (S (pending_count g)) orders tasks 0 ex g = Some (Ok tt, g')
    /\ forall k, is_Some (nodes g !! k) ->
         exists n, nodes g' !! k = Some n /\ n_status n = Done.
Proof.
  intros Hmp Hwf Hac Hcl Hfr Hne Htasks.
  destruct (run_spec orders tasks ex (S (pending_count g)) 0 g Hmp Hwf)
    as (r & g' & Hr & Hp & Hpost); [lia|].
  assert (Hfr' : wf_keys g' /\ fresh g').
  { refine (run_invariant orders tasks ex (fun g => wf_keys g /\ fresh g) _
              _ _ _ _ _ (conj Hwf Hfr) Hr).
    intros t g0 [Hw Hf]. split; [by eapply progress_wf, Hw; apply tick_progress|].
    by apply tick_fresh. }
  destruct Hfr' as [_ Hfr'].
  assert (Hall : forall k n, nodes g' !! k = Some n -> n_status n = Done \/ exists e, r = Err e).
  { intros k n Hn. destruct r as [u|e]; [left; by apply (proj2 Hpost k)|right; by exists e]. }
  destruct r as [[]|e].
  - exists g'. split; [done|]. intros k Hk%Hp. destruct Hk as [n Hn]. exists n.
    split; [done|]. by apply (proj2 Hpost k).
  - exfalso. destruct Hpost as (Hnf & Hrd & _).
    apply Hnf. split.
    + intros E. apply Hne, map_empty. intros k. apply eq_None_not_Some.
      intros Hk%Hp. rewrite E, lookup_empty in Hk. by apply is_Some_None in Hk.
    + intros k n Hn. destruct (Hfr' k n Hn) as [Hpe|]; [|done]. exfalso.
      destruct (exists_ready g' k n) as (k' & n' & Hn' & Hr'); [| |done..|].
      * by apply (acyclic_proper _ _ (progress_shape _ _ Hp)).
      * by eapply progress_closed.
      * rewrite (Hrd k' n' Hn') in Hr'. done.
Qed.

(** With [max_parallel = 0] and a ready node, [run] never returns: every
    tick runs nothing, and the loop only gives up when no node is ready. *)
Theorem run_zero_parallel_livelock orders tasks ex g k n fuel t :
  max_parallel ex = 0 -> wf_keys g ->
  nodes g !! k = Some n -> DagGraph.is_ready g n = true ->
  Executor.run fuel orders tasks t ex g = None.
Proof.
  intros Hmp Hwf Hn Hr. revert t. induction fuel as [|fuel IH]; intros t; [done|].
  cbn [Executor.run].
  assert (@chosen (orders t) ex g = []) as Hch by (unfold chosen; by rewrite Hmp).
  destruct (@tick_idle (orders t) ex (tasks t) g Hwf Hch) as [Hrs Hg].
  destruct (@Executor.execute_tick (orders t) ex (tasks t) g) as [rs g1]. simpl in *.
  assert (g1 = g) as -> by (destruct g1, g; simpl in *; by subst).
  assert (@DagGraph.is_complete (orders t) g = false) as ->.
  { apply not_true_iff_false. intros [_ Hd]%is_complete_true.
    apply is_ready_true in Hr as [Hp _]. rewrite (Hd k n Hn) in Hp. done. }
  destruct (@DagGraph.ready_nodes (orders t) g) eqn:E.
  - pose proof (proj1 (@ready_nodes_nil (orders t) g) E k n Hn). congruence.
  - rewrite andb_false_r. apply IH.
Qed.

(** Starting from a well-formed acyclic graph of pending nodes, however the
    ticks of the executor interleave with [add_node], [remove_node] and
    [update_dependencies]: the graph stays well formed and acyclic; the nodes
    that are InProgress are exactly those whose tasks are running, without
    repetition; every node that was ever started has all of its dependencies
    Done; and a Done node is never changed nor removed. *)
Theorem interleaving_safe ex g s s' :
  wf_keys g -> acyclic g -> (forall k n, nodes g !! k = Some n -> n_status n = Pending) ->
  rtc (Interleaving.step Interleaving.unstarted ex) (Interleaving.mkSys g Interleaving.Idle) s ->
  rtc (Interleaving.step Interleaving.unstarted ex) s s' ->
  Interleaving.inv s /\ Interleaving.inv s'
  /\ Interleaving.done_stable (Interleaving.sys_graph s) (Interleaving.sys_graph s').
Proof.
  intros Hwf Hac Hp Hs Hs'. pose proof (inv_initial g Hwf Hac Hp) as Hi.
  destruct (rtc_step_inv ex _ _ Hs Hi) as [His _].
  by destruct (rtc_step_inv ex _ _ Hs' His).
Qed.

(** The counter of the statistics that a status belongs to. *)
Inductive counter := CPending | CInProgress | CDone | CFailed.

Definition counted_in (c : counter) (s : NodeStatus) : bool :=
  match c, s with
  | CPending, (Pending | Blocked) | CInProgress, InProgress | CDone, Done
  | CFailed, Failed => true
  | _, _ => false
  end.

Definition status_count (c : counter) (ns : list Node) : Z :=
  Z.of_nat (length (List.filter (fun n => counted_in c (n_status n)) ns)).

Lemma status_count_cons c n ns :
  status_count c (n :: ns)
  = (if counted_in c (n_status n) then 1 else 0) + status_count c ns.
Proof. unfold status_count. simpl. case_goal; simpl; lia. Qed.

(** The statistics of a list of nodes. *)
Definition stats_of (ns : list Node) : DagStats :=
  mkStats (Z.of_nat (length ns)) (status_count CPending ns)
    (status_count CInProgress ns) (status_count CDone ns) (status_count CFailed ns).

Lemma count_node_spec `{BuildProfile} t p i d f n :
  0 <= p /\ 0 <= i /\ 0 <= d /\ 0 <= f -> p + i + d + f = t -> t + 1 < 2 ^ 64 ->
  let one c := if counted_in c (n_status n) then 1 else 0 in
  RuntimeDag.count_node (mkStats t p i d f) n
  = Ret (mkStats (t + 1) (p + one CPending) (i + one CInProgress)
      (d + one CDone) (f + one CFailed)).
Proof.
  intros Hpos Hsum Hlt one. unfold RuntimeDag.count_node, RuntimeDag.count_status, add_u.
  cbn [st_total st_pending st_in_progress st_done st_failed].
  rewrite (arith_u_ok 64 (t + 1)) by (unfold in_u; lia). simpl. subst one.
  destruct (n_status n); rewrite arith_u_ok by (unfold in_u; lia); simpl;
    by rewrite !Z.add_0_r.
Qed.

Lemma count_nodes_spec `{HashOrder} `{BuildProfile} ns : forall t p i d f,
  0 <= p /\ 0 <= i /\ 0 <= d /\ 0 <= f -> p + i + d + f = t ->
  t + Z.of_nat (length ns) < 2 ^ 64 ->
  foldl (fun acc node => st ← acc; RuntimeDag.count_node st node)
    (Ret (mkStats t p i d f)) ns
  = Ret (mkStats (t + Z.of_nat (length ns)) (p + status_count CPending ns)
      (i + status_count CInProgress ns) (d + status_count CDone ns)
      (f + status_count CFailed ns)).
Proof.
  induction ns as [|n ns IH]; intros t p i d f Hpos Hsum Hlt.
  { unfold status_count. simpl. by rewrite !Z.add_0_r. }
  cbn [foldl length] in *. rewrite !status_count_cons.
  change (Ret (mkStats t p i d f) ≫= ?h) with (h (mkStats t p i d f)). cbv beta.
  rewrite (count_node_spec t p i d f n) by lia.
  destruct (n_status n); cbn [counted_in]; rewrite IH by lia; do 2 f_equal; lia.
Qed.

(** [stats] never overflows and counts every node once: [total] is the
    number of nodes, the other counters are the numbers of nodes with each
    status (blocked nodes count as pending), and the counters add up to
    [total]. *)
Theorem stats_spec `{HashOrder} `{BuildProfile} g :
  Z.of_nat (size (nodes g)) < 2 ^ 64 ->
  let st := stats_of (hm_values (nodes g)) in
  RuntimeDag.stats g = Ret st
  /\ st_total st = Z.of_nat (DagGraph.node_count g)
  /\ st_done st = Z.of_nat (DagGraph.done_count g)
  /\ st_total st = st_pending st + st_in_progress st + st_done st + st_failed st.
Proof.
  intros Hlt st. split_and!.
  - unfold RuntimeDag.stats. rewrite count_nodes_spec; [done|lia..|].
    by rewrite length_hm_values.
  - unfold st, DagGraph.node_count. simpl. by rewrite length_hm_values.
  - unfold st, DagGraph.done_count. simpl. unfold status_count. do 2 f_equal.
    apply filter_ext. intros n. by destruct (n_status n).
  - unfold st. simpl. clear. induction (hm_values (nodes g)) as [|n ns IH]; [done|].
    rewrite !status_count_cons. cbn [length].
    destruct (n_status n); simpl; lia.
Qed.

(** * Witnesses *)

Definition ok_task : TaskExecutor := fun n =>
  Ok (mkNodeResult true ("Completed " +:+ n_id n)%string None fzero).

Lemma sample_graph_pending k n :
  nodes sample_graph !! k = Some n -> n_status n = Pending.
Proof.
  unfold sample_graph. simpl. rewrite lookup_insert_Some.
  intros [[_ <-]|[_ Hl]]; [done|]. by apply lookup_insert_Some in Hl as [[_ <-]|[_ Hl]].
Qed.

Lemma sample_graph_pending_count : pending_count sample_graph = 2%nat.
Proof. by vm_compute. Qed.

Lemma sample_graph_closed : closed sample_graph.
Proof.
  intros k n d. unfold sample_graph. simpl. rewrite lookup_insert_Some.
  intros [[_ <-]|[_ Hl]]; [by intros ?%elem_of_nil|].
  apply lookup_insert_Some in Hl as [[_ <-]|[_ Hl]]; [|done].
  intros [->|[]%elem_of_nil]%elem_of_cons. by eexists.
Qed.

Lemma run_all_succeed_witness :
  exists g', Executor.run 3 (fun _ => std_order) (fun _ => ok_task) 0
      (Executor.new 4) sample_graph = Some (Ok tt, g').
Proof.
  destruct (run_all_succeed (fun _ => std_order) (fun _ => ok_task) (Executor.new 4)
    sample_graph) as (g' & Hr & _).
  - done.
  - apply sample_graph_wf.
  - apply sample_graph_acyclic.
  - apply sample_graph_closed.
  - intros k n Hn. left. by eapply sample_graph_pending.
  - intros E. apply (f_equal size) in E. vm_compute in E. discriminate E.
  - intros t n. by eexists.
  - exists g'. by rewrite sample_graph_pending_count in Hr.
Defined.

Lemma run_zero_parallel_livelock_witness :
  Executor.run 1000 (fun _ => std_order) (fun _ => ok_task) 0
    (Executor.new 0) sample_graph = None.
Proof.
  apply (run_zero_parallel_livelock (fun _ => std_order) (fun _ => ok_task)
    (Executor.new 0) sample_graph "a" (make_node "a" [])).
  - done.
  - apply sample_graph_wf.
  - done.
  - done.
Defined.

Lemma interleaving_safe_witness :
  exists s', rtc (Interleaving.step Interleaving.unstarted (Executor.new 1))
      (Interleaving.mkSys sample_graph Interleaving.Idle) s'
    /\ Interleaving.sys_phase s' <> Interleaving.Idle /\ Interleaving.inv s'.
Proof.
  set (s := Interleaving.mkSys sample_graph Interleaving.Idle).
  eexists. assert (Hstep : Interleaving.step Interleaving.unstarted (Executor.new 1) s _)
    by apply (Interleaving.step_dispatch _ _ std_order).
  split; [apply rtc_once, Hstep|]. split; [by vm_compute|].
  eapply (interleaving_safe (Executor.new 1) sample_graph s).
  - apply sample_graph_wf.
  - apply sample_graph_acyclic.
  - apply sample_graph_pending.
  - apply rtc_refl.
  - apply rtc_once, Hstep.
Defined.

Lemma update_dependencies_spec_witness :
  fst (@RuntimeDag.update_dependencies std_order sample_graph "a" ["b"%string])
    = Err (CycleDetected "a")
  /\ snd (@RuntimeDag.update_dependencies std_order sample_graph "a" ["b"%string])
    = sample_graph.
Proof.
  pose proof (@update_dependencies_spec std_order sample_graph "a" ["b"%string]
                sample_graph_wf sample_graph_acyclic) as Hs.
  destruct (@RuntimeDag.update_dependencies std_order sample_graph "a" ["b"%string])
    as [[u|[]] g'] eqn:E; vm_compute in E; try discriminate E.
  destruct Hs as (-> & -> & _). done.
Defined.

Lemma stats_spec_witness :
  @RuntimeDag.stats std_order debug_profile sample_graph = Ret (mkStats 2 2 0 0 0).
Proof.
  destruct (@stats_spec std_order debug_profile sample_graph) as [-> _]; [done|].
  by vm_compute.
Defined.
