(* ===== verification/Dataflow.v ===== *)
(** An abstract scheduler of task graphs, and the refinement of it by the
    executor and [RuntimeDag] (src/src/dag/).

    The specification knows nothing of locks, ticks, hash maps or node records:
    a plan maps the names of tasks to their dependencies and to one of four
    states, and an event says what happens to one task. The theorems show that
    everything the executor does under any interleaving with the runtime
    mutation of the graph is a run of the specification, and that the runs of
    the specification start a task at most once, after its dependencies. *)

From S2P Require Import Prelude F64 Graph Executor.

(** * The specification *)

Inductive tstatus := Waiting | Started | Succeeded | Broken.

#[export] Instance tstatus_eq_dec : EqDecision tstatus.
Proof. solve_decision. Defined.

Record task := mkTask { t_deps : list string; t_status : tstatus }.

Abbreviation plan := (gmap string task).

Definition set_tstatus (st : tstatus) (t : task) : task := mkTask (t_deps t) st.

(** [x] depends on [y], and both are in the plan. *)
Definition depends (m : plan) (x y : string) : Prop :=
  exists t, m !! x = Some t /\ y ∈ t_deps t /\ is_Some (m !! y).

Definition plan_acyclic (m : plan) : Prop := forall x, ~ tc (depends m) x x.

Definition has_succeeded (m : plan) (id : string) : Prop :=
  exists t, m !! id = Some t /\ t_status t = Succeeded.

Definition status_of (m : plan) (id : string) : option tstatus := t_status <$> m !! id.

(** The tasks that are started and not finished. *)
Definition is_started (kt : string * task) : Prop := t_status kt.2 = Started.

#[export] Instance is_started_dec kt : Decision (is_started kt).
Proof. unfold is_started. apply _. Defined.

Definition running_tasks (m : plan) : gset string := dom (filter is_started m).

Definition running_count (m : plan) : nat := size (running_tasks m).

Inductive event :=
| EStart (id : string)
| EFinish (id : string) (success : bool)
| EAdd (id : string) (deps : list string)
| ERemove (id : string)
| ERewire (id : string) (deps : list string).

(** When an event may happen, with at most [max] tasks running at once. *)
Definition allowed (max : Z) (e : event) (m : plan) : Prop :=
  match e with
  | EStart id => exists t, m !! id = Some t /\ t_status t = Waiting
      /\ (forall d, d ∈ t_deps t -> has_succeeded m d)
      /\ Z.of_nat (running_count m) < max
  | EFinish id _ => exists t, m !! id = Some t /\ t_status t = Started
  | EAdd id deps => m !! id = None /\ plan_acyclic (<[id := mkTask deps Waiting]> m)
  | ERemove id => (exists t, m !! id = Some t /\ t_status t = Waiting)
      /\ forall k t, m !! k = Some t -> k <> id -> id ∉ t_deps t
  | ERewire id deps => (exists t, m !! id = Some t /\ t_status t = Waiting)
      /\ plan_acyclic (<[id := mkTask deps Waiting]> m)
  end.

(** What an event does. *)
Definition effect (e : event) (m : plan) : plan :=
  match e with
  | EStart id => alter (set_tstatus Started) id m
  | EFinish id success =>
    alter (set_tstatus (if success then Succeeded else Broken)) id m
  | EAdd id deps => <[id := mkTask deps Waiting]> m
  | ERemove id => delete id m
  | ERewire id deps => <[id := mkTask deps Waiting]> m
  end.

Inductive spec_steps (max : Z) : plan -> list event -> plan -> Prop :=
| spec_nil m : spec_steps max m [] m
| spec_cons m e es m' :
    allowed max e m -> spec_steps max (effect e m) es m' -> spec_steps max m (e :: es) m'.

Lemma spec_steps_app max m es1 es2 m' :
  spec_steps max m (es1 ++ es2) m'
  <-> exists m1, spec_steps max m es1 m1 /\ spec_steps max m1 es2 m'.
Proof.
  revert m. induction es1 as [|e es1 IH]; intros m; simpl.
  - split; [intros Hs; exists m; split; [constructor|done]|].
    intros (m1 & H1 & H2). by inversion H1; subst.
  - split.
    + inversion 1; subst. destruct (proj1 (IH _) H5) as (m1 & ? & ?).
      exists m1. split; [by constructor|done].
    + intros (m1 & H1 & H2). inversion H1; subst. constructor; [done|].
      apply IH. by exists m1.
Qed.

(** * What runs of the specification look like *)

(** The tasks that a run starts and finishes, in order. *)
Definition starts (es : list event) : list string :=
  omap (fun e => match e with EStart id => Some id | _ => None end) es.

Definition finishes (es : list event) : list string :=
  omap (fun e => match e with EFinish id _ => Some id | _ => None end) es.

Lemma elem_of_starts id es : id ∈ starts es <-> EStart id ∈ es.
Proof.
  unfold starts. rewrite list_elem_of_omap. split; [|by intros ?; exists (EStart id)].
  by intros ([] & Hin & [= ->]).
Qed.

Lemma elem_of_finishes id es : id ∈ finishes es <-> exists b, EFinish id b ∈ es.
Proof.
  unfold finishes. rewrite list_elem_of_omap. split.
  - intros ([] & Hin & [= ->]). by eexists.
  - intros [b Hb]. by exists (EFinish id b).
Qed.

Definition subject (e : event) : string :=
  match e with
  | EStart id | EFinish id _ | EAdd id _ | ERemove id | ERewire id _ => id
  end.

(** The status of its task before and after an event. *)
Definition before (e : event) : option tstatus :=
  match e with
  | EFinish _ _ => Some Started
  | EAdd _ _ => None
  | _ => Some Waiting
  end.

Definition after (e : event) : option tstatus :=
  match e with
  | EStart _ => Some Started
  | EFinish _ ok => Some (if ok then Succeeded else Broken)
  | ERemove _ => None
  | _ => Some Waiting
  end.

Lemma status_of_Some m id st :
  status_of m id = Some st <-> exists t, m !! id = Some t /\ t_status t = st.
Proof.
  unfold status_of. rewrite fmap_Some. split; intros (t & Ht & E); by exists t.
Qed.

Lemma allowed_before max e m : allowed max e m -> status_of m (subject e) = before e.
Proof.
  unfold status_of. destruct e; simpl.
  - by intros (t & -> & <- & _).
  - by intros (t & -> & <-).
  - by intros [-> _].
  - by intros [(t & -> & <-) _].
  - by intros [(t & -> & <-) _].
Qed.

Lemma status_effect max e m id :
  allowed max e m ->
  status_of (effect e m) id = if decide (id = subject e) then after e else status_of m id.
Proof.
  intros Ha. unfold status_of. case_decide as Hid.
  - subst id. destruct e; simpl in *.
    + destruct Ha as (t & Ht & _). by rewrite lookup_alter_eq, Ht.
    + destruct Ha as (t & Ht & _). by rewrite lookup_alter_eq, Ht.
    + by rewrite lookup_insert_eq.
    + by rewrite lookup_delete_eq.
    + by rewrite lookup_insert_eq.
  - destruct e; simpl in *; by rewrite ?lookup_alter_ne, ?lookup_insert_ne,
      ?lookup_delete_ne by done.
Qed.

Lemma elem_of_running m id : id ∈ running_tasks m <-> status_of m id = Some Started.
Proof.
  unfold running_tasks. rewrite elem_of_dom, status_of_Some. unfold is_Some.
  setoid_rewrite map_lookup_filter_Some. done.
Qed.

Lemma running_count_effect max e m :
  allowed max e m ->
  Z.of_nat (running_count (effect e m))
  = Z.of_nat (running_count m)
    + match e with EStart _ => 1 | EFinish _ _ => -1 | _ => 0 end.
Proof.
  intros Ha. unfold running_count.
  pose proof (allowed_before max e m Ha) as Hb.
  assert (Hr : forall id, id ∈ running_tasks (effect e m) <->
    (if decide (id = subject e) then after e = Some Started else id ∈ running_tasks m)).
  { intros id. rewrite elem_of_running, (status_effect max) by done.
    case_decide; [done|by rewrite elem_of_running]. }
  pose proof (elem_of_running m (subject e)) as Hs. rewrite Hb in Hs.
  destruct e as [id|id ok|id deps|id|id deps]; simpl in *.
  3-5: rewrite Z.add_0_r; do 2 f_equal; apply set_eq; intros k; rewrite Hr;
    case_decide; [subst k; rewrite Hs|]; done.
  - assert (running_tasks (effect (EStart id) m) = {[id]} ∪ running_tasks m) as E.
    { apply set_eq. intros k. rewrite Hr. case_decide; set_solver. }
    simpl in E. rewrite E, size_union, size_singleton by set_solver. lia.
  - assert (running_tasks m = {[id]} ∪ running_tasks (effect (EFinish id ok) m)) as E.
    { apply set_eq. intros k. rewrite elem_of_union, Hr. case_decide; [|set_solver].
      subst k. set_solver. }
    rewrite E, size_union, size_singleton.
    + simpl. lia.
    + intros k Hk%elem_of_singleton. subst k. intros Hk2%Hr. rewrite decide_True in Hk2 by done.
      by destruct ok.
Qed.

Lemma starts_app h e :
  starts (h ++ [e]) = starts h ++ match e with EStart id => [id] | _ => [] end.
Proof. unfold starts. rewrite omap_app. by destruct e. Qed.

Lemma finishes_app h e :
  finishes (h ++ [e]) = finishes h ++ match e with EFinish id _ => [id] | _ => [] end.
Proof. unfold finishes. rewrite omap_app. by destruct e. Qed.

(** An occurrence of an event in [h ++ [e]] is the last one or one of [h]. *)
Lemma snoc_split {A} (h pre post : list A) e x :
  h ++ [e] = pre ++ x :: post ->
  (pre = h /\ x = e) \/ exists post', h = pre ++ x :: post'.
Proof.
  induction post as [|y post' _] using rev_ind; intros E.
  - left. by apply app_inj_tail in E as [-> ->].
  - right. exists post'. rewrite app_comm_cons, app_assoc in E.
    by apply app_inj_tail in E as [-> _].
Qed.

(** What the past events [h] say of the current plan [m], when the run began
    with waiting tasks only: which tasks were started and how they finished,
    that no task was started or finished twice, and that a task that was
    started kept its dependencies, all of which had succeeded by then. *)
Record history (h : list event) (m : plan) : Prop := {
  hi_start : forall id, EStart id ∈ h <->
    status_of m id <> None /\ status_of m id <> Some Waiting;
  hi_finish : forall id b, EFinish id b ∈ h <->
    status_of m id = Some (if b then Succeeded else Broken);
  hi_starts : NoDup (starts h);
  hi_finishes : NoDup (finishes h);
  hi_deps : forall pre id post, h = pre ++ EStart id :: post ->
    exists t, m !! id = Some t /\ forall d, d ∈ t_deps t -> EFinish d true ∈ pre;
  hi_order : forall pre id b post, h = pre ++ EFinish id b :: post -> EStart id ∈ pre;
  hi_count : Z.of_nat (running_count m)
    = Z.of_nat (length (starts h)) - Z.of_nat (length (finishes h))
}.

Lemma history_initial m :
  (forall id t, m !! id = Some t -> t_status t = Waiting) -> history [] m.
Proof.
  intros Hm.
  assert (Hst : forall id st, status_of m id = Some st -> st = Waiting).
  { intros id st (t & Ht & <-)%status_of_Some. by apply (Hm id). }
  split; simpl.
  - intros id. split; [by intros ?%elem_of_nil|]. intros [Hn Hw].
    destruct (status_of m id) as [st|] eqn:E; [|done]. by rewrite (Hst id st E) in Hw.
  - intros id b. split; [by intros ?%elem_of_nil|]. intros E%Hst. by destruct b.
  - apply NoDup_nil_2.
  - apply NoDup_nil_2.
  - by intros [] ? ?.
  - by intros [] ? ? ?.
  - unfold running_count. replace (running_tasks m) with (∅ : gset string); [done|].
    apply set_eq. intros id. rewrite elem_of_running. split; [set_solver|].
    by intros E%Hst.
Qed.

(** A task that has started keeps its dependencies. *)
Lemma deps_effect max e m id t :
  allowed max e m -> m !! id = Some t -> t_status t <> Waiting ->
  exists t', effect e m !! id = Some t' /\ t_deps t' = t_deps t.
Proof.
  intros Ha Ht Hw. pose proof (allowed_before max e m Ha) as Hb.
  unfold status_of in Hb. destruct (decide (subject e = id)) as [E|Hne].
  - rewrite E, Ht in Hb. simpl in Hb.
    destruct e as [i|i ok|i ds|i|i ds]; simpl in *; subst i; try congruence.
    exists (set_tstatus (if ok then Succeeded else Broken) t).
    by rewrite lookup_alter_eq, Ht.
  - exists t. split; [|done]. destruct e; simpl in *;
      by rewrite ?lookup_alter_ne, ?lookup_insert_ne, ?lookup_delete_ne by done.
Qed.

Lemma history_marks max h e m :
  history h m -> allowed max e m ->
  (forall id, EStart id ∈ h ++ [e] <->
     status_of (effect e m) id <> None /\ status_of (effect e m) id <> Some Waiting)
  /\ (forall id b, EFinish id b ∈ h ++ [e] <->
     status_of (effect e m) id = Some (if b then Succeeded else Broken)).
Proof.
  intros [Hs Hf _ _ _ _ _] Ha. pose proof (allowed_before max e m Ha) as Hb.
  split; [intros id|intros id b]; rewrite elem_of_app, list_elem_of_singleton, ?Hs, ?Hf,
    (status_effect max) by done.
  - destruct (decide (id = subject e)) as [->|Hne]; [rewrite Hb|];
      destruct e as [i|i [] |i ds|i|i ds]; simpl in *; intuition congruence.
  - destruct (decide (id = subject e)) as [->|Hne]; [rewrite Hb|];
      destruct e as [i|i [] |i ds|i|i ds], b; simpl in *; intuition congruence.
Qed.

Lemma NoDup_snoc {A} (l : list A) x : NoDup l -> x ∉ l -> NoDup (l ++ [x]).
Proof.
  intros Hl Hx. apply NoDup_app. split_and!; [done| |apply NoDup_singleton].
  intros y Hy ->%list_elem_of_singleton. done.
Qed.

Lemma history_nodup max h e m :
  history h m -> allowed max e m -> NoDup (starts (h ++ [e])) /\ NoDup (finishes (h ++ [e])).
Proof.
  intros [Hs Hf Hns Hnf _ _ _] Ha%allowed_before. rewrite starts_app, finishes_app.
  destruct e; rewrite ?app_nil_r; (split; [try done|try done]); simpl in Ha;
    (apply NoDup_snoc; [done|]).
  - rewrite elem_of_starts, Hs. intuition congruence.
  - rewrite elem_of_finishes. intros [b Hb%Hf]. by destruct b; congruence.
Qed.

Lemma history_step max h e m :
  history h m -> allowed max e m -> history (h ++ [e]) (effect e m).
Proof.
  intros Hh Ha. destruct (history_marks max h e m Hh Ha) as [Hs' Hf'].
  destruct (history_nodup max h e m Hh Ha) as [Hns' Hnf'].
  destruct Hh as [Hs Hf Hns Hnf Hd Ho Hc]. split; [done..| | |].
  - intros pre id post [[-> <-]|[post' E]]%snoc_split.
    + destruct Ha as (t & Ht & _ & Hdeps & _). simpl. rewrite lookup_alter_eq, Ht.
      eexists. split; [done|]. intros d (t' & Ht' & E)%Hdeps.
      by apply Hf, status_of_Some; exists t'.
    + destruct (Hd pre id post' E) as (t & Ht & Hdeps).
      assert (EStart id ∈ h) as [_ Hw]%Hs 
        by (rewrite E; apply elem_of_app; right; apply list_elem_of_here).
      destruct (deps_effect max e m id t) as (t' & Ht' & E'); [done..| |].
      { intros Hst. apply Hw, status_of_Some. by exists t. }
      exists t'. by rewrite E'.
  - intros pre id b post [[-> <-]|[post' E]]%snoc_split; [|by eapply Ho].
    apply allowed_before in Ha. apply Hs. simpl in Ha. rewrite Ha. done.
  - rewrite (running_count_effect max), Hc, starts_app, finishes_app, !length_app by done.
    destruct e; simpl; lia.
Qed.

Lemma history_steps max es : forall h m m',
  history h m -> spec_steps max m es m' -> history (h ++ es) m'.
Proof.
  induction es as [|e es IH]; intros h m m' Hh Hs; inversion Hs; subst.
  - by rewrite app_nil_r.
  - rewrite cons_middle, app_assoc. eapply IH; [|done]. by eapply history_step.
Qed.

(** The bound on the running tasks holds whenever it held at the beginning. *)
Lemma spec_steps_bound max es : forall m m',
  spec_steps max m es m' -> Z.of_nat (running_count m) <= max ->
  Z.of_nat (running_count m') <= max.
Proof.
  induction es as [|e es IH]; intros m m' Hs Hc; inversion Hs as [|? ? ? ? Ha Hs']; subst;
    [done|].
  eapply IH; [exact Hs'|]. rewrite (running_count_effect max) by done.
  destruct e; simpl in *; [|lia..]. destruct Ha as (_ & _ & _ & _ & Hlt). lia.
Qed.

(** * The executor as an implementation of the specification *)

Definition abs_status (st : NodeStatus) : tstatus :=
  match st with
  | Pending | Blocked => Waiting
  | InProgress => Started
  | Done => Succeeded
  | Failed => Broken
  end.

Definition abs_node (n : Node) : task := mkTask (n_depends_on n) (abs_status (n_status n)).

Definition abs (g : DagGraph) : plan := abs_node <$> nodes g.

(** The events of one critical section of the executor or of [RuntimeDag]. *)
Definition dispatch_events (nodes_to_run : list Node) : list event :=
  (fun n => EStart (n_id n)) <$> nodes_to_run.

Definition collect_events (results : list ExecutionResult) : list event :=
  (fun er => EFinish (er_node_id er) (r_success (er_result er))) <$> results.

Definition on_ok {E A} (r : result E A) (e : event) : list event :=
  match r with Ok _ => [e] | Err _ => [] end.

Inductive lstep (adds : Node -> Prop) (ex : DagExecutor) : Interleaving.sys -> list event -> Interleaving.sys -> Prop :=
| lstep_dispatch (o : HashOrder) g ns g' :
    Executor.dispatch ex g = (ns, g') ->
    lstep adds ex (Interleaving.mkSys g Interleaving.Idle) (dispatch_events ns)
      (Interleaving.mkSys g' (Interleaving.phase_of ns))
| lstep_collect f g ns rs :
    rs = Executor.await_task f <$> ns ->
    lstep adds ex (Interleaving.mkSys g (Interleaving.Running ns)) (collect_events rs)
      (Interleaving.mkSys (Executor.collect g rs) Interleaving.Idle)
| lstep_add (o : HashOrder) g p node r g' :
    adds node -> RuntimeDag.add_node g node = (r, g') ->
    lstep adds ex (Interleaving.mkSys g p) (on_ok r (EAdd (n_id node) (n_depends_on node)))
      (Interleaving.mkSys g' p)
| lstep_remove (o : HashOrder) g p id r g' :
    RuntimeDag.remove_node g id = Ret (r, g') ->
    lstep adds ex (Interleaving.mkSys g p) (on_ok r (ERemove id)) (Interleaving.mkSys g' p)
| lstep_update (o : HashOrder) g p id deps r g' :
    RuntimeDag.update_dependencies g id deps = (r, g') ->
    lstep adds ex (Interleaving.mkSys g p) (on_ok r (ERewire id deps)) (Interleaving.mkSys g' p).

(** Labels add nothing to the steps but their events. *)
Lemma step_lstep adds ex s s' :
  Interleaving.step adds ex s s' <-> exists es, lstep adds ex s es s'.
Proof.
  split.
  - intros Hs. destruct Hs as [o g|f g ns|o g p node Hp|o g p id r g' Hr|o g p id deps].
    + eexists. eapply (lstep_dispatch adds ex o). apply surjective_pairing.
    + eexists. by eapply lstep_collect.
    + eexists. eapply (lstep_add adds ex o); [done|]. apply surjective_pairing.
    + eexists. by eapply (lstep_remove adds ex o).
    + eexists. eapply (lstep_update adds ex o). apply surjective_pairing.
  - intros [es Hs]. destruct Hs as [o g ns g' E|f g ns rs ->|o g p node r g' Hp E
      |o g p id r g' E|o g p id deps r g' E].
    + pose proof (Interleaving.step_dispatch adds ex o g) as Hs. by rewrite E in Hs.
    + by apply Interleaving.step_collect.
    + pose proof (Interleaving.step_add adds ex o g p node Hp) as Hs. by rewrite E in Hs.
    + by eapply (Interleaving.step_remove adds ex o).
    + pose proof (Interleaving.step_update adds ex o g p id deps) as Hs. by rewrite E in Hs.
Qed.

Inductive lsteps (adds : Node -> Prop) (ex : DagExecutor) : Interleaving.sys -> list event -> Interleaving.sys -> Prop :=
| lsteps_nil s : lsteps adds ex s [] s
| lsteps_cons s es1 s1 es2 s2 :
    lstep adds ex s es1 s1 -> lsteps adds ex s1 es2 s2 ->
    lsteps adds ex s (es1 ++ es2) s2.

Lemma lookup_abs g k : abs g !! k = abs_node <$> nodes g !! k.
Proof. apply lookup_fmap. Qed.

Lemma depends_abs g x y : depends (abs g) x y <-> edge g x y.
Proof.
  unfold depends, edge. setoid_rewrite lookup_abs. setoid_rewrite fmap_is_Some. split.
  - intros (t & (n & Hn & ->)%fmap_Some & Hd & Hy). by exists n.
  - intros (n & Hn & Hd & Hy). exists (abs_node n). by rewrite Hn.
Qed.

Lemma plan_acyclic_abs g : acyclic g -> plan_acyclic (abs g).
Proof.
  intros Hac x Hx. apply (Hac x).
  refine (tc_congruence (fun z => z) (edge g) x x _ Hx). intros y z. apply depends_abs.
Qed.

Lemma has_succeeded_abs g d : DagGraph.dep_done g d = true -> has_succeeded (abs g) d.
Proof.
  intros (n & Hn & Hd)%dep_done_true. exists (abs_node n).
  rewrite lookup_abs, Hn. split; [done|]. simpl. by rewrite Hd.
Qed.

Lemma effect_other e m id : id <> subject e -> effect e m !! id = m !! id.
Proof.
  intros Hid. destruct e; simpl in *;
    by rewrite ?lookup_alter_ne, ?lookup_insert_ne, ?lookup_delete_ne by done.
Qed.

Definition effects (es : list event) (m : plan) : plan := foldl (fun m e => effect e m) m es.

(** Each assignment of the code is the effect of one event. *)
Lemma abs_insert g id n n' f :
  nodes g !! id = Some n -> abs_node n' = f (abs_node n) ->
  abs (mkDag (<[id := n']> (nodes g))) = alter f id (abs g).
Proof.
  intros Hn Hf. apply map_eq. intros k. rewrite lookup_alter, !lookup_abs. simpl.
  rewrite lookup_insert. case_decide; [subst k|done]. rewrite Hn. simpl. by rewrite Hf.
Qed.

Lemma abs_missing g id f : nodes g !! id = None -> abs g = alter f id (abs g).
Proof.
  intros Hn. symmetry. apply alter_id'. by rewrite lookup_abs, Hn.
Qed.

Lemma abs_mark ids : forall g acc,
  abs (Executor.mark_in_progress g ids acc).2 = effects (EStart <$> ids) (abs g).
Proof.
  induction ids as [|id ids IH]; intros g acc; [done|].
  cbn [Executor.mark_in_progress fmap list_fmap effects foldl].
  destruct (nodes g !! id) as [n|] eqn:Hn; rewrite IH; unfold effects at 1; do 2 f_equal.
  - by apply (abs_insert g id n).
  - by apply abs_missing.
Qed.

Lemma abs_collect rs : forall g,
  abs (Executor.collect g rs) = effects (collect_events rs) (abs g).
Proof.
  induction rs as [|er rs IH]; intros g; [done|].
  change (abs (Executor.collect (Executor.apply_result g er) rs)
    = effects (collect_events rs)
        (effect (EFinish (er_node_id er) (r_success (er_result er))) (abs g))).
  rewrite IH. f_equal. unfold Executor.apply_result.
  destruct (nodes g !! er_node_id er) as [n|] eqn:Hn.
  - apply (abs_insert g _ n); [done|]. by destruct (r_success _).
  - by apply abs_missing.
Qed.

(** Tasks that are ready together can be started one after the other. *)
Lemma start_all max ids : forall m,
  NoDup ids -> Z.of_nat (running_count m) + Z.of_nat (length ids) <= max ->
  (forall id, id ∈ ids -> exists t, m !! id = Some t /\ t_status t = Waiting
     /\ forall d, d ∈ t_deps t -> has_succeeded m d) ->
  spec_steps max m (EStart <$> ids) (effects (EStart <$> ids) m).
Proof.
  induction ids as [|id ids IH]; intros m Hnd Hc Hr; [constructor|].
  apply NoDup_cons in Hnd as [Hid Hnd]. simpl in Hc.
  destruct (Hr id) as (t & Ht & Hw & Hd); [apply list_elem_of_here|].
  assert (Ha : allowed max (EStart id) m)
    by (exists t; split_and!; [done..|lia]).
  rewrite fmap_cons. constructor; [done|]. apply IH; [done| |].
  - rewrite (running_count_effect max) by done. lia.
  - intros k Hk. destruct (Hr k) as (t' & Ht' & Hw' & Hd');
      [by apply list_elem_of_further|].
    exists t'. rewrite effect_other by (simpl; by intros ->). split_and!; [done..|].
    intros d Hdd. apply Hd' in Hdd. unfold has_succeeded in *.
    rewrite <- status_of_Some in *. rewrite (status_effect max) by done.
    case_decide as E; [|done]. simpl in E. subst d.
    rewrite (allowed_before _ _ _ Ha : status_of m id = _) in Hdd. done.
Qed.

Lemma finish_all max rs : forall m,
  NoDup (er_node_id <$> rs) ->
  (forall id, id ∈ er_node_id <$> rs -> status_of m id = Some Started) ->
  spec_steps max m (collect_events rs) (effects (collect_events rs) m).
Proof.
  induction rs as [|er rs IH]; intros m Hnd Hr; [constructor|].
  rewrite fmap_cons in Hnd, Hr. apply NoDup_cons in Hnd as [Hid Hnd].
  assert (Ha : allowed max (EFinish (er_node_id er) (r_success (er_result er))) m).
  { apply status_of_Some, Hr, list_elem_of_here. }
  constructor; [done|]. apply IH; [done|]. intros k Hk.
  rewrite (status_effect max) by done. rewrite decide_False.
  - by apply Hr, list_elem_of_further.
  - simpl. by intros ->.
Qed.

(** * Refinement *)

Section Refinement.
Import Interleaving.
Definition abs_sys (s : sys) : plan := abs (sys_graph s).

Lemma running_idle g : inv (mkSys g Idle) -> running_count (abs g) = 0%nat.
Proof.
  intros Hi. unfold running_count.
  replace (running_tasks (abs g)) with (∅ : gset string); [done|].
  apply set_eq. intros id. rewrite elem_of_running, status_of_Some.
  split; [set_solver|]. intros (t & Ht & Hst). rewrite lookup_abs in Ht.
  apply fmap_Some in Ht as (n & Hn & ->). exfalso.
  assert (n_status n = InProgress) as Hip by (simpl in Hst; by destruct (n_status n)).
  by apply (inv_in_progress _ Hi id n Hn), elem_of_nil in Hip.
Qed.

Context (ex : DagExecutor) (Hmax : 0 <= max_parallel ex).

Lemma dispatch_events_mark ns :
  dispatch_events (set_status InProgress <$> ns) = EStart <$> (n_id <$> ns).
Proof. unfold dispatch_events. by rewrite <- !list_fmap_compose. Qed.

Lemma dispatch_refines (o : HashOrder) g :
  inv (mkSys g Idle) ->
  spec_steps (max_parallel ex) (abs g) (dispatch_events (Executor.dispatch ex g).1)
    (abs (Executor.dispatch ex g).2).
Proof.
  intros Hi. pose proof (inv_wf _ Hi) as Hwf. simpl in Hwf.
  destruct (dispatch_spec ex g Hwf) as [-> _]. unfold Executor.dispatch.
  fold (chosen ex g). rewrite abs_mark, dispatch_events_mark.
  apply start_all.
  - by apply NoDup_chosen_ids.
  - rewrite running_idle, length_fmap by done. unfold chosen.
    rewrite length_take. lia.
  - intros id (n & -> & Hn)%list_elem_of_fmap. exists (abs_node n).
    rewrite lookup_abs, (chosen_lookup ex g n Hwf Hn).
    apply chosen_ready in Hn as [_ [Hp Hd]%is_ready_true]. split_and!; [done| |].
    + simpl. by rewrite Hp.
    + intros d Hdd. by apply has_succeeded_abs, Hd.
Qed.

Lemma collect_refines f g ns :
  inv (mkSys g (Running ns)) ->
  let rs := Executor.await_task f <$> ns in
  spec_steps (max_parallel ex) (abs g) (collect_events rs) (abs (Executor.collect g rs)).
Proof.
  intros Hi rs. rewrite abs_collect.
  assert (Hids : er_node_id <$> rs = n_id <$> ns)
    by (unfold rs; by rewrite <- list_fmap_compose).
  apply finish_all; rewrite Hids; [apply Hi|].
  intros id (m & -> & Hm)%list_elem_of_fmap.
  destruct (inv_running _ Hi m Hm) as (n & Hn & Hs). simpl in Hn.
  apply status_of_Some. exists (abs_node n). rewrite lookup_abs, Hn. split; [done|].
  simpl. by rewrite Hs.
Qed.

Lemma spec_one m e m' :
  allowed (max_parallel ex) e m -> m' = effect e m ->
  spec_steps (max_parallel ex) m [e] m'.
Proof. intros Ha ->. constructor; [done|constructor]. Qed.

Lemma add_refines (o : HashOrder) g node r g' :
  n_status node = Pending -> RuntimeDag.add_node g node = (r, g') ->
  spec_steps (max_parallel ex) (abs g)
    (on_ok r (EAdd (n_id node) (n_depends_on node))) (abs g').
Proof.
  intros Hp. unfold RuntimeDag.add_node. intros E. pose proof (add_node_cases g node) as Hs.
  rewrite E in Hs. destruct r as [u|e]; simpl.
  - destruct Hs as (Hnone & -> & Hac').
    assert (abs (mkDag (<[n_id node := node]> (nodes g)))
      = <[n_id node := mkTask (n_depends_on node) Waiting]> (abs g)) as Habs.
    { unfold abs. simpl. rewrite fmap_insert. unfold abs_node at 1. by rewrite Hp. }
    apply spec_one; [|done]. split; [by rewrite lookup_abs, Hnone|].
    rewrite <- Habs. by apply plan_acyclic_abs.
  - rewrite Hs. constructor.
Qed.

Lemma remove_refines (o : HashOrder) g id r g' :
  wf_keys g -> acyclic g -> RuntimeDag.remove_node g id = Ret (r, g') ->
  spec_steps (max_parallel ex) (abs g) (on_ok r (ERemove id)) (abs g').
Proof.
  intros Hwf Hac. unfold RuntimeDag.remove_node, DagGraph.get_node.
  destruct (nodes g !! id) as [n|] eqn:Hn; [|intros [= <- <-]; constructor].
  destruct (decide (n_status n = InProgress)) as [Hi|Hi].
  { rewrite bool_decide_true by done. intros [= <- <-]. constructor. }
  rewrite (bool_decide_false (n_status n = InProgress)) by done.
  destruct (decide (n_status n = Pending)) as [Hp|Hp].
  2:{ rewrite bool_decide_false by done. intros [= <- <-]. constructor. }
  rewrite bool_decide_true by done. simpl. intros E.
  destruct (remove_node_spec g id Hwf Hac) as (r' & g1 & E' & _ & _ & _ & Hs).
  rewrite E in E'. injection E' as <- <-. destruct r as [m|e]; simpl.
  - destruct Hs as (_ & -> & Hdep). apply spec_one.
    + split.
      * exists (abs_node n). rewrite lookup_abs, Hn. split; [done|]. simpl. by rewrite Hp.
      * intros k t. rewrite lookup_abs. intros (m' & Hm & ->)%fmap_Some Hk Hin.
        by apply Hk, (Hdep k m').
    + unfold abs. simpl. by rewrite fmap_delete.
  - assert (g' = g) as -> by (destruct e; first [done|by destruct Hs as (_ & _ & ->)|by destruct Hs as (_ & -> & _)]).
    constructor.
Qed.

Lemma update_refines (o : HashOrder) g id deps r g' :
  wf_keys g -> acyclic g -> RuntimeDag.update_dependencies g id deps = (r, g') ->
  spec_steps (max_parallel ex) (abs g) (on_ok r (ERewire id deps)) (abs g').
Proof.
  intros Hwf Hac E. pose proof (update_deps_cases g id deps Hwf Hac) as Hs.
  rewrite E in Hs. destruct r as [u|e]; simpl.
  - destruct Hs as (n & Hn & Hp & -> & Hac').
    assert (abs (mkDag (<[id := set_depends_on deps n]> (nodes g)))
      = <[id := mkTask deps Waiting]> (abs g)) as Habs.
    { unfold abs. simpl. rewrite fmap_insert. unfold abs_node at 1. simpl. by rewrite Hp. }
    apply spec_one; [|done]. split; [|rewrite <- Habs; by apply plan_acyclic_abs].
    exists (abs_node n). rewrite lookup_abs, Hn. split; [done|]. simpl. by rewrite Hp.
  - rewrite Hs. constructor.
Qed.

Lemma lstep_refines s es s' :
  inv s -> lstep unstarted ex s es s' -> spec_steps (max_parallel ex) (abs_sys s) es (abs_sys s').
Proof.
  intros Hi Hs. unfold abs_sys. destruct Hs as [o g ns g' E|f g ns rs ->|o g p node r g' Hp E
      |o g p id r g' E|o g p id deps r g' E]; simpl.
  - pose proof (dispatch_refines o g Hi) as Hd. by rewrite E in Hd.
  - by apply collect_refines.
  - by eapply (add_refines o).
  - by eapply (remove_refines o); [apply Hi..|].
  - by eapply (update_refines o); [apply Hi..|].
Qed.

Lemma lsteps_refines s es s' :
  lsteps unstarted ex s es s' -> inv s ->
  inv s' /\ spec_steps (max_parallel ex) (abs_sys s) es (abs_sys s').
Proof.
  induction 1 as [s|s es1 s1 es2 s2 Hs _ IH]; intros Hi; [split; [done|constructor]|].
  assert (Hi1 : inv s1) by (eapply step_inv; [done|]; apply step_lstep; by eexists).
  destruct (IH Hi1) as [Hi2 Hs2]. split; [done|]. apply spec_steps_app.
  exists (abs_sys s1). split; [by apply lstep_refines|done].
Qed.

End Refinement.

(** * The log of a run *)

(** The loop of [run] with the events of its ticks: what a tick gives to tasks,
    and what it collects from them. *)
Fixpoint run_logged (fuel : nat) (orders : nat -> HashOrder) (tasks : nat -> TaskExecutor)
    (tick : nat) (ex : DagExecutor) (g : DagGraph)
    : option (result string unit * DagGraph * list event) :=
  match fuel with
  | O => None
  | S fuel =>
    let H := orders tick in
    let '(nodes_to_run, _) := Executor.dispatch ex g in
    let '(results, g) := Executor.execute_tick ex (tasks tick) g in
    let es := dispatch_events nodes_to_run ++ collect_events results in
    if DagGraph.is_complete g then Some (Ok tt, g, es)
    else if bool_decide (length results = 0%nat)
         && bool_decide (length (DagGraph.ready_nodes g) = 0%nat) then
      if DagGraph.has_failed g then
        Some (Err "DAG has failed nodes with no recovery path"%string, g, es)
      else Some (Err "DAG is stuck: no ready nodes and not complete"%string, g, es)
    else
      '(r, g', es') ← run_logged fuel orders tasks (S tick) ex g;
      Some (r, g', es ++ es')
  end.

(** The events do not change the run. *)
Lemma run_logged_run fuel orders tasks ex : forall t g,
  Executor.run fuel orders tasks t ex g = fst <$> run_logged fuel orders tasks t ex g.
Proof.
  induction fuel as [|fuel IH]; intros t g; [done|].
  cbn [run_logged Executor.run]. destruct (Executor.dispatch ex g) as [ns g0].
  destruct (Executor.execute_tick ex (tasks t) g) as [rs g1].
  repeat case_goal; [done..|]. rewrite IH.
  by destruct (run_logged fuel orders tasks (S t) ex g1) as [[[r g'] es']|].
Qed.

(** Between [g] and [g'], exactly the nodes that have left Pending were started,
    each once and after its dependencies, and finished, each once and after its
    start. *)
Record run_once (g g' : DagGraph) (es : list event) : Prop := {
  ro_nodup : NoDup (starts es);
  ro_finishes : finishes es = starts es;
  ro_started id : id ∈ starts es <-> exists n n', nodes g !! id = Some n
    /\ nodes g' !! id = Some n' /\ n_status n = Pending /\ n_status n' <> Pending;
  ro_done d : DagGraph.dep_done g' d = true -> DagGraph.dep_done g d = true \/ EFinish d true ∈ es;
  ro_deps pre id post n d : es = pre ++ EStart id :: post -> nodes g !! id = Some n ->
    d ∈ n_depends_on n -> DagGraph.dep_done g d = true \/ EFinish d true ∈ pre;
  ro_order pre id b post : es = pre ++ EFinish id b :: post -> EStart id ∈ pre
}.

(** An event of two logs is of the one or of the other. *)
Lemma app_split {A} (l1 l2 pre post : list A) x :
  l1 ++ l2 = pre ++ x :: post ->
  (exists post', l1 = pre ++ x :: post') \/ exists pre', pre = l1 ++ pre' /\ l2 = pre' ++ x :: post.
Proof.
  intros [(l & -> & E)|(l & -> & E)]%app_eq_inv; [|right; by exists l].
  destruct l as [|y l]; simpl in E.
  - right. exists []. by rewrite !app_nil_r.
  - injection E as <- ->. left. by exists l.
Qed.

Lemma starts_dispatch ns : starts (dispatch_events ns) = n_id <$> ns.
Proof. unfold starts, dispatch_events. induction ns; [done|]. simpl. by f_equal. Qed.

Lemma finishes_dispatch ns : finishes (dispatch_events ns) = [].
Proof. unfold finishes, dispatch_events. by induction ns. Qed.

Lemma starts_collect rs : starts (collect_events rs) = [].
Proof. unfold starts, collect_events. by induction rs. Qed.

Lemma finishes_collect rs : finishes (collect_events rs) = er_node_id <$> rs.
Proof. unfold finishes, collect_events. induction rs; [done|]. simpl. by f_equal. Qed.

Lemma starts_split es1 es2 : starts (es1 ++ es2) = starts es1 ++ starts es2.
Proof. apply omap_app. Qed.

Lemma finishes_split es1 es2 : finishes (es1 ++ es2) = finishes es1 ++ finishes es2.
Proof. apply omap_app. Qed.

Lemma run_once_app g1 g2 g3 es1 es2 :
  progress g1 g2 -> progress g2 g3 ->
  run_once g1 g2 es1 -> run_once g2 g3 es2 -> run_once g1 g3 (es1 ++ es2).
Proof.
  intros Hp12 Hp23 H1 H2.
  assert (Hleft : forall id n n2 n3, nodes g1 !! id = Some n -> nodes g2 !! id = Some n2 ->
    nodes g3 !! id = Some n3 ->
    (n_status n2 = Pending -> n_status n = Pending)
    /\ (n_status n3 = Pending -> n_status n2 = Pending)).
  { intros id n n2 n3 Hn Hn2 Hn3.
    destruct (proj2 Hp12 id n Hn) as (m & Hm & _ & _ & [->|(? & Hs & _)]);
      destruct (proj2 Hp23 id n2 Hn2) as (m' & Hm' & _ & _ & [->|(? & Hs' & _)]);
      simplify_eq; split; try done; intros E; try done;
      first [by destruct Hs; congruence|by destruct Hs'; congruence]. }
  split.
  - rewrite starts_split. apply NoDup_app. split; [apply H1|]. split; [|apply H2].
    intros id (n & n2 & Hn & Hn2 & _ & Hs)%(ro_started _ _ _ H1) (m & m' & Hm & _ & Hs' & _)%(ro_started _ _ _ H2).
    congruence.
  - by rewrite starts_split, finishes_split, (ro_finishes _ _ _ H1), (ro_finishes _ _ _ H2).
  - intros id. rewrite starts_split, elem_of_app, (ro_started _ _ _ H1), (ro_started _ _ _ H2).
    split.
    + intros [(n & n2 & Hn & Hn2 & Hs & Hs2)|(n2 & n3 & Hn2 & Hn3 & Hs2 & Hs3)].
      * destruct (proj1 (proj1 Hp23 id)) as [n3 Hn3]; [by eexists|].
        exists n, n3. destruct (Hleft id n n2 n3) as [_ Hl]; [done..|]. split_and!; auto.
      * destruct (proj2 (proj1 Hp12 id)) as [n Hn]; [by eexists|].
        exists n, n3. destruct (Hleft id n n2 n3) as [Hl _]; [done..|]. split_and!; auto.
    + intros (n & n3 & Hn & Hn3 & Hs & Hs3).
      destruct (proj1 (proj1 Hp12 id)) as [n2 Hn2]; [by eexists|].
      destruct (decide (n_status n2 = Pending)); [right; by exists n2, n3|left; by exists n, n2].
  - intros d [Hd|Hd]%(ro_done _ _ _ H2); [|right; apply elem_of_app; by right].
    destruct (ro_done _ _ _ H1 d Hd); [by left|right; apply elem_of_app; by left].
  - intros pre id post n d [[post' E]|(pre' & -> & E)]%app_split Hn Hd;
      [by eapply (ro_deps _ _ _ H1)|].
    destruct (proj2 Hp12 id n Hn) as (n2 & Hn2 & _ & Hdeps & _).
    destruct (ro_deps _ _ _ H2 pre' id post n2 d E Hn2) as [Hdd|Hf]; [by rewrite Hdeps| |].
    + destruct (ro_done _ _ _ H1 d Hdd); [by left|right; apply elem_of_app; by left].
    + right. apply elem_of_app. by right.
  - intros pre id b post [[post' E]|(pre' & -> & E)]%app_split; [by eapply (ro_order _ _ _ H1)|].
    apply elem_of_app. right. by eapply (ro_order _ _ _ H2).
Qed.

Lemma tick_once (o : HashOrder) ex f g :
  wf_keys g ->
  run_once g (Executor.execute_tick ex f g).2
    (dispatch_events (Executor.dispatch ex g).1
     ++ collect_events (Executor.execute_tick ex f g).1).
Proof.
  intros Hwf. destruct (tick_spec ex f g Hwf) as (-> & Hin & Hout).
  set (g' := (Executor.execute_tick ex f g).2) in *.
  destruct (dispatch_spec ex g Hwf) as [-> _].
  set (run1 := fun n => Executor.await_task f (set_status InProgress n)).
  assert (Hids : n_id <$> (set_status InProgress <$> chosen ex g) = n_id <$> chosen ex g)
    by (by rewrite <- list_fmap_compose).
  assert (Hrs : er_node_id <$> (run1 <$> chosen ex g) = n_id <$> chosen ex g)
    by (by rewrite <- list_fmap_compose).
  set (es := dispatch_events _ ++ collect_events _).
  assert (Hst : starts es = n_id <$> chosen ex g)
    by (unfold es; by rewrite starts_split, starts_dispatch, starts_collect, app_nil_r).
  split; rewrite ?Hst.
  - by apply NoDup_chosen_ids.
  - unfold es. by rewrite finishes_split, finishes_dispatch, finishes_collect.
  - intros id. split.
    + intros (n & -> & Hn)%list_elem_of_fmap. exists n, (ran f n).
      rewrite (chosen_lookup ex g n Hwf Hn), (Hin n Hn).
      apply chosen_ready in Hn as [_ [Hp _]%is_ready_true]. split_and!; [done..|].
      by destruct (ran_status f n) as [->| ->].
    + intros (n & n' & Hn & Hn' & Hp & Hnp). destruct (decide (id ∈ n_id <$> chosen ex g)); [done|].
      rewrite Hout in Hn' by done. congruence.
  - intros d (n' & Hn' & Hd)%dep_done_true. destruct (decide (d ∈ n_id <$> chosen ex g)) as [Hc|Hc].
    + right. apply list_elem_of_fmap in Hc as (n & -> & Hn). rewrite (Hin n Hn) in Hn'.
      injection Hn' as <-. apply elem_of_app. right. unfold collect_events.
      apply list_elem_of_fmap. exists (run1 n). split; [|by apply list_elem_of_fmap_2].
      unfold ran, finish in Hd. cbn in Hd. by destruct (r_success _) eqn:E in Hd; [rewrite <- E|].
    + left. apply dep_done_true. exists n'. by rewrite <- Hout.
  - intros pre id post n d [[post' E]|(pre' & -> & E)]%app_split Hn Hd.
    + left. assert (EStart id ∈ dispatch_events (set_status InProgress <$> chosen ex g)) as Hs
        by (rewrite E; apply elem_of_app; right; apply list_elem_of_here).
      apply elem_of_starts in Hs. rewrite starts_dispatch, Hids in Hs.
      apply list_elem_of_fmap in Hs as (m & -> & Hm). rewrite (chosen_lookup ex g m Hwf Hm) in Hn.
      injection Hn as <-. apply chosen_ready in Hm as [_ [_ Hr]%is_ready_true]. by apply Hr.
    + assert (EStart id ∈ collect_events (run1 <$> chosen ex g)) as Hs
        by (rewrite E; apply elem_of_app; right; apply list_elem_of_here).
      apply elem_of_starts in Hs. rewrite starts_collect in Hs. by apply elem_of_nil in Hs.
  - intros pre id b post [[post' E]|(pre' & -> & E)]%app_split.
    + assert (EFinish id b ∈ dispatch_events (set_status InProgress <$> chosen ex g)) as Hf
        by (rewrite E; apply elem_of_app; right; apply list_elem_of_here).
      assert (id ∈ finishes (dispatch_events (set_status InProgress <$> chosen ex g))) as Hf'
        by (apply elem_of_finishes; by eexists).
      rewrite finishes_dispatch in Hf'. by apply elem_of_nil in Hf'.
    + assert (id ∈ finishes (collect_events (run1 <$> chosen ex g))) as Hf.
      { apply elem_of_finishes. exists b. rewrite E. apply elem_of_app. right. apply list_elem_of_here. }
      rewrite finishes_collect, Hrs, <- Hids, <- starts_dispatch, elem_of_starts in Hf.
      apply elem_of_app. by left.
Qed.

(** Every run has a log, and keeps to it. *)
Lemma run_logged_once fuel orders tasks ex : forall t g r g' es,
  wf_keys g -> run_logged fuel orders tasks t ex g = Some (r, g', es) ->
  progress g g' /\ run_once g g' es.
Proof.
  induction fuel as [|fuel IH]; intros t g r g' es Hwf; [done|]. cbn [run_logged].
  pose proof (@tick_once (orders t) ex (tasks t) g Hwf) as Ho.
  pose proof (@tick_progress (orders t) ex (tasks t) g Hwf) as Hp.
  destruct (Executor.dispatch ex g) as [ns g0].
  destruct (Executor.execute_tick ex (tasks t) g) as [rs g1]. simpl in Ho, Hp.
  repeat case_goal; try by intros [= <- <- <-].
  destruct (run_logged fuel orders tasks (S t) ex g1) as [[[r1 g2] es2]|] eqn:Hr; [|done].
  intros [= <- <- <-]. apply IH in Hr as [Hp2 Ho2]; [|by eapply progress_wf].
  split; [by eapply progress_trans|by eapply run_once_app].
Qed.

(** * Liveness *)

Module Liveness.
Import Interleaving.

(** One critical section of an executor whose tasks all succeed. The order in
    which it finds the ready nodes is arbitrary. *)
Inductive exec_step (ex : DagExecutor) : sys -> sys -> Prop :=
| exec_dispatch (o : HashOrder) g :
    exec_step ex (mkSys g Idle)
      (mkSys (Executor.dispatch ex g).2 (phase_of (Executor.dispatch ex g).1))
| exec_collect f g ns :
    (forall n, exists r, f n = Ok r /\ r_success r = true) ->
    exec_step ex (mkSys g (Running ns))
      (mkSys (Executor.collect g (Executor.await_task f <$> ns)) Idle).

(** Every run of the executor that keeps going reaches [P]. *)
Inductive inevitably (ex : DagExecutor) (P : sys -> Prop) (s : sys) : Prop :=
| inev_now : P s -> inevitably ex P s
| inev_next :
    (exists s', exec_step ex s s') ->
    (forall s', exec_step ex s s' -> inevitably ex P s') -> inevitably ex P s.

Definition all_done (s : sys) : Prop :=
  sys_phase s = Idle
  /\ forall k n, nodes (sys_graph s) !! k = Some n -> n_status n = Done.

(** No node has failed or is blocked. *)
Definition healthy (g : DagGraph) : Prop :=
  forall k n, nodes g !! k = Some n -> n_status n <> Failed /\ n_status n <> Blocked.

(** The work left: a pending node is dispatched and then collected. *)
Definition work (s : sys) : nat :=
  2 * pending_count (sys_graph s) + match sys_phase s with Idle => 0 | Running _ => 1 end.

End Liveness.

Section LivenessProof.
Import Interleaving Liveness.
Context (ex : DagExecutor) (Hmax : 0 < max_parallel ex).

(** The nodes of [g'] are those of [g], some of them started or finished. *)
Definition advanced (g g' : DagGraph) : Prop :=
  forall k, exists h, nodes g' !! k = h <$> nodes g !! k
    /\ forall n, n_depends_on (h n) = n_depends_on n
         /\ (h n = n \/ n_status (h n) = InProgress \/ n_status (h n) = Done).

Lemma advanced_some g g' k n' :
  advanced g g' -> nodes g' !! k = Some n' -> exists n, nodes g !! k = Some n
    /\ n_depends_on n' = n_depends_on n
    /\ (n' = n \/ n_status n' = InProgress \/ n_status n' = Done).
Proof.
  intros Ha Hn'. destruct (Ha k) as (h & Hh & Hs). rewrite Hn' in Hh. symmetry in Hh.
  apply fmap_Some in Hh as (n & Hn & ->). exists n. by destruct (Hs n).
Qed.

Lemma advanced_closed g g' : advanced g g' -> closed g -> closed g'.
Proof.
  intros Ha Hc k n' d Hn' Hd. destruct (advanced_some g g' k n' Ha Hn') as (n & Hn & E & _).
  rewrite E in Hd. destruct (Ha d) as (h & -> & _). apply fmap_is_Some. by eapply Hc.
Qed.

Lemma advanced_healthy g g' : advanced g g' -> healthy g -> healthy g'.
Proof.
  intros Ha Hh k n' Hn'.
  destruct (advanced_some g g' k n' Ha Hn') as (n & Hn & _ & [->|[E|E]]);
    [by apply (Hh k)|by rewrite E..].
Qed.

Lemma advanced_pending g g' :
  advanced g g' ->
  filter (fun kn => n_status kn.2 = Pending) (nodes g')
  ⊆ filter (fun kn => n_status kn.2 = Pending) (nodes g).
Proof.
  intros Ha. apply map_subseteq_spec. intros k n'.
  rewrite !map_lookup_filter_Some. simpl. intros [Hn' Hp].
  destruct (advanced_some g g' k n' Ha Hn') as (n & Hn & _ & [->|[E|E]]); [done|congruence..].
Qed.

Lemma dispatch_advanced (o : HashOrder) g :
  wf_keys g -> advanced g (Executor.dispatch ex g).2.
Proof.
  intros Hwf k. destruct (dispatch_spec ex g Hwf) as [_ Hg]. eexists. split; [apply Hg|].
  intros n. case_bool_decide; [|by auto]. split; [done|]. by right; left.
Qed.

Lemma dispatch_pending (o : HashOrder) g :
  wf_keys g -> chosen ex g <> [] ->
  (pending_count (Executor.dispatch ex g).2 < pending_count g)%nat.
Proof.
  intros Hwf Hne. apply map_subset_size, map_subset_alt.
  split; [by apply advanced_pending, dispatch_advanced|].
  destruct (chosen ex g) as [|n l] eqn:Hch; [done|].
  assert (Hin : n ∈ chosen ex g) by (rewrite Hch; apply list_elem_of_here).
  pose proof (chosen_lookup ex g n Hwf Hin) as Hl.
  destruct (chosen_ready ex g n Hin) as [_ [Hst _]%is_ready_true].
  destruct (dispatch_spec ex g Hwf) as [_ Hg]. exists (n_id n). split.
  - apply map_lookup_filter_None_2. right. intros m.
    rewrite Hg, bool_decide_true, Hl by (by apply list_elem_of_fmap_2).
    by intros [= <-].
  - exists n. by apply map_lookup_filter_Some.
Qed.

Lemma collect_advanced f g ns :
  inv (mkSys g (Running ns)) -> (forall n, exists r, f n = Ok r /\ r_success r = true) ->
  advanced g (Executor.collect g (Executor.await_task f <$> ns)).
Proof.
  intros Hi Hf k.
  assert (Hids : er_node_id <$> (Executor.await_task f <$> ns) = n_id <$> ns)
    by (by rewrite <- list_fmap_compose).
  destruct (decide (k ∈ n_id <$> ns)) as [Hk|Hk].
  - apply list_elem_of_fmap in Hk as (m & -> & Hm).
    exists (finish (Executor.await_task f m)). split.
    + change (n_id m) with (er_node_id (Executor.await_task f m)).
      apply collect_in; [rewrite Hids; apply Hi|by apply list_elem_of_fmap_2].
    + intros n. split; [done|]. right; right. unfold finish, Executor.await_task. simpl.
      destruct (Hf m) as (r & -> & Hr). by rewrite Hr.
  - exists (fun n => n). split; [|by auto]. rewrite collect_notin by (by rewrite Hids).
    by destruct (nodes g !! k).
Qed.

(** An idle executor has finished or finds a ready node. *)
Lemma idle_progress (o : HashOrder) g :
  inv (mkSys g Idle) -> closed g -> healthy g ->
  all_done (mkSys g Idle) \/ chosen ex g <> [].
Proof.
  intros Hi Hc Hh.
  assert (Hfr : fresh g).
  { intros k n Hn. destruct (Hh k n Hn) as [Hf Hb].
    destruct (n_status n) eqn:E; [by left| |by right|done..].
    by apply (inv_in_progress _ Hi k n Hn), elem_of_nil in E. }
  destruct (decide (chosen ex g = [])) as [E|E]; [left|by right].
  split; [done|]. intros k n Hn. destruct (Hfr k n Hn) as [Hp|]; [exfalso|done].
  destruct (exists_ready g k n (inv_acyclic _ Hi) Hc Hfr Hn Hp) as (k' & n' & Hn' & Hr).
  apply (chosen_nil ex g) in E; [|done].
  rewrite (proj1 (ready_nodes_nil g) E k' n' Hn') in Hr. done.
Qed.

Lemma liveness_step s s' :
  inv s -> closed (sys_graph s) -> healthy (sys_graph s) -> ~ all_done s ->
  exec_step ex s s' ->
  (inv s' /\ closed (sys_graph s') /\ healthy (sys_graph s')) /\ (work s' < work s)%nat.
Proof.
  intros Hi Hc Hh Hnd Hs. destruct Hs as [o g|f g ns Hf]; unfold work; simpl in *.
  - destruct (idle_progress o g Hi Hc Hh) as [Hd|Hne]; [done|].
    pose proof (inv_wf _ Hi : wf_keys g) as Hwf.
    pose proof (dispatch_advanced o g Hwf) as Ha.
    pose proof (dispatch_pending o g Hwf Hne) as Hp. split.
    + split_and!; [by apply inv_dispatch|by eapply advanced_closed|by eapply advanced_healthy].
    + destruct (phase_of _); lia.
  - pose proof (collect_advanced f g ns Hi Hf) as Ha.
    pose proof (map_subseteq_size _ _ (advanced_pending _ _ Ha)) as Hp. split.
    + split_and!; [by apply inv_collect|by eapply advanced_closed|by eapply advanced_healthy].
    + unfold pending_count. lia.
Qed.

Lemma exec_step_exists s : exists s', exec_step ex s s'.
Proof.
  destruct s as [g [|ns]]; eexists.
  - apply (exec_dispatch ex std_order).
  - apply (exec_collect ex (fun n => Ok (mkNodeResult true "" None fzero))).
    intros n. by eexists.
Qed.

Lemma inevitably_done n : forall s,
  (work s < n)%nat -> inv s -> closed (sys_graph s) -> healthy (sys_graph s) ->
  inevitably ex all_done s.
Proof.
  induction n as [|n IH]; intros s Hn Hi Hc Hh; [lia|].
  assert (all_done s \/ ~ all_done s) as [Hd|Hd].
  { destruct s as [g [|ns]]; [|right; by intros [? _]].
    destruct (idle_progress std_order g Hi Hc Hh) as [Hd|Hne]; [by left|right].
    intros [_ Hd]. destruct (@chosen std_order ex g) as [|m l] eqn:E; [done|].
    destruct (@chosen_ready std_order ex g m) as [[k Hk] [Hp _]%is_ready_true];
      [rewrite E; apply list_elem_of_here|].
    rewrite (Hd k m Hk) in Hp. done. }
  - by apply inev_now.
  - apply inev_next; [apply exec_step_exists|]. intros s' Hs.
    destruct (liveness_step s s' Hi Hc Hh Hd Hs) as [(Hi' & Hc' & Hh') Hlt].
    apply IH; [lia|done..].
Qed.

End LivenessProof.

(** * Properties *)

(** C31. With [max_parallel > 0], [run] terminates on every graph whose keys are
    the ids of its nodes, whatever the tasks do, after at most one tick per
    pending node and a last idle one. What it gives to tasks and collects from
    them, in order: exactly the nodes that have left Pending were started, each
    once, after each of its dependencies was Done at the start or had finished
    with success; each finished once, after its start; each is Done or Failed
    with a result, and all other nodes are untouched. The answer is [Ok] exactly
    when every node is Done (and there is one), the error about failed nodes
    when nothing is ready and a node failed, and the error about a stuck graph
    otherwise. *)
Theorem run_terminates orders tasks ex g :
  0 < max_parallel ex -> wf_keys g ->
  exists r g' es,
    Executor.run (S (pending_count g)) orders tasks 0 ex g = Some (r, g')
    /\ run_logged (S (pending_count g)) orders tasks 0 ex g = Some (r, g', es)
    /\ run_once g g' es /\ progress g g' /\ run_post r g'.
Proof.
  intros Hmp Hwf.
  destruct (run_spec orders tasks ex (S (pending_count g)) 0 g Hmp Hwf)
    as (r & g' & Hr & Hp & Hpost); [lia|].
  rewrite Hr. rewrite run_logged_run in Hr.
  destruct (run_logged _ orders tasks 0 ex g) as [[[r1 g1] es]|] eqn:Hl; [|done].
  injection Hr as -> ->. exists r, g', es. split_and!; [done..| |done|done].
  by eapply run_logged_once.
Qed.

Section Properties.
Import Interleaving Liveness.
Context (ex : DagExecutor) (g : DagGraph).

(** A new executor on a well-formed acyclic graph of pending nodes. *)
Definition starting : Prop :=
  wf_keys g /\ acyclic g /\ forall k n, nodes g !! k = Some n -> n_status n = Pending.

Lemma starting_inv : starting -> inv (mkSys g Idle).
Proof. intros (Hwf & Hac & Hp). by apply inv_initial. Qed.

Lemma starting_history : starting -> history [] (abs g).
Proof.
  intros (_ & _ & Hp). apply history_initial. intros id t. rewrite lookup_abs.
  intros (n & Hn & ->)%fmap_Some. simpl. by rewrite (Hp id n Hn).
Qed.

(** C1. Refinement. On a graph that starts well formed (each key the id of its
    node), acyclic and with all nodes Pending, every run of the executor, with
    [add_node] of Pending nodes, [remove_node]
    and [update_dependencies] between any two of its critical sections and any
    outcome of the tasks, is a run of the abstract scheduler from the abstract
    plan of the graph, where a task may start only when it waits, all of its
    dependencies have succeeded and fewer than [max_parallel] tasks run, and
    the plan may change only at waiting tasks and without closing a cycle. *)
Theorem executor_refines_dataflow es s :
  0 <= max_parallel ex -> starting -> lsteps unstarted ex (mkSys g Idle) es s ->
  spec_steps (max_parallel ex) (abs g) es (abs (sys_graph s)).
Proof.
  intros Hm Hst Hs. by destruct (lsteps_refines ex Hm _ _ _ Hs (starting_inv Hst)) as [_ ?].
Qed.

(** C18. The trace of every run of the executor with [add_node] of Pending nodes,
    [remove_node] and [update_dependencies] between its critical sections, on a
    graph that starts well formed, acyclic and with all nodes Pending: no task is started twice or finished
    twice; a task is started after all the dependencies it has, then and ever
    after, finished successfully; a task finishes after it was started; and at
    no time are more than [max_parallel] tasks started and not finished. *)
Theorem executor_trace es s :
  0 <= max_parallel ex -> starting -> lsteps unstarted ex (mkSys g Idle) es s ->
  NoDup (starts es) /\ NoDup (finishes es)
  /\ (forall pre id post, es = pre ++ EStart id :: post ->
        exists n, nodes (sys_graph s) !! id = Some n
          /\ forall d, d ∈ n_depends_on n -> EFinish d true ∈ pre)
  /\ (forall pre id b post, es = pre ++ EFinish id b :: post -> EStart id ∈ pre)
  /\ forall pre post, es = pre ++ post ->
        Z.of_nat (length (starts pre)) <= Z.of_nat (length (finishes pre)) + max_parallel ex.
Proof.
  intros Hm Hst Hs. pose proof (starting_inv Hst) as Hi.
  destruct (lsteps_refines ex Hm _ _ _ Hs Hi) as [_ Hspec].
  pose proof (history_steps _ _ [] _ _ (starting_history Hst) Hspec) as Hh.
  simpl in Hh. destruct Hh as [_ _ Hns Hnf Hd Ho _]. split_and!; [done..| |done|].
  - intros pre id post E. destruct (Hd pre id post E) as (t & Ht & Hdeps).
    unfold abs_sys in Ht. rewrite lookup_abs in Ht.
    apply fmap_Some in Ht as (n & Hn & ->). by exists n.
  - intros pre post ->. apply spec_steps_app in Hspec as (m & Hpre & _).
    pose proof (hi_count _ _ (history_steps _ _ [] _ _ (starting_history Hst) Hpre)) as Hc.
    apply spec_steps_bound in Hpre;
      [|change (abs_sys _) with (abs g); rewrite (running_idle g Hi); lia].
    simpl in Hc. lia.
Qed.

(** C12. Liveness: from every state that the executor and the runtime mutation
    (which adds Pending nodes only) can reach from a well-formed acyclic graph
    of Pending nodes, when no dependency is missing, no node has failed or is blocked
    and [max_parallel > 0], every continued execution in which the tasks
    succeed reaches a state in which the executor is idle and every node is
    Done, whatever order the hash map yields at every tick. *)
Theorem executor_liveness s :
  0 < max_parallel ex -> starting -> rtc (step unstarted ex) (mkSys g Idle) s ->
  closed (sys_graph s) -> healthy (sys_graph s) -> inevitably ex all_done s.
Proof.
  intros Hm Hst Hs Hc Hh. destruct (rtc_step_inv ex _ _ Hs (starting_inv Hst)) as [Hi _].
  apply (inevitably_done ex Hm (S (work s))); [lia|done..].
Qed.

End Properties.

(** * Witnesses *)

Lemma sample_starting : starting sample_graph.
Proof.
  split_and!; [apply sample_graph_wf|apply sample_graph_acyclic|apply sample_graph_pending].
Qed.

(** The run of the sample graph gives "a" and then "b" to a task. *)
Lemma run_terminates_witness :
  exists r g' es, Executor.run 3 (fun _ => std_order) (fun _ => ok_task) 0
      (Executor.new 1) sample_graph = Some (r, g')
    /\ es = [EStart "a"; EFinish "a" true; EStart "b"; EFinish "b" true]%string
    /\ run_once sample_graph g' es /\ run_post r g'.
Proof.
  destruct (run_terminates (fun _ => std_order) (fun _ => ok_task) (Executor.new 1)
    sample_graph) as (r & g' & es & Hr & Hl & Ho & _ & Hp); [done|apply sample_graph_wf|].
  rewrite sample_graph_pending_count in Hr, Hl. exists r, g', es.
  split; [exact Hr|]. split; [|by split]. vm_compute in Hl. by injection Hl as <- <- <-.
Defined.

(** A tick of the sample graph, a change of a finished node, which is refused,
    and the start of the next tick. *)
Lemma sample_run :
  exists es s, lsteps Interleaving.unstarted (Executor.new 4) (Interleaving.mkSys sample_graph Interleaving.Idle) es s
    /\ es = [EStart "a"; EFinish "a" true; EStart "b"]%string.
Proof.
  eexists _, _. split.
  - eapply lsteps_cons; [eapply (lstep_dispatch _ _ std_order); vm_compute; reflexivity|].
    eapply lsteps_cons.
    { cbv [Interleaving.phase_of]. by eapply (lstep_collect _ _ ok_task). }
    eapply lsteps_cons.
    { eapply (lstep_update _ _ std_order _ _ "a" ["b"%string]). vm_compute. reflexivity. }
    eapply lsteps_cons; [eapply (lstep_dispatch _ _ std_order); vm_compute; reflexivity|].
    apply lsteps_nil.
  - vm_compute. reflexivity.
Qed.

Lemma executor_refines_dataflow_witness :
  exists m', spec_steps 4 (abs sample_graph) [EStart "a"; EFinish "a" true; EStart "b"]%string m'.
Proof.
  destruct sample_run as (es & s & Hs & E). exists (abs (Interleaving.sys_graph s)).
  rewrite <- E. apply (executor_refines_dataflow (Executor.new 4) sample_graph es s);
    [by vm_compute|apply sample_starting|exact Hs].
Defined.

Lemma executor_trace_witness :
  exists es, starts es = ["a"; "b"]%string /\ NoDup (starts es).
Proof.
  destruct sample_run as (es & s & Hs & E). exists es. split; [by rewrite E|].
  apply (executor_trace (Executor.new 4) sample_graph es s);
    [by vm_compute|apply sample_starting|exact Hs].
Defined.

Lemma executor_liveness_witness :
  Liveness.inevitably (Executor.new 1) Liveness.all_done
    (Interleaving.mkSys sample_graph Interleaving.Idle).
Proof.
  apply (executor_liveness (Executor.new 1) sample_graph).
  - done.
  - apply sample_starting.
  - apply rtc_refl.
  - apply sample_graph_closed.
  - intros k n Hn. by rewrite (sample_graph_pending k n Hn).
Defined.
