(* ===== verification/Persistence.v ===== *)
(** Checkpoints of the task graph: [DagPersistence] of
    src/src/dag/persistence.rs.

    The file system is a map from paths to contents and a set of directories,
    without symbolic links. Any operation may also fail for a reason outside
    the program (permissions, a full disk), and may then have done a part of
    what it does: the class [Disk] decides, from the operation, the path and the
    state of the file system. [serde_json] is the class [GraphJson]. *)

From S2P Require Import Prelude Text F64 Graph.

(** * The file system *)

(** The components of an absolute path. *)
Definition path : Type := list string.

Record Fs := mkFs { fs_files : gmap path string; fs_dirs : gset path }.

Inductive fs_op := OpCreateDir | OpWrite | OpRead | OpRemoveDir.

(** Failures the program cannot foresee. A failing operation may have made the
    first [disk_made] directories, or emptied the file and written the first
    [disk_written] bytes (nothing, when the file could not be opened), or
    removed the entries [disk_removed] of the tree. *)
Class Disk := {
  disk_fault : fs_op -> path -> Fs -> option string;
  disk_made : path -> Fs -> nat;
  disk_written : path -> Fs -> option nat;
  disk_removed : path -> Fs -> gset path
}.

(** A disk on which nothing unforeseen happens. *)
Definition good_disk : Disk :=
  {| disk_fault := fun _ _ _ => None; disk_made := fun _ _ => 0%nat;
     disk_written := fun _ _ => None; disk_removed := fun _ _ => ∅ |}.

(** A disk that is full after the first [n] bytes of a file. *)
Definition full_disk (p : path) (n : nat) : Disk :=
  {| disk_fault := fun op q _ => match op with
                                 | OpWrite => if bool_decide (q = p) then
                                     Some "No space left on device"%string else None
                                 | _ => None
                                 end;
     disk_made := fun _ _ => 0%nat; disk_written := fun _ _ => Some n;
     disk_removed := fun _ _ => ∅ |}.

Definition slash : Ascii.ascii := Ascii.ascii_of_nat 47.

(** The components of a relative path. *)
Fixpoint split_path (s : string) : list string :=
  match s with
  | EmptyString => [""%string]
  | String c s' =>
    if Ascii.eqb c slash then ""%string :: split_path s'
    else match split_path s' with
         | [] => [String c ""]
         | w :: ws => String c w :: ws
         end
  end.

(** Following components from a directory: every step starts from an existing
    directory, and [..] goes up. *)
Fixpoint resolve (dirs : gset path) (cur : path) (comps : list string) : option path :=
  match comps with
  | [] => Some cur
  | c :: rest =>
    if negb (bool_decide (cur ∈ dirs)) then None
    else if bool_decide (c = ""%string) || bool_decide (c = "."%string) then
      resolve dirs cur rest
    else if bool_decide (c = ".."%string) then resolve dirs (removelast cur) rest
    else resolve dirs (cur ++ [c]) rest
  end.

(** All prefixes of a path. *)
Fixpoint prefixes (p : path) : list path :=
  match p with
  | [] => [[]]
  | c :: p => [] :: (cons c <$> prefixes p)
  end.

(** Decides whether [p] is [q] or lies below it. *)
Fixpoint below (q p : path) : bool :=
  match q, p with
  | [], _ => true
  | c :: q, d :: p => bool_decide (c = d) && below q p
  | _ :: _, [] => false
  end.

Section FileSystem.
Context `{Disk}.

Definition path_exists (fs : Fs) (p : path) : bool :=
  bool_decide (is_Some (fs_files fs !! p)) || bool_decide (p ∈ fs_dirs fs).

(** An operation, and what it leaves when it fails for an outside reason. *)
Definition guarded (op : fs_op) (p : path) (fs : Fs) (partly : Fs) (k : result string unit * Fs)
    : result string unit * Fs :=
  match disk_fault op p fs with
  | Some e => (Err e, partly)
  | None => k
  end.

(** [std::fs::create_dir_all]. *)
Definition create_dir_all (p : path) (fs : Fs) : result string unit * Fs :=
  let made ps := mkFs (fs_files fs) (fs_dirs fs ∪ list_to_set ps) in
  if existsb (fun q => bool_decide (is_Some (fs_files fs !! q))) (prefixes p)
  then (Err "not a directory"%string, fs)
  else guarded OpCreateDir p fs (made (take (disk_made p fs) (prefixes p)))
         (Ok tt, made (prefixes p)).

(** [std::fs::write] to the relative path [name] in the directory [dir]: the
    file is created, or emptied, and then written. *)
Definition write_file (dir : path) (name contents : string) (fs : Fs)
    : result string unit * Fs :=
  match resolve (fs_dirs fs) dir (split_path name) with
  | None => (Err "no such directory"%string, fs)
  | Some p =>
    let holding s := mkFs (<[p := s]> (fs_files fs)) (fs_dirs fs) in
    if bool_decide (p ∈ fs_dirs fs) then (Err "is a directory"%string, fs)
    else guarded OpWrite p fs
           (match disk_written p fs with
            | Some n => holding (String.substring 0 n contents)
            | None => fs
            end)
           (Ok tt, holding contents)
  end.

(** [std::fs::read_to_string]: the contents must be UTF-8. *)
Definition read_to_string (p : path) (fs : Fs) : result string string :=
  match disk_fault OpRead p fs, fs_files fs !! p with
  | Some e, _ => Err e
  | None, Some s =>
    if valid_string s then Ok s else Err "stream did not contain valid UTF-8"%string
  | None, None => Err "no such file"%string
  end.

(** [std::fs::remove_dir_all]. *)
Definition remove_dir_all (p : path) (fs : Fs) : result string unit * Fs :=
  if negb (bool_decide (p ∈ fs_dirs fs)) then (Err "not a directory"%string, fs)
  else
    guarded OpRemoveDir p fs
      (mkFs (filter (fun kv => below p kv.1 && bool_decide (kv.1 ∈ disk_removed p fs) = false)
                    (fs_files fs))
            (filter (fun q => below p q && bool_decide (q ∈ disk_removed p fs) = false)
                    (fs_dirs fs)))
      (Ok tt, mkFs (filter (fun kv => below p kv.1 = false) (fs_files fs))
                   (filter (fun q => below p q = false) (fs_dirs fs))).

End FileSystem.

(** * Checkpoints *)

(** [serde_json] on graphs and nodes. *)
Class GraphJson := {
  graph_to_string_pretty : DagGraph -> result string string;
  node_to_string_pretty : Node -> result string string;
  graph_from_str : string -> result string DagGraph
}.

(** The durations of the results are numbers: JSON has no others. *)
Definition finite_durations (g : DagGraph) : Prop :=
  forall k n r, nodes g !! k = Some n -> n_result n = Some r ->
    is_finite (r_duration_secs r) = true.

Inductive PersistenceError :=
| Io (e : string)
| Serde (e : string)
| NoCheckpoint (p : path).

Definition io_err {A} (r : result string A) : result PersistenceError A :=
  match r with Ok a => Ok a | Err e => Err (Io e) end.

Definition serde_err {A} (r : result string A) : result PersistenceError A :=
  match r with Ok a => Ok a | Err e => Err (Serde e) end.

Record DagPersistence := mkPersistence { base_path : path }.

Module Persistence.
Section Ops.
Context `{Disk} `{GraphJson} `{HashOrder}.

(** [?] on a file system operation. *)
Definition try_io {A B} (m : Fs -> result string A * Fs)
    (k : A -> Fs -> result PersistenceError B * Fs) (fs : Fs)
    : result PersistenceError B * Fs :=
  match m fs with
  | (Ok a, fs) => k a fs
  | (Err e, fs) => (Err (Io e), fs)
  end.

Definition dag_json_path (dp : DagPersistence) : path := base_path dp ++ ["dag.json"%string].

Definition state_dir (dp : DagPersistence) : path := base_path dp ++ ["state"%string].

Definition node_file (id : string) : string := ("node-" +:+ id +:+ ".json")%string.

Definition save_node_state (dp : DagPersistence) (node : Node) (fs : Fs)
    : result PersistenceError unit * Fs :=
  try_io (create_dir_all (state_dir dp)) (fun _ fs =>
    match node_to_string_pretty node with
    | Err e => (Err (Serde e), fs)
    | Ok json =>
      try_io (write_file (state_dir dp) (node_file (n_id node)) json)
        (fun _ fs => (Ok tt, fs)) fs
    end) fs.

Fixpoint save_node_states (dp : DagPersistence) (ns : list Node) (fs : Fs)
    : result PersistenceError unit * Fs :=
  match ns with
  | [] => (Ok tt, fs)
  | node :: rest =>
    match save_node_state dp node fs with
    | (Ok _, fs) => save_node_states dp rest fs
    | (Err e, fs) => (Err e, fs)
    end
  end.

Definition save_checkpoint (dp : DagPersistence) (g : DagGraph) (fs : Fs)
    : result PersistenceError unit * Fs :=
  try_io (create_dir_all (state_dir dp)) (fun _ fs =>
    match graph_to_string_pretty g with
    | Err e => (Err (Serde e), fs)
    | Ok json =>
      try_io (write_file (base_path dp) "dag.json" json)
        (fun _ fs => save_node_states dp (hm_values (nodes g)) fs) fs
    end) fs.

(** The loop that resets the nodes found in progress. *)
Definition reset_in_progress (g : DagGraph) : DagGraph :=
  let ids := (List.filter (fun '(_, n) => bool_decide (n_status n = InProgress))
                (hm_iter (nodes g))).*1 in
  foldl (fun g id => DagGraph.get_node_mut g id (set_status Pending)) g ids.

Definition load_checkpoint (dp : DagPersistence) (fs : Fs)
    : result PersistenceError DagGraph :=
  if negb (path_exists fs (dag_json_path dp)) then Err (NoCheckpoint (base_path dp))
  else
    json ← io_err (read_to_string (dag_json_path dp) fs);
    g ← serde_err (graph_from_str json);
    Ok (reset_in_progress g).

Definition has_checkpoint (dp : DagPersistence) (fs : Fs) : bool :=
  path_exists fs (dag_json_path dp).

Definition clear (dp : DagPersistence) (fs : Fs) : result PersistenceError unit * Fs :=
  if path_exists fs (base_path dp) then
    try_io (remove_dir_all (base_path dp)) (fun _ fs => (Ok tt, fs)) fs
  else (Ok tt, fs).

End Ops.
End Persistence.

(** * What a checkpoint preserves *)

(** JSON numbers need not carry every bit of a duration, so graphs are
    compared up to the durations of the results. *)
Definition strip_duration (r : NodeResult) : NodeResult :=
  mkNodeResult (r_success r) (r_output r) (r_error r) fzero.

Definition strip (n : Node) : Node := set_result (strip_duration <$> n_result n) n.

Definition graph_eqv (g1 g2 : DagGraph) : Prop :=
  forall k, strip <$> nodes g1 !! k = strip <$> nodes g2 !! k.

#[export] Instance graph_eqv_equiv : Equivalence graph_eqv.
Proof.
  split; [done|by intros g1 g2 E k|]. intros g1 g2 g3 E1 E2 k. by rewrite E1.
Qed.

(** The effect of crash recovery on one node. *)
Definition recover (n : Node) : Node :=
  if bool_decide (n_status n = InProgress) then set_status Pending n else n.

Definition recovered (g : DagGraph) : DagGraph := mkDag (recover <$> nodes g).

#[export] Instance recovered_proper : Proper (graph_eqv ==> graph_eqv) recovered.
Proof.
  intros g1 g2 E k. specialize (E k). unfold recovered. simpl. rewrite !lookup_fmap.
  destruct (nodes g1 !! k) as [n|], (nodes g2 !! k) as [m|]; simpl in *; [|done..].
  apply (inj Some) in E. f_equal. unfold recover.
  assert (n_status n = n_status m) as -> by apply (f_equal n_status E).
  case_bool_decide; [|done].
  apply (f_equal (set_status Pending)) in E. by destruct n, m.
Qed.

(** What the program relies on of [serde_json]: a text is a Rust string, so it is
    UTF-8; it ends with the brace that closes the object, so no proper prefix of
    it can be read; a graph is read as it was written, but for the last digits
    of a duration; and a duration that is infinite or not a number is written as
    [null], which cannot be read as a number. *)
Class GraphJsonLaws `{GraphJson} : Prop := {
  gj_text g s : graph_to_string_pretty g = Ok s -> valid_string s = true /\ s <> ""%string;
  gj_prefix g s n : graph_to_string_pretty g = Ok s -> (n < String.length s)%nat ->
    exists e, graph_from_str (String.substring 0 n s) = Err e;
  gj_reads_back g s : graph_to_string_pretty g = Ok s -> finite_durations g ->
    exists g', graph_from_str s = Ok g' /\ graph_eqv g' g;
  gj_null g s : graph_to_string_pretty g = Ok s -> ~ finite_durations g ->
    exists e, graph_from_str s = Err e
}.

Lemma reset_in_progress_spec `{HashOrder} g :
  Persistence.reset_in_progress g = recovered g.
Proof.
  unfold Persistence.reset_in_progress, recovered.
  set (ids := (List.filter _ _).*1).
  assert (Hids : forall k n, nodes g !! k = Some n -> k ∈ ids <-> n_status n = InProgress).
  { intros k n Hn. unfold ids. rewrite list_elem_of_fmap. split.
    - intros ([k' m] & -> & Hin). apply elem_of_filter_bool in Hin as [Hm Hb].
      apply elem_of_hm_iter in Hm. simpl in *. split_bools. by simplify_eq.
    - intros Hs. exists (k, n). split; [done|]. apply elem_of_filter_bool.
      split; [by apply elem_of_hm_iter|by apply bool_decide_eq_true]. }
  assert (Hfold : forall l g k,
    nodes (foldl (fun g id => DagGraph.get_node_mut g id (set_status Pending)) g l) !! k
    = (if bool_decide (k ∈ l) then set_status Pending else fun n => n) <$> nodes g !! k).
  { clear. induction l as [|id l IH]; intros g k; simpl; [by destruct (nodes g !! k)|].
    rewrite IH. simpl. destruct (decide (id = k)) as [->|Hk].
    - rewrite lookup_alter_eq, (bool_decide_true (k ∈ k :: l))
        by (apply list_elem_of_here).
      destruct (nodes g !! k); simpl; [|done]. by case_bool_decide.
    - rewrite lookup_alter_ne by done. destruct (nodes g !! k); simpl; [|done].
      do 2 case_bool_decide; set_solver. }
  destruct (foldl _ g ids) as [ns] eqn:E. f_equal. apply map_eq. intros k.
  specialize (Hfold ids g k). rewrite E in Hfold. simpl in Hfold.
  rewrite Hfold, lookup_fmap. destruct (nodes g !! k) as [n|] eqn:Hn; [|done].
  simpl. f_equal. unfold recover. specialize (Hids k n Hn).
  do 2 case_bool_decide; naive_solver.
Qed.

(** * Saving *)

Fixpoint no_slash (s : string) : bool :=
  match s with
  | EmptyString => true
  | String c s => negb (Ascii.eqb c slash) && no_slash s
  end.

Lemma no_slash_app s t : no_slash (s +:+ t) = no_slash s && no_slash t.
Proof. induction s as [|c s IH]; [done|]. simpl. by rewrite IH, andb_assoc. Qed.

Lemma split_path_single s : no_slash s = true -> split_path s = [s].
Proof.
  induction s as [|c s IH]; [done|]. simpl. intros Hb. split_bools.
  rewrite H. by rewrite IH.
Qed.

Section Save.
Context `{Disk} `{GraphJson} `{HashOrder} (dp : DagPersistence).

Lemma create_dir_files p fs r fs' :
  create_dir_all p fs = (r, fs') -> fs_files fs' = fs_files fs.
Proof.
  unfold create_dir_all, guarded. destruct (existsb _ _); [by intros [= <- <-]|].
  destruct (disk_fault _ _ _); by intros [= <- <-].
Qed.

Lemma create_dir_ok p fs fs' q :
  create_dir_all p fs = (Ok tt, fs') -> q ∈ prefixes p -> q ∈ fs_dirs fs'.
Proof.
  unfold create_dir_all, guarded. destruct (existsb _ _); [done|].
  destruct (disk_fault _ _ _); [done|]. intros [= <-]. simpl. set_solver.
Qed.

Lemma prefixes_app p q : p ∈ prefixes (p ++ q).
Proof.
  induction p as [|c p IH]; simpl; [destruct q; apply list_elem_of_here|].
  apply list_elem_of_further. by apply list_elem_of_fmap_2.
Qed.

(** Writing a plainly named file puts it in the directory, or leaves the
    beginning of it there, or does nothing. *)
Lemma write_file_cases dir name s fs r fs' :
  no_slash name = true -> name ∉ [""; "."; ".."]%string ->
  write_file dir name s fs = (r, fs') ->
  fs_dirs fs' = fs_dirs fs
  /\ ((exists e, r = Err e /\ fs' = fs)
      \/ r = Ok tt /\ fs_files fs' = <[dir ++ [name] := s]> (fs_files fs)
      \/ exists e n, r = Err e
         /\ fs_files fs' = <[dir ++ [name] := String.substring 0 n s]> (fs_files fs)).
Proof.
  intros Hs Hn. unfold write_file. rewrite split_path_single by done. simpl.
  destruct (bool_decide (dir ∈ _)); simpl; [|by intros [= <- <-]; eauto].
  rewrite !bool_decide_false by (intros ->; apply Hn; set_solver). simpl.
  case_bool_decide; [by intros [= <- <-]; eauto|]. unfold guarded.
  destruct (disk_fault _ _ _) as [e|].
  - destruct (disk_written _ _) as [n|]; intros [= <- <-]; (split; [done|]); [|by eauto].
    right. right. by exists e, n.
  - intros [= <- <-]. split; [done|]. by auto.
Qed.

Lemma node_file_plain id :
  no_slash id = true ->
  no_slash (Persistence.node_file id) = true
  /\ Persistence.node_file id ∉ [""; "."; ".."]%string.
Proof.
  intros Hid. unfold Persistence.node_file. split; [by rewrite !no_slash_app, Hid|].
  simpl. set_solver.
Qed.

(** What a load looks at. *)
Definition dag_text (fs : Fs) : option string := fs_files fs !! Persistence.dag_json_path dp.

Definition same_dag (fs fs' : Fs) : Prop :=
  dag_text fs' = dag_text fs
  /\ (Persistence.dag_json_path dp ∈ fs_dirs fs' <-> Persistence.dag_json_path dp ∈ fs_dirs fs).

Lemma elem_of_prefixes (q p : path) : q ∈ prefixes p -> exists l, p = q ++ l.
Proof.
  revert q. induction p as [|c p IH]; intros q; simpl.
  - intros ->%list_elem_of_singleton. by exists [].
  - intros Hq. apply elem_of_cons in Hq as [->|Hq]; [by eexists|].
    apply list_elem_of_fmap in Hq as (q' & -> & Hq). destruct (IH _ Hq) as [l ->]. by exists l.
Qed.

(** Making the directories does not touch the file of the graph. *)
Lemma create_dir_same_dag fs r fs' :
  create_dir_all (Persistence.state_dir dp) fs = (r, fs') -> same_dag fs fs'.
Proof.
  intros Hc. split; [unfold dag_text; by rewrite (create_dir_files _ _ _ _ Hc)|].
  assert (Persistence.dag_json_path dp ∉ prefixes (Persistence.state_dir dp)) as Hno.
  { intros [l Hl]%elem_of_prefixes. unfold Persistence.state_dir, Persistence.dag_json_path in Hl.
    rewrite <- app_assoc in Hl. by apply app_inv_head in Hl. }
  assert (forall n, Persistence.dag_json_path dp ∉ take n (prefixes (Persistence.state_dir dp))) as Hno'
    by (intros n Hin; apply Hno; by eapply subseteq_take).
  unfold create_dir_all, guarded in Hc. destruct (existsb _ _); [by injection Hc as <- <-|].
  destruct (disk_fault _ _ _); injection Hc as <- <-; simpl; set_solver.
Qed.

(** Saving nodes touches the state directory only, whether it succeeds or not. *)
Lemma save_node_same_dag node fs r fs' :
  no_slash (n_id node) = true ->
  Persistence.save_node_state dp node fs = (r, fs') -> same_dag fs fs'.
Proof.
  intros Hid. unfold Persistence.save_node_state, Persistence.try_io.
  destruct (create_dir_all _ fs) as [[u|e] fs1] eqn:Hc; apply create_dir_same_dag in Hc;
    [|by intros [= _ <-]].
  destruct (node_to_string_pretty node) as [json|e]; [|by intros [= _ <-]].
  destruct (write_file _ _ _ fs1) as [r2 fs2] eqn:Hw.
  intros Hr. assert (fs' = fs2) as -> by (by destruct r2; injection Hr).
  destruct (node_file_plain _ Hid). apply write_file_cases in Hw as [Hd Hw]; [|done..].
  assert (forall s, <[Persistence.state_dir dp ++ [Persistence.node_file (n_id node)] := s]>
    (fs_files fs1) !! Persistence.dag_json_path dp = dag_text fs1) as Hne.
  { intros s. apply lookup_insert_ne. unfold Persistence.dag_json_path, Persistence.state_dir.
    rewrite <- app_assoc. by intros ?%app_inv_head. }
  destruct Hc as [Hc1 Hc2]. split; [|by rewrite Hd]. rewrite <- Hc1. unfold dag_text in *.
  destruct Hw as [(e & _ & ->)|[[_ ->]|(e & n & _ & ->)]]; [done|apply Hne..].
Qed.

Lemma save_nodes_same_dag ns : forall fs r fs',
  Forall (fun n => no_slash (n_id n) = true) ns ->
  Persistence.save_node_states dp ns fs = (r, fs') -> same_dag fs fs'.
Proof.
  induction ns as [|n ns IH]; intros fs r fs' Hids; cbn [Persistence.save_node_states].
  { by intros [= _ <-]. }
  apply Forall_cons in Hids as [Hn Hids].
  destruct (Persistence.save_node_state dp n fs) as [r1 fs1] eqn:Hs.
  apply save_node_same_dag in Hs as [Ht1 Hd1]; [|done].
  destruct r1 as [u|e]; [|by intros [= _ <-]]. intros Hr.
  destruct (IH _ _ _ Hids Hr) as [Ht2 Hd2]. split; [congruence|by rewrite Hd2].
Qed.

(** A save leaves the old text of the graph, the new one, or, when the write of
    it failed, the beginning of the new one. *)
Lemma save_checkpoint_cases g fs r fs' :
  (forall k n, nodes g !! k = Some n -> no_slash (n_id n) = true) ->
  Persistence.save_checkpoint dp g fs = (r, fs') ->
  r <> Ok tt /\ same_dag fs fs'
  \/ exists s, graph_to_string_pretty g = Ok s
     /\ (dag_text fs' = Some s
         \/ exists e n, r = Err (Io e) /\ dag_text fs' = Some (String.substring 0 n s)).
Proof.
  intros Hids. unfold Persistence.save_checkpoint, Persistence.try_io.
  destruct (create_dir_all _ fs) as [[u|e] fs1] eqn:Hc; apply create_dir_same_dag in Hc;
    [|by intros [= <- <-]; left].
  destruct (graph_to_string_pretty g) as [json|e]; [|by intros [= <- <-]; left].
  destruct (write_file _ _ _ fs1) as [r2 fs2] eqn:Hw.
  apply write_file_cases in Hw as [Hd Hw]; [|done|set_solver].
  destruct Hw as [(e & -> & ->)|[[-> Hw]|(e & n & -> & Hw)]].
  - intros [= <- <-]. by left.
  - intros Hs. right. exists json. split; [done|]. left.
    apply save_nodes_same_dag in Hs as [Hs _].
    + rewrite Hs. unfold dag_text. rewrite Hw. apply lookup_insert_eq.
    + apply Forall_forall. intros n [k Hk]%elem_of_hm_values. by eapply Hids.
  - intros [= <- <-]. right. exists json. split; [done|]. right. exists e, n. split; [done|].
    unfold dag_text. rewrite Hw. apply lookup_insert_eq.
Qed.

(** ** Loading what a save left *)

Definition readable (fs : Fs) : Prop := forall p, disk_fault OpRead p fs = None.

Lemma load_text fs s :
  readable fs -> dag_text fs = Some s ->
  Persistence.has_checkpoint dp fs = true
  /\ Persistence.load_checkpoint dp fs
     = if valid_string s then g ← serde_err (graph_from_str s); Ok (recovered g)
       else Err (Io "stream did not contain valid UTF-8").
Proof.
  intros Hread Hs. unfold dag_text in Hs.
  assert (path_exists fs (Persistence.dag_json_path dp) = true) as Hex.
  { unfold path_exists. rewrite Hs. by rewrite bool_decide_true by (by eexists). }
  split; [done|]. unfold Persistence.load_checkpoint, read_to_string. rewrite Hex, Hread, Hs. simpl.
  destruct (valid_string s); [|done]. simpl.
  destruct (graph_from_str s); simpl; [|done]. by rewrite reset_in_progress_spec.
Qed.

Lemma load_same_dag fs fs' :
  readable fs -> readable fs' -> same_dag fs fs' ->
  Persistence.load_checkpoint dp fs' = Persistence.load_checkpoint dp fs.
Proof.
  intros Hread Hread' [Ht Hd]. unfold dag_text in Ht. unfold Persistence.load_checkpoint, path_exists, read_to_string.
  rewrite Hread, Hread', Ht, (bool_decide_ext _ _ Hd). done.
Qed.

End Save.

Lemma substring_all s n : (String.length s <= n)%nat -> String.substring 0 n s = s.
Proof.
  revert n. induction s as [|c s IH]; intros [|n] Hn; simpl in *; [done..|lia|].
  rewrite IH by lia. done.
Qed.

(** A disk that fills up when the text of the graph is written. *)
Lemma save_on_full_disk `{GraphJson} `{HashOrder} dp g fs s fs0 :
  graph_to_string_pretty g = Ok s ->
  @Persistence.save_checkpoint good_disk _ _ dp g fs = (Ok tt, fs0) ->
  exists e fs', @Persistence.save_checkpoint (full_disk (Persistence.dag_json_path dp) 0) _ _ dp g fs
    = (Err (Io e), fs') /\ dag_text dp fs' = Some (String.substring 0 0 s).
Proof.
  intros Hs. unfold Persistence.save_checkpoint, Persistence.try_io, create_dir_all.
  destruct (existsb _ _); [done|]. unfold guarded. cbn [disk_fault good_disk full_disk].
  rewrite Hs. set (fs1 := mkFs _ _). unfold write_file. rewrite split_path_single by done.
  simpl. destruct (bool_decide (base_path dp ∈ _)); simpl; [|done].
  case_bool_decide; [done|]. intros _. unfold guarded. cbn [disk_fault disk_written full_disk].
  rewrite bool_decide_true by done. eexists _, _. split; [done|].
  unfold dag_text. simpl. apply lookup_insert_eq.
Qed.

Section Loading.
Context `{Disk} `{JL : GraphJsonLaws} `{HashOrder} (dp : DagPersistence) (g : DagGraph).
Context (s : string) (Hs : graph_to_string_pretty g = Ok s).

(** The whole text of a graph is read back. *)
Lemma load_whole fs :
  readable fs -> dag_text dp fs = Some s -> finite_durations g ->
  Persistence.has_checkpoint dp fs = true
  /\ exists g', Persistence.load_checkpoint dp fs = Ok (recovered g') /\ graph_eqv g' g.
Proof.
  intros Hread Hf Hfin. destruct (load_text dp fs s Hread Hf) as [Hex ->]. split; [done|].
  rewrite (proj1 (gj_text g s Hs)). destruct (gj_reads_back g s Hs Hfin) as (g' & -> & He).
  by exists g'.
Qed.

(** A part of it is not: the cut may even be inside a character. *)
Lemma load_part fs n :
  readable fs -> dag_text dp fs = Some (String.substring 0 n s) -> (n < String.length s)%nat ->
  Persistence.has_checkpoint dp fs = true
  /\ exists e, Persistence.load_checkpoint dp fs
     = Err (if valid_string (String.substring 0 n s) then Serde e else Io e).
Proof.
  intros Hread Hf Hn. destruct (load_text dp fs _ Hread Hf) as [Hex ->]. split; [done|].
  destruct (gj_prefix g s n Hs Hn) as [e He]. rewrite He. destruct (valid_string _); by eexists.
Qed.

End Loading.

Lemma recovered_pending g k n :
  nodes (recovered g) !! k = Some n -> n_status n <> InProgress.
Proof.
  unfold recovered. simpl. rewrite lookup_fmap. destruct (nodes g !! k); simpl; [|done].
  intros [= <-]. unfold recover. by case_bool_decide.
Qed.

Lemma recovered_wf g1 g : graph_eqv g1 g -> wf_keys g -> wf_keys (recovered g1).
Proof.
  intros Heqv Hwf k n. unfold recovered. simpl. rewrite lookup_fmap.
  specialize (Heqv k). destruct (nodes g1 !! k) as [m|]; simpl in *; [|done].
  destruct (nodes g !! k) as [m'|] eqn:Hm'; [|done]. intros [= <-].
  rewrite <- (Hwf k m' Hm'). apply (inj Some) in Heqv as E.
  apply (f_equal n_id) in E. simpl in E. rewrite <- E.
  unfold recover. by case_bool_decide.
Qed.

Lemma recovered_shape g1 g : graph_eqv g1 g -> same_shape (recovered g1) g.
Proof.
  intros Heqv k. specialize (Heqv k). unfold recovered. simpl. rewrite lookup_fmap.
  destruct (nodes g1 !! k) as [m|], (nodes g !! k) as [m'|]; simpl in *; [|done..].
  apply (inj Some) in Heqv as E. apply (f_equal n_depends_on) in E. simpl in E.
  f_equal. rewrite <- E. unfold recover. by case_bool_decide.
Qed.

(** * Properties *)

(** C32. A checkpoint that was saved without an error can be loaded again exactly
    when the durations of its results are finite numbers. Then it gives the same
    graph with the nodes in progress back to pending (up to the digits of the
    durations): the per-node files never overwrite it; the loaded graph has
    nothing in progress, and is well formed and acyclic when the saved one was.
    Otherwise there is a checkpoint, but loading it fails. This is for node ids
    without a slash, a file that can be read after the save, and a [serde_json]
    that keeps to [GraphJsonLaws]. *)
Theorem checkpoint_roundtrip `{Disk} `{GraphJsonLaws} `{HashOrder} dp g fs fs' :
  (forall k n, nodes g !! k = Some n -> no_slash (n_id n) = true) ->
  readable fs' ->
  Persistence.save_checkpoint dp g fs = (Ok tt, fs') ->
  Persistence.has_checkpoint dp fs' = true
  /\ (finite_durations g ->
      exists g', Persistence.load_checkpoint dp fs' = Ok g'
        /\ graph_eqv g' (recovered g)
        /\ (forall k n, nodes g' !! k = Some n -> n_status n <> InProgress)
        /\ (wf_keys g -> wf_keys g') /\ (acyclic g -> acyclic g'))
  /\ (~ finite_durations g ->
      exists e, Persistence.load_checkpoint dp fs' = Err (Serde e)).
Proof.
  intros Hids Hread Hsave.
  apply save_checkpoint_cases in Hsave as [[? _]|(s & Hs & [Hfile|(e & n & [=] & _)])]; [done| |done].
  destruct (load_text dp fs' s Hread Hfile) as [Hex Hload]. split; [done|]. split.
  - intros Hfin. destruct (load_whole dp g s Hs fs' Hread Hfile Hfin) as (_ & g1 & Hl & Heqv).
    exists (recovered g1). split_and!; [done|by rewrite Heqv|apply recovered_pending| |].
    + by apply recovered_wf.
    + by apply acyclic_proper, recovered_shape.
  - intros Hfin. destruct (gj_null g s Hs Hfin) as [e He]. exists e.
    by rewrite Hload, (proj1 (gj_text g s Hs)), He.
Qed.

(** C33. A save is not atomic. For a graph with finite durations and ids without a
    slash, and a [serde_json] that keeps to [GraphJsonLaws]: whatever operation
    of the disk fails during a save, when the files can be read before and
    after, a load gives what it gave before, or the new graph, or, when the text
    of the graph could not be written to its end, an error, although a
    checkpoint exists (a JSON error, or an I/O error when the text was cut
    inside a character). The last does happen: on a disk that fills up at the
    wrong moment the graph can be loaded neither as it was nor as it is,
    whatever checkpoint there was before. *)
Theorem failed_save `{GraphJsonLaws} `{HashOrder} dp g fs :
  finite_durations g ->
  (forall k n, nodes g !! k = Some n -> no_slash (n_id n) = true) ->
  (forall D : Disk, readable fs -> forall r fs', readable fs' ->
     Persistence.save_checkpoint dp g fs = (r, fs') ->
     Persistence.load_checkpoint dp fs' = Persistence.load_checkpoint dp fs
     \/ (exists g', Persistence.load_checkpoint dp fs' = Ok g' /\ graph_eqv g' (recovered g))
     \/ exists e e', r = Err (Io e) /\ Persistence.has_checkpoint dp fs' = true
        /\ (Persistence.load_checkpoint dp fs' = Err (Serde e')
            \/ Persistence.load_checkpoint dp fs' = Err (Io e')))
  /\ (forall fs0,
     @Persistence.save_checkpoint good_disk _ _ dp g fs = (Ok tt, fs0) ->
     exists (D : Disk) e e' fs', readable fs /\ readable fs'
       /\ Persistence.save_checkpoint dp g fs = (Err (Io e), fs')
       /\ Persistence.has_checkpoint dp fs' = true
       /\ Persistence.load_checkpoint dp fs' = Err (Serde e')).
Proof.
  intros Hfin Hids. split.
  - intros D Hread r fs' Hread' Hs.
    apply save_checkpoint_cases in Hs as [[_ Hs]|(s & Hs & Ht)]; [| |done].
    { left. by apply load_same_dag. }
    assert (dag_text dp fs' = Some s -> exists g',
      Persistence.load_checkpoint dp fs' = Ok g' /\ graph_eqv g' (recovered g)) as Hwhole.
    { intros Hf. destruct (load_whole dp g s Hs fs' Hread' Hf Hfin) as (_ & g1 & -> & He).
      exists (recovered g1). split; [done|by rewrite He]. }
    destruct Ht as [Hf|(e & n & -> & Hf)]; [right; left; by apply Hwhole|].
    destruct (decide (n < String.length s)%nat) as [Hn|Hn].
    + right. right. destruct (load_part dp g s Hs fs' n Hread' Hf Hn) as [Hex [e' ->]].
      exists e, e'. split_and!; [done..|]. destruct (valid_string _); [by left|by right].
    + right. left. apply Hwhole. by rewrite Hf, (substring_all s n) by lia.
  - intros fs0 Hsave.
    assert (exists s, graph_to_string_pretty g = Ok s) as [s Hs].
    { apply (@save_checkpoint_cases good_disk) in Hsave as [[? _]|(s & Hs & _)]; [done|by exists s|done]. }
    destruct (save_on_full_disk dp g fs s fs0 Hs Hsave) as (e & fs' & Hfail & Ht).
    set (D := full_disk _ _) in *. assert (forall fs, @readable D fs) as Hread by done.
    destruct (@load_part D _ _ _ dp g s Hs fs' 0 (Hread fs') Ht) as [Hex [e' Hload]].
    { destruct s as [|c s]; simpl; [|lia]. by destruct (gj_text g "" Hs). }
    exists D, e, e', fs'. split_and!; [done..|]. rewrite Hload. by destruct s.
Qed.

#[export] Instance AgentLevel_eq_dec : EqDecision AgentLevel.
Proof. solve_decision. Defined.

#[export] Instance NodeResult_eq_dec : EqDecision NodeResult.
Proof. solve_decision. Defined.

#[export] Instance Node_eq_dec : EqDecision Node.
Proof. solve_decision. Defined.

#[export] Instance DagGraph_eq_dec : EqDecision DagGraph.
Proof. solve_decision. Defined.

(** A serializer for the sample graph. *)
Definition sample_json : GraphJson :=
  {| graph_to_string_pretty := fun g =>
       if decide (g = sample_graph) then Ok "{nodes}"%string else Err "unsupported"%string;
     node_to_string_pretty := fun n => Ok (n_id n);
     graph_from_str := fun s =>
       if bool_decide (s = "{nodes}"%string) then Ok sample_graph else Err "syntax"%string |}.

Lemma sample_json_inv g s :
  @graph_to_string_pretty sample_json g = Ok s -> g = sample_graph /\ s = "{nodes}"%string.
Proof. simpl. case_decide; [|done]. by intros [= <-]. Qed.

Lemma sample_nodes k n :
  nodes sample_graph !! k = Some n -> no_slash (n_id n) = true /\ n_result n = None.
Proof.
  unfold sample_graph. simpl. rewrite lookup_insert_Some.
  intros [[_ <-]|[_ Hl]]; [done|]. by apply lookup_insert_Some in Hl as [[_ <-]|[_ Hl]].
Qed.

Lemma sample_finite : finite_durations sample_graph.
Proof. intros k n r [_ Hn]%sample_nodes. by rewrite Hn. Qed.

#[local] Instance sample_laws : @GraphJsonLaws sample_json.
Proof.
  split; intros g s.
  - by intros [-> ->]%sample_json_inv.
  - intros n [-> ->]%sample_json_inv Hn. exists "syntax"%string. simpl in Hn.
    do 7 (destruct n as [|n]; [done|]). lia.
  - intros [-> ->]%sample_json_inv _. by exists sample_graph.
  - intros [-> ->]%sample_json_inv []. apply sample_finite.
Qed.

Lemma checkpoint_roundtrip_witness :
  let dp := mkPersistence ["tmp"%string] in
  let fs' := (@Persistence.save_checkpoint good_disk sample_json std_order dp
                sample_graph (mkFs ∅ ∅)).2 in
  exists g', @Persistence.load_checkpoint good_disk sample_json std_order dp fs' = Ok g'
    /\ graph_eqv g' (recovered sample_graph).
Proof.
  intros dp fs'.
  destruct (@checkpoint_roundtrip good_disk sample_json sample_laws std_order dp sample_graph
              (mkFs ∅ ∅) fs') as (_ & Hload & _).
  - intros k n Hn. by apply (sample_nodes k).
  - done.
  - by vm_compute.
  - destruct (Hload sample_finite) as (g' & Hl & He & _). exists g'. by split.
Defined.

(** On a disk that has filled up, the sample graph is lost. *)
Lemma failed_save_witness :
  let dp := mkPersistence ["tmp"%string] in
  let fs := (@Persistence.save_checkpoint good_disk sample_json std_order dp
               sample_graph (mkFs ∅ ∅)).2 in
  is_ok (@Persistence.load_checkpoint good_disk sample_json std_order dp fs) = true
  /\ exists (D : Disk) e fs', @Persistence.save_checkpoint D sample_json std_order dp sample_graph fs
       = (Err (Io e), fs')
     /\ is_ok (@Persistence.load_checkpoint D sample_json std_order dp fs') = false.
Proof.
  intros dp fs. split; [by vm_compute|].
  destruct (@failed_save sample_json sample_laws std_order dp sample_graph fs) as [_ Hlost].
  - apply sample_finite.
  - intros k n Hn. by apply (sample_nodes k).
  - destruct (Hlost (@Persistence.save_checkpoint good_disk sample_json std_order dp
      sample_graph fs).2) as (D & e & e' & fs' & _ & _ & Hs & _ & Hl); [by vm_compute|].
    exists D, e, fs'. split; [exact Hs|by rewrite Hl].
Defined.
