(* ===== verification/Calendar.v ===== *)
(** Timestamps: [iso8601_now] of src/src/envelope/task_envelope.rs and
    [format_iso8601] of src/src/hardware/snapshot.rs.

    The two functions turn the same count of seconds into text by different
    algorithms: a closed formula over 400-year eras starting in March, and a
    loop over the years since 1970. [iso8601_agree] proves that they agree. *)

From S2P Require Import Prelude.

(** * The two algorithms *)

Section Algorithms.
Context `{BuildProfile}.

(** [format!("{:04}-{:02}-{:02}T{:02}:{:02}:{:02}Z")]. *)
Definition iso_text (y m d hours minutes seconds : Z) : string :=
  (display_padded 4 y +:+ "-" +:+ display_padded 2 m +:+ "-" +:+ display_padded 2 d
   +:+ "T" +:+ display_padded 2 hours +:+ ":" +:+ display_padded 2 minutes
   +:+ ":" +:+ display_padded 2 seconds +:+ "Z")%string.

(** The civil date of a day, as in [iso8601_now]. *)
Definition civil_from_days (days : Z) : outcome (Z * Z * Z) :=
  z ← add_i 64 (cast_i 64 days) 719468;
  adj ← (if 0 <=? z then Ret z else add_i 64 z (-146096));
  let era := Z.quot adj 146097 in
  off ← arith_i 64 (era * 146097);
  rel ← arith_i 64 (z - off);
  let doe := cast_u 64 rel in
  t1 ← sub_u 64 doe (doe / 1460);
  t2 ← add_u 64 t1 (doe / 36524);
  t3 ← sub_u 64 t2 (doe / 146096);
  let yoe := t3 / 365 in
  era400 ← arith_i 64 (era * 400);
  y ← add_i 64 (cast_i 64 yoe) era400;
  y365 ← mul_u 64 365 yoe;
  s1 ← add_u 64 y365 (yoe / 4);
  s2 ← sub_u 64 s1 (yoe / 100);
  doy ← sub_u 64 doe s2;
  d5 ← mul_u 64 5 doy;
  d52 ← add_u 64 d5 2;
  let mp := d52 / 153 in
  m153 ← mul_u 64 153 mp;
  m2 ← add_u 64 m153 2;
  d0 ← sub_u 64 doy (m2 / 5);
  d ← add_u 64 d0 1;
  m ← (if mp <? 10 then add_u 64 mp 3 else sub_u 64 mp 9);
  y' ← (if m <=? 2 then add_i 64 y 1 else Ret y);
  Ret (y', m, d).

(** [iso8601_now], given the seconds since the epoch. *)
Definition iso8601_now (secs : Z) : outcome string :=
  let days := secs / 86400 in
  let time_of_day := secs mod 86400 in
  let hours := time_of_day / 3600 in
  let minutes := (time_of_day mod 3600) / 60 in
  let seconds := time_of_day mod 60 in
  ymd ← civil_from_days days;
  let '(y, m, d) := ymd in
  Ret (iso_text y m d hours minutes seconds).

Definition is_leap (year : Z) : bool :=
  ((Z.rem year 4 =? 0) && negb (Z.rem year 100 =? 0)) || (Z.rem year 400 =? 0).

Definition days_in_year (year : Z) : Z := if is_leap year then 366 else 365.

(** The loop over the years; [None] stands for running out of fuel. *)
Fixpoint year_loop (fuel : nat) (year days : Z) : outcome (option (Z * Z)) :=
  match fuel with
  | O => Ret None
  | S fuel =>
    if days <? days_in_year year then Ret (Some (year, days))
    else
      days ← sub_u 64 days (days_in_year year);
      year ← add_i 32 year 1;
      year_loop fuel year days
  end.

Definition month_days (leap : bool) : list Z :=
  if leap then [31; 29; 31; 30; 31; 30; 31; 31; 30; 31; 30; 31]
  else [31; 28; 31; 30; 31; 30; 31; 31; 30; 31; 30; 31].

(** The loop over the months from the [i]-th on: the month found (0 when none
    is) and the days left. *)
Fixpoint month_loop (mds : list Z) (i days : Z) : Z * Z :=
  match mds with
  | [] => (0, days)
  | md :: mds => if days <? md then (i, days) else month_loop mds (i + 1) (days - md)
  end.

(** Every iteration of the year loop uses up at least 365 days. *)
Definition format_iso8601 (epoch_secs : Z) : outcome string :=
  let days := epoch_secs / 86400 in
  let day_secs := epoch_secs mod 86400 in
  let hours := day_secs / 3600 in
  let minutes := (day_secs mod 3600) / 60 in
  let seconds := day_secs mod 60 in
  r ← year_loop (S (Z.to_nat (days / 365))) 1970 days;
  yd ← unwrap r;
  let '(year, days) := yd in
  let '(month, days) := month_loop (month_days (is_leap year)) 0 days in
  Ret (iso_text year (month + 1) (days + 1) hours minutes seconds).

End Algorithms.

(** * The calendar *)

(** Days before March 1 of year [y], counted from March 1 of year 0. *)
Definition march1 (y : Z) : Z := 365 * y + y / 4 - y / 100 + y / 400.

(** Days before January 1 of year [y], from the epoch. *)
Definition jan1 (y : Z) : Z := march1 (y - 1) + 306 - 719468.

Lemma is_leap_mod y :
  0 <= y -> is_leap y = ((y mod 4 =? 0) && negb (y mod 100 =? 0)) || (y mod 400 =? 0).
Proof. intros Hy. unfold is_leap. by rewrite !Z.rem_mod_nonneg by lia. Qed.

Lemma jan1_succ y : 1970 <= y -> jan1 (y + 1) = jan1 y + days_in_year y.
Proof.
  intros Hy. unfold jan1, march1, days_in_year. rewrite is_leap_mod by lia.
  replace (y + 1 - 1) with y by lia.
  destruct (y mod 4 =? 0) eqn:E4, (y mod 100 =? 0) eqn:E100, (y mod 400 =? 0) eqn:E400;
    split_bools; simpl; Z.div_mod_to_equations; lia.
Qed.

Lemma days_in_year_bounds y : 365 <= days_in_year y <= 366.
Proof. unfold days_in_year. destruct (is_leap y); lia. Qed.

Lemma jan1_le y y' : 1970 <= y <= y' -> jan1 y <= jan1 y'.
Proof.
  intros [Hy Hle]. revert y' Hle. apply Zlt_lower_bound_ind. intros y' IH Hle.
  destruct (Z.eq_dec y y') as [->|]; [lia|].
  transitivity (jan1 (y' - 1)); [apply IH; lia|].
  pose proof (jan1_succ (y' - 1) ltac:(lia)) as Hs.
  replace (y' - 1 + 1) with y' in Hs by lia.
  pose proof (days_in_year_bounds (y' - 1)). lia.
Qed.

(** The first day whose year is not a 32-bit integer. *)
Definition last_day : Z := jan1 (2 ^ 31).

Lemma last_day_value : last_day = 784351576777.
Proof. by vm_compute. Qed.

(** The days of the year loop, after the days of one year. *)
Lemma year_days days year :
  days_in_year year <= days -> 0 <= days < 2 ^ 64 ->
  0 <= days - days_in_year year < 2 ^ 64
  /\ (Z.to_nat ((days - days_in_year year) / 365) < Z.to_nat (days / 365))%nat.
Proof.
  intros Hle Hd. pose proof (days_in_year_bounds year). split; [lia|].
  assert ((days - days_in_year year) / 365 <= days / 365 - 1) as Hdiv.
  { apply Z.le_trans with ((days - 365) / 365); [apply Z.div_le_mono; lia|].
    replace (days - 365) with (days + (-1) * 365) by lia. rewrite Z.div_add by lia. lia. }
  pose proof (Z.div_pos (days - days_in_year year) 365). lia.
Qed.

(** The year loop finds the year whose days contain the given one. *)
Lemma year_loop_spec `{BuildProfile} fuel : forall year days,
  1970 <= year -> 0 <= days < 2 ^ 64 -> jan1 year + days < last_day ->
  (Z.to_nat (days / 365) < fuel)%nat ->
  exists y r, year_loop fuel year days = Ret (Some (y, r))
    /\ year <= y /\ jan1 year + days = jan1 y + r /\ 0 <= r < days_in_year y.
Proof.
  induction fuel as [|fuel IH]; intros year days Hy Hd Hmax Hf; [lia|].
  cbn [year_loop]. destruct (days <? days_in_year year) eqn:E; split_bools.
  { exists year, days. split_and!; [done|lia..]. }
  destruct (year_days days year) as [Hd' Hf']; [lia..|].
  pose proof (jan1_succ year Hy) as Hj.
  assert (year + 1 < 2 ^ 31) as Hlt.
  { destruct (Z.lt_ge_cases (year + 1) (2 ^ 31)) as [|Hge]; [done|].
    pose proof (jan1_le (2 ^ 31) (year + 1) ltac:(lia)). unfold last_day in Hmax. lia. }
  unfold sub_u. rewrite arith_u_ok by (unfold in_u; lia). rewrite bind_Ret.
  unfold add_i. rewrite arith_i_ok by (unfold in_i; lia). rewrite bind_Ret.
  destruct (IH (year + 1) (days - days_in_year year)) as (y & r & Hr & Hle & Hjr & Hrr); [lia..|].
  exists y, r. rewrite Hr. split_and!; [done|lia..].
Qed.

(** From the last day on, the year overflows. *)
Lemma year_loop_overflow fuel : forall year days,
  1970 <= year < 2 ^ 31 -> 0 <= days < 2 ^ 64 -> last_day <= jan1 year + days ->
  (Z.to_nat (days / 365) < fuel)%nat ->
  @year_loop debug_profile fuel year days = Panic.
Proof.
  induction fuel as [|fuel IH]; intros year days Hy Hd Hmax Hf; [lia|].
  cbn [year_loop]. pose proof (jan1_succ year ltac:(lia)) as Hj.
  pose proof (jan1_le (year + 1) (2 ^ 31) ltac:(lia)) as Hle. fold last_day in Hle.
  rewrite (proj2 (Z.ltb_ge _ _)) by lia.
  destruct (year_days days year) as [Hd' Hf']; [lia..|].
  unfold sub_u. rewrite arith_u_ok by (unfold in_u; lia). rewrite bind_Ret.
  destruct (Z.eq_dec (year + 1) (2 ^ 31)) as [E|E].
  - unfold add_i. by rewrite E.
  - unfold add_i. rewrite arith_i_ok by (unfold in_i; lia). rewrite bind_Ret.
    apply IH; lia.
Qed.

(** * Day and month within a year *)

(** A range check by evaluation. *)
Fixpoint upto (n : nat) : list Z :=
  match n with O => [] | S n => Z.of_nat n :: upto n end.

Lemma upto_forallb n (p : Z -> bool) z :
  forallb p (upto n) = true -> 0 <= z < Z.of_nat n -> p z = true.
Proof.
  induction n as [|n IH]; intros Hp Hz; [lia|].
  cbn [upto forallb] in Hp. split_bools.
  destruct (Z.eq_dec z (Z.of_nat n)) as [->|]; [done|]. apply IH; [done|lia].
Qed.

(** Month and day of the [doy]-th day of a year that starts on March 1. *)
Definition march_month (doy : Z) : Z :=
  let mp := (5 * doy + 2) / 153 in if mp <? 10 then mp + 3 else mp - 9.

Definition march_day (doy : Z) : Z :=
  let mp := (5 * doy + 2) / 153 in doy - (153 * mp + 2) / 5 + 1.

Definition same_date (leap : bool) (r doy : Z) : bool :=
  let '(m, d) := month_loop (month_days leap) 0 r in
  (m + 1 =? march_month doy) && (d + 1 =? march_day doy).

Lemma march_to_december (leap : bool) doy :
  0 <= doy < 306 -> same_date leap (doy + 59 + (if leap then 1 else 0)) doy = true
    /\ (march_month doy <=? 2) = false.
Proof.
  intros Hd. rewrite <- negb_true_iff. apply andb_true_iff.
  destruct leap;
    [apply (upto_forallb 306 (fun doy => same_date true (doy + 59 + 1) doy
        && negb (march_month doy <=? 2)) doy)
    |apply (upto_forallb 306 (fun doy => same_date false (doy + 59 + 0) doy
        && negb (march_month doy <=? 2)) doy)]; [by vm_compute|lia|by vm_compute|lia].
Qed.

Lemma january_february (leap : bool) doy :
  306 <= doy < 365 + (if leap then 1 else 0) ->
  same_date leap (doy - 306) doy = true /\ (march_month doy <=? 2) = true.
Proof.
  intros Hd. apply andb_true_iff.
  assert (forall r : Z, 0 <= r < 59 + (if leap then 1 else 0) ->
    same_date leap r (r + 306) && (march_month (r + 306) <=? 2) = true) as Hr.
  { intros r Hr. destruct leap.
    - apply (upto_forallb 60 (fun r => same_date true r (r + 306)
        && (march_month (r + 306) <=? 2))); [by vm_compute|lia].
    - apply (upto_forallb 59 (fun r => same_date false r (r + 306)
        && (march_month (r + 306) <=? 2))); [by vm_compute|lia]. }
  specialize (Hr (doy - 306)). replace (doy - 306 + 306) with doy in Hr by lia.
  apply Hr. destruct leap; lia.
Qed.

(** * Years within an era *)

Definition day_count (doe : Z) : Z := doe - doe / 1460 + doe / 36524 - doe / 146096.

Definition era_start (k : Z) : Z := 365 * k + k / 4 - k / 100.

Lemma day_count_mono a b : 0 <= a <= b -> b < 146097 -> day_count a <= day_count b.
Proof.
  intros [Ha Hab] Hb. revert Hb.
  apply (Zlt_lower_bound_ind (fun b => b < 146097 -> day_count a <= day_count b) a);
    [|done]. clear b Hab. intros b IH Hab Hb.
  destruct (Z.eq_dec a b) as [->|]; [lia|].
  transitivity (day_count (b - 1)); [apply IH; lia|].
  unfold day_count. Z.div_mod_to_equations. lia.
Qed.

(** The formula for the year of the era is right. *)
Lemma year_of_era doe :
  0 <= doe < 146097 ->
  let yoe := day_count doe / 365 in
  0 <= yoe < 400 /\ era_start yoe <= doe
  /\ doe < (if yoe =? 399 then 146097 else era_start (yoe + 1)).
Proof.
  intros Hd yoe.
  assert (Hchk : forall k, 0 <= k < 400 ->
    (day_count (era_start k) / 365 =? k)
    && ((day_count ((if k =? 399 then 146097 else era_start (k + 1)) - 1) / 365 =? k)) = true).
  { intros k Hk.
    apply (upto_forallb 400 (fun k => (day_count (era_start k) / 365 =? k)
      && ((day_count ((if k =? 399 then 146097 else era_start (k + 1)) - 1) / 365 =? k))));
      [by vm_compute|lia]. }
  assert (Hy : 0 <= yoe < 400).
  { pose proof (day_count_mono 0 doe ltac:(lia) ltac:(lia)) as H0.
    pose proof (day_count_mono doe 146096 ltac:(lia) ltac:(lia)) as H1.
    change (day_count 0) with 0 in H0. change (day_count 146096) with 145999 in H1.
    unfold yoe. split; [apply Z.div_pos; lia|apply Z.div_lt_upper_bound; lia]. }
  split; [done|].
  assert (Hlo : forall k, 0 <= k < 400 -> doe < era_start k -> yoe < k).
  { intros k Hk Hlt. destruct (decide (k = 0)) as [->|Hk0].
    { change (era_start 0) with 0 in Hlt. lia. }
    specialize (Hchk (k - 1) ltac:(lia)). split_bools.
    rewrite (proj2 (Z.eqb_neq (k - 1) 399)) in * by lia.
    replace (k - 1 + 1) with k in * by lia.
    pose proof (day_count_mono doe (era_start k - 1) ltac:(lia)) as Hm.
    assert (era_start k - 1 < 146097) by (unfold era_start; Z.div_mod_to_equations; lia).
    specialize (Hm ltac:(lia)). apply (Z.div_le_mono _ _ 365) in Hm; [|lia].
    fold yoe in Hm. lia. }
  split.
  - destruct (Z.le_gt_cases (era_start yoe) doe); [done|].
    specialize (Hlo yoe Hy ltac:(lia)). lia.
  - destruct (yoe =? 399) eqn:E; [lia|]. split_bools.
    destruct (Z.lt_ge_cases doe (era_start (yoe + 1))) as [|Hge]; [done|].
    specialize (Hchk (yoe + 1) ltac:(lia)). split_bools.
    pose proof (day_count_mono (era_start (yoe + 1)) doe) as Hm.
    assert (0 <= era_start (yoe + 1)) by (unfold era_start; Z.div_mod_to_equations; lia).
    specialize (Hm ltac:(lia) ltac:(lia)). apply (Z.div_le_mono _ _ 365) in Hm; [|lia].
    fold yoe in Hm. lia.
Qed.

(** * Agreement *)

Lemma jan1_mono y y' :
  1970 <= y -> y < y' -> jan1 y + days_in_year y <= jan1 y'.
Proof. intros Hy Hlt. rewrite <- jan1_succ by lia. apply jan1_le. lia. Qed.

(** A day belongs to one year. *)
Lemma jan1_unique y r y' r' :
  1970 <= y -> 1970 <= y' -> 0 <= r < days_in_year y -> 0 <= r' < days_in_year y' ->
  jan1 y + r = jan1 y' + r' -> y = y' /\ r = r'.
Proof.
  intros Hy Hy' Hr Hr' Heq.
  destruct (Z.lt_trichotomy y y') as [Hlt|[->|Hlt]]; [|lia|].
  - pose proof (jan1_mono y y' Hy Hlt). lia.
  - pose proof (jan1_mono y' y Hy' Hlt). lia.
Qed.

(** The year, counted from March, and the day in it. *)
Definition march_year (days : Z) : Z * Z :=
  let z := days + 719468 in
  let doe := z mod 146097 in
  let yoe := day_count doe / 365 in
  (yoe + z / 146097 * 400, doe - era_start yoe).

Lemma march1_era era k :
  0 <= k < 400 -> march1 (k + era * 400) = era * 146097 + era_start k.
Proof. intros Hk. unfold march1, era_start. Z.div_mod_to_equations. lia. Qed.

Lemma march_year_spec days :
  0 <= days ->
  let '(y, doy) := march_year days in
  1969 <= y /\ days + 719468 = march1 y + doy
  /\ 0 <= doy < 365 + (if is_leap (y + 1) then 1 else 0).
Proof.
  intros Hd. unfold march_year.
  set (z := days + 719468). set (doe := z mod 146097).
  assert (Hdoe : 0 <= doe < 146097) by (apply Z.mod_pos_bound; lia).
  destruct (year_of_era doe Hdoe) as (Hy & Hlo & Hhi).
  set (yoe := day_count doe / 365) in *.
  assert (Hz : z = 146097 * (z / 146097) + doe) by (apply Z.div_mod; lia).
  pose proof (march1_era (z / 146097) yoe Hy) as Hm.
  set (era := z / 146097) in *. clearbody era doe yoe.
  assert (Hera : 4 <= era) by (unfold z in Hz; lia).
  assert (Hyr : 1969 <= yoe + era * 400).
  { destruct (Z.le_gt_cases 5 era); [lia|]. assert (era = 4) as -> by lia.
    destruct (Z.le_gt_cases 369 yoe); [lia|].
    assert (yoe =? 399 = false) as Hne by (apply Z.eqb_neq; lia). rewrite Hne in Hhi.
    unfold era_start in Hhi. unfold z in Hz. Z.div_mod_to_equations. lia. }
  split_and!; [done|rewrite Hm; lia|lia|].
  rewrite is_leap_mod by lia. destruct (yoe =? 399) eqn:E399; split_bools.
  - subst yoe. unfold era_start in *.
    assert ((399 + era * 400 + 1) mod 400 = 0) as -> by (Z.div_mod_to_equations; lia).
    rewrite orb_true_r. change (365 * 399 + 399 / 4 - 399 / 100) with 145731. lia.
  - unfold era_start in *.
    destruct ((yoe + era * 400 + 1) mod 4 =? 0) eqn:E4,
      ((yoe + era * 400 + 1) mod 100 =? 0) eqn:E100,
      ((yoe + era * 400 + 1) mod 400 =? 0) eqn:E400;
      split_bools; simpl; Z.div_mod_to_equations; lia.
Qed.

(** [iso8601_now]'s formula never overflows and computes that date. *)
Lemma civil_from_days_spec `{BuildProfile} days :
  0 <= days < 2 ^ 48 ->
  let '(y, doy) := march_year days in
  civil_from_days days
  = Ret (if march_month doy <=? 2 then y + 1 else y, march_month doy, march_day doy).
Proof.
  intros Hd. pose proof (march_year_spec days ltac:(lia)) as Hs.
  unfold march_year in *. set (z := days + 719468) in *.
  destruct Hs as (Hy & Hz & Hdoy0 & Hdoy).
  assert (Hdoe : 0 <= z mod 146097 < 146097) by (apply Z.mod_pos_bound; lia).
  destruct (year_of_era _ Hdoe) as (Hyoe & Hstart & _).
  assert (Hera : 0 <= z / 146097 < 2 ^ 48)
    by (split; [apply Z.div_pos; lia|apply Z.div_lt_upper_bound; lia]).
  assert (Hzdm : z - z / 146097 * 146097 = z mod 146097)
    by (rewrite (Z.mod_eq z 146097) by lia; lia).
  assert (Hcast : forall a, 0 <= a < 2 ^ 62 -> cast_i 64 a = a).
  { intros a Ha. unfold cast_i. change (64 - 1) with 63. rewrite Z.mod_small; lia. }
  set (doe := z mod 146097) in *. set (yoe := day_count doe / 365) in *.
  assert (Ht3 : doe - doe / 1460 + doe / 36524 - doe / 146096 = day_count doe) by done.
  assert (Hdc : 0 <= day_count doe < 146097) by
    (unfold day_count; clearbody doe; clear - Hdoe; Z.div_mod_to_equations; lia).
  assert (Hq : doe / 1460 <= doe /\ 0 <= doe / 36524 < 5 /\ 0 <= doe / 1460) by
    (clearbody doe; clear - Hdoe; Z.div_mod_to_equations; lia).
  assert (Hk : 0 <= yoe / 100 <= yoe / 4 /\ yoe / 4 < 100) by
    (clearbody yoe; clear - Hyoe; Z.div_mod_to_equations; lia).
  set (doy := doe - era_start yoe) in *.
  assert (Hdoy' : 0 <= doy < 366) by (destruct (is_leap _); lia).
  assert (Hmp : 0 <= (5 * doy + 2) / 153 < 12
    /\ 0 <= doy - (153 * ((5 * doy + 2) / 153) + 2) / 5 < 31) by
    (clearbody doy; clear - Hdoy'; Z.div_mod_to_equations; lia).
  unfold civil_from_days, add_i, sub_u, add_u, mul_u.
  rewrite (Hcast days) by lia. arith_step lia. fold z.
  rewrite (proj2 (Z.leb_le 0 z)) by lia. arith_step lia.
  rewrite Z.quot_div_nonneg by lia. arith_step lia. rewrite Hzdm. arith_step lia.
  rewrite cast_u_id by (unfold in_u; lia).
  arith_step lia. arith_step lia. arith_step lia. rewrite Ht3. fold yoe.
  arith_step lia. rewrite (Hcast yoe) by lia. arith_step lia. arith_step lia.
  arith_step lia. arith_step lia. fold (era_start yoe). fold doy. arith_step lia. fold doy.
  arith_step lia. arith_step lia. fold (march_day doy).
  arith_step lia. arith_step lia. arith_step lia. arith_step lia.
  unfold march_day, march_month.
  destruct ((5 * doy + 2) / 153 <? 10) eqn:E; split_bools.
  - arith_step lia.
    rewrite (proj2 (Z.leb_gt ((5 * doy + 2) / 153 + 3) 2)) by lia. done.
  - arith_step lia.
    destruct ((5 * doy + 2) / 153 - 9 <=? 2); arith_step lia; done.
Qed.

(** March-based and January-based dates of one day. *)
Lemma march_to_january days :
  0 <= days ->
  let '(y, doy) := march_year days in
  let year := if march_month doy <=? 2 then y + 1 else y in
  exists r, 1970 <= year /\ jan1 year + r = days /\ 0 <= r < days_in_year year
    /\ month_loop (month_days (is_leap year)) 0 r = (march_month doy - 1, march_day doy - 1).
Proof.
  intros Hd. pose proof (march_year_spec days Hd) as Hs.
  destruct (march_year days) as [y doy]. destruct Hs as (Hy & Hz & Hdoy).
  assert (Hsame : forall leap r, same_date leap r doy = true ->
    month_loop (month_days leap) 0 r = (march_month doy - 1, march_day doy - 1)).
  { intros leap r. unfold same_date. destruct (month_loop _ _ _). intros. split_bools.
    f_equal; lia. }
  destruct (Z.lt_ge_cases doy 306) as [Hlt|Hge].
  - destruct (march_to_december (is_leap y) doy ltac:(lia)) as [Hsd ->].
    exists (doy + 59 + (if is_leap y then 1 else 0)).
    assert (1970 <= y) as Hy70.
    { destruct (Z.eq_dec y 1969) as [->|]; [|lia].
      change (march1 1969) with 719162 in Hz. lia. }
    pose proof (jan1_succ y Hy70) as Hj. unfold jan1 in Hj |- *.
    replace (y + 1 - 1) with y in Hj by lia. unfold days_in_year in *.
    split_and!; [done| | | |by apply Hsame]; destruct (is_leap y); lia.
  - destruct (january_february (is_leap (y + 1)) doy ltac:(lia)) as [Hsd ->].
    exists (doy - 306). unfold jan1, days_in_year.
    replace (y + 1 - 1) with y by lia.
    split_and!; [lia|lia|lia|destruct (is_leap _); lia|by apply Hsame].
Qed.

(** C40. For every time before January 1 of the year 2^31 (67,767,976,233,532,800
    seconds after the epoch, where the 32-bit year of [format_iso8601] ends)
    neither function overflows and both give the same text: that of the year,
    month and day of the Gregorian calendar that the number of days since
    January 1, 1970 falls on, and of the time of day. The limit is exact: with
    overflow checks [format_iso8601] panics for every later 64-bit time. *)
Theorem iso8601_agree `{BuildProfile} secs :
  (0 <= secs < 86400 * last_day ->
    exists y r m d,
      iso8601_now secs = Ret (iso_text y m d (secs mod 86400 / 3600)
                                (secs mod 86400 mod 3600 / 60) (secs mod 86400 mod 60))
      /\ format_iso8601 secs = iso8601_now secs
      /\ secs / 86400 = jan1 y + r /\ 0 <= r < days_in_year y
      /\ month_loop (month_days (is_leap y)) 0 r = (m - 1, d - 1))
  /\ (86400 * last_day <= secs < 2 ^ 64 -> @format_iso8601 debug_profile secs = Panic).
Proof.
  set (days := secs / 86400). split; intros Hs.
  - assert (Hd : 0 <= days < last_day)
      by (unfold days; split; [apply Z.div_pos; lia|apply Z.div_lt_upper_bound; lia]).
    rewrite last_day_value in Hd.
    pose proof (civil_from_days_spec days ltac:(lia)) as Hc.
    pose proof (march_to_january days ltac:(lia)) as Hm.
    destruct (march_year days) as [y doy].
    set (year := if march_month doy <=? 2 then y + 1 else y) in *.
    destruct Hm as (r & Hy & Hj & Hr & Hml).
    change (jan1 year + r = days) in Hj.
    destruct (year_loop_spec (S (Z.to_nat (days / 365))) 1970 days)
      as (y' & r' & Hl & Hy' & Hj' & Hr'); [lia|lia| |lia|].
    { rewrite last_day_value. change (jan1 1970) with 0. lia. }
    change (jan1 1970) with 0 in Hj'.
    destruct (jan1_unique y' r' year r) as [-> ->]; [lia..|].
    assert (Hnow : iso8601_now secs
      = Ret (iso_text year (march_month doy) (march_day doy) (secs mod 86400 / 3600)
               (secs mod 86400 mod 3600 / 60) (secs mod 86400 mod 60))).
    { unfold iso8601_now. fold days. by rewrite Hc. }
    exists year, r, (march_month doy), (march_day doy). split_and!; [done| |lia..|done].
    rewrite Hnow. unfold format_iso8601. fold days. rewrite Hl. cbn [mbind outcome_bind unwrap].
    rewrite Hml. by rewrite !Z.sub_add.
  - assert (last_day <= days) as Hlo by (apply Z.div_le_lower_bound; lia).
    assert (days < 2 ^ 64) as Hhi by (apply Z.div_lt_upper_bound; lia).
    pose proof last_day_value as Hv.
    unfold format_iso8601. fold days. rewrite year_loop_overflow; [done|lia|lia| |lia].
    change (jan1 1970) with 0. lia.
Qed.

(** February 29, 2024, 12:34:56. *)
Lemma iso8601_agree_witness :
  @format_iso8601 debug_profile 1709210096 = Ret "2024-02-29T12:34:56Z"%string
  /\ @format_iso8601 debug_profile 1709210096 = @iso8601_now debug_profile 1709210096.
Proof.
  destruct (@iso8601_agree debug_profile 1709210096) as [(y & r & m & d & _ & E & _) _].
  { split; [lia|]. by vm_compute. }
  split; [by vm_compute|exact E].
Defined.
