(* ===== verification/Hardware.v ===== *)
(** Hardware probing: src/src/hardware/probe.rs, pressure.rs and thermal.rs.

    What the operating system reports (sysctl values, sysfs files, the load
    average, the clock) is an argument of the definitions; the code of each
    platform is a separate definition. The IOKit readers of gpu.rs and power.rs
    are in IOKit.v. *)

From S2P Require Import Prelude F64 Calendar.

(** * Probing with a cache *)

Record SystemResources := mkResources {
  cpu_count : Z;
  ram_total_mb : Z;
  ram_available_mb : Z;
  load_avg_1 : f64;
  load_avg_5 : f64;
  load_avg_15 : f64
}.

(** What [sysinfo] reports, with the memory in bytes. *)
Record SysInfo := mkSysInfo {
  si_cpus : Z;
  si_total_memory : Z;
  si_available_memory : Z;
  si_load : f64 * f64 * f64
}.

Module Probe.

Definition CACHE_DURATION : Duration := from_secs 2.

Definition read_resources (sys : SysInfo) : SystemResources :=
  let '(one, five, fifteen) := si_load sys in
  mkResources (si_cpus sys) (si_total_memory sys / (1024 * 1024))
    (si_available_memory sys / (1024 * 1024)) one five fifteen.

(** [probe_system]: the cache is checked at [t0]; a fresh reading is stored
    with the time [t1] at which it was complete. *)
Definition probe_system (t0 t1 : Instant) (sys : SysInfo)
    (cache : option (Instant * SystemResources))
    : SystemResources * option (Instant * SystemResources) :=
  let fresh := (read_resources sys, Some (t1, read_resources sys)) in
  match cache with
  | Some (ts, res) => if elapsed t0 ts <? CACHE_DURATION then (res, cache) else fresh
  | None => fresh
  end.

(** A sequence of probes, each with the times of its two clock readings. *)
Fixpoint probe_all (l : list (Instant * Instant * SysInfo))
    (cache : option (Instant * SystemResources)) : list SystemResources :=
  match l with
  | [] => []
  | (t0, t1, sys) :: l =>
    let '(r, cache) := probe_system t0 t1 sys cache in
    r :: probe_all l cache
  end.

End Probe.

(** * Snapshots *)

Record HardwareSnapshot := mkSnapshot {
  hs_resources : SystemResources;
  hs_timestamp : string;
  hs_platform : string
}.

(** [take_snapshot]. [secs] is the system time in seconds after the epoch, [None]
    when the clock is set before it; [os] is the name of the platform. *)
Definition take_snapshot `{BuildProfile} (t0 t1 : Instant) (secs : option Z) (os : string)
    (sys : SysInfo) (cache : option (Instant * SystemResources))
    : outcome (HardwareSnapshot * option (Instant * SystemResources)) :=
  let '(resources, cache) := Probe.probe_system t0 t1 sys cache in
  now ← unwrap secs;
  timestamp ← format_iso8601 now;
  Ret (mkSnapshot resources timestamp os, cache).

(** * Kernel variables of macOS *)

(** [libc::sysctlbyname] with a buffer of the given number of bytes: the bytes
    it writes, or [None] when it reports an error. *)
Class Sysctl := { sysctlbyname : string -> nat -> option (list Byte.byte) }.

Module Sysctl.

(** The number that a buffer holds; the first byte is the lowest. *)
Fixpoint le_bytes (l : list Byte.byte) : Z :=
  match l with
  | [] => 0
  | b :: l => Z.of_N (Byte.to_N b) + 256 * le_bytes l
  end.

(** A zeroed buffer of [size] bytes after the first ones were overwritten. *)
Definition buffer (size : nat) (written : list Byte.byte) : list Byte.byte :=
  take size (written ++ replicate size Byte.x00).

Section Read.
Context `{Sysctl}.

Definition sysctl_u64 (name : string) : option Z :=
  c_name ← cstring_new name;
  written ← sysctlbyname c_name 8;
  Some (le_bytes (buffer 8 written)).

Definition sysctl_i32 (name : string) : option Z :=
  c_name ← cstring_new name;
  written ← sysctlbyname c_name 4;
  Some (cast_i 32 (le_bytes (buffer 4 written))).

End Read.
End Sysctl.

(** * Memory pressure *)

Inductive MemoryPressureLevel := MNormal | MWarn | MCritical.

#[export] Instance MemoryPressureLevel_eq_dec : EqDecision MemoryPressureLevel.
Proof. solve_decision. Defined.

Record PressureResult := mkPressure {
  pr_level : MemoryPressureLevel;
  ram_available_conservative_mb : Z;
  ram_compressor_mb : Z;
  pr_source : string
}.

Module Pressure.

Definition worse (a b : MemoryPressureLevel) : MemoryPressureLevel :=
  match a, b with
  | MCritical, _ | _, MCritical => MCritical
  | MWarn, _ | _, MWarn => MWarn
  | _, _ => MNormal
  end.

Definition detect_from_ratio (total available : Z) : PressureResult :=
  if total =? 0 then mkPressure MCritical 0 0 "ram_ratio_zero_total"
  else
    let used := saturating_sub total available in
    let ratio := fdiv (of_int used) (of_int total) in
    let level :=
      if fge ratio (lit 85 100) then MCritical
      else if fge ratio (lit 60 100) then MWarn
      else MNormal in
    mkPressure level available 0 "ram_ratio".

(** The reading of [kern.memorystatus_level], an [i32]. *)
Definition kernel_level (reading : option Z) : MemoryPressureLevel :=
  default MNormal ((fun v =>
    if v =? 1 then MCritical
    else if v =? 2 then MWarn
    else if v =? 4 then MNormal
    else MNormal) <$> reading).

Definition compressor_level (compressor_mb total : Z) : MemoryPressureLevel :=
  if 0 <? total then
    let ratio := fdiv (of_int compressor_mb) (of_int total) in
    if fgt ratio (lit 50 100) then MCritical
    else if fgt ratio (lit 30 100) then MWarn
    else MNormal
  else MNormal.

Definition pressure_source (kernel compressor : MemoryPressureLevel) : string :=
  match kernel, compressor with
  | MCritical, _ => "kernel_signal"
  | _, MCritical => "compressor_ratio"
  | MWarn, _ => "kernel_signal"
  | _, MWarn => "compressor_ratio"
  | _, _ => "kernel_signal"
  end.

(** [detect_pressure] on macOS; [kernel] and [compressor_bytes] are the two
    sysctl readings. *)
Definition detect_pressure_macos (kernel compressor_bytes : option Z)
    (resources : SystemResources) : PressureResult :=
  let kernel_level := kernel_level kernel in
  let compressor_mb := default 0 compressor_bytes / (1024 * 1024) in
  let compressor_level := compressor_level compressor_mb (ram_total_mb resources) in
  let level := worse kernel_level compressor_level in
  let conservative := saturating_sub (ram_available_mb resources) compressor_mb in
  mkPressure level conservative compressor_mb (pressure_source kernel_level compressor_level).

Definition detect_pressure_sysctl `{Sysctl} : SystemResources -> PressureResult :=
  detect_pressure_macos (Sysctl.sysctl_i32 "kern.memorystatus_level")
    (Sysctl.sysctl_u64 "vm.compressor_bytes_used").

(** [detect_pressure] on the other platforms. *)
Definition detect_pressure (resources : SystemResources) : PressureResult :=
  detect_from_ratio (ram_total_mb resources) (ram_available_mb resources).

End Pressure.

(** * Thermal pressure *)

Inductive ThermalPressureLevel := TNominal | TFair | TSerious | TCritical.

#[export] Instance ThermalPressureLevel_eq_dec : EqDecision ThermalPressureLevel.
Proof. solve_decision. Defined.

Record ThermalResult := mkThermal {
  th_level : ThermalPressureLevel;
  th_source : string
}.

Module Thermal.

Definition classify_xcpm_level (raw : Z) : ThermalPressureLevel :=
  if raw <=? 0 then TNominal
  else if raw <=? 30 then TFair
  else if raw <=? 60 then TSerious
  else TCritical.

Definition classify_celsius (celsius : f64) : ThermalPressureLevel :=
  if flt celsius (of_int 60) then TNominal
  else if flt celsius (of_int 80) then TFair
  else if flt celsius (of_int 95) then TSerious
  else TCritical.

(** ** Parsing a sysfs reading *)

(** The white space that [str::trim] removes from ASCII text. *)
Definition is_space (c : Ascii.ascii) : bool :=
  let n := Z.of_N (Ascii.N_of_ascii c) in (n =? 32) || ((9 <=? n) && (n <=? 13)).

Fixpoint trim_start (s : list Ascii.ascii) : list Ascii.ascii :=
  match s with
  | c :: s' => if is_space c then trim_start s' else s
  | [] => []
  end.

Definition trim (s : list Ascii.ascii) : list Ascii.ascii :=
  rev (trim_start (rev (trim_start s))).

Definition digit (c : Ascii.ascii) : option Z :=
  let n := Z.of_N (Ascii.N_of_ascii c) in
  if (48 <=? n) && (n <=? 57) then Some (n - 48) else None.

(** The accumulation of the digits; [sign] is 1 or -1, and overflowing [i64]
    is an error. *)
Fixpoint parse_digits (sign acc : Z) (s : list Ascii.ascii) : option Z :=
  match s with
  | [] => Some acc
  | c :: s =>
    d ← digit c;
    let acc' := acc * 10 + sign * d in
    if (- 2 ^ 63 <=? acc') && (acc' <? 2 ^ 63) then parse_digits sign acc' s else None
  end.

(** [str::parse::<i64>]. *)
Definition parse_i64 (s : list Ascii.ascii) : option Z :=
  match s with
  | [] => None
  | c :: rest =>
    let n := Z.of_N (Ascii.N_of_ascii c) in
    if n =? 43 then match rest with [] => None | _ => parse_digits 1 0 rest end
    else if n =? 45 then match rest with [] => None | _ => parse_digits (-1) 0 rest end
    else parse_digits 1 0 s
  end.

Definition parse_zone_millidegrees (raw : string) : option f64 :=
  milli ← parse_i64 (trim (String.list_ascii_of_string raw));
  Some (fdiv (of_int milli) (of_int 1000)).

Definition max_zone_celsius (zones : list string) : option f64 :=
  foldl (fun acc c => Some (match acc with None => c | Some m => fmax m c end))
    None (omap parse_zone_millidegrees zones).

(** An entry of [/sys/class/thermal]: its name and the contents of its [temp]
    file, each possibly unreadable. *)
Definition zone_reading (entry : option (option string * option string)) : option string :=
  e ← entry;
  name ← e.1;
  if negb (starts_with name "thermal_zone") then None else e.2.

Definition max_celsius (entries : option (list (option (option string * option string))))
    : option f64 :=
  es ← entries;
  max_zone_celsius (omap zone_reading es).

(** ** Detection *)

Definition detect_from_load_ratio (resources : SystemResources) : ThermalResult :=
  if cpu_count resources =? 0 then mkThermal TNominal "unavailable"
  else
    let ratio := fdiv (load_avg_1 resources) (of_int (cpu_count resources)) in
    let level :=
      if flt ratio (lit 70 100) then TNominal
      else if flt ratio (of_int 1) then TFair
      else if flt ratio (lit 150 100) then TSerious
      else TCritical in
    mkThermal level "load_ratio".

(** [detect_thermal] on macOS, given the sysctl reading. *)
Definition detect_thermal_macos (xcpm : option Z) (resources : SystemResources)
    : ThermalResult :=
  match xcpm with
  | Some raw => mkThermal (classify_xcpm_level raw) "xcpm_thermal_level"
  | None => detect_from_load_ratio resources
  end.

Definition detect_thermal_sysctl `{Sysctl} : SystemResources -> ThermalResult :=
  detect_thermal_macos (Sysctl.sysctl_i32 "machdep.xcpm.cpu_thermal_level").

(** [detect_thermal] on Linux, given the directory of thermal zones. *)
Definition detect_thermal_linux
    (entries : option (list (option (option string * option string))))
    (resources : SystemResources) : ThermalResult :=
  match max_celsius entries with
  | Some celsius => mkThermal (classify_celsius celsius) "sys_thermal_zone"
  | None => detect_from_load_ratio resources
  end.

(** [detect_thermal] on the other platforms. *)
Definition detect_thermal_other (resources : SystemResources) : ThermalResult :=
  detect_from_load_ratio resources.

End Thermal.

(** * Severities *)

Definition pressure_rank (l : MemoryPressureLevel) : Z :=
  match l with MNormal => 0 | MWarn => 1 | MCritical => 2 end.

Definition thermal_rank (l : ThermalPressureLevel) : Z :=
  match l with TNominal => 0 | TFair => 1 | TSerious => 2 | TCritical => 3 end.

Lemma worse_rank a b :
  pressure_rank (Pressure.worse a b) = Z.max (pressure_rank a) (pressure_rank b).
Proof. by destruct a, b. Qed.

Lemma pressure_source_spec k c :
  (Pressure.pressure_source k c = "kernel_signal"%string
     <-> pressure_rank c <= pressure_rank k)
  /\ (Pressure.pressure_source k c = "compressor_ratio"%string
     <-> pressure_rank k < pressure_rank c).
Proof. destruct k, c; simpl; split_and!; intros; (done || lia || (exfalso; lia)). Qed.

Lemma classify_xcpm_mono a b :
  a <= b ->
  thermal_rank (Thermal.classify_xcpm_level a) <= thermal_rank (Thermal.classify_xcpm_level b).
Proof.
  intros Hab. unfold Thermal.classify_xcpm_level.
  repeat case_goal; split_bools; simpl; lia.
Qed.

(** A hotter zone is never classified as less severe. *)
Lemma classify_celsius_mono a b :
  a <> Floats.SpecFloat.S754_nan -> flt b a = false ->
  thermal_rank (Thermal.classify_celsius a) <= thermal_rank (Thermal.classify_celsius b).
Proof.
  intros Ha Hba. unfold Thermal.classify_celsius.
  assert (Hstep : forall k, flt b k = true -> flt a k = true)
    by (intros k Hk; by eapply flt_cotrans).
  repeat case_goal; simpl; try lia;
    repeat match goal with
    | H : flt b ?k = true |- _ => apply Hstep in H; congruence
    end.
Qed.

(** * Properties *)

(** On macOS the pressure level is the more severe of the kernel's signal
    and the compressor ratio, the source names the signal that decided (the
    kernel's on a tie), and the conservative amount of memory is within what
    is available. *)
Theorem detect_pressure_macos_spec kernel bytes resources :
  in_u 64 (default 0 bytes) -> 0 <= ram_available_mb resources ->
  let r := Pressure.detect_pressure_macos kernel bytes resources in
  let k := Pressure.kernel_level kernel in
  let c := Pressure.compressor_level (ram_compressor_mb r) (ram_total_mb resources) in
  pressure_rank (pr_level r) = Z.max (pressure_rank k) (pressure_rank c)
  /\ (pr_source r = "kernel_signal"%string <-> pressure_rank c <= pressure_rank k)
  /\ (pr_source r = "compressor_ratio"%string <-> pressure_rank k < pressure_rank c)
  /\ 0 <= ram_available_conservative_mb r <= ram_available_mb resources.
Proof.
  intros Hb Ha r k c. split_and!.
  - unfold r, Pressure.detect_pressure_macos. apply worse_rank.
  - apply pressure_source_spec.
  - apply pressure_source_spec.
  - unfold r, Pressure.detect_pressure_macos, saturating_sub.
    cbn [ram_available_conservative_mb]. unfold in_u in Hb.
    pose proof (Z.div_pos (default 0 bytes) (1024 * 1024)). lia.
  - unfold r, Pressure.detect_pressure_macos, saturating_sub.
    cbn [ram_available_conservative_mb]. unfold in_u in Hb.
    pose proof (Z.div_pos (default 0 bytes) (1024 * 1024)). lia.
Qed.

(** On Linux the thermal level is that of the hottest readable zone: no
    other readable zone is classified as more severe. Unreadable or malformed
    zones are skipped, and without a readable zone the load average decides. *)
Theorem detect_thermal_linux_spec es resources :
  let readings := omap Thermal.parse_zone_millidegrees (omap Thermal.zone_reading es) in
  let r := Thermal.detect_thermal_linux (Some es) resources in
  (readings = [] -> r = Thermal.detect_from_load_ratio resources)
  /\ (readings <> [] ->
      th_source r = "sys_thermal_zone"%string
      /\ (exists m, m ∈ readings /\ th_level r = Thermal.classify_celsius m)
      /\ forall c, c ∈ readings -> c <> Floats.SpecFloat.S754_nan ->
           thermal_rank (Thermal.classify_celsius c) <= thermal_rank (th_level r)).
Proof.
  intros readings r. unfold r, Thermal.detect_thermal_linux, Thermal.max_celsius. simpl.
  unfold Thermal.max_zone_celsius. fold readings.
  destruct readings as [|c l]; [done|]. split; [done|]. intros _.
  destruct (fold_fmax_spec l [c] c) as (m & Hm & Hin & Hle).
  - apply list_elem_of_here.
  - intros d ->%list_elem_of_singleton. destruct (flt c c) eqn:E; [|done].
    by rewrite (flt_asym c c E) in E.
  - by intros Hc d ->%list_elem_of_singleton.
  - cbn [foldl]. rewrite Hm. cbn [th_source th_level]. split_and!; [done|by exists m|].
    intros d Hd Hn. apply classify_celsius_mono; [done|by apply Hle].
Qed.

Lemma detect_pressure_macos_spec_witness :
  pr_source (Pressure.detect_pressure_macos (Some 2) (Some (12 * 2 ^ 30))
    (mkResources 8 16384 4096 fzero fzero fzero)) = "compressor_ratio"%string.
Proof.
  pose proof (detect_pressure_macos_spec (Some 2) (Some (12 * 2 ^ 30))
    (mkResources 8 16384 4096 fzero fzero fzero)) as Hs.
  destruct Hs as (_ & _ & Hc & _).
  - vm_compute. by split.
  - by vm_compute.
  - apply Hc. by vm_compute.
Defined.

(** Two zones, one malformed. *)
Lemma detect_thermal_linux_readings :
  th_level (Thermal.detect_thermal_linux
    (Some [Some (Some "thermal_zone0", Some "81000"); Some (Some "thermal_zone1", Some "n/a");
           Some (Some "cooling_device0", Some "99000"); None]%string)
    (mkResources 8 16384 4096 fzero fzero fzero)) = TSerious.
Proof. by vm_compute. Qed.

(** A kernel variable is read as a value of its type, also when the system has
    written fewer bytes; a whole little-endian value is read as it is. *)
Lemma le_bytes_range l : 0 <= Sysctl.le_bytes l < 256 ^ Z.of_nat (length l).
Proof.
  induction l as [|b l IH]; [done|]. cbn [Sysctl.le_bytes length].
  rewrite Nat2Z.inj_succ, Z.pow_succ_r by lia.
  pose proof (Byte.to_N_bounded b). lia.
Qed.

Lemma sysctl_ranges `{Sysctl} name :
  (forall z, Sysctl.sysctl_u64 name = Some z -> in_u 64 z)
  /\ (forall z, Sysctl.sysctl_i32 name = Some z -> in_i 32 z).
Proof.
  unfold Sysctl.sysctl_u64, Sysctl.sysctl_i32, Sysctl.buffer.
  destruct (cstring_new name) as [c|]; [|done]. split; simpl.
  - destruct (sysctlbyname c 8) as [w|]; [|done]. simpl. intros z [= <-].
    pose proof (le_bytes_range (take 8 (w ++ replicate 8 Byte.x00))) as Hr.
    rewrite length_take, length_app, length_replicate in Hr.
    replace (8 `min` (length w + 8))%nat with 8%nat in Hr by lia. exact Hr.
  - destruct (sysctlbyname c 4) as [w|]; [|done]. simpl. intros z [= <-].
    by apply in_i_cast.
Qed.
