(* ===== verification/IOKit.v ===== *)
(** The IOKit readers: src/src/hardware/gpu.rs and power.rs.

    What the registry of the host holds, and which of its calls fail, is the
    class [IOKit]. The walks over the registry are modelled with their control
    flow and with the trace of the foreign objects they acquire, use and
    release, so that the reference counting discipline is a theorem
    ([iokit_ownership]). *)

From S2P Require Import Prelude F64 Hardware.

(** * The foreign interface *)

(** A property of a registry entry. *)
Inductive CFValue :=
| CFDictionary (lookup : string -> option CFValue)
| CFNumber (as_i64 : option Z) (as_f64 : option f64)
| CFOther.

Class IOKit := {
  (** [IOServiceMatching] returns a dictionary. *)
  io_service_matching : string -> bool;
  (** The services that the iterator of [IOServiceGetMatchingServices] yields;
      [None] when the call fails. *)
  io_matching_services : string -> option (list Z);
  (** [CFStringCreateWithCString] succeeds. *)
  cf_string_create : string -> bool;
  (** [IORegistryEntryCreateCFProperty]. *)
  io_property : Z -> string -> option CFValue
}.

(** Owned references, and what the code does with them. *)
Inductive ref :=
| RIterator (class_name : string)
| RService (service : Z)
| RString (s : string)
| RProperty (service : Z) (key : string).

#[export] Instance ref_eq_dec : EqDecision ref.
Proof. solve_decision. Defined.

Inductive event := Acquire (r : ref) | Use (r : ref) | Release (r : ref).

(** Giving up one reference. *)
Fixpoint remove_ref (r : ref) (own : list ref) : option (list ref) :=
  match own with
  | [] => None
  | x :: own => if decide (x = r) then Some own else cons x <$> remove_ref r own
  end.

(** One event, given the references owned so far: using or releasing a
    reference that is not owned is an error. *)
Definition own_step (own : list ref) (e : event) : option (list ref) :=
  match e with
  | Acquire r => Some (r :: own)
  | Use r => if decide (r ∈ own) then Some own else None
  | Release r => remove_ref r own
  end.

Fixpoint run_events (own : list ref) (es : list event) : option (list ref) :=
  match es with
  | [] => Some own
  | e :: es => own ← own_step own e; run_events own es
  end.

(** How the body of a loop ends: with the next iteration, or leaving the loop
    with what was found. *)
Inductive ctl (A : Type) := Continue | Break (found : option A).
Arguments Continue {A}.
Arguments Break {A} found.

Inductive GpuPressureLevel := GNominal | GFair | GSerious | GCritical.

Record GpuResult := mkGpu {
  gpu_level : GpuPressureLevel;
  utilization_pct : option Z;
  gpu_source : string
}.

(** * GPU utilization *)

Module Gpu.

Definition classify_utilization (pct : Z) : GpuPressureLevel :=
  if pct <=? 29 then GNominal
  else if pct <=? 59 then GFair
  else if pct <=? 84 then GSerious
  else GCritical.

Definition unavailable : GpuResult := mkGpu GNominal None "unavailable".

(** [i64::clamp]. *)
Definition clamp (lo hi z : Z) : Z := Z.max lo (Z.min hi z).

Section Walk.
Context `{IOKit}.

(** The body of the loop, for a service that the walk owns. *)
Definition visit_service (service : Z) : ctl Z * list event :=
  match cstring_new "PerformanceStatistics" with
  | None => (Break None, [Release (RService service)])
  | Some key =>
    if negb (cf_string_create key) then (Continue, [Release (RService service)])
    else
      let ev := [Acquire (RString key); Use (RService service); Use (RString key)] in
      let done := [Release (RString key); Release (RService service)] in
      match io_property service key with
      | None => (Continue, ev ++ done)
      | Some props =>
        let p := RProperty service key in
        let ev := ev ++ [Acquire p] ++ done ++ [Use p] in
        match props with
        | CFDictionary lookup =>
          match cstring_new "Device Utilization %" with
          | None => (Continue, ev ++ [Release p])
          | Some util_key =>
            if negb (cf_string_create util_key) then (Continue, ev ++ [Release p])
            else
              let ev := ev ++ [Acquire (RString util_key); Use p; Use (RString util_key);
                               Release (RString util_key)] in
              match lookup util_key with
              | None => (Continue, ev ++ [Release p])
              | Some value =>
                let ev := ev ++ [Use p] in
                match value with
                | CFNumber as_i64 _ =>
                  let ev := ev ++ [Use p; Release p] in
                  match as_i64 with
                  | Some raw => (Break (Some (clamp 0 100 raw)), ev)
                  | None => (Continue, ev)
                  end
                | _ => (Continue, ev ++ [Release p])
                end
              end
          end
        | _ => (Continue, ev ++ [Release p])
        end
      end
  end.

(** The loop over the services of one iterator. *)
Fixpoint walk (iterator : ref) (services : list Z) : option Z * list event :=
  match services with
  | [] => (None, [Use iterator])
  | service :: rest =>
    let first := [Use iterator; Acquire (RService service)] in
    match visit_service service with
    | (Break found, ev) => (found, first ++ ev)
    | (Continue, ev) =>
      let '(found, ev') := walk iterator rest in (found, first ++ ev ++ ev')
    end
  end.

(** The loop over the class names. *)
Fixpoint walk_classes (names : list string) : option Z * list event :=
  match names with
  | [] => (None, [])
  | service_name :: rest =>
    match cstring_new service_name with
    | None => (None, [])
    | Some c_name =>
      if negb (io_service_matching c_name) then walk_classes rest
      else
        match io_matching_services c_name with
        | None => walk_classes rest
        | Some services =>
          let iterator := RIterator c_name in
          let '(found, ev) := walk iterator services in
          let ev := [Acquire iterator] ++ ev ++ [Release iterator] in
          match found with
          | Some _ => (found, ev)
          | None => let '(found, ev') := walk_classes rest in (found, ev ++ ev')
          end
        end
    end
  end.

Definition read_iokit_utilization_pct : option Z * list event :=
  walk_classes ["AGXAccelerator"; "IOAccelerator"]%string.

Definition detect_gpu_macos (_resources : SystemResources) : GpuResult :=
  match read_iokit_utilization_pct.1 with
  | Some pct => mkGpu (classify_utilization pct) (Some pct) "iokit_accelerator"
  | None => unavailable
  end.

End Walk.

(** [detect_gpu] on the other platforms. *)
Definition detect_gpu (_resources : SystemResources) : GpuResult := unavailable.

End Gpu.

(** * Package power *)

Inductive PowerPressureLevel := PNominal | PFair | PSerious | PCritical.

Record PowerResult := mkPower {
  pw_level : PowerPressureLevel;
  package_watts : option f64;
  pw_source : string
}.

Module Power.

Definition POWER_KEYS : list string := ["PCPC"; "PSTR"; "PHPC"; "PSYS"]%string.

Definition classify_watts (watts : f64) : PowerPressureLevel :=
  if flt watts (of_int 15) then PNominal
  else if flt watts (of_int 35) then PFair
  else if flt watts (of_int 60) then PSerious
  else PCritical.

Definition unavailable : PowerResult := mkPower PNominal None "unavailable".

Section Walk.
Context `{IOKit}.

(** The loop over the keys; [Continue] means that no key had a reading. *)
Fixpoint visit_keys (service : Z) (keys : list string) : ctl f64 * list event :=
  match keys with
  | [] => (Continue, [])
  | key_name :: rest =>
    let continue ev :=
      let '(c, ev') := visit_keys service rest in (c, ev ++ ev') in
    match cstring_new key_name with
    | None => continue []
    | Some key =>
      if negb (cf_string_create key) then continue []
      else
        let ev := [Acquire (RString key); Use (RService service); Use (RString key)] in
        match io_property service key with
        | None => continue (ev ++ [Release (RString key)])
        | Some value =>
          let p := RProperty service key in
          let ev := ev ++ [Acquire p; Release (RString key); Use p] in
          match value with
          | CFNumber _ as_f64 =>
            let ev := ev ++ [Use p; Release p] in
            match as_f64 with
            | Some raw =>
              if is_finite raw && fge raw fzero then
                (Break (Some raw), ev ++ [Release (RService service)])
              else continue ev
            | None => continue ev
            end
          | _ => continue (ev ++ [Release p])
          end
        end
    end
  end.

Fixpoint walk (iterator : ref) (services : list Z) : option f64 * list event :=
  match services with
  | [] => (None, [Use iterator])
  | service :: rest =>
    let first := [Use iterator; Acquire (RService service)] in
    match visit_keys service POWER_KEYS with
    | (Break found, ev) => (found, first ++ ev)
    | (Continue, ev) =>
      let '(found, ev') := walk iterator rest in
      (found, first ++ ev ++ [Release (RService service)] ++ ev')
    end
  end.

Definition read_smc_package_watts : option f64 * list event :=
  match cstring_new "AppleSMC" with
  | None => (None, [])
  | Some c_name =>
    if negb (io_service_matching c_name) then (None, [])
    else
      match io_matching_services c_name with
      | None => (None, [])
      | Some services =>
        let iterator := RIterator c_name in
        let '(found, ev) := walk iterator services in
        (found, [Acquire iterator] ++ ev ++ [Release iterator])
      end
  end.

Definition detect_power_macos (_resources : SystemResources) : PowerResult :=
  match read_smc_package_watts.1 with
  | Some watts => mkPower (classify_watts watts) (Some watts) "iokit_smc_property"
  | None => unavailable
  end.

End Walk.

(** [detect_power] on the other platforms. *)
Definition detect_power (_resources : SystemResources) : PowerResult := unavailable.

End Power.

(** * Ownership *)

Lemma run_events_app own es es' :
  run_events own (es ++ es') = (own' ← run_events own es; run_events own' es').
Proof.
  revert own. induction es as [|e es IH]; intros own; [done|]. simpl.
  destruct (own_step own e); [apply IH|done].
Qed.

Lemma remove_ref_here r own : remove_ref r (r :: own) = Some own.
Proof. simpl. by rewrite decide_True. Qed.

Lemma remove_ref_there r x own own' :
  x <> r -> remove_ref r own = Some own' -> remove_ref r (x :: own) = Some (x :: own').
Proof. intros Hne Hr. simpl. by rewrite decide_False, Hr. Qed.

Lemma run_use r own es : r ∈ own -> run_events own (Use r :: es) = run_events own es.
Proof. intros Hr. simpl. by rewrite decide_True. Qed.

Lemma run_acquire r own es : run_events own (Acquire r :: es) = run_events (r :: own) es.
Proof. done. Qed.

Lemma run_release r own own' es :
  remove_ref r own = Some own' -> run_events own (Release r :: es) = run_events own' es.
Proof. intros Hr. simpl. by rewrite Hr. Qed.

(** Steps through a concrete trace. *)
Ltac run_trace :=
  cbn [app];
  repeat first
    [ rewrite run_acquire
    | rewrite run_use by (rewrite !elem_of_cons; naive_solver)
    | erewrite run_release by
        (repeat first [apply remove_ref_here | apply remove_ref_there; [discriminate|]]) ];
  try reflexivity.

Section Gpu.
Context `{IOKit}.

(** The body of the loop gives up the service and keeps nothing else. *)
Lemma gpu_visit_owned service own :
  run_events (RService service :: own) (Gpu.visit_service service).2 = Some own.
Proof.
  unfold Gpu.visit_service.
  change (cstring_new ?s) with (Some s). cbv iota beta.
  destruct (cf_string_create _); cbn [negb snd]; [|run_trace].
  destruct (io_property _ _) as [[lookup|i64 f64|]|]; cbn [snd]; [|run_trace..].
  change (cstring_new ?s) with (Some s). cbv iota beta.
  destruct (cf_string_create _); cbn [negb snd]; [|run_trace].
  destruct (lookup _) as [[lookup'|i64 f64|]|]; cbn [snd]; [run_trace| |run_trace..].
  destruct i64; cbn [snd]; run_trace.
Qed.

Lemma gpu_walk_owned iterator services own :
  iterator ∈ own -> run_events own (Gpu.walk iterator services).2 = Some own.
Proof.
  intros Hit. induction services as [|service rest IH]; cbn [Gpu.walk].
  { cbn [snd]. by rewrite run_use. }
  pose proof (gpu_visit_owned service own) as Hv.
  destruct (Gpu.visit_service service) as [[|f] ev]; cbn [snd] in *;
    [destruct (Gpu.walk iterator rest) as [f ev']; cbn [snd] in *|];
    cbn [app]; rewrite run_use, run_acquire by done; rewrite ?run_events_app, Hv; done.
Qed.

Lemma gpu_classes_owned names own :
  run_events own (Gpu.walk_classes names).2 = Some own.
Proof.
  induction names as [|name rest IH]; cbn [Gpu.walk_classes]; [done|].
  destruct (cstring_new name) as [c_name|]; [|done].
  destruct (io_service_matching c_name); cbn [negb]; [|done].
  destruct (io_matching_services c_name) as [services|]; [|done].
  pose proof (gpu_walk_owned (RIterator c_name) services (RIterator c_name :: own)
                (list_elem_of_here _ _)) as Hw.
  destruct (Gpu.walk _ services) as [[f|] ev]; cbn [snd] in Hw;
    [|destruct (Gpu.walk_classes rest) as [f ev']; cbn [snd] in IH |- *];
    cbn [app snd]; rewrite run_acquire, !run_events_app, Hw; simpl;
    by rewrite decide_True.
Qed.

End Gpu.

Section PowerOwned.
Context `{IOKit}.

(** The loop over the keys gives up the service only when it stops the walk. *)
Lemma power_keys_owned service keys own :
  run_events (RService service :: own) (Power.visit_keys service keys).2
  = match (Power.visit_keys service keys).1 with
    | Continue => Some (RService service :: own)
    | Break _ => Some own
    end.
Proof.
  induction keys as [|key_name rest IH]; cbn [Power.visit_keys]; [done|].
  destruct (Power.visit_keys service rest) as [c ev']. cbn [fst snd] in IH.
  destruct (cstring_new key_name) as [key|]; [|exact IH].
  destruct (cf_string_create key); cbn [negb]; [|exact IH].
  destruct (io_property service key) as [[lookup|i64 f64|]|]; cbn [fst snd];
    [|destruct f64 as [raw|]; [destruct (is_finite raw && fge raw fzero)|]|..];
    cbn [fst snd]; rewrite <- ?app_assoc; run_trace; exact IH.
Qed.

Lemma power_walk_owned iterator services own :
  iterator ∈ own -> run_events own (Power.walk iterator services).2 = Some own.
Proof.
  intros Hit. induction services as [|service rest IH]; cbn [Power.walk].
  { cbn [snd]. by rewrite run_use. }
  pose proof (power_keys_owned service Power.POWER_KEYS own) as Hv.
  destruct (Power.visit_keys service Power.POWER_KEYS) as [[|f] ev]; cbn [fst snd] in *;
    [destruct (Power.walk iterator rest) as [f ev']; cbn [snd] in *|];
    cbn [app]; rewrite run_use, run_acquire by done; rewrite ?run_events_app, Hv; [|done].
  simpl. by rewrite decide_True.
Qed.

End PowerOwned.

(** * Readings *)

Section Readings.
Context `{IOKit}.

Lemma gpu_visit_range service pct ev :
  Gpu.visit_service service = (Break (Some pct), ev) -> 0 <= pct <= 100.
Proof.
  unfold Gpu.visit_service.
  change (cstring_new ?s) with (Some s). cbv iota beta zeta.
  destruct (cf_string_create _); cbn [negb]; [|done].
  destruct (io_property _ _) as [[lookup|i64 f64|]|]; [|done..].
  change (cstring_new ?s) with (Some s). cbv iota beta zeta.
  destruct (cf_string_create _); cbn [negb]; [|done].
  destruct (lookup _) as [[lookup'|[raw|] f64|]|]; [done| |done..].
  intros [= <- _]. unfold Gpu.clamp. lia.
Qed.

Lemma gpu_walk_range iterator services pct :
  (Gpu.walk iterator services).1 = Some pct -> 0 <= pct <= 100.
Proof.
  induction services as [|service rest IH]; cbn [Gpu.walk]; [done|].
  destruct (Gpu.visit_service service) as [[|f] ev] eqn:E.
  - by destruct (Gpu.walk iterator rest).
  - cbn [fst]. intros ->. by eapply gpu_visit_range.
Qed.

Lemma gpu_classes_range names pct :
  (Gpu.walk_classes names).1 = Some pct -> 0 <= pct <= 100.
Proof.
  induction names as [|name rest IH]; cbn [Gpu.walk_classes]; [done|].
  destruct (cstring_new name) as [c_name|]; [|done].
  destruct (io_service_matching c_name); cbn [negb]; [|done].
  destruct (io_matching_services c_name) as [services|]; [|done].
  pose proof (gpu_walk_range (RIterator c_name) services) as Hw.
  destruct (Gpu.walk _ services) as [[f|] ev]; cbn [fst] in *; [apply Hw|].
  by destruct (Gpu.walk_classes rest).
Qed.

Lemma power_keys_range service keys watts ev :
  Power.visit_keys service keys = (Break watts, ev) ->
  exists w, watts = Some w /\ is_finite w = true /\ fge w fzero = true.
Proof.
  revert ev. induction keys as [|key_name rest IH]; intros ev; cbn [Power.visit_keys]; [done|].
  destruct (Power.visit_keys service rest) as [c ev'].
  assert (Hc : forall l, (c, l) = (Break watts, ev) ->
    exists w, watts = Some w /\ is_finite w = true /\ fge w fzero = true).
  { intros l [= -> _]. by eapply IH. }
  destruct (cstring_new key_name) as [key|]; [|apply Hc].
  destruct (cf_string_create key); cbn [negb]; [|apply Hc].
  destruct (io_property service key) as [[lookup|i64 [raw|]|]|]; try apply Hc.
  destruct (is_finite raw && fge raw fzero) eqn:E; [|apply Hc].
  intros [= <- _]. apply andb_true_iff in E. by exists raw.
Qed.

Lemma power_walk_range iterator services w :
  (Power.walk iterator services).1 = Some w -> is_finite w = true /\ fge w fzero = true.
Proof.
  induction services as [|service rest IH]; cbn [Power.walk]; [done|].
  destruct (Power.visit_keys service Power.POWER_KEYS) as [[|f] ev] eqn:E.
  - by destruct (Power.walk iterator rest).
  - apply power_keys_range in E as (w' & -> & Hw'). cbn [fst]. by intros [= <-].
Qed.

(** * Properties *)

(** C39. Reference counting. Whatever the registry holds and whichever calls
    fail, both IOKit readers release exactly what they acquire, never release
    or use a reference they do not own, and end with the references they
    started with. *)
Theorem iokit_ownership own :
  run_events own Gpu.read_iokit_utilization_pct.2 = Some own
  /\ run_events own Power.read_smc_package_watts.2 = Some own.
Proof.
  split; [apply gpu_classes_owned|].
  unfold Power.read_smc_package_watts. change (cstring_new ?s) with (Some s). cbv iota.
  destruct (io_service_matching _); cbn [negb]; [|done].
  destruct (io_matching_services _) as [services|]; [|done].
  set (it := RIterator "AppleSMC").
  pose proof (power_walk_owned it services (it :: own) (list_elem_of_here _ _)) as Hw.
  destruct (Power.walk it services) as [f ev]. cbn [snd] in *. cbn [app].
  rewrite run_acquire, run_events_app, Hw. apply (run_release it _ own), remove_ref_here.
Qed.

(** A GPU reading is a percentage and a power reading is a finite number
    that is not negative; without a reading both report the nominal level and
    the source [unavailable]. *)
Theorem iokit_readings resources :
  match utilization_pct (Gpu.detect_gpu_macos resources) with
  | Some pct => 0 <= pct <= 100
      /\ gpu_level (Gpu.detect_gpu_macos resources) = Gpu.classify_utilization pct
  | None => Gpu.detect_gpu_macos resources = Gpu.unavailable
  end
  /\ match package_watts (Power.detect_power_macos resources) with
     | Some w => is_finite w = true /\ fge w fzero = true
         /\ pw_level (Power.detect_power_macos resources) = Power.classify_watts w
     | None => Power.detect_power_macos resources = Power.unavailable
     end.
Proof.
  unfold Gpu.detect_gpu_macos, Power.detect_power_macos. split.
  - destruct Gpu.read_iokit_utilization_pct.1 as [pct|] eqn:E; [|done].
    split; [|done]. by eapply gpu_classes_range.
  - destruct Power.read_smc_package_watts.1 as [w|] eqn:E; [|done].
    cbn [package_watts pw_level]. revert E. unfold Power.read_smc_package_watts.
    change (cstring_new ?s) with (Some s). cbv iota.
    destruct (io_service_matching _); cbn [negb]; [|done].
    destruct (io_matching_services _) as [services|]; [|done].
    pose proof (power_walk_range (RIterator "AppleSMC") services w) as Hw.
    destruct (Power.walk _ services). cbn [fst] in *. intros E.
    by destruct (Hw E).
Qed.

End Readings.
