(* ===== verification/Envelope.v ===== *)
(** Task envelopes: src/src/envelope/task_envelope.rs and error.rs.

    The creation time is given by the seconds that the system clock reports;
    how they become text is in Calendar.v. *)

From S2P Require Import Prelude F64 Calendar.

Definition ENVELOPE_VERSION : Z := 1.

Inductive SecurityZone := Green | Yellow | Red.

#[export] Instance SecurityZone_eq_dec : EqDecision SecurityZone.
Proof. solve_decision. Defined.

Inductive Priority := P0Critical | P1Normal | P2Background.

#[export] Instance Priority_eq_dec : EqDecision Priority.
Proof. solve_decision. Defined.

(** [PartialOrd]: the order of the variants. *)
Definition priority_index (p : Priority) : nat :=
  match p with P0Critical => 0 | P1Normal => 1 | P2Background => 2 end.

Definition priority_of_index (n : nat) : Priority :=
  match n with 0%nat => P0Critical | 1%nat => P1Normal | _ => P2Background end.

#[export] Instance Priority_countable : Countable Priority.
Proof. refine (inj_countable' priority_index priority_of_index _). by intros []. Defined.

Record ResourceBudget := mkBudget {
  max_rss_mb : Z;
  max_wall_time : Duration;
  max_tokens : Z;
  budget_warning_threshold : f64
}.

Record ToolEndpoint := mkTool {
  tool_name : string;
  tool_socket_path : string;
  tool_capabilities : list string
}.

Record CheckpointPolicy := mkCheckpointPolicy {
  cp_interval : Duration;
  cp_on_tool_call : bool
}.

Record TaskSpec := mkTaskSpec {
  ts_title : string;
  ts_description : string;
  ts_working_dir : option string;
  ts_env_vars : gmap string string;
  ts_max_retries : Z
}.

Record TaskEnvelope := mkEnvelope {
  task_id : string;
  parent_dag_id : string;
  task_spec : TaskSpec;
  security_zone : SecurityZone;
  priority : Priority;
  resource_budget : ResourceBudget;
  tool_endpoints : list ToolEndpoint;
  checkpoint_policy : CheckpointPolicy;
  created_at : string;
  envelope_version : Z
}.

Inductive EnvelopeError :=
| EmptyTaskId
| EmptyDagId
| UnsupportedVersion (v : Z)
| InvalidBudget (msg : string)
| Serialization (msg : string).

(** The [Display] of the errors. *)
Definition display_envelope_error (e : EnvelopeError) : string :=
  match e with
  | EmptyTaskId => "empty task_id"
  | EmptyDagId => "empty parent_dag_id"
  | UnsupportedVersion v => "unsupported envelope version: " +:+ display_int v
  | InvalidBudget msg => "invalid resource budget: " +:+ msg
  | Serialization msg => "serialization error: " +:+ msg
  end.

Module Envelope.

Definition default_budget : ResourceBudget :=
  mkBudget 512 (from_secs 300) 100000 (lit 9 10).

Definition default_checkpoint : CheckpointPolicy := mkCheckpointPolicy (from_secs 60) true.

(** [TaskEnvelope::new], at [now] seconds after the epoch. *)
Definition new `{BuildProfile} (now : Z) (task_id parent_dag_id : string)
    (spec : TaskSpec) (zone : SecurityZone) (p : Priority) : outcome TaskEnvelope :=
  created_at ← iso8601_now now;
  Ret (mkEnvelope task_id parent_dag_id spec zone p default_budget [] default_checkpoint
         created_at ENVELOPE_VERSION).

Definition is_token_budget_exceeded (e : TaskEnvelope) (tokens_used : Z) : bool :=
  max_tokens (resource_budget e) <? tokens_used.

Definition warning_threshold (e : TaskEnvelope) : Z :=
  to_uint 64 (fmul (of_int (max_tokens (resource_budget e)))
                (budget_warning_threshold (resource_budget e))).

Definition is_token_budget_warning (e : TaskEnvelope) (tokens_used : Z) : bool :=
  warning_threshold e <=? tokens_used.

Definition is_wall_time_exceeded (e : TaskEnvelope) (elapsed : Duration) : bool :=
  max_wall_time (resource_budget e) <? elapsed.

Definition validate (e : TaskEnvelope) : result EnvelopeError unit :=
  if str_is_empty (task_id e) then Err EmptyTaskId
  else if str_is_empty (parent_dag_id e) then Err EmptyDagId
  else if negb (envelope_version e =? ENVELOPE_VERSION) then
    Err (UnsupportedVersion (envelope_version e))
  else if flt (budget_warning_threshold (resource_budget e)) fzero
       || fgt (budget_warning_threshold (resource_budget e)) (of_int 1) then
    Err (InvalidBudget "budget_warning_threshold must be between 0.0 and 1.0")
  else if max_tokens (resource_budget e) =? 0 then
    Err (InvalidBudget "max_tokens must be greater than 0")
  else if max_rss_mb (resource_budget e) =? 0 then
    Err (InvalidBudget "max_rss_mb must be greater than 0")
  else if max_wall_time (resource_budget e) =? 0 then
    Err (InvalidBudget "max_wall_time must be greater than 0")
  else Ok tt.

End Envelope.

(** * Properties *)

(** The budget constraints, with NaN explicitly let through. *)
Definition budget_valid (b : ResourceBudget) : Prop :=
  (budget_warning_threshold b = Floats.SpecFloat.S754_nan
   \/ fle fzero (budget_warning_threshold b) = true
      /\ fle (budget_warning_threshold b) (of_int 1) = true)
  /\ max_tokens b <> 0 /\ max_rss_mb b <> 0 /\ max_wall_time b <> 0.

Lemma fle_not_flt x y :
  x <> Floats.SpecFloat.S754_nan -> y <> Floats.SpecFloat.S754_nan ->
  fle x y = negb (flt y x).
Proof.
  unfold fle, flt, SpecFloat.SFleb, SpecFloat.SFltb, SpecFloat.SFcompare. intros Hx Hy.
  destruct x as [[]|[]| |[] mx ex], y as [[]|[]| |[] my ey]; try done.
  all: rewrite (Z.compare_antisym ex ey); destruct (Z.compare_spec ex ey); simpl; try done.
  all: change (Pos.compare_cont Eq ?a ?b) with (a ?= b)%positive;
    rewrite (Pos.compare_antisym mx my); by destruct (mx ?= my)%positive.
Qed.

(** The condition that [validate] tests, as a statement about the threshold. *)
Lemma threshold_test t :
  flt t fzero || fgt t (of_int 1) = false
  <-> t = Floats.SpecFloat.S754_nan
      \/ fle fzero t = true /\ fle t (of_int 1) = true.
Proof.
  destruct (decide (t = Floats.SpecFloat.S754_nan)) as [->|Ht].
  - split; [by left|by intros _].
  - rewrite !fle_not_flt by (done || by vm_compute). unfold fgt.
    rewrite orb_false_iff, !negb_true_iff. tauto.
Qed.

(** [validate] accepts exactly the envelopes with both ids, the supported
    version and a valid budget. A NaN warning threshold is accepted too,
    although the error text asks for a number between 0 and 1, and then every
    token count, even 0, is at the warning threshold. *)
Theorem validate_ok_iff e :
  (Envelope.validate e = Ok tt
   <-> task_id e <> ""%string /\ parent_dag_id e <> ""%string
       /\ envelope_version e = ENVELOPE_VERSION /\ budget_valid (resource_budget e))
  /\ (budget_warning_threshold (resource_budget e) = Floats.SpecFloat.S754_nan ->
      0 < max_tokens (resource_budget e) ->
      forall tokens, 0 <= tokens -> Envelope.is_token_budget_warning e tokens = true).
Proof.
  split.
  - unfold Envelope.validate, budget_valid, str_is_empty.
    rewrite <- threshold_test.
    repeat case_goal; split_bools; naive_solver.
  - intros Hn Hm tokens Ht.
    unfold Envelope.is_token_budget_warning, Envelope.warning_threshold. rewrite Hn.
    assert (fmul (of_int (max_tokens (resource_budget e))) Floats.SpecFloat.S754_nan
            = Floats.SpecFloat.S754_nan) as ->.
    { unfold fmul, SpecFloat.SFmul. by destruct (of_int _). }
    by apply Z.leb_le.
Qed.

Definition nan_envelope : TaskEnvelope :=
  mkEnvelope "task" "dag" (mkTaskSpec "t" "" None ∅ 3) Green P1Normal
    (mkBudget 512 (from_secs 300) 100000 Floats.SpecFloat.S754_nan) []
    Envelope.default_checkpoint "2024-01-01T00:00:00Z" ENVELOPE_VERSION.

Lemma validate_ok_iff_witness :
  Envelope.validate nan_envelope = Ok tt
  /\ Envelope.is_token_budget_warning nan_envelope 0 = true.
Proof.
  destruct (validate_ok_iff nan_envelope) as [Hv Hw]. split.
  - apply Hv. unfold budget_valid. split_and!; try done. by left.
  - by apply Hw.
Defined.
