(* ===== verification/Governor.v ===== *)
(** The resource governor: src/src/governor/budget.rs, admission.rs and
    governor.rs.

    The counters are sequentially consistent atomics, so the state is the map
    of their values and every operation is one step on it; Atomics.v takes the
    operations apart into their single accesses. Module Tracking follows the
    running tasks when a check and the start it allows are adjacent;
    [admission_race] shows what happens when they are not. *)

From S2P Require Import Prelude F64 Calendar Envelope Hardware.

Record TierBudget := mkTierBudget {
  max_concurrent : Z;
  max_tokens_per_hour : Z;
  tb_max_rss_mb : Z;
  sheddable : bool
}.

Record TierUsage := mkTierUsage {
  active_tasks : Z;
  tokens_used_this_hour : Z;
  rss_allocated_mb : Z
}.

Module TierBudget.
Definition p0_critical : TierBudget := mkTierBudget 2 50000 512 false.
Definition p1_normal : TierBudget := mkTierBudget 4 500000 4096 false.
Definition p2_background : TierBudget := mkTierBudget 2 200000 2048 true.
End TierBudget.

Module TierUsage.

Definition new : TierUsage := mkTierUsage 0 0 0.

(** The atomic additions and subtractions wrap around. *)
Definition record_task_start (rss_mb : Z) (u : TierUsage) : TierUsage :=
  mkTierUsage (wrapping_add 64 (active_tasks u) 1) (tokens_used_this_hour u)
    (wrapping_add 64 (rss_allocated_mb u) rss_mb).

Definition record_task_end (rss_mb : Z) (u : TierUsage) : TierUsage :=
  mkTierUsage (wrapping_sub 64 (active_tasks u) 1) (tokens_used_this_hour u)
    (saturating_sub (rss_allocated_mb u) rss_mb).

Definition record_tokens (count : Z) (u : TierUsage) : TierUsage :=
  mkTierUsage (active_tasks u) (wrapping_add 64 (tokens_used_this_hour u) count)
    (rss_allocated_mb u).

Definition reset_hourly_tokens (u : TierUsage) : TierUsage :=
  mkTierUsage (active_tasks u) 0 (rss_allocated_mb u).

End TierUsage.

(** governor/error.rs. No function of the crate returns it. *)
Inductive GovernorError := UnknownTier | SystemCeilingExceeded | NotInitialized.

Definition display_governor_error (e : GovernorError) : string :=
  match e with
  | UnknownTier => "unknown priority tier"
  | SystemCeilingExceeded => "system RSS ceiling exceeded"
  | NotInitialized => "governor not initialized"
  end.

(** [TaskAdmitted] is the variant that the source calls admitted. *)
Inductive AdmissionDecision :=
| TaskAdmitted
| Queued (reason : string)
| Throttled (reason : string)
| Shed (reason : string).

Inductive RuntimeDecision :=
| Continue
| Warning (reason : string)
| Exceeded (reason : string).

Record GovernorConfig := mkGovernorConfig {
  system_rss_ceiling_mb : Z;
  headroom_mb : Z
}.

Definition default_governor_config : GovernorConfig := mkGovernorConfig 10240 2048.

Record UsageSnapshot := mkUsageSnapshot {
  us_active_tasks : Z;
  us_tokens_used_this_hour : Z;
  us_rss_allocated_mb : Z;
  us_budget : TierBudget
}.

Record ResourceGovernor := mkGovernor {
  tier_budgets : gmap Priority TierBudget;
  tier_usage : gmap Priority TierUsage;
  pressure_level : MemoryPressureLevel;
  g_config : GovernorConfig
}.

Definition set_usage (u : gmap Priority TierUsage) (g : ResourceGovernor)
    : ResourceGovernor :=
  mkGovernor (tier_budgets g) u (pressure_level g) (g_config g).

Module Governor.

Definition default_budgets : gmap Priority TierBudget :=
  <[P2Background := TierBudget.p2_background]>
    (<[P1Normal := TierBudget.p1_normal]>
      (<[P0Critical := TierBudget.p0_critical]> ∅)).

Definition new (config : GovernorConfig) : ResourceGovernor :=
  mkGovernor default_budgets
    (<[P2Background := TierUsage.new]>
      (<[P1Normal := TierUsage.new]> (<[P0Critical := TierUsage.new]> ∅)))
    MNormal config.

Definition update_pressure (level : MemoryPressureLevel) (g : ResourceGovernor)
    : ResourceGovernor :=
  mkGovernor (tier_budgets g) (tier_usage g) level (g_config g).

Definition current_pressure (g : ResourceGovernor) : MemoryPressureLevel :=
  pressure_level g.

(** [a/b] in a message. *)
Definition frac (a b : Z) : string := (display_int a +:+ "/" +:+ display_int b)%string.

Section Check.
Context `{BuildProfile} `{HashOrder}.

Definition check_admission (g : ResourceGovernor) (p : Priority) (rss_mb tokens_estimate : Z)
    : outcome AdmissionDecision :=
  let pressure := current_pressure g in
  match tier_budgets g !! p with
  | None => Ret (Shed "unknown priority tier")
  | Some budget =>
    match tier_usage g !! p with
    | None => Ret (Shed "unknown priority tier")
    | Some usage =>
      if bool_decide (pressure = MCritical) && sheddable budget then
        Ret (Shed "system under critical pressure; sheddable tier")
      else
        let active := active_tasks usage in
        if max_concurrent budget <=? active then
          Ret (Queued ("tier concurrent limit reached ("
                         +:+ frac active (max_concurrent budget) +:+ ")"))
        else
          let tokens_used := tokens_used_this_hour usage in
          if max_tokens_per_hour budget <? saturating_add 64 tokens_used tokens_estimate then
            let msg := ("token budget exhausted ("
                          +:+ frac tokens_used (max_tokens_per_hour budget) +:+ ")")%string in
            if sheddable budget then Ret (Shed (msg +:+ "; sheddable tier"))
            else Ret (Throttled msg)
          else
            let rss_used := rss_allocated_mb usage in
            tier_sum ← add_u 64 rss_used rss_mb;
            if tb_max_rss_mb budget <? tier_sum then
              Ret (Queued ("tier RSS limit reached (" +:+ display_int rss_used +:+ " + "
                +:+ display_int rss_mb +:+ " > " +:+ display_int (tb_max_rss_mb budget)
                +:+ " MB)"))
            else
              total_rss ← sum_u 64 (rss_allocated_mb <$> hm_values (tier_usage g));
              ceiling ← sub_u 64 (system_rss_ceiling_mb (g_config g))
                                 (headroom_mb (g_config g));
              system_sum ← add_u 64 total_rss rss_mb;
              if ceiling <? system_sum then
                Ret (Queued ("system RSS ceiling would be exceeded ("
                  +:+ display_int total_rss +:+ " + " +:+ display_int rss_mb +:+ " > "
                  +:+ display_int ceiling +:+ " MB)"))
              else Ret TaskAdmitted
    end
  end.

End Check.

Definition warning_threshold (budget : TierBudget) : Z :=
  to_uint 64 (fmul (of_int (max_tokens_per_hour budget)) (lit 8 10)).

Definition check_runtime (g : ResourceGovernor) (p : Priority)
    (tokens_used _rss_current_mb : Z) : RuntimeDecision :=
  match tier_budgets g !! p with
  | None => Exceeded "unknown priority tier"
  | Some budget =>
    let pressure := current_pressure g in
    if bool_decide (pressure = MCritical) && negb (bool_decide (p = P0Critical)) then
      Exceeded "system under critical pressure"
    else if max_tokens_per_hour budget <? tokens_used then
      Exceeded ("token budget exceeded (" +:+ frac tokens_used (max_tokens_per_hour budget)
                  +:+ ")")
    else if warning_threshold budget <? tokens_used then
      Warning ("approaching token budget ("
                 +:+ frac tokens_used (max_tokens_per_hour budget) +:+ ")")
    else if bool_decide (pressure = MWarn) && negb (bool_decide (p = P0Critical)) then
      Warning "system memory pressure is elevated"
    else Continue
  end.

(** [usage_snapshot]; indexing the budgets by a tier without one panics. *)
Definition usage_snapshot `{HashOrder} (g : ResourceGovernor)
    : outcome (gmap Priority UsageSnapshot) :=
  foldl (fun acc '(p, u) =>
    m ← acc;
    budget ← unwrap (tier_budgets g !! p);
    Ret (<[p := mkUsageSnapshot (active_tasks u) (tokens_used_this_hour u)
                  (rss_allocated_mb u) budget]> m))
    (Ret ∅) (hm_iter (tier_usage g)).

(** An update through the shared reference of a tier, if it exists. *)
Definition with_usage (p : Priority) (f : TierUsage -> TierUsage) (g : ResourceGovernor)
    : ResourceGovernor :=
  match tier_usage g !! p with
  | Some usage => set_usage (<[p := f usage]> (tier_usage g)) g
  | None => g
  end.

Definition task_started (p : Priority) (rss_mb : Z) : ResourceGovernor -> ResourceGovernor :=
  with_usage p (TierUsage.record_task_start rss_mb).

Definition task_ended (p : Priority) (rss_mb : Z) : ResourceGovernor -> ResourceGovernor :=
  with_usage p (TierUsage.record_task_end rss_mb).

Definition tokens_used (p : Priority) (count : Z) : ResourceGovernor -> ResourceGovernor :=
  with_usage p (TierUsage.record_tokens count).

Definition reset_hourly_tokens (g : ResourceGovernor) : ResourceGovernor :=
  set_usage (TierUsage.reset_hourly_tokens <$> tier_usage g) g.

End Governor.

(** * Admission, exactly *)

Definition config_ok (c : GovernorConfig) : Prop :=
  0 <= headroom_mb c <= system_rss_ceiling_mb c /\ system_rss_ceiling_mb c < 2 ^ 32.

Definition usage_of (g : ResourceGovernor) (p : Priority) : TierUsage :=
  default TierUsage.new (tier_usage g !! p).

(** The resident memory allocated to all tiers. *)
Definition total_rss (g : ResourceGovernor) : Z :=
  rss_allocated_mb (usage_of g P0Critical) + rss_allocated_mb (usage_of g P1Normal)
  + rss_allocated_mb (usage_of g P2Background).

(** Every tier has a budget and usage counters that are far from wrapping. *)
Record gov_ok (g : ResourceGovernor) : Prop := {
  go_config : config_ok (g_config g);
  go_budgets : tier_budgets g = Governor.default_budgets;
  go_usage : forall p, is_Some (tier_usage g !! p);
  go_active : forall p, 0 <= active_tasks (usage_of g p);
  go_tokens : forall p, in_u 64 (tokens_used_this_hour (usage_of g p));
  go_rss : forall p, 0 <= rss_allocated_mb (usage_of g p);
  go_total : total_rss g < 2 ^ 32
}.

Definition budget_of (p : Priority) : TierBudget :=
  match p with
  | P0Critical => TierBudget.p0_critical
  | P1Normal => TierBudget.p1_normal
  | P2Background => TierBudget.p2_background
  end.

Lemma default_budgets_lookup p : Governor.default_budgets !! p = Some (budget_of p).
Proof. by destruct p. Qed.

Lemma usage_of_some g p : gov_ok g -> tier_usage g !! p = Some (usage_of g p).
Proof. intros Hg. unfold usage_of. by destruct (go_usage g Hg p) as [u ->]. Qed.

Section Exact.
Context `{BuildProfile} `{HashOrder}.

Lemma tier_values_perm g :
  gov_ok g ->
  hm_values (tier_usage g)
  ≡ₚ [usage_of g P0Critical; usage_of g P1Normal; usage_of g P2Background].
Proof.
  intros Hg.
  assert (tier_usage g = <[P0Critical := usage_of g P0Critical]>
    (<[P1Normal := usage_of g P1Normal]> (<[P2Background := usage_of g P2Background]> ∅))) as E.
  { apply map_eq. intros p. rewrite (usage_of_some g p Hg).
    by destruct p; rewrite ?lookup_insert_ne, lookup_insert_eq by done. }
  rewrite E. unfold hm_values.
  rewrite !hm_iter_insert, hm_iter_empty by (by rewrite ?lookup_insert_ne, lookup_empty by done).
  done.
Qed.

Lemma tier_sum g :
  gov_ok g ->
  sum_u 64 (rss_allocated_mb <$> hm_values (tier_usage g)) = Ret (total_rss g).
Proof.
  intros Hg. pose proof (tier_values_perm g Hg) as Hp.
  assert (Hs : sum_Z (rss_allocated_mb <$> hm_values (tier_usage g)) = total_rss g).
  { rewrite Hp. unfold total_rss. simpl. lia. }
  rewrite sum_u_exact; [by rewrite Hs| |rewrite Hs; pose proof (go_total g Hg); lia].
  apply Forall_fmap, Forall_forall. intros u Hu. rewrite Hp in Hu. simpl.
  repeat (apply elem_of_cons in Hu as [->|Hu]; [apply (go_rss g Hg)|]).
  by apply elem_of_nil in Hu.
Qed.

(** When a task of [rss_mb] fits tier [p]. *)
Definition fits (g : ResourceGovernor) (p : Priority) (rss_mb tokens : Z) : Prop :=
  let b := budget_of p in
  let u := usage_of g p in
  (pressure_level g <> MCritical \/ sheddable b = false)
  /\ active_tasks u < max_concurrent b
  /\ tokens_used_this_hour u + tokens <= max_tokens_per_hour b
  /\ rss_allocated_mb u + rss_mb <= tb_max_rss_mb b
  /\ total_rss g + rss_mb <= system_rss_ceiling_mb (g_config g) - headroom_mb (g_config g).

Lemma check_admission_spec g p rss_mb tokens :
  gov_ok g -> in_u 32 rss_mb -> in_u 64 tokens ->
  exists d, Governor.check_admission g p rss_mb tokens = Ret d
  /\ (d = TaskAdmitted <-> fits g p rss_mb tokens)
  /\ ((exists r, d = Shed r) -> p = P2Background).
Proof.
  intros Hg Hr Ht. unfold Governor.check_admission, fits.
  rewrite (go_budgets g Hg), default_budgets_lookup, (usage_of_some g p Hg), tier_sum by done.
  pose proof (go_active g Hg p). pose proof (go_tokens g Hg p) as Htok.
  pose proof (go_rss g Hg P0Critical). pose proof (go_rss g Hg P1Normal).
  pose proof (go_rss g Hg P2Background). pose proof (go_total g Hg) as Htot.
  destruct (go_config g Hg) as [Hc1 Hc2].
  set (b := budget_of p). set (u := usage_of g p) in *.
  assert (Hru : 0 <= rss_allocated_mb u < 2 ^ 32)
    by (unfold total_rss in Htot; destruct p; unfold u; lia).
  assert (Hshed : sheddable b = true -> p = P2Background) by (by destruct p).
  assert (Hmax : max_tokens_per_hour b < 2 ^ 63) by (by destruct p).
  unfold in_u in *. unfold Governor.current_pressure.
  destruct (bool_decide (pressure_level g = MCritical) && sheddable b) eqn:E1.
  { split_bools. eexists. split; [done|]. split; [|by auto]. naive_solver congruence. }
  assert (Hp1 : pressure_level g <> MCritical \/ sheddable b = false).
  { apply andb_false_iff in E1 as [E1|E1]; [left; by split_bools|by right]. }
  destruct (max_concurrent b <=? active_tasks u) eqn:E2; split_bools.
  { eexists. split; [done|]. split; [split; [done|]; lia|by intros []]. }
  destruct (max_tokens_per_hour b <? saturating_add 64 (tokens_used_this_hour u) tokens) eqn:E3;
    unfold saturating_add, u_max in E3; split_bools.
  { destruct (sheddable b) eqn:Es; eexists; (split; [done|]);
      (split; [split; [done|]; lia|intros [? ?]; by auto]). }
  unfold add_u, sub_u. arith_step lia. arith_step lia.
  destruct (tb_max_rss_mb b <? rss_allocated_mb u + rss_mb) eqn:E4; split_bools.
  { eexists. split; [done|]. split; [split; [done|]; lia|by intros []]. }
  arith_step lia. arith_step ltac:(unfold total_rss in *; lia).
  destruct (system_rss_ceiling_mb (g_config g) - headroom_mb (g_config g)
            <? total_rss g + rss_mb) eqn:E5; split_bools.
  { eexists. split; [done|]. split; [split; [done|]; lia|by intros []]. }
  eexists. split; [done|]. split; [split; [|done]; intros _; split_and!; (done || lia)|by intros []].
Qed.

End Exact.

(** * Running tasks *)

(** The governor together with the tasks that were started and not yet ended,
    each with its tier and its memory. *)
Module Tracking.

Record sys := mkSys { gov : ResourceGovernor; running : list (Priority * Z) }.

(** The tasks of one tier. *)
Definition at_tier (p : Priority) (l : list (Priority * Z)) : list (Priority * Z) :=
  List.filter (fun t => bool_decide (t.1 = p)) l.

Definition rss_sum (l : list (Priority * Z)) : Z := sum_Z l.*2.

(** Tasks are started when they are admitted, and end at most once, with the
    memory they started with. *)
Inductive step `{BuildProfile} `{HashOrder} : sys -> sys -> Prop :=
| step_submit g l p rss_mb tokens :
    in_u 32 rss_mb -> in_u 64 tokens ->
    Governor.check_admission g p rss_mb tokens = Ret TaskAdmitted ->
    step (mkSys g l) (mkSys (Governor.task_started p rss_mb g) ((p, rss_mb) :: l))
| step_end g l1 l2 p rss_mb :
    step (mkSys g (l1 ++ (p, rss_mb) :: l2))
      (mkSys (Governor.task_ended p rss_mb g) (l1 ++ l2))
| step_tokens g l p count :
    step (mkSys g l) (mkSys (Governor.tokens_used p count g) l)
| step_pressure g l level :
    step (mkSys g l) (mkSys (Governor.update_pressure level g) l)
| step_reset g l :
    step (mkSys g l) (mkSys (Governor.reset_hourly_tokens g) l).

(** The counters agree with the running tasks, and no limit is exceeded. *)
Record inv (s : sys) : Prop := {
  iv_ok : gov_ok (gov s);
  iv_rss : Forall (fun t => 0 <= t.2) (running s);
  iv_active : forall p, active_tasks (usage_of (gov s) p)
    = Z.of_nat (length (at_tier p (running s)));
  iv_alloc : forall p, rss_allocated_mb (usage_of (gov s) p)
    = rss_sum (at_tier p (running s));
  iv_concurrent : forall p, active_tasks (usage_of (gov s) p) <= max_concurrent (budget_of p);
  iv_tier : forall p, rss_allocated_mb (usage_of (gov s) p) <= tb_max_rss_mb (budget_of p);
  iv_system : total_rss (gov s)
    <= system_rss_ceiling_mb (g_config (gov s)) - headroom_mb (g_config (gov s))
}.

End Tracking.

Section TrackingLemmas.
Import Tracking.
Context `{BuildProfile} `{HashOrder}.

Lemma with_usage_of g p f q :
  gov_ok g ->
  usage_of (Governor.with_usage p f g) q
  = if bool_decide (p = q) then f (usage_of g q) else usage_of g q.
Proof.
  intros Hg. unfold Governor.with_usage. rewrite (usage_of_some g p Hg).
  unfold usage_of at 1. simpl. case_bool_decide as Hpq.
  - subst. by rewrite lookup_insert_eq.
  - by rewrite lookup_insert_ne.
Qed.

Lemma with_usage_some g p f q :
  gov_ok g -> is_Some (tier_usage (Governor.with_usage p f g) !! q).
Proof.
  intros Hg. unfold Governor.with_usage. rewrite (usage_of_some g p Hg). simpl.
  rewrite lookup_insert. case_decide; [by eexists|]. by apply (go_usage g Hg).
Qed.

Lemma with_usage_config g p f :
  g_config (Governor.with_usage p f g) = g_config g
  /\ tier_budgets (Governor.with_usage p f g) = tier_budgets g.
Proof. unfold Governor.with_usage. by destruct (tier_usage g !! p). Qed.

Lemma at_tier_cons p t l :
  at_tier p (t :: l) = if bool_decide (t.1 = p) then t :: at_tier p l else at_tier p l.
Proof. done. Qed.

Lemma at_tier_app p l1 l2 : at_tier p (l1 ++ l2) = at_tier p l1 ++ at_tier p l2.
Proof. apply List.filter_app. Qed.

Lemma at_tier_nonneg p l :
  Forall (fun t : Priority * Z => 0 <= t.2) l -> 0 <= rss_sum (at_tier p l).
Proof.
  intros Hl. apply sum_Z_nonneg, Forall_fmap, Forall_forall. intros t Ht.
  apply elem_of_filter_bool in Ht as [Ht _]. rewrite Forall_forall in Hl. by apply Hl.
Qed.

(** Establishing the invariant from the accounting equations and the limits. *)
Lemma inv_intro g l :
  config_ok (g_config g) -> tier_budgets g = Governor.default_budgets ->
  (forall p, is_Some (tier_usage g !! p)) ->
  (forall p, in_u 64 (tokens_used_this_hour (usage_of g p))) ->
  Forall (fun t => 0 <= t.2) l ->
  (forall p, active_tasks (usage_of g p) = Z.of_nat (length (at_tier p l))
    /\ rss_allocated_mb (usage_of g p) = rss_sum (at_tier p l)
    /\ active_tasks (usage_of g p) <= max_concurrent (budget_of p)
    /\ rss_allocated_mb (usage_of g p) <= tb_max_rss_mb (budget_of p)) ->
  total_rss g <= system_rss_ceiling_mb (g_config g) - headroom_mb (g_config g) ->
  inv (mkSys g l).
Proof.
  intros Hc Hb Hu Ht Hl Hp Htot. split; simpl; [|done|apply Hp..|done].
  split; [done..| | | |].
  - intros p. destruct (Hp p) as [-> _]. lia.
  - done.
  - intros p. destruct (Hp p) as (_ & -> & _). by apply at_tier_nonneg.
  - destruct Hc. lia.
Qed.

(** The total changes by what one tier gains. *)
Lemma total_rss_with g p f :
  gov_ok g ->
  total_rss (Governor.with_usage p f g)
  = total_rss g + rss_allocated_mb (f (usage_of g p)) - rss_allocated_mb (usage_of g p).
Proof.
  intros Hg. unfold total_rss. rewrite !with_usage_of by done. destruct p; simpl; lia.
Qed.

Lemma step_inv_submit g l p rss_mb tokens :
  in_u 32 rss_mb -> in_u 64 tokens ->
  Governor.check_admission g p rss_mb tokens = Ret TaskAdmitted ->
  inv (mkSys g l) -> inv (mkSys (Governor.task_started p rss_mb g) ((p, rss_mb) :: l)).
Proof.
  intros Hr Ht Had [Hg Hl Hact Hall Hcon Htier Hsys]. simpl in *.
  destruct (check_admission_spec g p rss_mb tokens Hg Hr Ht) as (d & Hd & Hfit & _).
  assert (d = TaskAdmitted) as -> by congruence.
  destruct (proj1 Hfit eq_refl) as (_ & Hf1 & Hf2 & Hf3 & Hf4). clear Hfit Hd.
  destruct (with_usage_config g p (TierUsage.record_task_start rss_mb)) as [Hc Hb].
  unfold Governor.task_started.
  unfold in_u in *.
  assert (Hwrap : wrapping_add 64 (active_tasks (usage_of g p)) 1
      = active_tasks (usage_of g p) + 1
    /\ wrapping_add 64 (rss_allocated_mb (usage_of g p)) rss_mb
      = rss_allocated_mb (usage_of g p) + rss_mb).
  { pose proof (go_active g Hg p). pose proof (go_rss g Hg p).
    assert (max_concurrent (budget_of p) < 2 ^ 32 /\ tb_max_rss_mb (budget_of p) < 2 ^ 32)
      by (by destruct p).
    unfold wrapping_add. split; apply cast_u_id; unfold in_u; lia. }
  destruct Hwrap as [Hw1 Hw2].
  apply inv_intro; rewrite ?Hc, ?Hb.
  - apply Hg.
  - apply Hg.
  - intros q. by apply with_usage_some.
  - intros q. rewrite with_usage_of by done. pose proof (go_tokens g Hg q).
    by case_bool_decide.
  - constructor; [simpl; lia|done].
  - intros q. rewrite with_usage_of, at_tier_cons by done. simpl.
    case_bool_decide as Hpq; [subst q|by split_and!].
    unfold TierUsage.record_task_start. cbn [active_tasks rss_allocated_mb].
    rewrite Hw1, Hw2. specialize (Hact p). specialize (Hall p). unfold rss_sum in *.
    rewrite fmap_cons, sum_Z_cons. cbn [length snd]. split_and!; lia.
  - rewrite total_rss_with by done. unfold TierUsage.record_task_start.
    cbn [rss_allocated_mb]. rewrite Hw2. lia.
Qed.

Lemma step_inv_end g l1 l2 p rss_mb :
  inv (mkSys g (l1 ++ (p, rss_mb) :: l2)) ->
  inv (mkSys (Governor.task_ended p rss_mb g) (l1 ++ l2)).
Proof.
  intros [Hg Hl Hact Hall Hcon Htier Hsys]. simpl in *.
  destruct (with_usage_config g p (TierUsage.record_task_end rss_mb)) as [Hc Hb].
  apply Forall_app in Hl as [Hl1 Hl2]. apply Forall_cons in Hl2 as [Hr Hl2]. simpl in Hr.
  pose proof (Hact p) as Hactp. pose proof (Hall p) as Hallp.
  rewrite at_tier_app, at_tier_cons, bool_decide_true in Hactp, Hallp by done.
  unfold rss_sum in Hallp. rewrite length_app in Hactp.
  rewrite fmap_app, sum_Z_app, fmap_cons, sum_Z_cons in Hallp.
  cbn [length snd] in Hactp, Hallp.
  pose proof (at_tier_nonneg p l1 Hl1). pose proof (at_tier_nonneg p l2 Hl2).
  unfold rss_sum in *.
  assert (max_concurrent (budget_of p) < 2 ^ 32) by (by destruct p).
  assert (Hw : wrapping_sub 64 (active_tasks (usage_of g p)) 1
    = active_tasks (usage_of g p) - 1).
  { unfold wrapping_sub. apply cast_u_id. unfold in_u. specialize (Hcon p). lia. }
  assert (Hs : saturating_sub (rss_allocated_mb (usage_of g p)) rss_mb
    = rss_allocated_mb (usage_of g p) - rss_mb) by (unfold saturating_sub; lia).
  unfold Governor.task_ended. apply inv_intro; rewrite ?Hc, ?Hb.
  - apply Hg.
  - apply Hg.
  - intros q. by apply with_usage_some.
  - intros q. rewrite with_usage_of by done. pose proof (go_tokens g Hg q).
    by case_bool_decide.
  - by apply Forall_app.
  - intros q. rewrite with_usage_of, at_tier_app by done. unfold rss_sum.
    rewrite length_app, fmap_app, sum_Z_app.
    specialize (Hact q). specialize (Hall q). specialize (Hcon q). specialize (Htier q).
    rewrite at_tier_app, at_tier_cons in Hact, Hall. cbn [fst] in Hact, Hall.
    unfold rss_sum in Hall. case_bool_decide as Hpq.
    + subst q. unfold TierUsage.record_task_end. cbn [active_tasks rss_allocated_mb].
      rewrite Hw, Hs. split_and!; lia.
    + rewrite length_app in Hact. rewrite fmap_app, sum_Z_app in Hall. split_and!; lia.
  - rewrite total_rss_with by done. unfold TierUsage.record_task_end.
    cbn [rss_allocated_mb]. rewrite Hs. lia.
Qed.

(** Operations that only touch the token counters or the pressure. *)
Lemma inv_same_counts g g' l :
  g_config g' = g_config g -> tier_budgets g' = tier_budgets g ->
  (forall p, is_Some (tier_usage g' !! p)) ->
  (forall p, in_u 64 (tokens_used_this_hour (usage_of g' p))) ->
  (forall p, active_tasks (usage_of g' p) = active_tasks (usage_of g p)
    /\ rss_allocated_mb (usage_of g' p) = rss_allocated_mb (usage_of g p)) ->
  inv (mkSys g l) -> inv (mkSys g' l).
Proof.
  intros Hc Hb Hu Ht Hsame [Hg Hl Hact Hall Hcon Htier Hsys]. simpl in *.
  apply inv_intro; rewrite ?Hc, ?Hb; [apply Hg..|done|done|done| |].
  - intros p. destruct (Hsame p) as [-> ->]. by split_and!.
  - unfold total_rss in *. destruct (Hsame P0Critical) as [_ ->].
    destruct (Hsame P1Normal) as [_ ->]. by destruct (Hsame P2Background) as [_ ->].
Qed.

Lemma gov_step_inv s s' : step s s' -> inv s -> inv s'.
Proof.
  intros Hs Hi. pose proof (iv_ok s Hi) as Hg. destruct Hs; simpl in Hg.
  - by eapply step_inv_submit.
  - by apply step_inv_end.
  - destruct (with_usage_config g p (TierUsage.record_tokens count)) as [Hc Hb].
    apply (inv_same_counts g); [exact Hc|exact Hb| | | |done].
    + intros q. by apply with_usage_some.
    + intros q. unfold Governor.tokens_used. rewrite with_usage_of by done.
      pose proof (go_tokens g Hg q). case_bool_decide; [|done].
      by apply in_u_cast.
    + intros q. unfold Governor.tokens_used. rewrite with_usage_of by done.
      by case_bool_decide.
  - by apply (inv_same_counts g); [| |apply Hg|apply Hg| |exact Hi].
  - assert (Huse : forall q, usage_of (Governor.reset_hourly_tokens g) q
      = TierUsage.reset_hourly_tokens (usage_of g q)).
    { intros q. unfold usage_of, Governor.reset_hourly_tokens. simpl.
      rewrite lookup_fmap. by destruct (tier_usage g !! q). }
    apply (inv_same_counts g); [done|done| | | |exact Hi].
    + intros q. unfold Governor.reset_hourly_tokens. simpl. rewrite lookup_fmap.
      destruct (go_usage g Hg q) as [u ->]. by eexists.
    + intros q. by rewrite Huse.
    + intros q. by rewrite Huse.
Qed.

Lemma gov_inv_initial config : config_ok config -> inv (mkSys (Governor.new config) []).
Proof.
  intros Hc. apply inv_intro; try done.
  - by intros [].
  - by intros [].
  - intros p. by destruct p.
  - unfold total_rss. simpl. destruct Hc. change (usage_of (Governor.new config) ?p)
      with TierUsage.new. simpl. lia.
Qed.

End TrackingLemmas.

Lemma default_config_ok : config_ok default_governor_config.
Proof. unfold config_ok. simpl. lia. Qed.

(** * Properties *)

(** Admission is exact. With a sensible configuration and counters far from
    wrapping, [check_admission] never panics, and admits a task exactly when
    its tier is not shed under critical pressure, has a free slot, and both
    the tokens and the memory of the task fit the tier, and its memory fits
    the system ceiling less the headroom. Only background tasks are ever
    shed. *)
Theorem check_admission_exact `{BuildProfile} `{HashOrder} g p rss_mb tokens :
  gov_ok g -> in_u 32 rss_mb -> in_u 64 tokens ->
  exists d, Governor.check_admission g p rss_mb tokens = Ret d
  /\ (d = TaskAdmitted <-> fits g p rss_mb tokens)
  /\ ((exists r, d = Shed r) -> p = P2Background).
Proof. apply check_admission_spec. Qed.

(** When every admitted task is started before the next check, and ends at
    most once with the memory it started with, the counters always agree with
    the running tasks, and no tier ever exceeds its number of tasks or its
    memory, nor all tiers together the system ceiling less the headroom:
    whatever the order of submissions, ends, token records, resets and
    pressure changes. *)
Theorem governor_limits `{BuildProfile} `{HashOrder} config s :
  config_ok config ->
  rtc Tracking.step (Tracking.mkSys (Governor.new config) []) s ->
  Tracking.inv s.
Proof.
  intros Hc Hr. pose proof (gov_inv_initial config Hc) as Hi. revert Hi.
  induction Hr as [|s1 s2 s3 H12 _ IH]; [done|]. intros Hi. apply IH. by eapply gov_step_inv.
Qed.

(** A check does not reserve anything: any number of tasks that are all
    checked before any of them is started are all admitted, and the limit on
    concurrent tasks is then exceeded by starting them. *)
Theorem admission_race `{BuildProfile} `{HashOrder} (n : nat) :
  let g := Governor.new default_governor_config in
  Z.of_nat n < 2 ^ 64 ->
  Governor.check_admission g P0Critical 0 0 = Ret TaskAdmitted
  /\ active_tasks (usage_of (Nat.iter n (Governor.task_started P0Critical 0) g) P0Critical)
     = Z.of_nat n.
Proof.
  intros g Hn. split.
  - destruct (check_admission_spec g P0Critical 0 0) as (d & -> & Hfit & _);
      [apply (Tracking.iv_ok _ (gov_inv_initial _ default_config_ok))|by split..|].
    rewrite (proj2 Hfit); [done|]. split_and!; try done. by left.
  - assert (Hiter : exists u, tier_usage (Nat.iter n (Governor.task_started P0Critical 0) g)
        !! P0Critical = Some u /\ active_tasks u = Z.of_nat n).
    { induction n as [|n IH]; [by eexists|].
      destruct IH as (u & Hu & Ha); [lia|]. cbn [Nat.iter nat_rect].
      unfold Governor.task_started at 1, Governor.with_usage.
      unfold Nat.iter in Hu. rewrite Hu. simpl.
      eexists. split; [apply lookup_insert_eq|]. simpl. rewrite Ha. unfold wrapping_add.
      rewrite cast_u_id by (unfold in_u; lia). lia. }
    destruct Hiter as (u & Hu & Ha). unfold usage_of. by rewrite Hu.
Qed.

(** A headroom larger than the ceiling is not rejected by the
    configuration: with overflow checks the first admission check of a task
    that fits its tier panics, and without them the ceiling wraps around, so
    that no amount of memory exceeds it. *)
Theorem ceiling_underflow `{HashOrder} config :
  0 <= system_rss_ceiling_mb config < headroom_mb config -> headroom_mb config < 2 ^ 32 ->
  @Governor.check_admission debug_profile _ (Governor.new config) P1Normal 4096 0 = Panic
  /\ @Governor.check_admission release_profile _ (Governor.new config) P1Normal 4096 0
     = Ret TaskAdmitted.
Proof.
  intros Hc Hh.
  assert (Hsum : forall H1 : BuildProfile,
    sum_u 64 (rss_allocated_mb <$> hm_values (tier_usage (Governor.new config))) = Ret 0).
  { intros H1. destruct (gov_inv_initial default_governor_config default_config_ok) as [Hok].
    change (tier_usage (Governor.new config))
      with (tier_usage (Governor.new default_governor_config)).
    simpl in Hok. rewrite (tier_sum _ Hok). by vm_compute. }
  split; unfold Governor.check_admission; rewrite Hsum;
    change (tier_budgets _ !! P1Normal) with (Some TierBudget.p1_normal);
    change (tier_usage _ !! P1Normal) with (Some TierUsage.new); simpl;
    unfold sub_u, arith_u at 1; simpl;
    rewrite (proj2 (Z.leb_gt 0 _)) by lia; simpl; [done|].
  assert (Hw : cast_u 64 (system_rss_ceiling_mb config - headroom_mb config)
    = 2 ^ 64 + (system_rss_ceiling_mb config - headroom_mb config)).
  { unfold cast_u. rewrite <- (Z.mod_add _ 1) by lia. rewrite Z.mod_small; lia. }
  rewrite Hw. by rewrite (proj2 (Z.ltb_ge _ _)) by lia.
Qed.

(** [check_runtime] with the built-in budgets. Usage above the hourly
    tokens is exceeded and usage above exactly four fifths of them (40000,
    400000 and 160000 tokens: the floating-point product is exact) is a
    warning, on every tier; memory pressure stops or warns every tier but
    P0. *)
Theorem check_runtime_spec g p tokens rss :
  tier_budgets g = Governor.default_budgets ->
  let b := budget_of p in
  let d := Governor.check_runtime g p tokens rss in
  let other := p <> P0Critical in
  ((exists r, d = Exceeded r) <->
     (pressure_level g = MCritical /\ other) \/ max_tokens_per_hour b < tokens)
  /\ (d = Continue <->
     tokens <= max_tokens_per_hour b * 4 / 5 /\ (other -> pressure_level g = MNormal)).
Proof.
  intros Hb b d other. unfold d, Governor.check_runtime.
  rewrite Hb, default_budgets_lookup. fold b.
  assert (Hw : Governor.warning_threshold b = max_tokens_per_hour b * 4 / 5)
    by (destruct p; by vm_compute).
  rewrite Hw. assert (Hpos : max_tokens_per_hour b * 4 / 5 < max_tokens_per_hour b)
    by (destruct p; by vm_compute).
  unfold Governor.current_pressure, other.
  set (w := max_tokens_per_hour b * 4 / 5) in *. set (m := max_tokens_per_hour b) in *.
  clearbody w m. clear Hw.
  destruct (pressure_level g), p; simpl;
    repeat (case_goal; split_bools);
    split; split; intros; naive_solver (done || lia).
Qed.

(** * Witnesses *)

Lemma sample_gov_ok : gov_ok (Governor.new default_governor_config).
Proof.
  apply (Tracking.iv_ok (Tracking.mkSys _ [])). apply gov_inv_initial, default_config_ok.
Qed.

Lemma check_admission_exact_witness :
  @Governor.check_admission debug_profile std_order
    (Governor.new default_governor_config) P1Normal 1024 1000 = Ret TaskAdmitted.
Proof.
  destruct (@check_admission_exact debug_profile std_order
    (Governor.new default_governor_config) P1Normal 1024 1000)
    as (d & -> & [_ Hd] & _); [apply sample_gov_ok|by split..|].
  rewrite Hd; [done|]. split_and!; try done. by left.
Defined.

Lemma governor_limits_witness :
  exists s, rtc (@Tracking.step debug_profile std_order)
      (Tracking.mkSys (Governor.new default_governor_config) []) s
    /\ length (Tracking.running s) = 1%nat /\ Tracking.inv s.
Proof.
  assert (Hr : rtc (@Tracking.step debug_profile std_order)
    (Tracking.mkSys (Governor.new default_governor_config) [])
    (Tracking.mkSys (Governor.task_started P1Normal 1024 (Governor.new default_governor_config))
       [(P1Normal, 1024)])).
  { apply rtc_once. apply (Tracking.step_submit _ [] P1Normal 1024 1000);
      [by split|by split|by vm_compute]. }
  eexists. split; [exact Hr|]. split; [done|].
  apply (@governor_limits debug_profile std_order default_governor_config);
    [apply default_config_ok|done].
Defined.

Lemma admission_race_witness :
  active_tasks (usage_of (Nat.iter 3 (Governor.task_started P0Critical 0)
    (Governor.new default_governor_config)) P0Critical) = 3
  /\ max_concurrent (budget_of P0Critical) = 2.
Proof.
  split; [|done]. apply (@admission_race debug_profile std_order 3). done.
Defined.

Lemma ceiling_underflow_witness :
  @Governor.check_admission debug_profile std_order
    (Governor.new (mkGovernorConfig 1024 2048)) P1Normal 4096 0 = Panic.
Proof. apply (@ceiling_underflow std_order (mkGovernorConfig 1024 2048)); simpl; lia. Defined.

Lemma check_runtime_spec_witness :
  Governor.check_runtime (Governor.new default_governor_config) P1Normal 400000 0 = Continue.
Proof.
  apply (check_runtime_spec (Governor.new default_governor_config) P1Normal 400000 0); [done|].
  split; [by vm_compute|done].
Defined.
