(* ===== verification/Atomics.v ===== *)
(** The resource governor access by access: src/src/governor/budget.rs and
    governor.rs on several threads.

    Governor.v treats each operation as one step. Here an operation is a
    program whose steps are the single accesses it makes to shared memory: the
    sequentially consistent loads, additions, subtractions and stores of the
    atomic counters and the read of the pressure lock. The programs are proved
    to do, when nothing comes in between, what the definitions of Governor.v
    do; the invariant of the relation [step] bounds what any interleaving of
    the programs of several threads can do to the limits. *)

From S2P Require Import Prelude F64 Calendar Envelope Hardware Governor.

Inductive field := FActive | FTokens | FRss.

#[export] Instance field_eq_dec : EqDecision field.
Proof. solve_decision. Defined.

(** A counter: a tier and one of its three atomics. *)
Abbreviation counter := (Priority * field)%type.

Definition get_field (f : field) (u : TierUsage) : Z :=
  match f with
  | FActive => active_tasks u
  | FTokens => tokens_used_this_hour u
  | FRss => rss_allocated_mb u
  end.

Definition put_field (f : field) (v : Z) (u : TierUsage) : TierUsage :=
  match f with
  | FActive => mkTierUsage v (tokens_used_this_hour u) (rss_allocated_mb u)
  | FTokens => mkTierUsage (active_tasks u) v (rss_allocated_mb u)
  | FRss => mkTierUsage (active_tasks u) (tokens_used_this_hour u) v
  end.

(** What a single access does to the counter it writes. *)
Inductive rmw := RAdd (d : Z) | RSub (d : Z) | RSatSub (d : Z) | RStore (v : Z).

Definition apply_rmw (r : rmw) (v : Z) : Z :=
  match r with
  | RAdd d => wrapping_add 64 v d
  | RSub d => wrapping_sub 64 v d
  | RSatSub d => saturating_sub v d
  | RStore w => w
  end.

(** A program, one access at a time. *)
Inductive prog (A : Type) : Type :=
| Stop (r : outcome A)
| ReadPressure (k : MemoryPressureLevel -> prog A)
| Load (c : counter) (k : Z -> prog A)
| Write (c : counter) (r : rmw) (k : prog A).
Arguments Stop {A} r.
Arguments ReadPressure {A} k.
Arguments Load {A} c k.
Arguments Write {A} c r k.

Fixpoint bind_prog {A B} (f : A -> prog B) (q : prog A) : prog B :=
  match q with
  | Stop (Ret a) => f a
  | Stop Panic => Stop Panic
  | ReadPressure k => ReadPressure (fun l => bind_prog f (k l))
  | Load c k => Load c (fun v => bind_prog f (k v))
  | Write c r k => Write c r (bind_prog f k)
  end.

#[export] Instance prog_ret : MRet prog := fun A a => Stop (Ret a).
#[export] Instance prog_bind : MBind prog := fun A B f q => bind_prog f q.

Definition load (c : counter) : prog Z := Load c (fun v => mret v).
Definition write (c : counter) (r : rmw) : prog unit := Write c r (mret tt).
Definition read_pressure : prog MemoryPressureLevel := ReadPressure (fun l => mret l).
Definition lift {A} (o : outcome A) : prog A := Stop o.

(** The parts of a governor that never change. [tiers] are the keys of the map
    of usages, in the order in which it is iterated. *)
Record statics := mkStatics {
  st_budgets : gmap Priority TierBudget;
  st_tiers : list Priority;
  st_config : GovernorConfig
}.

Module TierUsageProg.

Definition record_task_start (p : Priority) (rss_mb : Z) : prog unit :=
  write (p, FActive) (RAdd 1);;
  write (p, FRss) (RAdd rss_mb).

Definition record_task_end (p : Priority) (rss_mb : Z) : prog unit :=
  write (p, FActive) (RSub 1);;
  write (p, FRss) (RSatSub rss_mb).

Definition record_tokens (p : Priority) (count : Z) : prog unit :=
  write (p, FTokens) (RAdd count).

Definition reset_hourly_tokens (p : Priority) : prog unit :=
  write (p, FTokens) (RStore 0).

End TierUsageProg.

Module GovernorProg.
Section Programs.
Context `{BuildProfile} (st : statics).

(** [tier_usage.values().map(load).sum()]. *)
Fixpoint load_total (tiers : list Priority) (acc : Z) : prog Z :=
  match tiers with
  | [] => mret acc
  | p :: tiers =>
    v ← load (p, FRss);
    acc ← lift (add_u 64 acc v);
    load_total tiers acc
  end.

Definition check_admission (p : Priority) (rss_mb tokens_estimate : Z)
    : prog AdmissionDecision :=
  pressure ← read_pressure;
  match st_budgets st !! p with
  | None => mret (Shed "unknown priority tier")
  | Some budget =>
    if negb (bool_decide (p ∈ st_tiers st)) then mret (Shed "unknown priority tier")
    else if bool_decide (pressure = MCritical) && sheddable budget then
      mret (Shed "system under critical pressure; sheddable tier")
    else
      active ← load (p, FActive);
      if max_concurrent budget <=? active then
        mret (Queued ("tier concurrent limit reached ("
                        +:+ Governor.frac active (max_concurrent budget) +:+ ")"))
      else
        tokens_used ← load (p, FTokens);
        if max_tokens_per_hour budget <? saturating_add 64 tokens_used tokens_estimate then
          let msg := ("token budget exhausted ("
            +:+ Governor.frac tokens_used (max_tokens_per_hour budget) +:+ ")")%string in
          if sheddable budget then mret (Shed (msg +:+ "; sheddable tier"))
          else mret (Throttled msg)
        else
          rss_used ← load (p, FRss);
          tier_sum ← lift (add_u 64 rss_used rss_mb);
          if tb_max_rss_mb budget <? tier_sum then
            mret (Queued ("tier RSS limit reached (" +:+ display_int rss_used +:+ " + "
              +:+ display_int rss_mb +:+ " > " +:+ display_int (tb_max_rss_mb budget)
              +:+ " MB)"))
          else
            total_rss ← load_total (st_tiers st) 0;
            ceiling ← lift (sub_u 64 (system_rss_ceiling_mb (st_config st))
                                     (headroom_mb (st_config st)));
            system_sum ← lift (add_u 64 total_rss rss_mb);
            if ceiling <? system_sum then
              mret (Queued ("system RSS ceiling would be exceeded ("
                +:+ display_int total_rss +:+ " + " +:+ display_int rss_mb +:+ " > "
                +:+ display_int ceiling +:+ " MB)"))
            else mret TaskAdmitted
  end.

Definition when_tier (p : Priority) (q : prog unit) : prog unit :=
  if bool_decide (p ∈ st_tiers st) then q else mret tt.

Definition task_started (p : Priority) (rss_mb : Z) : prog unit :=
  when_tier p (TierUsageProg.record_task_start p rss_mb).

Definition task_ended (p : Priority) (rss_mb : Z) : prog unit :=
  when_tier p (TierUsageProg.record_task_end p rss_mb).

Definition tokens_used (p : Priority) (count : Z) : prog unit :=
  when_tier p (TierUsageProg.record_tokens p count).

Fixpoint reset_tiers (tiers : list Priority) : prog unit :=
  match tiers with
  | [] => mret tt
  | p :: tiers => TierUsageProg.reset_hourly_tokens p;; reset_tiers tiers
  end.

Definition reset_hourly_tokens : prog unit := reset_tiers (st_tiers st).

(** The admission of a task as the request handler performs it: the check, and
    the start when the task is admitted. *)
Definition submit (p : Priority) (rss_mb tokens_estimate : Z) : prog AdmissionDecision :=
  d ← check_admission p rss_mb tokens_estimate;
  match d with
  | TaskAdmitted => task_started p rss_mb;; mret d
  | _ => mret d
  end.

End Programs.
End GovernorProg.

(** * Running a program *)

Definition read_counter (c : counter) (g : ResourceGovernor) : Z :=
  match tier_usage g !! c.1 with Some u => get_field c.2 u | None => 0 end.

Definition write_counter (c : counter) (r : rmw) (g : ResourceGovernor) : ResourceGovernor :=
  Governor.with_usage c.1 (fun u => put_field c.2 (apply_rmw r (get_field c.2 u)) u) g.

(** One access. [None] when the program has stopped. *)
Definition access {A} (q : prog A) (g : ResourceGovernor) : option (prog A * ResourceGovernor) :=
  match q with
  | Stop _ => None
  | ReadPressure k => Some (k (Governor.current_pressure g), g)
  | Load c k => Some (k (read_counter c g), g)
  | Write c r k => Some (k, write_counter c r g)
  end.

(** A whole program, with nothing in between. *)
Fixpoint exec {A} (q : prog A) (g : ResourceGovernor) : outcome A * ResourceGovernor :=
  match q with
  | Stop r => (r, g)
  | ReadPressure k => exec (k (Governor.current_pressure g)) g
  | Load c k => exec (k (read_counter c g)) g
  | Write c r k => exec k (write_counter c r g)
  end.

Lemma exec_bind {A B} (f : A -> prog B) (q : prog A) g :
  exec (q ≫= f) g
  = match exec q g with
    | (Ret a, g') => exec (f a) g'
    | (Panic, g') => (Panic, g')
    end.
Proof.
  revert g. induction q as [[a|]|k IH|c k IH|c r k IH]; intros g; [done|done|..];
    apply IH.
Qed.

Definition statics_of `{HashOrder} (g : ResourceGovernor) : statics :=
  mkStatics (tier_budgets g) (hm_keys (tier_usage g)) (g_config g).

(** * Without interleaving, the programs are the operations of Governor.v *)

Section Sequential.
Context `{BuildProfile} `{HashOrder}.

Lemma exec_lift {A} (o : outcome A) g : exec (lift o) g = (o, g).
Proof. done. Qed.

Lemma elem_of_tiers g p : p ∈ st_tiers (statics_of g) <-> is_Some (tier_usage g !! p).
Proof.
  simpl. unfold hm_keys. rewrite list_elem_of_fmap. split.
  - intros ([q u] & -> & Hu%elem_of_hm_iter). by exists u.
  - intros [u Hu]. exists (p, u). by rewrite elem_of_hm_iter.
Qed.

Lemma with_usage_compose p f1 f2 g :
  Governor.with_usage p f2 (Governor.with_usage p f1 g)
  = Governor.with_usage p (fun u => f2 (f1 u)) g.
Proof.
  unfold Governor.with_usage. destruct (tier_usage g !! p) as [u|] eqn:Hu; [|by rewrite Hu].
  simpl. rewrite lookup_insert_eq. unfold set_usage. simpl. by rewrite insert_insert_eq.
Qed.

Lemma with_usage_ext p f1 f2 g :
  (forall u, f1 u = f2 u) -> Governor.with_usage p f1 g = Governor.with_usage p f2 g.
Proof. intros Hf. unfold Governor.with_usage. case_goal; [by rewrite Hf|done]. Qed.

Lemma foldl_add_panic w l :
  foldl (fun acc x => a ← acc; add_u w a x) Panic l = Panic.
Proof. by induction l. Qed.

Lemma exec_load_total g l : forall acc,
  (forall p u, (p, u) ∈ l -> tier_usage g !! p = Some u) ->
  exec (GovernorProg.load_total l.*1 acc) g
  = (foldl (fun acc x => a ← acc; add_u 64 a x) (Ret acc) (rss_allocated_mb <$> l.*2), g).
Proof.
  induction l as [|[p u] l IH]; intros acc Hl; [done|].
  cbn [GovernorProg.load_total fmap list_fmap fst snd foldl].
  assert (read_counter (p, FRss) g = rss_allocated_mb u) as Hr.
  { unfold read_counter. simpl. by rewrite (Hl p u) by apply list_elem_of_here. }
  rewrite exec_bind. simpl exec at 1. rewrite Hr, exec_bind, exec_lift.
  change (Ret acc ≫= ?h) with (h acc). cbv beta.
  destruct (add_u 64 acc (rss_allocated_mb u)) as [a|].
  - rewrite IH; [done|]. intros q w Hq. apply Hl. by apply list_elem_of_further.
  - by rewrite foldl_add_panic.
Qed.

Lemma exec_total g :
  exec (GovernorProg.load_total (st_tiers (statics_of g)) 0) g
  = (sum_u 64 (rss_allocated_mb <$> hm_values (tier_usage g)), g).
Proof. apply exec_load_total. intros p u. apply elem_of_hm_iter. Qed.

Lemma exec_check_admission g p rss_mb tokens :
  exec (GovernorProg.check_admission (statics_of g) p rss_mb tokens) g
  = (Governor.check_admission g p rss_mb tokens, g).
Proof.
  unfold GovernorProg.check_admission, Governor.check_admission.
  rewrite exec_bind. simpl exec at 1. cbn [st_budgets st_config statics_of].
  destruct (tier_budgets g !! p) as [b|]; [|done].
  destruct (tier_usage g !! p) as [u|] eqn:Hu.
  2:{ rewrite bool_decide_false; [done|]. rewrite elem_of_tiers, Hu. apply is_Some_None. }
  rewrite (bool_decide_true (p ∈ _)) by (rewrite elem_of_tiers; by eexists). simpl negb.
  destruct (bool_decide (Governor.current_pressure g = MCritical) && sheddable b); [done|].
  assert (Hr : forall f, read_counter (p, f) g = get_field f u)
    by (intros f; unfold read_counter; simpl; by rewrite Hu).
  rewrite exec_bind. simpl exec at 1. rewrite Hr. simpl get_field.
  destruct (max_concurrent b <=? active_tasks u); [done|].
  rewrite exec_bind. simpl exec at 1. rewrite Hr. simpl get_field.
  destruct (max_tokens_per_hour b <? _); [by destruct (sheddable b)|].
  rewrite exec_bind. simpl exec at 1. rewrite Hr. simpl get_field.
  rewrite exec_bind, exec_lift.
  destruct (add_u 64 (rss_allocated_mb u) rss_mb) as [s|]; [|done]. simpl (Ret s ≫= _).
  destruct (tb_max_rss_mb b <? s); [done|].
  rewrite exec_bind, exec_total. destruct (sum_u 64 _) as [t|]; [|done]. simpl (Ret t ≫= _).
  rewrite exec_bind, exec_lift. destruct (sub_u 64 _ _) as [c|]; [|done]. simpl (Ret c ≫= _).
  rewrite exec_bind, exec_lift. destruct (add_u 64 t rss_mb) as [ss|]; [|done].
  simpl (Ret ss ≫= _). by destruct (c <? ss).
Qed.

Lemma exec_when_tier g p q f :
  exec q g = (Ret tt, Governor.with_usage p f g) ->
  exec (GovernorProg.when_tier (statics_of g) p q) g = (Ret tt, Governor.with_usage p f g).
Proof.
  intros Hq. unfold GovernorProg.when_tier. case_bool_decide as Hp; [done|].
  rewrite elem_of_tiers in Hp. simpl. unfold Governor.with_usage.
  destruct (tier_usage g !! p); [|done]. destruct Hp. by eexists.
Qed.

Lemma exec_task_started g p rss_mb :
  exec (GovernorProg.task_started (statics_of g) p rss_mb) g
  = (Ret tt, Governor.task_started p rss_mb g).
Proof.
  apply exec_when_tier. simpl. f_equal. unfold write_counter. simpl.
  rewrite with_usage_compose. by apply with_usage_ext.
Qed.

Lemma exec_task_ended g p rss_mb :
  exec (GovernorProg.task_ended (statics_of g) p rss_mb) g
  = (Ret tt, Governor.task_ended p rss_mb g).
Proof.
  apply exec_when_tier. simpl. f_equal. unfold write_counter. simpl.
  rewrite with_usage_compose. by apply with_usage_ext.
Qed.

Lemma exec_tokens_used g p count :
  exec (GovernorProg.tokens_used (statics_of g) p count) g
  = (Ret tt, Governor.tokens_used p count g).
Proof. by apply exec_when_tier. Qed.

Lemma exec_reset_tiers l : forall g,
  exists g', exec (GovernorProg.reset_tiers l) g = (Ret tt, g')
    /\ tier_budgets g' = tier_budgets g /\ g_config g' = g_config g
    /\ pressure_level g' = pressure_level g
    /\ forall p, tier_usage g' !! p
         = (if bool_decide (p ∈ l) then TierUsage.reset_hourly_tokens else id) <$> tier_usage g !! p.
Proof.
  induction l as [|q l IH]; intros g.
  { exists g. split_and!; [done..|]. intros p. simpl. by destruct (tier_usage g !! p). }
  cbn [GovernorProg.reset_tiers]. rewrite exec_bind. simpl exec at 1.
  set (g1 := write_counter (q, FTokens) (RStore 0) g).
  destruct (IH g1) as (g' & E & Hb & Hc & Hp & Hu). exists g'.
  assert (Hg1 : forall p, tier_usage g1 !! p
    = (if bool_decide (p = q) then TierUsage.reset_hourly_tokens else id) <$> tier_usage g !! p).
  { intros p. unfold g1, write_counter, Governor.with_usage. simpl.
    destruct (tier_usage g !! q) as [u|] eqn:Hq; simpl.
    - rewrite lookup_insert. case_decide as Hqp.
      + subst p. by rewrite bool_decide_true, Hq.
      + rewrite bool_decide_false by done. by destruct (tier_usage g !! p).
    - case_bool_decide; [subst p; by rewrite Hq|by destruct (tier_usage g !! p)]. }
  assert (g_config g1 = g_config g /\ tier_budgets g1 = tier_budgets g
    /\ pressure_level g1 = pressure_level g) as (Hc1 & Hb1 & Hp1)
    by (unfold g1, write_counter, Governor.with_usage; simpl; by destruct (tier_usage g !! q)).
  split_and!; [done|congruence..|]. intros p. rewrite Hu, Hg1, <- option_fmap_compose.
  destruct (tier_usage g !! p); [|done]. simpl. f_equal.
  destruct (decide (p = q)) as [->|Hne].
  - rewrite (bool_decide_true (q ∈ q :: l)) by apply list_elem_of_here.
    rewrite (bool_decide_true (q = q)) by done. by case_bool_decide.
  - rewrite (bool_decide_false (p = q)) by done.
    rewrite (bool_decide_ext (p ∈ q :: l) (p ∈ l)); [done|].
    rewrite elem_of_cons. split; [by intros [?|?]|by right].
Qed.

Lemma exec_reset_hourly_tokens g :
  exec (GovernorProg.reset_hourly_tokens (statics_of g)) g
  = (Ret tt, Governor.reset_hourly_tokens g).
Proof.
  destruct (exec_reset_tiers (st_tiers (statics_of g)) g) as (g' & E & Hb & Hc & Hp & Hu).
  unfold GovernorProg.reset_hourly_tokens. rewrite E. f_equal.
  destruct g' as [b' u' p' c']. unfold Governor.reset_hourly_tokens, set_usage.
  simpl in *. subst. f_equal. apply map_eq. intros p. rewrite Hu, lookup_fmap.
  pose proof (elem_of_tiers g p) as Ht. simpl in Ht.
  destruct (tier_usage g !! p) as [u|]; [|done]. rewrite bool_decide_true; [done|].
  apply Ht. by eexists.
Qed.

Lemma exec_submit g p rss_mb tokens :
  exec (GovernorProg.submit (statics_of g) p rss_mb tokens) g
  = match Governor.check_admission g p rss_mb tokens with
    | Ret TaskAdmitted => (Ret TaskAdmitted, Governor.task_started p rss_mb g)
    | r => (r, g)
    end.
Proof.
  unfold GovernorProg.submit. rewrite exec_bind, exec_check_admission.
  destruct (Governor.check_admission g p rss_mb tokens) as [[]|]; try done.
  by rewrite exec_bind, exec_task_started.
Qed.

End Sequential.

(** * Several threads *)

Inductive request :=
| RSubmit (p : Priority) (rss_mb tokens_estimate : Z)
| REnded (p : Priority) (rss_mb : Z)
| RTokens (p : Priority) (count : Z)
| RReset.

Definition program `{BuildProfile} (st : statics) (r : request) : prog unit :=
  match r with
  | RSubmit p rss_mb tokens => GovernorProg.submit st p rss_mb tokens;; mret tt
  | REnded p rss_mb => GovernorProg.task_ended st p rss_mb
  | RTokens p count => GovernorProg.tokens_used st p count
  | RReset => GovernorProg.reset_hourly_tokens st
  end.

Module Threads.

(** The governor and what is left of the program of every thread. *)
Record pool := mkPool { p_gov : ResourceGovernor; p_threads : list (prog unit) }.

(** A thread about to take a task off counter [c]. *)
Definition is_ending {A} (c : counter) (q : prog A) : Z :=
  match q with
  | Write c' (RSub _) _ => if bool_decide (c' = c) then 1 else 0
  | _ => 0
  end.

Definition endings (c : counter) (qs : list (prog unit)) : Z := sum_Z (is_ending c <$> qs).

(** Tasks use at most [D] megabytes, and only tasks that were started and that
    no other thread is ending are ended. *)
Definition request_ok (D : Z) (w : pool) (r : request) : Prop :=
  match r with
  | RSubmit p rss_mb tokens => 0 <= rss_mb <= D /\ in_u 64 tokens
  | REnded p rss_mb => 0 <= rss_mb
      /\ endings (p, FActive) (p_threads w) < read_counter (p, FActive) (p_gov w)
  | RTokens p count => in_u 64 count
  | RReset => True
  end.

(** One access of one thread; a thread whose program has stopped takes the
    next request; the pressure changes. *)
Inductive step `{BuildProfile} (st : statics) (D : Z) : pool -> pool -> Prop :=
| step_access w i q q' g' :
    p_threads w !! i = Some q -> access q (p_gov w) = Some (q', g') ->
    step st D w (mkPool g' (<[i := q']> (p_threads w)))
| step_request w i r res :
    p_threads w !! i = Some (Stop res) -> request_ok D w r ->
    step st D w (mkPool (p_gov w) (<[i := program st r]> (p_threads w)))
| step_pressure w level :
    step st D w (mkPool (Governor.update_pressure level (p_gov w)) (p_threads w)).

Definition idle (n : nat) : list (prog unit) := replicate n (Stop (Ret tt)).

End Threads.

(** ** What is left of a program, seen from one counter *)

Section Stages.
Context {A : Type} (c : counter).

(** Never increases the counter; only memory is given back in this way. *)
Fixpoint quiet (q : prog A) : Prop :=
  match q with
  | Stop _ => True
  | ReadPressure k => forall l, quiet (k l)
  | Load _ k => forall v, quiet (k v)
  | Write c' r k => (c' = c -> c.2 = FRss /\ exists d, r = RSatSub d /\ 0 <= d) /\ quiet k
  end.

(** Adds [d] to the counter at most once. *)
Fixpoint pending (d : Z) (q : prog A) : Prop :=
  match q with
  | Stop _ => True
  | ReadPressure k => forall l, pending d (k l)
  | Load _ k => forall v, pending d (k v)
  | Write c' r k => (c' = c -> r = RAdd d /\ quiet k) /\ (c' <> c -> pending d k)
  end.

(** Adds [d] at most once, and only after reading a value that leaves room
    for it under [limit]. *)
Fixpoint guarded (limit d : Z) (q : prog A) : Prop :=
  match q with
  | Stop _ => True
  | ReadPressure k => forall l, guarded limit d (k l)
  | Load c' k =>
    if bool_decide (c' = c) then
      forall v, 0 <= v < 2 ^ 63 -> if v + d <=? limit then pending d (k v) else quiet (k v)
    else forall v, guarded limit d (k v)
  | Write c' r k => c' <> c /\ guarded limit d k
  end.

(** About to take one task off the counter. *)
Definition ending (q : prog A) : Prop := 
  c.2 = FActive /\ exists k, q = Write c (RSub 1) k /\ quiet k.

Inductive stage := SQuiet | SGuarded (d : Z) | SPending (d : Z) | SEnding.

Definition at_stage (limit : Z) (s : stage) (q : prog A) : Prop :=
  match s with
  | SQuiet => quiet q
  | SGuarded d => guarded limit d q
  | SPending d => pending d q
  | SEnding => ending q
  end.

End Stages.

(** What a thread may still add, and a bound on what it asks for. *)
Definition amount (s : stage) : Z := match s with SPending d => d | _ => 0 end.

Definition stage_bound (D : Z) (s : stage) : Prop :=
  match s with SGuarded d | SPending d => 0 <= d <= D | _ => True end.

Lemma sum_amounts_le D ss :
  0 <= D -> Forall (stage_bound D) ss ->
  0 <= sum_Z (amount <$> ss) <= Z.of_nat (length ss) * D.
Proof.
  intros HD Hs. rewrite <- (length_fmap amount ss). apply sum_Z_between, Forall_fmap.
  eapply Forall_impl; [exact Hs|]. intros s Hb. destruct s; simpl in *; lia.
Qed.

(** When one thread has nothing pending, the others have at most their share. *)
Lemma sum_others_le D ss i s :
  0 <= D -> Forall (stage_bound D) ss -> ss !! i = Some s -> amount s = 0 ->
  sum_Z (amount <$> ss) <= (Z.of_nat (length ss) - 1) * D.
Proof.
  intros HD Hs Hi Ha. rewrite <- (length_fmap amount ss).
  pose proof (sum_Z_others D (amount <$> ss) i 0 HD) as Ho. rewrite Z.sub_0_r in Ho. apply Ho.
  - apply Forall_fmap. eapply Forall_impl; [exact Hs|]. intros s' Hb. destruct s'; simpl in *; lia.
  - by rewrite list_lookup_fmap, Hi, <- Ha.
Qed.

Section CounterInv.
Import Threads.
Context (c : counter) (limit D : Z) (n : nat).
Context (Hroom : 0 <= D /\ 0 <= limit /\ limit + Z.of_nat n * D < 2 ^ 63 /\ (0 < n)%nat).

(** The counter, with what is still to be added to it, stays within the limit
    and one request for each of the other threads. *)
Definition counter_inv (w : pool) : Prop :=
  exists ss, Forall2 (at_stage c limit) ss (p_threads w) /\ Forall (stage_bound D) ss
  /\ length ss = n /\ is_Some (tier_usage (p_gov w) !! c.1)
  /\ endings c (p_threads w) <= read_counter c (p_gov w)
  /\ read_counter c (p_gov w) + sum_Z (amount <$> ss) <= limit + (Z.of_nat n - 1) * D.

Lemma stage_ending s (q : prog unit) :
  at_stage c limit s q -> is_ending c q = match s with SEnding => 1 | _ => 0 end.
Proof.
  destruct s, q as [|k|c' k|c' [] k]; simpl; try done.
  - intros [Hq _]. case_bool_decide as E; [|done]. by destruct (Hq E) as (_ & ? & ? & _).
  - intros [Hq _]. by rewrite bool_decide_false.
  - intros [Hq _]. case_bool_decide as E; [|done]. by destruct (Hq E).
  - by intros (_ & ? & ? & _).
  - by intros (_ & ? & ? & _).
  - by intros (_ & ? & ? & _).
  - by intros (_ & ? & ? & _).
  - intros (_ & k' & [= -> -> ->] & _). by rewrite bool_decide_true.
  - by intros (_ & ? & ? & _).
  - by intros (_ & ? & ? & _).
Qed.

Lemma endings_nonneg (qs : list (prog unit)) : 0 <= endings c qs.
Proof.
  apply sum_Z_nonneg, Forall_fmap, Forall_forall. intros q _. simpl.
  destruct q as [| | |c' [] k]; simpl; try done. by case_bool_decide.
Qed.

Lemma endings_none ss (qs : list (prog unit)) :
  c.2 = FRss -> Forall2 (at_stage c limit) ss qs -> endings c qs = 0.
Proof.
  intros Hc Hs. induction Hs as [|s q ss qs Hq _ IH]; [done|].
  unfold endings in *. rewrite fmap_cons, sum_Z_cons, IH, (stage_ending s) by done.
  destruct s; try done. destruct Hq as [Hq _]. congruence.
Qed.

Lemma read_write c' r g :
  is_Some (tier_usage g !! c.1) ->
  is_Some (tier_usage (write_counter c' r g) !! c.1)
  /\ read_counter c (write_counter c' r g)
     = if bool_decide (c' = c) then apply_rmw r (read_counter c g) else read_counter c g.
Proof.
  intros [u Hu]. unfold write_counter, Governor.with_usage, read_counter.
  destruct c as [p f], c' as [p' f']; simpl in *.
  destruct (tier_usage g !! p') as [u'|] eqn:Hu'.
  - simpl. rewrite lookup_insert. destruct (decide (p' = p)) as [->|Hp].
    + rewrite Hu' in Hu. injection Hu as ->. split; [by eexists|]. rewrite Hu'.
      destruct (decide (f' = f)) as [->|Hf].
      * rewrite bool_decide_true by done. by destruct f.
      * rewrite bool_decide_false by congruence. by destruct f, f'.
    + rewrite bool_decide_false by congruence. by rewrite Hu.
  - rewrite bool_decide_false by congruence. rewrite Hu. by split.
Qed.

(** How one access of a thread at stage [s], which takes [e] off the counter,
    moves the thread and the counter. *)
Definition moved (s : stage) (e : Z) (q' : prog unit) (g g' : ResourceGovernor) : Prop :=
  exists s', at_stage c limit s' q' /\ stage_bound D s' /\ is_ending c q' = 0
    /\ is_Some (tier_usage g' !! c.1)
    /\ (c.2 = FRss /\ 0 <= read_counter c g' \/ read_counter c g - e <= read_counter c g')
    /\ (read_counter c g' + amount s' <= read_counter c g + amount s
        \/ amount s = 0 /\ read_counter c g' + amount s' <= limit).

Lemma moved_intro s s' e q' g g' :
  at_stage c limit s' q' -> stage_bound D s' -> s' <> SEnding ->
  is_Some (tier_usage g' !! c.1) ->
  (c.2 = FRss /\ 0 <= read_counter c g' \/ read_counter c g - e <= read_counter c g') ->
  (read_counter c g' + amount s' <= read_counter c g + amount s
   \/ amount s = 0 /\ read_counter c g' + amount s' <= limit) ->
  moved s e q' g g'.
Proof.
  intros Hs Hb Hne Ht Hlo Hhi. exists s'. split_and!; try done.
  rewrite (stage_ending s' q' Hs). by destruct s'.
Qed.

Lemma load_moved s c' k g :
  at_stage c limit s (Load c' k) -> stage_bound D s -> is_Some (tier_usage g !! c.1) ->
  0 <= read_counter c g < 2 ^ 63 -> moved s 0 (k (read_counter c' g)) g g.
Proof.
  intros Hs Hb Ht Hv. destruct s as [|d|d|]; simpl in Hs.
  - apply (moved_intro _ SQuiet); [apply Hs|done|done|done|right; lia|left; lia].
  - case_bool_decide as Hc.
    + subst c'. specialize (Hs (read_counter c g) Hv).
      destruct (read_counter c g + d <=? limit) eqn:E; split_bools.
      * apply (moved_intro _ (SPending d)); [done|done|done|done|right; lia|right; simpl; lia].
      * apply (moved_intro _ SQuiet); [done|done|done|done|right; lia|left; simpl; lia].
    + apply (moved_intro _ (SGuarded d)); [apply Hs|done|done|done|right; lia|left; lia].
  - apply (moved_intro _ (SPending d)); [apply Hs|done|done|done|right; lia|left; lia].
  - by destruct Hs as (_ & ? & ? & _).
Qed.

Lemma read_moved s k g l :
  at_stage c limit s (ReadPressure k) -> stage_bound D s -> is_Some (tier_usage g !! c.1) ->
  moved s 0 (k l) g g.
Proof.
  intros Hs Hb Ht. apply (moved_intro _ s); [|done| |done|right; lia|left; lia].
  - destruct s; simpl in *; [apply Hs..|]. by destruct Hs as (_ & ? & ? & _).
  - destruct s; [done..|]. by destruct Hs as (_ & ? & ? & _).
Qed.

Lemma write_moved s c' r k g :
  at_stage c limit s (Write c' r k) -> stage_bound D s -> is_Some (tier_usage g !! c.1) ->
  is_ending c (Write c' r k) <= read_counter c g -> 0 <= read_counter c g ->
  read_counter c g + amount s < 2 ^ 63 ->
  moved s (is_ending c (Write c' r k)) k g (write_counter c' r g).
Proof.
  intros Hs Hb Ht He Hv Hlt. rewrite (stage_ending s _ Hs) in He |- *.
  destruct (read_write c' r g Ht) as [Ht' Hr].
  destruct s as [|d|d|]; simpl in Hs, Hb, He, Hlt |- *.
  - destruct Hs as [Hc Hk]. apply (moved_intro _ SQuiet); [done..| |];
      rewrite Hr; case_bool_decide as E; simpl; try (first [right; lia|left; lia]);
      destruct (Hc E) as (Hf & d & -> & Hd); simpl; unfold saturating_sub;
      left; [split; [done|]|]; lia.
  - destruct Hs as [Hc Hk]. rewrite bool_decide_false in Hr by done.
    apply (moved_intro _ (SGuarded d)); [done..| |]; rewrite Hr; [right|left]; lia.
  - destruct Hs as [Hc Hn]. destruct (decide (c' = c)) as [E|E].
    + destruct (Hc E) as [-> Hk]. rewrite bool_decide_true in Hr by done. simpl in Hr.
      unfold wrapping_add in Hr. rewrite cast_u_id in Hr by (unfold in_u; lia).
      apply (moved_intro _ SQuiet); [done..| |]; rewrite Hr; simpl; [right|left]; lia.
    + rewrite bool_decide_false in Hr by done.
      apply (moved_intro _ (SPending d)); [by apply Hn|done..| |]; rewrite Hr; simpl;
        [right|left]; lia.
  - destruct Hs as (Hf & k' & [= -> -> ->] & Hk). rewrite bool_decide_true in Hr by done.
    simpl in Hr. unfold wrapping_sub in Hr. rewrite cast_u_id in Hr by (unfold in_u; lia).
    apply (moved_intro _ SQuiet); [done..| |]; rewrite Hr; simpl; [right|left]; lia.
Qed.

Lemma access_moved s (q q' : prog unit) g g' :
  at_stage c limit s q -> stage_bound D s -> is_Some (tier_usage g !! c.1) ->
  is_ending c q <= read_counter c g -> 0 <= read_counter c g ->
  read_counter c g + amount s < 2 ^ 63 ->
  access q g = Some (q', g') -> moved s (is_ending c q) q' g g'.
Proof.
  intros Hs Hb Ht He Hv Hlt Ha.
  destruct q as [res|k|c' k|c' r k]; [done|injection Ha as <- <-..].
  - by apply read_moved.
  - apply load_moved; [done..|]. destruct s; simpl in *; lia.
  - by apply write_moved.
Qed.

(** A thread moves: the others keep their stages. *)
Lemma counter_inv_move w i q q' g' ss s :
  Forall2 (at_stage c limit) ss (p_threads w) -> Forall (stage_bound D) ss -> length ss = n ->
  ss !! i = Some s -> p_threads w !! i = Some q ->
  endings c (p_threads w) <= read_counter c (p_gov w) ->
  read_counter c (p_gov w) + sum_Z (amount <$> ss) <= limit + (Z.of_nat n - 1) * D ->
  moved s (is_ending c q) q' (p_gov w) g' ->
  counter_inv (mkPool g' (<[i := q']> (p_threads w))).
Proof.
  intros Hss Hb Hlen Hi Hq Hend Hsum (s' & Hs' & Hb' & He' & Ht' & Hlo & Hhi).
  exists (<[i := s']> ss). simpl.
  assert (Hend' : endings c (<[i := q']> (p_threads w))
    = endings c (p_threads w) - is_ending c q).
  { unfold endings. rewrite list_fmap_insert, (sum_Z_insert _ i (is_ending c q)), He'
      by (by rewrite list_lookup_fmap, Hq). lia. }
  split_and!.
  - by apply Forall2_insert.
  - by apply Forall_insert.
  - by rewrite length_insert.
  - done.
  - destruct Hlo as [[Hf Hlo]|Hlo]; [|lia].
    rewrite (endings_none (<[i := s']> ss)) by (done || by apply Forall2_insert). done.
  - rewrite list_fmap_insert, (sum_Z_insert _ i (amount s))
      by (by rewrite list_lookup_fmap, Hi).
    destruct Hhi as [Hhi|[Ha Hhi]]; [lia|].
    pose proof (sum_others_le D ss i s ltac:(lia) Hb Hi Ha) as Ho. rewrite Hlen in Ho. lia.
Qed.

Lemma sum_Z_elem (l : list Z) i x :
  Forall (fun z => 0 <= z) l -> l !! i = Some x -> x <= sum_Z l.
Proof.
  intros Hl Hi. rewrite <- (take_drop_middle l i x Hi), sum_Z_app, sum_Z_cons.
  pose proof (sum_Z_nonneg _ (Forall_take _ i _ Hl)).
  pose proof (sum_Z_nonneg _ (Forall_drop _ (S i) _ Hl)). lia.
Qed.

Lemma is_ending_nonneg {A} (q : prog A) : 0 <= is_ending c q.
Proof. destruct q as [| | |c' [] k]; simpl; try done. by case_bool_decide. Qed.

Lemma counter_inv_access w i q q' g' :
  counter_inv w -> p_threads w !! i = Some q -> access q (p_gov w) = Some (q', g') ->
  counter_inv (mkPool g' (<[i := q']> (p_threads w))).
Proof.
  intros (ss & Hss & Hb & Hlen & Ht & Hend & Hsum) Hq Ha.
  destruct (Forall2_lookup_r _ _ _ _ _ Hss Hq) as (s & Hi & Hs).
  assert (Hamt : Forall (fun z => 0 <= z) (amount <$> ss)).
  { apply Forall_fmap. eapply Forall_impl; [exact Hb|]. intros []; simpl; lia. }
  assert (Hen : Forall (fun z => 0 <= z) (is_ending c <$> p_threads w))
    by (apply Forall_fmap, Forall_true; intros; apply is_ending_nonneg).
  pose proof (sum_Z_elem _ i (amount s) Hamt) as H1.
  pose proof (sum_Z_elem _ i (is_ending c q) Hen) as H2.
  pose proof (sum_Z_nonneg _ Hen) as H3. pose proof (is_ending_nonneg q) as H4.
  rewrite list_lookup_fmap, Hi in H1. rewrite list_lookup_fmap, Hq in H2.
  specialize (H1 eq_refl). specialize (H2 eq_refl). unfold endings in Hend.
  eapply counter_inv_move; [done..|].
  apply access_moved; try done; [by eapply Forall_lookup_1|lia..].
Qed.

Lemma counter_inv_request w i res q :
  counter_inv w -> p_threads w !! i = Some (Stop res) ->
  (exists s, at_stage c limit s q /\ stage_bound D s /\ amount s = 0) ->
  (is_ending c q <> 0 -> endings c (p_threads w) < read_counter c (p_gov w)) ->
  counter_inv (mkPool (p_gov w) (<[i := q]> (p_threads w))).
Proof.
  intros (ss & Hss & Hb & Hlen & Ht & Hend & Hsum) Hq (s' & Hs' & Hb' & Ha') Hnew.
  destruct (Forall2_lookup_r _ _ _ _ _ Hss Hq) as (s & Hi & Hs).
  exists (<[i := s']> ss). simpl. split_and!.
  - by apply Forall2_insert.
  - by apply Forall_insert.
  - by rewrite length_insert.
  - done.
  - unfold endings in *. rewrite list_fmap_insert, (sum_Z_insert _ i 0)
      by (by rewrite list_lookup_fmap, Hq).
    assert (is_ending c q = 0 \/ is_ending c q = 1) as [E|E]
      by (rewrite (stage_ending s' q Hs'); destruct s'; auto); rewrite E in *; lia.
  - rewrite list_fmap_insert, (sum_Z_insert _ i (amount s)), Ha'
      by (by rewrite list_lookup_fmap, Hi).
    assert (0 <= amount s); [|lia].
    pose proof (Forall_lookup_1 _ _ _ _ Hb Hi). destruct s; simpl in *; lia.
Qed.

Lemma counter_inv_pressure w level :
  counter_inv w -> counter_inv (mkPool (Governor.update_pressure level (p_gov w)) (p_threads w)).
Proof. intros (ss & Hi). exists ss. exact Hi. Qed.

Lemma counter_inv_initial g :
  is_Some (tier_usage g !! c.1) -> read_counter c g = 0 -> counter_inv (mkPool g (idle n)).
Proof.
  intros Ht Hr. exists (replicate n SQuiet). simpl. rewrite Hr.
  assert (Hz : forall m (x : Z), x = 0 -> sum_Z (replicate m x) = 0).
  { intros m x ->. induction m as [|m IH]; [done|]. by rewrite replicate_S, sum_Z_cons, IH. }
  split_and!; [|by apply Forall_replicate|by rewrite length_replicate|done| |].
  - unfold idle. by apply Forall2_replicate.
  - unfold endings, idle. rewrite fmap_replicate, Hz by done. lia.
  - rewrite fmap_replicate, Hz by done. nia.
Qed.

Lemma counter_inv_bounds w :
  counter_inv w -> 0 <= read_counter c (p_gov w) <= limit + (Z.of_nat n - 1) * D.
Proof.
  intros (ss & _ & Hb & _ & _ & Hend & Hsum). pose proof (endings_nonneg (p_threads w)).
  pose proof (sum_amounts_le D ss ltac:(lia) Hb). lia.
Qed.

End CounterInv.

(** ** The stages of the programs *)

Section ProgramStages.
Import Threads.
Context `{BuildProfile} (st : statics) (Hst : st_budgets st = Governor.default_budgets).

(** Programs that write nothing, as all checks are. *)
Fixpoint reads_only {A} (q : prog A) : Prop :=
  match q with
  | Stop _ => True
  | ReadPressure k => forall l, reads_only (k l)
  | Load _ k => forall v, reads_only (k v)
  | Write _ _ _ => False
  end.

Lemma reads_only_bind {A B} (f : A -> prog B) q :
  reads_only q -> (forall a, reads_only (f a)) -> reads_only (q ≫= f).
Proof.
  intros Hq Hf. induction q as [[a|]|k IH|c k IH|c r k IH]; simpl in *; auto.
Qed.

Lemma load_total_reads l : forall acc, reads_only (GovernorProg.load_total l acc).
Proof.
  induction l as [|p l IH]; intros acc; [done|]. intros v. simpl.
  destruct (add_u 64 acc v); [apply IH|done].
Qed.

(** One access or one case of a program. *)
Ltac prog_step :=
  simpl; first
    [ done
    | progress intros
    | apply reads_only_bind; [apply load_total_reads|]
    | case_goal ].

Lemma check_reads p rss_mb tokens :
  reads_only (GovernorProg.check_admission st p rss_mb tokens).
Proof. unfold GovernorProg.check_admission. repeat prog_step. Qed.

(** A property of programs that does not depend on what is read. *)
Definition reads_closed {A} (P : prog A -> Prop) : Prop :=
  P (Stop Panic) /\ (forall c k, (forall v, P (k v)) -> P (Load c k))
  /\ forall k, (forall l, P (k l)) -> P (ReadPressure k).

Lemma reads_only_closed {A B C} (P : prog C -> Prop) (f : A -> prog B) (g : B -> prog C) q :
  reads_closed P -> reads_only q ->
  (forall a, P (bind_prog g (f a))) -> P (bind_prog g (bind_prog f q)).
Proof.
  intros (Hp & Hl & Hr) Hq Hf. induction q as [[a|]|k IH|c k IH|c r k IH]; simpl in *; auto.
  done.
Qed.

Lemma quiet_closed {A} c : reads_closed (quiet (A:=A) c).
Proof. by split_and!. Qed.

Lemma pending_closed {A} c d : reads_closed (pending (A:=A) c d).
Proof. by split_and!. Qed.

(** What follows the check in [submit]. *)
Definition start (p : Priority) (rss_mb : Z) (d : AdmissionDecision) : prog AdmissionDecision :=
  match d with
  | TaskAdmitted => GovernorProg.task_started st p rss_mb;; mret d
  | _ => mret d
  end.

Definition finish (d : AdmissionDecision) : prog unit := mret tt.

Lemma submit_program p rss_mb tokens :
  program st (RSubmit p rss_mb tokens)
  = bind_prog finish (bind_prog (start p rss_mb)
      (GovernorProg.check_admission st p rss_mb tokens)).
Proof. done. Qed.

Lemma start_quiet c p rss_mb d : c.1 <> p -> quiet c (bind_prog finish (start p rss_mb d)).
Proof.
  intros Hc. destruct d; simpl; try done.
  unfold GovernorProg.task_started, GovernorProg.when_tier. case_bool_decide; [|done].
  simpl. split_and!; try done; intros <-; done.
Qed.

Lemma start_pending_active p rss_mb d :
  pending (p, FActive) 1 (bind_prog finish (start p rss_mb d)).
Proof.
  destruct d; simpl; try done.
  unfold GovernorProg.task_started, GovernorProg.when_tier. case_bool_decide; [|done].
  by simpl; split_and!.
Qed.

Lemma start_pending_rss p rss_mb d :
  pending (p, FRss) rss_mb (bind_prog finish (start p rss_mb d)).
Proof.
  destruct d; simpl; try done.
  unfold GovernorProg.task_started, GovernorProg.when_tier. case_bool_decide; [|done].
  by simpl; split_and!.
Qed.

Lemma submit_quiet c p rss_mb tokens :
  c.1 <> p -> quiet c (program st (RSubmit p rss_mb tokens)).
Proof.
  intros Hc. rewrite submit_program.
  apply reads_only_closed; [apply quiet_closed|apply check_reads|].
  intros d. by apply start_quiet.
Qed.

(** Finishes the case of a program that reads no more of the guarded counter. *)
Ltac after_guard lem :=
  repeat (simpl; first [done|progress intros|case_goal
    |apply reads_only_closed; [apply pending_closed|repeat prog_step|intros; apply lem]]).

Lemma submit_active p rss_mb tokens :
  guarded (p, FActive) (max_concurrent (budget_of p)) 1 (program st (RSubmit p rss_mb tokens)).
Proof.
  rewrite submit_program. unfold GovernorProg.check_admission. intros l. simpl.
  rewrite Hst, default_budgets_lookup.
  destruct (negb _); [done|]. destruct (bool_decide _ && sheddable _); [done|].
  simpl. rewrite bool_decide_true by done. intros v _.
  destruct (v + 1 <=? max_concurrent (budget_of p)) eqn:E; split_bools.
  - rewrite (proj2 (Z.leb_gt _ v)) by lia. 
    after_guard start_pending_active.
  - by rewrite (proj2 (Z.leb_le _ v)) by lia.
Qed.

Lemma submit_rss p rss_mb tokens :
  in_u 32 rss_mb ->
  guarded (p, FRss) (tb_max_rss_mb (budget_of p)) rss_mb (program st (RSubmit p rss_mb tokens)).
Proof.
  intros Hr. rewrite submit_program. unfold GovernorProg.check_admission. intros l. simpl.
  rewrite Hst, default_budgets_lookup.
  destruct (negb _); [done|]. destruct (bool_decide _ && sheddable _); [done|].
  simpl. rewrite (bool_decide_false ((p, FActive) = (p, FRss))) by done. intros active.
  destruct (_ <=? active); [done|].
  simpl. rewrite (bool_decide_false ((p, FTokens) = (p, FRss))) by done. intros used.
  destruct (_ <? saturating_add 64 used tokens); [by destruct (sheddable _)|].
  simpl. rewrite bool_decide_true by done. intros v Hv.
  unfold add_u at 1 3. rewrite (arith_u_ok 64 (v + rss_mb)) by (unfold in_u in *; lia). simpl.
  destruct (v + rss_mb <=? tb_max_rss_mb (budget_of p)) eqn:E; split_bools.
  - rewrite (proj2 (Z.ltb_ge _ (v + rss_mb))) by lia.
    after_guard start_pending_rss.
  - by rewrite (proj2 (Z.ltb_lt _ (v + rss_mb))) by lia.
Qed.

Lemma reset_quiet c l : c.2 <> FTokens -> quiet c (GovernorProg.reset_tiers l).
Proof.
  intros Hc. induction l as [|p l IH]; [done|]. split; [by intros <-|done].
Qed.

(** The stage at which a request starts, for one counter with its limit. *)
Lemma program_stage_active D w p r :
  request_ok D w r ->
  (exists s, at_stage (p, FActive) (max_concurrent (budget_of p)) s (program st r)
     /\ stage_bound 1 s /\ amount s = 0)
  /\ (is_ending (p, FActive) (program st r) <> 0 ->
      endings (p, FActive) (p_threads w) < read_counter (p, FActive) (p_gov w)).
Proof.
  intros Hr. destruct r as [q rss_mb tokens|q rss_mb|q count|]; simpl in Hr.
  - split; [|done]. destruct (decide (q = p)) as [->|Hne].
    + exists (SGuarded 1). split_and!; [apply submit_active|simpl; lia|done].
    + exists SQuiet. split_and!; [apply submit_quiet|done..]. by intros [= <-].
  - unfold program, GovernorProg.task_ended, GovernorProg.when_tier.
    case_bool_decide; [|split; [by exists SQuiet|done]]. destruct Hr as [Hr He].
    destruct (decide (q = p)) as [->|Hne].
    + split; [|done]. exists SEnding. split_and!; try done. simpl. split; [done|].
      eexists. split; [done|]. by simpl.
    + split; [|by simpl; rewrite bool_decide_false by congruence].
      exists SQuiet. split_and!; try done. simpl. split_and!; try done. by intros [= ->].
  - split; [|unfold program, GovernorProg.tokens_used, GovernorProg.when_tier; by case_bool_decide].
    exists SQuiet. split_and!; try done.
    unfold program, GovernorProg.tokens_used, GovernorProg.when_tier. by case_bool_decide.
  - split; [|unfold program, GovernorProg.reset_hourly_tokens; by destruct (st_tiers st)].
    exists SQuiet. split_and!; try done. by apply reset_quiet.
Qed.

Lemma program_stage_rss D w p r :
  D < 2 ^ 32 -> request_ok D w r ->
  (exists s, at_stage (p, FRss) (tb_max_rss_mb (budget_of p)) s (program st r)
     /\ stage_bound D s /\ amount s = 0)
  /\ is_ending (p, FRss) (program st r) = 0.
Proof.
  intros HD Hr. destruct r as [q rss_mb tokens|q rss_mb|q count|]; simpl in Hr.
  - split; [|done]. destruct (decide (q = p)) as [->|Hne].
    + exists (SGuarded rss_mb). split_and!; [apply submit_rss; unfold in_u; lia|simpl; lia|done].
    + exists SQuiet. split_and!; [apply submit_quiet|done..]. by intros [= <-].
  - unfold program, GovernorProg.task_ended, GovernorProg.when_tier.
    case_bool_decide; [|split; [by exists SQuiet|done]].
    split; [|by simpl; rewrite bool_decide_false by congruence].
    exists SQuiet. split_and!; try done. simpl. split_and!; try done.
    intros _. split; [done|]. exists rss_mb. by destruct Hr.
  - split; [|unfold program, GovernorProg.tokens_used, GovernorProg.when_tier; by case_bool_decide].
    exists SQuiet. split_and!; try done.
    unfold program, GovernorProg.tokens_used, GovernorProg.when_tier. by case_bool_decide.
  - split; [|unfold program, GovernorProg.reset_hourly_tokens; by destruct (st_tiers st)].
    exists SQuiet. split_and!; try done. by apply reset_quiet.
Qed.

End ProgramStages.

(** * A run that exceeds the limit *)

Module Overshoot.
Import Threads.
Section Run.
Context `{BuildProfile}.

Definition st : statics :=
  mkStatics Governor.default_budgets [P0Critical; P1Normal; P2Background]
    default_governor_config.

(** The governor with [k] critical tasks and nothing else. *)
Definition gov_at (k : Z) : ResourceGovernor :=
  set_usage (<[P0Critical := mkTierUsage k 0 0]>
    (tier_usage (Governor.new default_governor_config))) (Governor.new default_governor_config).

Abbreviation small := (RSubmit P0Critical 0 0).

(** A thread that was told it may start its task. *)
Definition admitted : prog unit := bind_prog finish (start st P0Critical 0 TaskAdmitted).

Lemma check_at k :
  k = 0 \/ k = 1 ->
  exec (GovernorProg.check_admission st P0Critical 0 0) (gov_at k) = (Ret TaskAdmitted, gov_at k).
Proof. intros [-> | ->]; by vm_compute. Qed.

(** A thread carries out its check while the others wait. *)
Lemma run_check g q a i : forall ts,
  ts !! i = Some (bind_prog finish (bind_prog (start st P0Critical 0) q)) ->
  reads_only q -> exec q g = (Ret a, g) ->
  rtc (step st 0) (mkPool g ts)
    (mkPool g (<[i := bind_prog finish (start st P0Critical 0 a)]> ts)).
Proof.
  induction q as [r|k IH|c k IH|c r k IH]; intros ts Hi Hq He; cbn [exec reads_only] in *.
  - injection He as ->. cbn [bind_prog] in Hi. by rewrite list_insert_id.
  - eapply rtc_l; [by eapply (step_access st 0 (mkPool g ts))|].
    specialize (IH (Governor.current_pressure g) (<[i := bind_prog finish (bind_prog
      (start st P0Critical 0) (k (Governor.current_pressure g)))]> ts)).
    rewrite list_insert_insert_eq in IH. apply IH; [|apply Hq|done].
    apply list_lookup_insert_eq. by eapply lookup_lt_Some.
  - eapply rtc_l; [by eapply (step_access st 0 (mkPool g ts))|].
    specialize (IH (read_counter c g) (<[i := bind_prog finish (bind_prog
      (start st P0Critical 0) (k (read_counter c g)))]> ts)).
    rewrite list_insert_insert_eq in IH. apply IH; [|apply Hq|done].
    apply list_lookup_insert_eq. by eapply lookup_lt_Some.
  - done.
Qed.

Lemma run_request k ts i :
  k = 0 \/ k = 1 -> ts !! i = Some (Stop (Ret tt)) ->
  rtc (step st 0) (mkPool (gov_at k) ts) (mkPool (gov_at k) (<[i := admitted]> ts)).
Proof.
  intros Hk Hi. assert (Hlt : (i < length ts)%nat) by (by eapply lookup_lt_Some).
  eapply rtc_l; [by apply (step_request st 0 (mkPool (gov_at k) ts) i small (Ret tt))|].
  pose proof (run_check (gov_at k) (GovernorProg.check_admission st P0Critical 0 0)
    TaskAdmitted i (<[i := program st small]> ts)) as Hc.
  rewrite list_insert_insert_eq in Hc. apply Hc.
  - by rewrite list_lookup_insert_eq.
  - by apply check_reads.
  - by apply check_at.
Qed.

Lemma run_start k ts i :
  0 <= k < 2 ^ 62 -> ts !! i = Some admitted ->
  rtc (step st 0) (mkPool (gov_at k) ts)
    (mkPool (gov_at (k + 1)) (<[i := Stop (Ret tt)]> ts)).
Proof.
  intros Hk Hi. assert (Hlt : (i < length ts)%nat) by (by eapply lookup_lt_Some).
  assert (Hg : forall g, g = gov_at k -> write_counter (P0Critical, FRss) (RAdd 0)
    (write_counter (P0Critical, FActive) (RAdd 1) g) = gov_at (k + 1)).
  { intros g ->. unfold write_counter. rewrite with_usage_compose.
    unfold Governor.with_usage, gov_at, set_usage. simpl. rewrite lookup_insert_eq. simpl.
    rewrite insert_insert_eq. unfold wrapping_add.
    rewrite cast_u_id by (unfold in_u; lia). done. }
  eapply rtc_l; [by eapply (step_access st 0 (mkPool (gov_at k) ts) i)|]. simpl.
  eapply rtc_l; [by eapply (step_access st 0 (mkPool _ (<[i := _]> ts)) i);
    [by apply list_lookup_insert_eq|]|]. simpl.
  rewrite list_insert_insert_eq, (Hg _ eq_refl). apply rtc_refl.
Qed.

(** All threads from [i] on move in turn. *)
Lemma run_all (a b : prog unit) (G : Z -> ResourceGovernor) m :
  (forall k ts j, 0 <= k < 2 ^ 62 -> ts !! j = Some a ->
     rtc (step st 0) (mkPool (G k) ts) (mkPool (G (k + 1)) (<[j := b]> ts))) ->
  forall i k, 0 <= k -> k + Z.of_nat m < 2 ^ 62 ->
  rtc (step st 0) (mkPool (G k) (replicate i b ++ replicate m a))
    (mkPool (G (k + Z.of_nat m)) (replicate (i + m) b)).
Proof.
  intros Hs. induction m as [|m IH]; intros i k Hk Hm.
  { rewrite Z.add_0_r, Nat.add_0_r, app_nil_r. apply rtc_refl. }
  etransitivity.
  - apply (Hs k _ i); [lia|]. apply list_lookup_middle. by rewrite length_replicate.
  - rewrite (insert_app_r_alt (replicate i b)) by (rewrite length_replicate; lia).
    rewrite length_replicate, Nat.sub_diag.
    specialize (IH (S i) (k + 1) ltac:(lia) ltac:(lia)).
    replace (k + 1 + Z.of_nat m) with (k + Z.of_nat (S m)) in IH by lia.
    replace (S i + m)%nat with (i + S m)%nat in IH by lia.
    rewrite replicate_S_end, <- app_assoc in IH. exact IH.
Qed.

Lemma run_over n :
  (0 < n)%nat -> Z.of_nat n < 2 ^ 30 ->
  rtc (step st 0) (mkPool (Governor.new default_governor_config) (idle n))
    (mkPool (gov_at (1 + Z.of_nat n)) (idle n)).
Proof.
  intros Hn Hn'.
  assert (H0 : idle n !! 0%nat = Some (Stop (Ret tt))) by (by apply lookup_replicate_2).
  change (Governor.new default_governor_config) with (gov_at 0).
  etransitivity; [apply (run_request 0 (idle n) 0); [by left|exact H0]|].
  etransitivity; [apply (run_start 0 _ 0); [lia|]|].
  { apply list_lookup_insert_eq. unfold idle. by rewrite length_replicate. }
  rewrite list_insert_insert_eq, (list_insert_id (idle n) 0) by done.
  etransitivity.
  - apply (run_all (Stop (Ret tt)) admitted (fun _ => gov_at (0 + 1)) n) with (i := 0%nat) (k := 0);
      [|lia..].
    intros k ts j _ Hj. apply run_request; [by right|done].
  - apply (run_all admitted (Stop (Ret tt)) gov_at n) with (i := 0%nat) (k := 1); [|lia..].
    intros k ts j Hk Hj. by apply run_start.
Qed.

End Run.
End Overshoot.

(** * Properties *)

Section Properties.
Context `{BuildProfile} `{HashOrder}.

(** The operations of the governor, taken apart into the single accesses
    they make to its atomics and to the lock of the pressure, do what their
    one-step definitions do whenever no other thread runs in between: the
    check reads the same decision (or panics alike) and changes nothing, and
    the start and the end of a task, the token records and the hourly reset
    change the counters alike, on every governor. *)
Theorem programs_agree g :
  let st := statics_of g in
  (forall p rss_mb tokens, exec (GovernorProg.check_admission st p rss_mb tokens) g
     = (Governor.check_admission g p rss_mb tokens, g))
  /\ (forall p rss_mb, exec (GovernorProg.task_started st p rss_mb) g
     = (Ret tt, Governor.task_started p rss_mb g))
  /\ (forall p rss_mb, exec (GovernorProg.task_ended st p rss_mb) g
     = (Ret tt, Governor.task_ended p rss_mb g))
  /\ (forall p count, exec (GovernorProg.tokens_used st p count) g
     = (Ret tt, Governor.tokens_used p count g))
  /\ exec (GovernorProg.reset_hourly_tokens st) g
     = (Ret tt, Governor.reset_hourly_tokens g).
Proof.
  split_and!; intros; [apply exec_check_admission|apply exec_task_started
    |apply exec_task_ended|apply exec_tokens_used|apply exec_reset_hourly_tokens].
Qed.

(** No sum that the invariants consider comes near the width of a counter. *)
Lemma limits_room n D p :
  (0 < n)%nat -> 0 <= D < 2 ^ 32 -> Z.of_nat n < 2 ^ 30 ->
  (0 <= 1 /\ 0 <= max_concurrent (budget_of p)
   /\ max_concurrent (budget_of p) + Z.of_nat n * 1 < 2 ^ 63 /\ (0 < n)%nat)
  /\ (0 <= D /\ 0 <= tb_max_rss_mb (budget_of p)
   /\ tb_max_rss_mb (budget_of p) + Z.of_nat n * D < 2 ^ 63 /\ (0 < n)%nat).
Proof.
  intros Hn HD Hn'.
  assert (0 <= max_concurrent (budget_of p) < 2 ^ 32
    /\ 0 <= tb_max_rss_mb (budget_of p) < 2 ^ 32) by (by destruct p).
  split; nia.
Qed.

(** Both counters of a tier, along every run. *)
Lemma threads_inv config order n D w :
  (0 < n)%nat -> 0 <= D < 2 ^ 32 -> Z.of_nat n < 2 ^ 30 ->
  rtc (Threads.step (mkStatics Governor.default_budgets order config) D)
    (Threads.mkPool (Governor.new config) (Threads.idle n)) w ->
  forall p, counter_inv (p, FActive) (max_concurrent (budget_of p)) 1 n w
    /\ counter_inv (p, FRss) (tb_max_rss_mb (budget_of p)) D n w.
Proof.
  intros Hn HD Hn' Hr p.
  destruct (limits_room n D p Hn HD Hn') as [Hra Hrr].
  assert (Hi : counter_inv (p, FActive) (max_concurrent (budget_of p)) 1 n
      (Threads.mkPool (Governor.new config) (Threads.idle n))
    /\ counter_inv (p, FRss) (tb_max_rss_mb (budget_of p)) D n
      (Threads.mkPool (Governor.new config) (Threads.idle n))).
  { split; apply counter_inv_initial; try done; by destruct p. }
  revert Hi. induction Hr as [|w1 w2 w3 Hs _ IH]; [done|]. intros [Ha Hb]. apply IH.
  destruct Hs as [w i q q' g' Hq Hac|w i r res Hq Hok|w level].
  - split; by eapply counter_inv_access.
  - split.
    + destruct (program_stage_active (mkStatics Governor.default_budgets order config)
        eq_refl D w p r Hok) as [Hst He]. by eapply counter_inv_request.
    + destruct (program_stage_rss (mkStatics Governor.default_budgets order config)
        eq_refl D w p r ltac:(lia) Hok) as [Hst He]. eapply counter_inv_request; [done..|].
      intros Hne. by rewrite He in Hne.
  - split; by apply counter_inv_pressure.
Qed.

(** What the invariant of both counters says about the usage of a tier. *)
Lemma limits_of_inv n D w p :
  (0 < n)%nat -> 0 <= D < 2 ^ 32 -> Z.of_nat n < 2 ^ 30 ->
  counter_inv (p, FActive) (max_concurrent (budget_of p)) 1 n w ->
  counter_inv (p, FRss) (tb_max_rss_mb (budget_of p)) D n w ->
  let u := usage_of (Threads.p_gov w) p in
  0 <= active_tasks u <= max_concurrent (budget_of p) + (Z.of_nat n - 1)
  /\ 0 <= rss_allocated_mb u <= tb_max_rss_mb (budget_of p) + (Z.of_nat n - 1) * D.
Proof.
  intros Hn HD Hn' Ha Hb u.
  assert (Hu : forall f, read_counter (p, f) (Threads.p_gov w) = get_field f u).
  { intros f. unfold read_counter, u, usage_of. simpl. destruct (tier_usage _ !! p); [done|].
    by destruct f. }
  destruct (limits_room n D p Hn HD Hn') as [Hra Hrr].
  apply counter_inv_bounds in Ha; [|done]. apply counter_inv_bounds in Hb; [|done].
  rewrite Hu in Ha, Hb. simpl in Ha, Hb. lia.
Qed.

(** However the accesses of [n] threads interleave, with any requests, ends
    of started tasks, token records, resets and pressure changes, a tier never
    has more than [n - 1] tasks more than its limit, nor more than [n - 1]
    requests of memory more than its limit; the counters never wrap. With one
    thread the limits hold exactly. *)
Theorem concurrent_limits config order n D w p :
  (0 < n)%nat -> 0 <= D < 2 ^ 32 -> Z.of_nat n < 2 ^ 30 ->
  rtc (Threads.step (mkStatics Governor.default_budgets order config) D)
    (Threads.mkPool (Governor.new config) (Threads.idle n)) w ->
  let u := usage_of (Threads.p_gov w) p in
  0 <= active_tasks u <= max_concurrent (budget_of p) + (Z.of_nat n - 1)
  /\ 0 <= rss_allocated_mb u <= tb_max_rss_mb (budget_of p) + (Z.of_nat n - 1) * D.
Proof.
  intros Hn HD Hn' Hr. destruct (threads_inv config order n D w Hn HD Hn' Hr p) as [Ha Hb].
  by apply limits_of_inv.
Qed.

(** C35. The bound is attained: for every number [n] of threads some
    interleaving of admissions, without any misuse, ends with [n - 1] more
    critical tasks than the tier allows, all threads idle again. *)
Theorem concurrent_overshoot n :
  (0 < n)%nat -> Z.of_nat n < 2 ^ 30 ->
  exists w, rtc (Threads.step Overshoot.st 0)
      (Threads.mkPool (Governor.new default_governor_config) (Threads.idle n)) w
    /\ Threads.p_threads w = Threads.idle n
    /\ active_tasks (usage_of (Threads.p_gov w) P0Critical)
       = max_concurrent (budget_of P0Critical) + (Z.of_nat n - 1).
Proof.
  intros Hn Hn'. eexists. split; [by apply Overshoot.run_over|]. split; [done|].
  change (1 + Z.of_nat n = 2 + (Z.of_nat n - 1)). lia.
Qed.

End Properties.

(** * Witnesses *)

Lemma concurrent_overshoot_witness :
  exists w, active_tasks (usage_of (Threads.p_gov w) P0Critical) = 4
    /\ max_concurrent (budget_of P0Critical) = 2
    /\ Threads.p_threads w = Threads.idle 3.
Proof.
  destruct (@concurrent_overshoot debug_profile 3) as (w & _ & Ht & Ha); [lia|lia|].
  exists w. by split_and!.
Defined.

Lemma concurrent_limits_witness :
  let st := mkStatics Governor.default_budgets [P0Critical; P1Normal; P2Background]
    default_governor_config in
  exists w, rtc (@Threads.step debug_profile st 512)
      (Threads.mkPool (Governor.new default_governor_config) (Threads.idle 2)) w
    /\ active_tasks (usage_of (Threads.p_gov w) P0Critical) <= 3.
Proof.
  intros st.
  set (w := Threads.mkPool (Governor.new default_governor_config)
    (<[0%nat := @program debug_profile st (RSubmit P0Critical 512 1000)]> (Threads.idle 2))).
  assert (Hs : rtc (@Threads.step debug_profile st 512)
    (Threads.mkPool (Governor.new default_governor_config) (Threads.idle 2)) w).
  { apply rtc_once. by apply (@Threads.step_request debug_profile st 512
      (Threads.mkPool (Governor.new default_governor_config) (Threads.idle 2)) 0
      (RSubmit P0Critical 512 1000) (Ret tt)). }
  exists w. split; [exact Hs|].
  apply (@concurrent_limits debug_profile default_governor_config
    [P0Critical; P1Normal; P2Background] 2 512 w P0Critical); [lia|lia|lia|exact Hs].
Defined.
