(* ===== verification/Counters.v ===== *)
(** The usage counters of a tier add up: src/src/governor/budget.rs on several
    threads.

    The programs of Atomics.v for [record_task_start] and [record_tokens] make
    no access but atomic additions, so however the accesses of any number of
    threads interleave, each counter ends with the sum of what all threads
    added, modulo 2^64. *)

From S2P Require Import Prelude F64 Envelope Governor Atomics.

(** A call of one of the recording methods of [TierUsage]. *)
Inductive usage_call :=
| CallStart (p : Priority) (rss_mb : Z)
| CallTokens (p : Priority) (count : Z).

Definition call_program (u : usage_call) : prog unit :=
  match u with
  | CallStart p rss_mb => TierUsageProg.record_task_start p rss_mb
  | CallTokens p count => TierUsageProg.record_tokens p count
  end.

(** A thread that makes some calls one after the other. *)
Fixpoint thread (calls : list usage_call) : prog unit :=
  match calls with
  | [] => mret tt
  | u :: calls => call_program u;; thread calls
  end.

(** What a call adds to a counter. *)
Definition call_adds (c : counter) (u : usage_call) : Z :=
  match u with
  | CallStart p rss_mb =>
    (if bool_decide ((p, FActive) = c) then 1 else 0)
    + (if bool_decide ((p, FRss) = c) then rss_mb else 0)
  | CallTokens p count => if bool_decide ((p, FTokens) = c) then count else 0
  end.

Definition calls_add (c : counter) (calls : list usage_call) : Z := sum_Z (call_adds c <$> calls).

(** One access of one thread. *)
Inductive turn : Threads.pool -> Threads.pool -> Prop :=
| turn_access w i q q' g' :
    Threads.p_threads w !! i = Some q -> access q (Threads.p_gov w) = Some (q', g') ->
    turn w (Threads.mkPool g' (<[i := q']> (Threads.p_threads w))).

Definition stopped (w : Threads.pool) : Prop :=
  Forall (fun q => q = Stop (Ret tt)) (Threads.p_threads w).

(** * Programs that only add *)

Fixpoint adder (q : prog unit) : Prop :=
  match q with
  | Stop r => r = Ret tt
  | Write _ (RAdd _) k => adder k
  | _ => False
  end.

Fixpoint added (c : counter) (q : prog unit) : Z :=
  match q with
  | Write c' (RAdd d) k => (if bool_decide (c' = c) then d else 0) + added c k
  | _ => 0
  end.

Fixpoint writes (q : prog unit) : nat :=
  match q with Write _ _ k => S (writes k) | _ => 0 end.

Lemma adder_bind (f : unit -> prog unit) q : adder q -> adder (f tt) -> adder (q ≫= f).
Proof.
  intros Hq Hf. induction q as [r|k IH|c k IH|c [d| | |] k IH]; simpl in *; try done; [by subst|].
  by apply IH.
Qed.

Lemma added_bind c (f : unit -> prog unit) q :
  adder q -> added c (q ≫= f) = added c q + added c (f tt).
Proof.
  intros Hq. induction q as [r|k IH|c' k IH|c' [d| | |] k IH]; simpl in *; try done; [by subst|].
  specialize (IH Hq). unfold mbind, prog_bind in *. lia.
Qed.

Lemma call_adder u : adder (call_program u).
Proof. by destruct u. Qed.

Lemma thread_adder calls : adder (thread calls).
Proof. induction calls as [|u calls IH]; [done|]. apply adder_bind; [apply call_adder|done]. Qed.

Lemma thread_added c calls : added c (thread calls) = calls_add c calls.
Proof.
  induction calls as [|u calls IH]; [done|]. cbn [thread].
  unfold calls_add. rewrite fmap_cons, sum_Z_cons, added_bind by apply call_adder.
  rewrite IH. by destruct u; simpl; rewrite ?Z.add_0_r.
Qed.

Lemma threads_added c calls :
  sum_Z (added c <$> (thread <$> calls)) = sum_Z (calls_add c <$> calls).
Proof.
  induction calls as [|l calls IH]; [done|].
  rewrite !fmap_cons, !sum_Z_cons, thread_added. by rewrite IH.
Qed.

(** * The invariant *)

Section Sum.
Context (c : counter) (total : Z).

Definition sum_inv (w : Threads.pool) : Prop :=
  Forall adder (Threads.p_threads w)
  /\ is_Some (tier_usage (Threads.p_gov w) !! c.1)
  /\ in_u 64 (read_counter c (Threads.p_gov w))
  /\ cast_u 64 (read_counter c (Threads.p_gov w) + sum_Z (added c <$> Threads.p_threads w))
     = cast_u 64 total.

Lemma turn_sum w w' : turn w w' -> sum_inv w -> sum_inv w'.
Proof.
  intros [w0 i q q' g' Hq Ha] (Hadd & Ht & Hr & Hs).
  pose proof (Forall_lookup_1 _ _ _ _ Hadd Hq) as Hqa.
  destruct q as [r|k|c' k|c' [d| | |] k]; try done. injection Ha as <- <-.
  destruct (read_write c c' (RAdd d) (Threads.p_gov w0) Ht)
    as [Ht' Hr'].
  split; [by apply Forall_insert|]. split; [done|]. simpl. rewrite Hr'.
  rewrite list_fmap_insert, (sum_Z_insert _ i (added c (Write c' (RAdd d) k)))
    by (by rewrite list_lookup_fmap, Hq).
  simpl. case_bool_decide as E; simpl.
  - split; [by apply in_u_cast|]. rewrite <- Hs. unfold wrapping_add, cast_u.
    rewrite Zplus_mod_idemp_l. f_equal. lia.
  - split; [done|]. rewrite <- Hs. f_equal. lia.
Qed.

Lemma turns_sum w w' : rtc turn w w' -> sum_inv w -> sum_inv w'.
Proof. induction 1; [done|]. intros Hw. by apply IHrtc, (turn_sum x). Qed.

Lemma stopped_sum w : stopped w -> sum_inv w -> read_counter c (Threads.p_gov w) = cast_u 64 total.
Proof.
  intros Hst (_ & _ & Hr & <-). replace (sum_Z _) with 0; [by rewrite Z.add_0_r, cast_u_id|].
  unfold stopped in Hst. induction Hst as [|q qs -> _ IH]; [done|].
  by rewrite fmap_cons, sum_Z_cons, <- IH.
Qed.

End Sum.

(** * Every run ends *)

Definition writes_left (w : Threads.pool) : nat := sum_list_with writes (Threads.p_threads w).

Lemma sum_list_insert {A} (f : A -> nat) l i x y :
  l !! i = Some x -> (sum_list_with f (<[i := y]> l) + f x = sum_list_with f l + f y)%nat.
Proof.
  revert i. induction l as [|z l IH]; intros [|i]; simpl; [done|done|..].
  - intros [= ->]. lia.
  - intros Hi. specialize (IH i Hi). lia.
Qed.

Lemma turn_adders w w' :
  turn w w' -> Forall adder (Threads.p_threads w) ->
  Forall adder (Threads.p_threads w') /\ (writes_left w' < writes_left w)%nat.
Proof.
  intros [w0 i q q' g' Hq Ha] Hadd. pose proof (Forall_lookup_1 _ _ _ _ Hadd Hq) as Hqa.
  destruct q as [r|k|c' k|c' [d| | |] k]; try done. injection Ha as <- <-.
  split; [by apply Forall_insert|]. unfold writes_left. simpl.
  pose proof (sum_list_insert writes _ i _ k Hq) as Hs. simpl in Hs. lia.
Qed.

Lemma turn_progress w :
  Forall adder (Threads.p_threads w) -> stopped w \/ exists w', turn w w'.
Proof.
  intros Hadd. unfold stopped. destruct w as [g qs]. simpl in *.
  assert (Forall (fun q => q = Stop (Ret tt)) qs
    \/ exists i c d k, qs !! i = Some (Write c (RAdd d) k)) as [Hs|(i & c & d & k & Hi)].
  { induction Hadd as [|q qs Hq _ [IH|(i & c & d & k & Hi)]]; [by left| |].
    - destruct q as [r|k|c k|c [d| | |] k]; try done.
      + left. simpl in Hq. subst. by constructor.
      + right. by exists 0%nat, c, d, k.
    - right. by exists (S i), c, d, k. }
  - by left.
  - right. eexists. by apply (turn_access (Threads.mkPool g qs) i (Write c (RAdd d) k)).
Qed.

Lemma turns_end n w :
  (writes_left w <= n)%nat -> Forall adder (Threads.p_threads w) ->
  exists w', rtc turn w w' /\ stopped w'.
Proof.
  revert w. induction n as [|n IH]; intros w Hn Hadd;
    (destruct (turn_progress w Hadd) as [Hs|[w1 Ht]]; [by exists w; split; [apply rtc_refl|]|]);
    destruct (turn_adders _ _ Ht Hadd) as [Hadd1 Hlt]; [lia|].
  destruct (IH w1 ltac:(lia) Hadd1) as (w2 & Hr & Hs). exists w2. split; [by eapply rtc_l|done].
Qed.

Lemma turns_adders w w' :
  rtc turn w w' -> Forall adder (Threads.p_threads w) -> Forall adder (Threads.p_threads w').
Proof. induction 1 as [|w1 w2 w3 Ht _ IH]; [done|]. intros Hw. by apply IH, (turn_adders w1). Qed.

(** A governor with the counter, and a value of its width in it. *)
Definition counter_ok (c : counter) (g : ResourceGovernor) : Prop :=
  is_Some (tier_usage g !! c.1) /\ in_u 64 (read_counter c g).

Lemma thread_adders calls : Forall adder (thread <$> calls).
Proof. apply Forall_fmap, Forall_forall. intros l _. apply thread_adder. Qed.

Lemma counters_sum c g calls w :
  counter_ok c g -> rtc turn (Threads.mkPool g (thread <$> calls)) w -> stopped w ->
  read_counter c (Threads.p_gov w)
  = cast_u 64 (read_counter c g + sum_Z (calls_add c <$> calls)).
Proof.
  intros [Ht Hr] Hrun Hst. apply (stopped_sum c _ w Hst), (turns_sum c _ _ _ Hrun).
  split; [apply thread_adders|]. split; [done|]. split; [done|]. simpl. by rewrite threads_added.
Qed.

(** * Properties *)

(** C34. The recording of usage is thread safe. However the atomic accesses of
    any number of threads interleave, each of which records starts of tasks and
    tokens in any order: every run goes on until all threads have returned, and
    then each counter has grown by exactly the sum of what the threads
    recorded, modulo 2^64; no update is lost. *)
Theorem counters_add_up c g calls w :
  counter_ok c g -> rtc turn (Threads.mkPool g (thread <$> calls)) w ->
  (exists w', rtc turn w w' /\ stopped w')
  /\ (stopped w -> read_counter c (Threads.p_gov w)
        = cast_u 64 (read_counter c g + sum_Z (calls_add c <$> calls))).
Proof.
  intros Hc Hrun. split; [|by apply counters_sum].
  apply (turns_end (writes_left w)); [done|]. eapply turns_adders; [exact Hrun|apply thread_adders].
Qed.

(** * Witnesses *)

(** Two threads on a fresh governor. *)
Lemma counters_add_up_witness :
  let g := Governor.new default_governor_config in
  let calls := [[CallStart P1Normal 100; CallTokens P1Normal 50]; [CallStart P1Normal 28]] in
  exists w, rtc turn (Threads.mkPool g (thread <$> calls)) w /\ stopped w
    /\ read_counter (P1Normal, FRss) (Threads.p_gov w) = 128.
Proof.
  intros g calls.
  assert (counter_ok (P1Normal, FRss) g) as Hc by (split; [by eexists|by vm_compute]).
  destruct (counters_add_up (P1Normal, FRss) g calls (Threads.mkPool g (thread <$> calls)) Hc
    (rtc_refl _ _)) as [(w & Hr & Hs) _].
  exists w. split; [exact Hr|]. split; [exact Hs|].
  exact (proj2 (counters_add_up (P1Normal, FRss) g calls w Hc Hr) Hs).
Defined.
