(* ===== verification/Ceiling.v ===== *)
(** The memory ceiling of the whole system under concurrent admissions:
    src/src/governor/governor.rs on several threads.

    The check of the ceiling adds up one counter after the other, so the sum it
    compares need not be the total of any moment. While tasks are submitted and
    none gives memory back, the counters only grow, and the sum is at least the
    total at the time the check began: at most one request for each other thread
    goes over the ceiling. *)

From S2P Require Import Prelude F64 Envelope Hardware Governor Atomics.

Section Ceiling.
Context `{BuildProfile} (st : statics) (D : Z).

(** Threads that take submissions, of tasks of at most [D] megabytes. *)
Inductive submission_step : Threads.pool -> Threads.pool -> Prop :=
| sub_access w i q q' g' :
    Threads.p_threads w !! i = Some q -> access q (Threads.p_gov w) = Some (q', g') ->
    submission_step w (Threads.mkPool g' (<[i := q']> (Threads.p_threads w)))
| sub_request w i p rss_mb tokens res :
    Threads.p_threads w !! i = Some (Stop res) ->
    Threads.request_ok D w (RSubmit p rss_mb tokens) ->
    submission_step w (Threads.mkPool (Threads.p_gov w)
      (<[i := program st (RSubmit p rss_mb tokens)]> (Threads.p_threads w)))
| sub_pressure w level :
    submission_step w (Threads.mkPool (Governor.update_pressure level (Threads.p_gov w))
      (Threads.p_threads w)).

Lemma submission_is_step w w' : submission_step w w' -> Threads.step st D w w'.
Proof. intros []; by econstructor. Qed.

Lemma submissions_are_steps w w' : rtc submission_step w w' -> rtc (Threads.step st D) w w'.
Proof. induction 1; [done|]. eapply rtc_l; [by apply submission_is_step|done]. Qed.

(** The memory a tier is said to use. *)
Definition rss (g : ResourceGovernor) (p : Priority) : Z := read_counter (p, FRss) g.

Lemma rss_total g :
  total_rss g = rss g P0Critical + rss g P1Normal + rss g P2Background.
Proof.
  unfold total_rss, rss, read_counter, usage_of. simpl.
  by repeat case_goal.
Qed.

Definition ceiling : Z := system_rss_ceiling_mb (st_config st) - headroom_mb (st_config st).

(** ** What is left of a program, seen from the memory of all tiers *)

Section Programs.
Context {A : Type} (M : Z).
Implicit Types low : Priority -> Z.

(** A value that may be read, when the memory of tier [p] is at least [low p]. *)
Definition readable low (c : counter) (v : Z) : Prop :=
  match c.2 with FRss => low c.1 <= v <= M | _ => True end.

(** Adds at most [d] megabytes, as long as it reads what is readable. *)
Fixpoint allows low (d : Z) (q : prog A) : Prop :=
  match q with
  | Stop _ => True
  | ReadPressure k => forall l, allows low d (k l)
  | Load c k => forall v, readable low c v -> allows low d (k v)
  | Write c r k =>
    if bool_decide (c.2 = FRss) then
      exists e, r = RAdd e /\ 0 <= e <= d /\ allows low (d - e) k
    else allows low d k
  end.

(** Only reads, and returns what satisfies [Q]. *)
Fixpoint reads low (Q : A -> Prop) (q : prog A) : Prop :=
  match q with
  | Stop (Ret a) => Q a
  | Stop Panic => True
  | ReadPressure k => forall l, reads low Q (k l)
  | Load c k => forall v, readable low c v -> reads low Q (k v)
  | Write _ _ _ => False
  end.

Lemma readable_grows low low' c v :
  (forall p, low p <= low' p) -> readable low' c v -> readable low c v.
Proof. unfold readable. destruct c as [p []]; simpl; [done..|]. intros Hl. specialize (Hl p). lia. Qed.

Lemma allows_grows low low' d q :
  (forall p, low p <= low' p) -> allows low d q -> allows low' d q.
Proof.
  intros Hl. revert d. induction q as [r|k IH|c k IH|c r k IH]; intros d; simpl; [done|by eauto|..].
  - intros Hq v Hv. apply IH, Hq. by eapply readable_grows.
  - case_bool_decide; [|apply IH]. intros (e & He & Hd & Hk). exists e. by eauto.
Qed.

End Programs.

Lemma reads_bind {A B} M low (Q : A -> Prop) (R : B -> Prop) (f : A -> prog B) q :
  reads M low Q q -> (forall a, Q a -> reads M low R (f a)) -> reads M low R (q ≫= f).
Proof.
  intros Hq Hf. induction q as [[a|]|k IH|c k IH|c r k IH]; simpl in *; [by apply Hf|done|..]; [..|done].
  - intros l. by apply IH.
  - intros v Hv. by apply IH, Hq.
Qed.

Lemma allows_bind {A B C} M low d (Q : A -> Prop) (f : A -> prog B) (h : B -> prog C) q :
  reads M low Q q -> (forall a, Q a -> allows M low d (bind_prog h (f a))) ->
  allows M low d (bind_prog h (bind_prog f q)).
Proof.
  intros Hq Hf. induction q as [[a|]|k IH|c k IH|c r k IH]; simpl in *; [by apply Hf|done|..]; [..|done].
  - intros l. by apply IH.
  - intros v Hv. by apply IH, Hq.
Qed.

Lemma reads_weaken {A} M low (Q R : A -> Prop) (q : prog A) :
  reads M low Q q -> (forall a, Q a -> R a) -> reads M low R q.
Proof.
  intros Hq Hr. induction q as [[a|]|k IH|c k IH|c r k IH]; simpl in *; eauto.
Qed.

(** ** The programs of a submission *)

Section Check.
Context (M : Z) (low : Priority -> Z).
Context (Hlow : forall p, 0 <= low p) (HM : 0 <= M /\ 3 * M + 2 ^ 32 < 2 ^ 64).
Context (Hc : config_ok (st_config st)).

Definition low_sum (tiers : list Priority) : Z := sum_Z (low <$> tiers).

Lemma low_sum_nonneg tiers : 0 <= low_sum tiers.
Proof. apply sum_Z_nonneg, Forall_fmap, Forall_forall. intros p _. apply Hlow. Qed.

(** The sum that the check compares is at least what it was at the beginning. *)
Lemma load_total_sum tiers acc :
  0 <= acc -> acc + Z.of_nat (length tiers) * M < 2 ^ 64 ->
  reads M low (fun total => acc + low_sum tiers <= total <= acc + Z.of_nat (length tiers) * M)
    (GovernorProg.load_total tiers acc).
Proof.
  revert acc. induction tiers as [|p tiers IH]; intros acc Ha Hs.
  { simpl. unfold low_sum. simpl. lia. }
  cbn [GovernorProg.load_total length] in *. unfold low_sum. rewrite fmap_cons, sum_Z_cons.
  fold (low_sum tiers). eapply reads_bind with (Q := fun v => low p <= v <= M); [by intros v|].
  intros v Hv. pose proof (Hlow p). unfold add_u. rewrite arith_u_ok by (unfold in_u; nia).
  apply reads_bind with (Q := fun acc' => acc' = acc + v); [done|]. intros acc' ->.
  eapply reads_weaken; [apply IH; nia|]. simpl. nia.
Qed.

(** A task is admitted only where the total, at the beginning, leaves room. *)
Lemma check_reads_ceiling p rss_mb tokens :
  in_u 32 rss_mb -> (length (st_tiers st) <= 3)%nat ->
  reads M low (fun d => d = TaskAdmitted -> low_sum (st_tiers st) + rss_mb <= ceiling)
    (GovernorProg.check_admission st p rss_mb tokens).
Proof.
  intros Hr Hlen. unfold in_u in Hr.
  assert (Z.of_nat (length (st_tiers st)) * M <= 3 * M) as Hm by nia.
  unfold GovernorProg.check_admission. intros l. simpl.
  destruct (st_budgets st !! p) as [b|]; [|done].
  destruct (negb _); [done|]. destruct (bool_decide (l = MCritical) && sheddable b); [done|]. intros active _. simpl.
  destruct (_ <=? active); [done|]. intros used _. simpl.
  destruct (_ <? saturating_add 64 used tokens); [by destruct (sheddable b)|].
  intros v Hv. unfold readable in Hv. simpl in Hv. pose proof (Hlow p).
  unfold add_u at 1. rewrite arith_u_ok by (unfold in_u; lia). simpl.
  destruct (_ <? v + rss_mb); [done|].
  eapply reads_bind; [apply load_total_sum; lia|]. intros total Ht. simpl in Ht.
  pose proof (low_sum_nonneg (st_tiers st)).
  destruct Hc as [Hh Hs]. unfold sub_u, add_u. rewrite arith_u_ok by (unfold in_u; lia).
  simpl. fold ceiling. rewrite arith_u_ok by (unfold in_u; lia). simpl. destruct (ceiling <? total + rss_mb) eqn:E; [done|]. split_bools.
  simpl. lia.
Qed.

Lemma task_started_allows p rss_mb d :
  0 <= rss_mb <= d -> allows M low d (bind_prog finish (start st p rss_mb TaskAdmitted)).
Proof.
  intros Hr. unfold start, GovernorProg.task_started, GovernorProg.when_tier.
  case_bool_decide; [|done]. simpl. exists rss_mb. split_and!; [done|lia..|done].
Qed.

(** A submission adds the memory of its task, and nothing when the total already
    leaves no room for it. *)
Lemma submission_allows p rss_mb tokens d :
  in_u 32 rss_mb -> (length (st_tiers st) <= 3)%nat -> 0 <= d ->
  rss_mb <= d \/ ceiling < low_sum (st_tiers st) + rss_mb ->
  allows M low d (program st (RSubmit p rss_mb tokens)).
Proof.
  intros Hr Hlen Hd Hcase. rewrite submit_program.
  eapply allows_bind; [by apply check_reads_ceiling|].
  intros [] Hdec; try done. apply task_started_allows. specialize (Hdec eq_refl).
  unfold in_u in Hr. lia.
Qed.

End Check.

(** ** The invariant *)

Section Invariant.
Context (n : nat).
Context (Hn : (0 < n)%nat /\ Z.of_nat n < 2 ^ 30) (HD : 0 <= D < 2 ^ 32).
Context (Hc : config_ok (st_config st)).
Context (Ho : st_tiers st ≡ₚ [P0Critical; P1Normal; P2Background]).

Definition most : Z := ceiling + (Z.of_nat n - 1) * D.

Record ceiling_inv (w : Threads.pool) : Prop := {
  ci_tiers p : is_Some (tier_usage (Threads.p_gov w) !! p);
  ci_rss p : 0 <= rss (Threads.p_gov w) p;
  ci_room : exists ds, Forall2 (allows most (rss (Threads.p_gov w))) ds (Threads.p_threads w)
    /\ Forall (fun d => 0 <= d <= D) ds /\ length ds = n
    /\ total_rss (Threads.p_gov w) + sum_Z ds <= most
}.

Lemma ceiling_range : 0 <= ceiling < 2 ^ 32.
Proof. unfold ceiling. destruct Hc. lia. Qed.

Lemma most_range : 0 <= most /\ 3 * most + 2 ^ 32 < 2 ^ 64.
Proof. pose proof ceiling_range. unfold most. nia. Qed.

Lemma rss_le_most w p : ceiling_inv w -> rss (Threads.p_gov w) p <= most.
Proof.
  intros [_ Hr (ds & _ & Hds & _ & Hs)]. rewrite rss_total in Hs.
  pose proof (sum_Z_nonneg ds) as Hd.
  assert (0 <= sum_Z ds) by (apply Hd; eapply Forall_impl; [exact Hds|simpl; lia]).
  pose proof (Hr P0Critical). pose proof (Hr P1Normal). pose proof (Hr P2Background).
  destruct p; lia.
Qed.

Lemma low_sum_total w : low_sum (rss (Threads.p_gov w)) (st_tiers st) = total_rss (Threads.p_gov w).
Proof. unfold low_sum. rewrite Ho, rss_total. simpl. lia. Qed.

(** The tasks of the threads move on: [ds'] is what they may still add. *)
Lemma ceiling_inv_intro w ds :
  (forall p, is_Some (tier_usage (Threads.p_gov w) !! p)) ->
  (forall p, 0 <= rss (Threads.p_gov w) p) ->
  Forall2 (allows most (rss (Threads.p_gov w))) ds (Threads.p_threads w) ->
  Forall (fun d => 0 <= d <= D) ds -> length ds = n ->
  total_rss (Threads.p_gov w) + sum_Z ds <= most -> ceiling_inv w.
Proof. intros. split; [done..|]. by exists ds. Qed.

Lemma ceiling_inv_start g :
  (forall p, is_Some (tier_usage g !! p)) -> (forall p, rss g p = 0) ->
  ceiling_inv (Threads.mkPool g (Threads.idle n)).
Proof.
  intros Ht Hr. apply (ceiling_inv_intro _ (replicate n 0)); simpl; [done|by intros p; rewrite Hr|..].
  - unfold Threads.idle. clear. induction n; by constructor.
  - apply Forall_replicate. lia.
  - apply length_replicate.
  - rewrite rss_total, !Hr. pose proof ceiling_range. unfold most.
    assert (sum_Z (replicate n 0) = 0) as -> by (clear; induction n; simpl; lia). nia.
Qed.

Lemma write_rss g c r p :
  (forall p, is_Some (tier_usage g !! p)) ->
  rss (write_counter c r g) p
  = if bool_decide (c = (p, FRss)) then apply_rmw r (rss g p) else rss g p.
Proof. intros Ht. apply (read_write (p, FRss) c r g), Ht. Qed.

(** What is added to one tier is added to the total. *)
Lemma write_total g p e :
  (forall p, is_Some (tier_usage g !! p)) ->
  0 <= e -> (forall p, 0 <= rss g p) -> rss g p + e < 2 ^ 64 ->
  total_rss (write_counter (p, FRss) (RAdd e) g) = total_rss g + e
  /\ forall q, rss g q <= rss (write_counter (p, FRss) (RAdd e) g) q.
Proof.
  intros Ht He Hr Hs.
  assert (forall q, rss (write_counter (p, FRss) (RAdd e) g) q
    = if bool_decide (p = q) then rss g q + e else rss g q) as Hw.
  { intros q. rewrite write_rss by done. simpl. unfold wrapping_add.
    destruct (decide (p = q)) as [->|Hne].
    - rewrite !bool_decide_true by done. apply cast_u_id. specialize (Hr q). unfold in_u. lia.
    - by rewrite !bool_decide_false by congruence. }
  split; [rewrite !rss_total, !Hw; destruct p; simpl; lia|].
  intros q. rewrite Hw. case_bool_decide; lia.
Qed.

Lemma write_tiers g c r p :
  (forall p, is_Some (tier_usage g !! p)) -> is_Some (tier_usage (write_counter c r g) !! p).
Proof. intros Ht. apply (read_write (p, FRss) c r g), Ht. Qed.

Lemma write_ceiling_inv w i c r k :
  Threads.p_threads w !! i = Some (Write c r k) -> ceiling_inv w ->
  ceiling_inv (Threads.mkPool (write_counter c r (Threads.p_gov w))
    (<[i := k]> (Threads.p_threads w))).
Proof.
  intros Hi Hw. pose proof (fun p => rss_le_most w p Hw) as Hmost. pose proof most_range.
  destruct w as [g ts]. destruct Hw as [Ht Hr (ds & Hf & Hds & Hl & Hs)]. simpl in *.
  destruct (Forall2_lookup_r _ _ _ _ _ Hf Hi) as (d & Hd & Hq). simpl in Hq.
  pose proof (Forall_lookup_1 _ _ _ _ Hds Hd) as Hdb. simpl in Hdb.
  case_bool_decide as Hc2.
  - destruct Hq as (e & -> & He & Hq). destruct c as [p f]. simpl in Hc2. subst f.
    specialize (Hmost p) as Hp. pose proof (Hr p).
    destruct (write_total g p e) as [Htot Hgrow]; [done|lia|done|lia|].
    apply (ceiling_inv_intro _ (<[i := d - e]> ds)); simpl.
    + intros q. by apply write_tiers.
    + intros q. specialize (Hgrow q). specialize (Hr q). lia.
    + eapply Forall2_impl; [by apply Forall2_insert|]. intros d' q. by apply allows_grows.
    + apply Forall_insert; [done|lia].
    + by rewrite length_insert.
    + rewrite Htot, (sum_Z_insert _ _ d) by done. lia.
  - assert (forall q, rss (write_counter c r g) q = rss g q) as Hsame.
    { intros q. rewrite write_rss by done. by rewrite bool_decide_false by (by intros ->). }
    apply (ceiling_inv_intro _ ds); simpl; [intros q; by apply write_tiers|intros q; by rewrite Hsame|..].
    + rewrite <- (list_insert_id ds i d Hd). eapply Forall2_impl; [by apply Forall2_insert|].
      intros d' q. apply allows_grows. intros p. by rewrite Hsame.
    + done.
    + done.
    + by rewrite rss_total, !Hsame, <- rss_total.
Qed.

(** A thread goes on without writing. *)
Lemma move_ceiling_inv g g' ts i q' :
  tier_usage g' = tier_usage g -> ceiling_inv (Threads.mkPool g ts) ->
  (forall d, 0 <= d <= D -> (forall q, ts !! i = Some q -> allows most (rss g) d q) ->
     exists d', 0 <= d' <= D /\ allows most (rss g) d' q' /\ (d' <= d \/ total_rss g + d' <= ceiling)) ->
  (i < length ts)%nat -> ceiling_inv (Threads.mkPool g' (<[i := q']> ts)).
Proof.
  intros Hg [Ht Hr (ds & Hf & Hds & Hl & Hs)] Hq Hi. simpl in *.
  assert (forall p, rss g' p = rss g p) as Hsame by (intros p; unfold rss, read_counter; by rewrite Hg).
  destruct (lookup_lt_is_Some_2 ds i) as [d Hd]; [by rewrite (Forall2_length _ _ _ Hf)|].
  destruct (Hq d (Forall_lookup_1 _ _ _ _ Hds Hd)) as (d' & Hb & Hq' & Hroom).
  { intros q Hqi. exact (Forall2_lookup_lr _ _ _ _ _ _ Hf Hd Hqi). }
  apply (ceiling_inv_intro _ (<[i := d']> ds)); simpl.
  - by rewrite Hg.
  - intros p. by rewrite Hsame.
  - apply Forall2_insert; [|by eapply allows_grows; [|exact Hq']; intros p; rewrite Hsame].
    eapply Forall2_impl; [exact Hf|]. intros d0 q0. apply allows_grows. intros p. by rewrite Hsame.
  - by apply Forall_insert.
  - by rewrite length_insert.
  - rewrite (sum_Z_insert _ _ d) by done. rewrite rss_total, !Hsame, <- rss_total.
    destruct Hroom as [|Hroom]; [lia|]. pose proof (sum_Z_others D ds i d ltac:(lia) Hds Hd) as Hothers.
    rewrite Hl in Hothers. unfold most in *. lia.
Qed.

Lemma submission_step_inv w w' : submission_step w w' -> ceiling_inv w -> ceiling_inv w'.
Proof.
  intros Hs Hw. pose proof (fun p => rss_le_most w p Hw) as Hmost.
  destruct Hs as [[g ts] i q q' g' Hi Ha|[g ts] i p rss_mb tokens res Hi [[Hr1 Hr2] Htok]|[g ts] level];
    simpl in *.
  - pose proof (lookup_lt_Some _ _ _ Hi) as Hlt. destruct q as [r|k|c k|c r k]; simpl in Ha.
    + done.
    + injection Ha as <- <-. eapply move_ceiling_inv; [done|done| |done].
      intros d Hd Hq. exists d. split; [done|]. split; [by apply (Hq _ Hi)|by left].
    + injection Ha as <- <-. eapply move_ceiling_inv; [done|done| |done].
      intros d Hd Hq. exists d. split; [done|]. split; [|by left]. apply (Hq _ Hi). unfold readable. destruct c as [p []]; simpl; [done..|].
      specialize (Hmost p). done.
    + injection Ha as <- <-. by apply (write_ceiling_inv (Threads.mkPool g ts)).
  - pose proof most_range. pose proof (lookup_lt_Some _ _ _ Hi) as Hlt.
    assert (Hlen : (length (st_tiers st) <= 3)%nat) by (by rewrite Ho).
    pose proof (low_sum_total (Threads.mkPool g ts)) as Hsum. simpl in Hsum.
    eapply move_ceiling_inv; [done|done| |done]. intros d Hd _.
    destruct (decide (total_rss g + rss_mb <= ceiling)) as [Hroom|Hroom].
    + exists rss_mb. split; [lia|]. split; [|by right].
      apply submission_allows; try done; [apply (ci_rss _ Hw)|unfold in_u; lia|by left].
    + exists 0. split; [lia|].
      split; [|left; lia].
      apply submission_allows; try done; [apply (ci_rss _ Hw)|unfold in_u; lia|right; lia].
  - destruct Hw as [Ht Hr (ds & Hf & Hds & Hl & Hs)]. by apply (ceiling_inv_intro _ ds).
Qed.

Lemma submission_steps_inv w w' : rtc submission_step w w' -> ceiling_inv w -> ceiling_inv w'.
Proof. induction 1; eauto using submission_step_inv. Qed.

Lemma ceiling_inv_bound w :
  ceiling_inv w -> total_rss (Threads.p_gov w) <= ceiling + (Z.of_nat n - 1) * D.
Proof.
  intros [Ht Hr (ds & _ & Hds & _ & Hs)]. apply sum_Z_between in Hds. rewrite rss_total in *.
  pose proof (Hr P0Critical). pose proof (Hr P1Normal). pose proof (Hr P2Background).
  unfold most in Hs. lia.
Qed.

(** However the accesses of [n] threads that take submissions interleave, the
    tasks together never have more than [n - 1] requests of memory more than the
    ceiling of the system. *)
Lemma system_ceiling config level w :
  st_config st = config ->
  rtc submission_step
    (Threads.mkPool (Governor.update_pressure level (Governor.new config)) (Threads.idle n)) w ->
  total_rss (Threads.p_gov w) <= ceiling + (Z.of_nat n - 1) * D.
Proof.
  intros <- Hr. apply ceiling_inv_bound. eapply submission_steps_inv; [exact Hr|].
  apply ceiling_inv_start; intros p; [by destruct p; eexists|by destruct p].
Qed.

End Invariant.
End Ceiling.
