(* ===== verification/Scheduler.v ===== *)
(** The lower-level scheduler: src/src/scheduler/allocator.rs, admission.rs and
    recommender.rs.

    The allocator is a mutex-protected record: a panic while the lock is held
    poisons it, and every later operation panics too. *)

From S2P Require Import Prelude F64 Hardware.

Record ResourceRequirements := mkReq {
  cpu_millicores : Z;
  memory_mb : Z
}.

Definition req_claude_cli : ResourceRequirements := mkReq 500 250.
Definition req_shell : ResourceRequirements := mkReq 200 50.

Record AllocatorState := mkAlloc {
  allocated_cpu : Z;
  allocated_memory : Z;
  active_agents : Z
}.

(** The contents of the mutex and whether it is poisoned. *)
Record ResourceAllocator := mkAllocator {
  al_inner : AllocatorState;
  al_poisoned : bool
}.

Module Allocator.

Definition new : ResourceAllocator := mkAllocator (mkAlloc 0 0 0) false.

(** A critical section: its outcome and the state it leaves. *)
Definition locked {A} (body : AllocatorState -> outcome A * AllocatorState)
    (al : ResourceAllocator) : outcome A * ResourceAllocator :=
  if al_poisoned al then (Panic, al)
  else match body (al_inner al) with
       | (Ret a, st) => (Ret a, mkAllocator st false)
       | (Panic, st) => (Panic, mkAllocator st true)
       end.

Section Ops.
Context `{BuildProfile}.

(** The three additions happen in order, so a panic keeps the earlier ones. *)
Definition allocate (req : ResourceRequirements)
    : ResourceAllocator -> outcome unit * ResourceAllocator :=
  locked (fun st =>
    match add_u 32 (allocated_cpu st) (cpu_millicores req) with
    | Panic => (Panic, st)
    | Ret cpu =>
      let st := mkAlloc cpu (allocated_memory st) (active_agents st) in
      match add_u 32 (allocated_memory st) (memory_mb req) with
      | Panic => (Panic, st)
      | Ret mem =>
        let st := mkAlloc cpu mem (active_agents st) in
        match add_u 32 (active_agents st) 1 with
        | Panic => (Panic, st)
        | Ret agents => (Ret tt, mkAlloc cpu mem agents)
        end
      end
    end).

Definition release (req : ResourceRequirements)
    : ResourceAllocator -> outcome unit * ResourceAllocator :=
  locked (fun st =>
    (Ret tt, mkAlloc (saturating_sub (allocated_cpu st) (cpu_millicores req))
               (saturating_sub (allocated_memory st) (memory_mb req))
               (saturating_sub (active_agents st) 1))).

(** The three getters. *)
Definition get (f : AllocatorState -> Z) (al : ResourceAllocator) : outcome Z :=
  (locked (fun st => (Ret (f st), st)) al).1.

End Ops.
End Allocator.

(** * Admission *)

Record AdmissionController := mkController { max_agents_hard_limit : Z }.

Module Admission.

Definition can_schedule (c : AdmissionController) (req : ResourceRequirements)
    (al : ResourceAllocator) (pressure : MemoryPressureLevel)
    (available_cpu_millicores available_memory_mb : Z) : outcome bool :=
  if bool_decide (pressure = MCritical) then Ret false
  else if available_cpu_millicores <? cpu_millicores req then Ret false
  else if available_memory_mb <? memory_mb req then Ret false
  else
    active ← Allocator.get active_agents al;
    if max_agents_hard_limit c <=? active then Ret false else Ret true.

Definition available_slots (c : AdmissionController) (req : ResourceRequirements)
    (al : ResourceAllocator) (pressure : MemoryPressureLevel)
    (available_cpu_millicores available_memory_mb : Z) : outcome Z :=
  if bool_decide (pressure = MCritical) then Ret 0
  else
    active ← Allocator.get active_agents al;
    let agent_headroom := saturating_sub (max_agents_hard_limit c) active in
    let cpu_slots :=
      if 0 <? cpu_millicores req then available_cpu_millicores / cpu_millicores req
      else u_max 32 in
    let mem_slots :=
      if 0 <? memory_mb req then available_memory_mb / memory_mb req
      else u_max 32 in
    Ret (Z.min (Z.min agent_headroom cpu_slots) mem_slots).

End Admission.

(** * Recommendations *)

Record Recommender := mkRecommender {
  ram_headroom_base_mb : Z;
  rc_max_agents_hard_limit : Z
}.

Module Recommender.

Definition with_defaults : Recommender := mkRecommender 2048 0.

Definition pressure_multiplier (pressure : MemoryPressureLevel) : f64 :=
  match pressure with
  | MNormal => of_int 1
  | MWarn => lit 175 100
  | MCritical => lit 25 10
  end.

Definition dynamic_headroom (r : Recommender) (pressure : MemoryPressureLevel) : Z :=
  to_uint 32 (fmul (of_int (ram_headroom_base_mb r)) (pressure_multiplier pressure)).

Section Ops.
Context `{BuildProfile}.

Definition recommend_max_agents (r : Recommender) (resources : SystemResources)
    (pressure : MemoryPressureLevel) (ram_per_agent_mb : Z) : outcome Z :=
  cpu2 ← mul_u 64 (cpu_count resources) 2;
  let cpu_limit := cast_u 32 cpu2 in
  let headroom := dynamic_headroom r pressure in
  let available := saturating_sub (ram_available_mb resources) headroom in
  let ram_limit :=
    if 0 <? ram_per_agent_mb then cast_u 32 (available / ram_per_agent_mb) else u_max 32 in
  let recommended := Z.min cpu_limit ram_limit in
  Ret (if 0 <? rc_max_agents_hard_limit r
       then Z.min recommended (rc_max_agents_hard_limit r) else recommended).

Definition thermal_multiplier (thermal : ThermalPressureLevel) : f64 :=
  match thermal with
  | TNominal => of_int 1
  | TFair => lit 75 100
  | TSerious => lit 5 10
  | TCritical => lit 25 100
  end.

Definition recommend_max_agents_thermal (r : Recommender) (resources : SystemResources)
    (pressure : MemoryPressureLevel) (thermal : ThermalPressureLevel)
    (ram_per_agent_mb : Z) : outcome Z :=
  base ← recommend_max_agents r resources pressure ram_per_agent_mb;
  let clamped := to_uint 32 (fmul (of_int base) (thermal_multiplier thermal)) in
  Ret (Z.min clamped base).

(** [{pressure:?}]. *)
Definition debug_pressure (pressure : MemoryPressureLevel) : string :=
  match pressure with
  | MNormal => "Normal"
  | MWarn => "Warn"
  | MCritical => "Critical"
  end.

Definition newline : string := String (Ascii.ascii_of_nat 10) EmptyString.

(** The lines of a report. *)
Fixpoint unlines (l : list string) : string :=
  match l with
  | [] => EmptyString
  | [s] => s
  | s :: l => (s +:+ newline +:+ unlines l)%string
  end.

(** The report on a host of the given platform and architecture. *)
Definition recommend_config (platform arch : string) (r : Recommender)
    (resources : SystemResources) (pressure : MemoryPressureLevel) : outcome string :=
  let claude_cli_ram := 250 in
  let shell_ram := 50 in
  max_claude ← recommend_max_agents r resources pressure claude_cli_ram;
  max_shell ← recommend_max_agents r resources pressure shell_ram;
  let headroom := dynamic_headroom r pressure in
  let rule l m := (l +:+ "─────────────────────────────────────────" +:+ m)%string in
  Ret (unlines
    [ rule "┌" "┐"; "│          HARDWARE SUMMARY               │"; rule "├" "┤";
      "│ Platform: " +:+ platform +:+ "-" +:+ arch;
      "│ CPUs:     " +:+ display_int (cpu_count resources);
      "│ RAM:      " +:+ display_int (ram_total_mb resources) +:+ " MB total, "
        +:+ display_int (ram_available_mb resources) +:+ " MB available";
      "│ Pressure: " +:+ debug_pressure pressure;
      rule "├" "┤"; "│       AGENT CAPACITY BY TYPE            │"; rule "├" "┤";
      "│ claude_cli (" +:+ display_int claude_cli_ram +:+ " MB/agent): max "
        +:+ display_int max_claude;
      "│ shell      (" +:+ display_int shell_ram +:+ " MB/agent):  max "
        +:+ display_int max_shell;
      rule "├" "┤"; "│     RECOMMENDED CONFIGURATION           │"; rule "├" "┤";
      "│ Type:     claude_cli";
      "│ Max:      " +:+ display_int max_claude;
      "│ Headroom: " +:+ display_int headroom +:+ " MB";
      rule "└" "┘" ]%string).

End Ops.
End Recommender.

(** * Lemmas *)

Definition state_fits (st : AllocatorState) : Prop :=
  in_u 32 (allocated_cpu st) /\ in_u 32 (allocated_memory st) /\ in_u 32 (active_agents st).

(** What an allocation adds. *)
Definition allocated (req : ResourceRequirements) (st : AllocatorState) : AllocatorState :=
  mkAlloc (allocated_cpu st + cpu_millicores req) (allocated_memory st + memory_mb req)
    (active_agents st + 1).

Lemma allocate_ok `{BuildProfile} req st :
  state_fits (allocated req st) ->
  Allocator.allocate req (mkAllocator st false)
  = (Ret tt, mkAllocator (allocated req st) false).
Proof.
  intros (Hc & Hm & Ha). simpl in *. unfold Allocator.allocate, Allocator.locked, add_u.
  simpl. by rewrite !arith_u_ok.
Qed.

(** The multiplication of an integer by a quarter multiple is exact. *)
Lemma dynamic_headroom_exact r pressure :
  in_u 32 (ram_headroom_base_mb r) ->
  Recommender.dynamic_headroom r pressure
  = Z.min (u_max 32)
      match pressure with
      | MNormal => ram_headroom_base_mb r
      | MWarn => ram_headroom_base_mb r * 7 / 4
      | MCritical => ram_headroom_base_mb r * 5 / 2
      end.
Proof.
  unfold in_u, Recommender.dynamic_headroom, Recommender.pressure_multiplier. intros Hb.
  destruct pressure.
  - change (of_int 1) with (SpecFloat.S754_finite false 4503599627370496 (- 0 - 52)).
    rewrite (to_uint_mul_exact 32 _ 1 0 52) by (done || lia).
    by rewrite Z.mul_1_r, Z.div_1_r.
  - change (lit 175 100) with (SpecFloat.S754_finite false 7881299347898368 (- 2 - 50)).
    by rewrite (to_uint_mul_exact 32 _ 7 2 50) by (done || lia).
  - change (lit 25 10) with (SpecFloat.S754_finite false 5629499534213120 (- 1 - 50)).
    by rewrite (to_uint_mul_exact 32 _ 5 1 50) by (done || lia).
Qed.

Definition thermal_quarters (t : ThermalPressureLevel) : Z :=
  match t with TNominal => 4 | TFair => 3 | TSerious => 2 | TCritical => 1 end.

Lemma thermal_exact base t :
  in_u 32 base ->
  to_uint 32 (fmul (of_int base) (Recommender.thermal_multiplier t))
  = base * thermal_quarters t / 4.
Proof.
  unfold in_u. intros Hb.
  assert (Hle : 0 <= base * thermal_quarters t / 4 <= base).
  { destruct t; simpl; Z.div_mod_to_equations; lia. }
  transitivity (Z.min (u_max 32) (base * thermal_quarters t / 4));
    [|unfold u_max; lia].
  destruct t; unfold Recommender.thermal_multiplier, thermal_quarters.
  - change (of_int 1) with (SpecFloat.S754_finite false 4503599627370496 (- 0 - 52)).
    rewrite (to_uint_mul_exact 32 _ 1 0 52) by (done || lia).
    by rewrite Z.mul_1_r, Z.div_1_r, Z.div_mul.
  - change (lit 75 100) with (SpecFloat.S754_finite false 6755399441055744 (- 2 - 51)).
    by rewrite (to_uint_mul_exact 32 _ 3 2 51) by (done || lia).
  - change (lit 5 10) with (SpecFloat.S754_finite false 4503599627370496 (- 1 - 52)).
    rewrite (to_uint_mul_exact 32 _ 1 1 52) by (done || lia). f_equal.
    Z.div_mod_to_equations. lia.
  - change (lit 25 100) with (SpecFloat.S754_finite false 4503599627370496 (- 2 - 52)).
    by rewrite (to_uint_mul_exact 32 _ 1 2 52) by (done || lia).
Qed.

Lemma recommend_bounds `{BuildProfile} r resources pressure ram_per n :
  Recommender.recommend_max_agents r resources pressure ram_per = Ret n ->
  in_u 32 (rc_max_agents_hard_limit r) -> in_u 32 n.
Proof.
  unfold Recommender.recommend_max_agents. destruct (mul_u _ _ _) as [cpu2|]; [|done].
  cbn [mbind outcome_bind]. intros [= <-]. unfold in_u, u_max. intros Hl.
  pose proof (in_u_cast 32 cpu2 ltac:(lia)) as H1. unfold in_u in H1.
  set (av := saturating_sub _ _ / ram_per).
  pose proof (in_u_cast 32 av ltac:(lia)) as H2. unfold in_u in H2.
  repeat case_goal; split_bools; lia.
Qed.

(** * Properties *)

(** How many agents can be scheduled one after the other, each taking its
    requirements from what is available. *)
Fixpoint greedy (fuel : nat) (c : AdmissionController) (req : ResourceRequirements)
    (st : AllocatorState) (pressure : MemoryPressureLevel) (cpu mem : Z) : Z :=
  match fuel with
  | O => 0
  | S fuel =>
    match Admission.can_schedule c req (mkAllocator st false) pressure cpu mem with
    | Ret true =>
      1 + greedy fuel c req (allocated req st) pressure
            (cpu - cpu_millicores req) (mem - memory_mb req)
    | _ => 0
    end
  end.

Lemma slots_div a b : 0 <= a -> 0 < b -> b <= a -> a / b = 1 + (a - b) / b.
Proof.
  intros Ha Hb Hab. replace a with ((a - b) + 1 * b) at 1 by lia.
  rewrite Z.div_add by lia. lia.
Qed.

(** One admission uses one slot. *)
Lemma available_slots_step c req st pressure cpu mem :
  in_u 32 (max_agents_hard_limit c) -> state_fits st ->
  0 <= cpu_millicores req -> 0 <= memory_mb req -> in_u 32 cpu -> in_u 32 mem ->
  exists n b,
    Admission.available_slots c req (mkAllocator st false) pressure cpu mem = Ret n
    /\ Admission.can_schedule c req (mkAllocator st false) pressure cpu mem = Ret b
    /\ 0 <= n /\ b = (0 <? n)
    /\ (0 < n -> Admission.available_slots c req (mkAllocator (allocated req st) false)
          pressure (cpu - cpu_millicores req) (mem - memory_mb req) = Ret (n - 1)
        /\ active_agents st < max_agents_hard_limit c
        /\ cpu_millicores req <= cpu /\ memory_mb req <= mem).
Proof.
  intros Hl (_ & _ & Ha) Hc0 Hm0 Hcpu Hmem. unfold in_u in *.
  unfold Admission.available_slots, Admission.can_schedule.
  destruct (bool_decide (pressure = MCritical)).
  { exists 0, false. split_and!; [done|done|lia|done|intros; exfalso; lia]. }
  cbn [Allocator.get Allocator.locked al_poisoned al_inner fst mbind outcome_bind
    allocated active_agents].
  set (a := active_agents st) in *. unfold saturating_sub, u_max.
  assert (Hcs : forall x d, 0 <= x < 2 ^ 32 -> 0 <= d ->
    0 <= (if 0 <? d then x / d else 2 ^ 32 - 1)
    /\ (x < d -> (if 0 <? d then x / d else 2 ^ 32 - 1) = 0)
    /\ (d <= x -> (if 0 <? d then x / d else 2 ^ 32 - 1)
          = (if 0 <? d then 1 + (x - d) / d else 2 ^ 32 - 1)
        /\ 0 <= (if 0 <? d then (x - d) / d else 2 ^ 32 - 1))).
  { intros x d Hx Hd. destruct (0 <? d) eqn:E; split_bools; [|lia].
    split_and!; [apply Z.div_pos; lia| |].
    - intros. apply Z.div_small. lia.
    - intros Hle. split; [f_equal; apply slots_div; lia|apply Z.div_pos; lia]. }
  destruct (Hcs cpu (cpu_millicores req) Hcpu Hc0) as (Hc1 & Hc2 & Hc3).
  destruct (Hcs mem (memory_mb req) Hmem Hm0) as (Hm1 & Hm2 & Hm3). clear Hcs.
  destruct (cpu <? cpu_millicores req) eqn:E1; split_bools.
  { rewrite (Hc2 E1). eexists _, false. split_and!; [done|done|lia|symmetry; apply Z.ltb_ge; lia|intros; exfalso; lia]. }
  destruct (Hc3 E1) as [Hc4 Hc5]. clear Hc2 Hc3.
  destruct (mem <? memory_mb req) eqn:E2; split_bools.
  { rewrite (Hm2 E2). eexists _, false. split_and!; [done|done|lia|symmetry; apply Z.ltb_ge; lia|intros; exfalso; lia]. }
  destruct (Hm3 E2) as [Hm4 Hm5]. clear Hm2 Hm3.
  rewrite Hc4, Hm4.
  destruct (max_agents_hard_limit c <=? a) eqn:E3; split_bools.
  { rewrite Z.max_l by lia.
    eexists _, false. split_and!; [done|done|lia|symmetry; apply Z.ltb_ge; lia|
      intros; exfalso; lia]. }
  eexists _, true. split_and!; [done|done| | |].
  - destruct (0 <? cpu_millicores req), (0 <? memory_mb req); lia.
  - symmetry. apply Z.ltb_lt.
    destruct (0 <? cpu_millicores req), (0 <? memory_mb req); lia.
  - intros _. split; [|lia]. f_equal.
    destruct (0 <? cpu_millicores req), (0 <? memory_mb req); lia.
Qed.

(** C38. [available_slots] is the number of agents that [can_schedule] admits
    one after the other when each takes its requirements from the available
    CPU and memory and is added to the allocator; in particular there is a
    slot exactly when one more agent can be scheduled. This is while the
    counters of the allocator do not overflow when these agents are added, and
    its lock is not poisoned. *)
Theorem available_slots_greedy c req st pressure cpu mem fuel n :
  in_u 32 (max_agents_hard_limit c) -> state_fits st ->
  0 <= cpu_millicores req -> 0 <= memory_mb req -> in_u 32 cpu -> in_u 32 mem ->
  Admission.available_slots c req (mkAllocator st false) pressure cpu mem = Ret n ->
  n < Z.of_nat fuel ->
  state_fits (mkAlloc (allocated_cpu st + n * cpu_millicores req)
    (allocated_memory st + n * memory_mb req) 0) ->
  greedy fuel c req st pressure cpu mem = n.
Proof.
  intros Hl. revert st cpu mem n.
  induction fuel as [|fuel IH]; intros st cpu mem n Hst Hc0 Hm0 Hcpu Hmem Hs Hf Hfit.
  { destruct (available_slots_step c req st pressure cpu mem) as (n' & b & Hn & _ & Hp & _);
      [done..|]. assert (n' = n) as -> by congruence. lia. }
  destruct (available_slots_step c req st pressure cpu mem)
    as (n' & b & Hn & Hb & Hp & -> & Hnext); [done..|].
  assert (n' = n) as -> by congruence. cbn [greedy]. rewrite Hb.
  destruct (0 <? n) eqn:E; split_bools; [|lia].
  destruct (Hnext E) as (Hnext' & Hact & Hc & Hm).
  destruct Hst as (H1 & H2 & H3), Hfit as (F1 & F2 & _). unfold in_u in *. simpl in F1, F2.
  rewrite (IH _ _ _ (n - 1)); [lia| |done|done|lia|lia|done|lia|].
  - unfold state_fits, in_u. simpl. split_and!; nia.
  - unfold state_fits, in_u. simpl. split_and!; nia.
Qed.

(** The thermal recommendation is exactly four, three, two or one quarters
    of the base recommendation, rounded down, as the package goes from nominal
    to critical: it never exceeds the base and never rises with the
    temperature. The base itself respects the hard limit, and its headroom is
    exactly 1, 7/4 or 5/2 times the configured one. *)
Theorem recommend_thermal_exact `{BuildProfile} r resources pressure ram_per :
  in_u 32 (ram_headroom_base_mb r) -> in_u 32 (rc_max_agents_hard_limit r) ->
  0 <= cpu_count resources < 2 ^ 63 ->
  exists base, Recommender.recommend_max_agents r resources pressure ram_per = Ret base
  /\ in_u 32 base
  /\ (0 < rc_max_agents_hard_limit r -> base <= rc_max_agents_hard_limit r)
  /\ (0 < ram_per -> ram_available_mb resources < 2 ^ 32 ->
      base * ram_per <= saturating_sub (ram_available_mb resources)
        (Z.min (u_max 32)
          match pressure with
          | MNormal => ram_headroom_base_mb r
          | MWarn => ram_headroom_base_mb r * 7 / 4
          | MCritical => ram_headroom_base_mb r * 5 / 2
          end))
  /\ forall t, Recommender.recommend_max_agents_thermal r resources pressure t ram_per
       = Ret (base * thermal_quarters t / 4)
     /\ base * thermal_quarters t / 4 <= base
     /\ forall t', thermal_rank t <= thermal_rank t' ->
          base * thermal_quarters t' / 4 <= base * thermal_quarters t / 4.
Proof.
  intros Hr Hl Hcpu.
  assert (exists base, Recommender.recommend_max_agents r resources pressure ram_per
            = Ret base) as [base Hb].
  { unfold Recommender.recommend_max_agents, mul_u. rewrite bind_arith_u; [by eexists|].
    unfold in_u. lia. }
  pose proof (recommend_bounds _ _ _ _ _ Hb Hl) as Hin.
  assert (Hquart : forall t, base * thermal_quarters t / 4 <= base).
  { unfold in_u in Hin. intros []; simpl; Z.div_mod_to_equations; lia. }
  exists base. split_and!; [done|done| | |].
  - revert Hb. unfold Recommender.recommend_max_agents.
    destruct (mul_u _ _ _); [|done]. cbn [mbind outcome_bind]. intros [= <-] Hpos.
    rewrite (proj2 (Z.ltb_lt _ _)) by done. lia.
  - intros Hp Hav. revert Hb. unfold Recommender.recommend_max_agents.
    rewrite dynamic_headroom_exact by done.
    destruct (mul_u _ _ _); [|done]. cbn [mbind outcome_bind]. intros [= <-].
    rewrite (proj2 (Z.ltb_lt 0 ram_per)) by done.
    set (av := saturating_sub _ _).
    assert (Hav0 : 0 <= av < 2 ^ 32).
    { unfold av, saturating_sub, u_max. unfold in_u in Hr.
      assert (0 <= ram_headroom_base_mb r * 7 / 4) by (apply Z.div_pos; lia).
      assert (0 <= ram_headroom_base_mb r * 5 / 2) by (apply Z.div_pos; lia).
      destruct pressure; lia. }
    rewrite (cast_u_id 32 (av / ram_per)).
    2:{ unfold in_u. split; [apply Z.div_pos; lia|]. apply Z.div_lt_upper_bound; nia. }
    assert (Hle : av / ram_per * ram_per <= av) by (rewrite Z.mul_comm; apply Z.mul_div_le; lia).
    case_goal; nia.
  - intros t. split_and!; [|apply Hquart|].
    + unfold Recommender.recommend_max_agents_thermal. rewrite Hb.
      cbn [mbind outcome_bind]. rewrite thermal_exact by done. f_equal.
      specialize (Hquart t). lia.
    + unfold in_u in Hin. intros t' Ht. apply Z.div_le_mono; [lia|].
      destruct t, t'; simpl in *; lia.
Qed.

(** Allocation accounting: an allocation that fits adds the requirements,
    and releasing the same requirements restores the allocator. When the sum of
    the CPU overflows, an overflow-checked build panics, poisons the lock and
    makes every later operation panic, while a release build wraps around. *)
Theorem allocator_roundtrip `{BuildProfile} req st :
  state_fits st -> 0 <= cpu_millicores req -> 0 <= memory_mb req ->
  (state_fits (allocated req st) ->
     Allocator.release req (Allocator.allocate req (mkAllocator st false)).2
     = (Ret tt, mkAllocator st false))
  /\ (2 ^ 32 <= allocated_cpu st + cpu_millicores req -> overflow_checks = true ->
     let al := (Allocator.allocate req (mkAllocator st false)).2 in
     (Allocator.allocate req (mkAllocator st false)).1 = Panic
     /\ al = mkAllocator st true
     /\ forall req', (Allocator.allocate req' al).1 = Panic
          /\ (Allocator.release req' al).1 = Panic
          /\ Allocator.get active_agents al = Panic).
Proof.
  intros Hst Hc Hm. split.
  - intros Hfit. rewrite allocate_ok by done.
    destruct st as [cpu mem act]. destruct Hst as (H1 & H2 & H3).
    unfold in_u in *. simpl in *.
    unfold Allocator.release, Allocator.locked, saturating_sub, allocated. simpl.
    repeat f_equal; lia.
  - intros Hov Hch.
    assert (Hp : Allocator.allocate req (mkAllocator st false) = (Panic, mkAllocator st true)).
    { unfold Allocator.allocate, Allocator.locked, add_u, arith_u at 1. simpl.
      rewrite (proj2 (Z.ltb_ge _ (2 ^ 32))), andb_false_r, Hch by done. done. }
    rewrite Hp. done.
Qed.

(** * Witnesses *)

Lemma available_slots_greedy_witness :
  greedy 10 (mkController 8) req_claude_cli (mkAlloc 0 0 0) MNormal 4000 1000 = 4.
Proof.
  apply available_slots_greedy; try (by vm_compute); simpl; try lia.
Defined.

Lemma recommend_thermal_exact_witness :
  exists base, @Recommender.recommend_max_agents_thermal release_profile
    Recommender.with_defaults (mkResources 8 16384 8192 fzero fzero fzero) MWarn TFair 250
    = Ret base /\ base = 12.
Proof.
  destruct (@recommend_thermal_exact release_profile Recommender.with_defaults
    (mkResources 8 16384 8192 fzero fzero fzero) MWarn 250)
    as (base & Hb & _ & _ & _ & Ht); [by split|by split|simpl; lia|].
  destruct (Ht TFair) as [Ht1 _]. eexists. split; [exact Ht1|].
  assert (base = 16) as -> by (vm_compute in Hb; congruence). by vm_compute.
Defined.

Lemma allocator_roundtrip_witness :
  let st := mkAlloc (2 ^ 32 - 100) 0 3 in
  (@Allocator.allocate debug_profile req_shell (mkAllocator st false)).1 = Panic
  /\ (Allocator.release req_shell (@Allocator.allocate debug_profile
        req_shell (mkAllocator (mkAlloc 0 0 0) false)).2)
     = (Ret tt, mkAllocator (mkAlloc 0 0 0) false).
Proof.
  intros st. split.
  - destruct (@allocator_roundtrip debug_profile req_shell st) as [_ Hp];
      [split_and!; by vm_compute|simpl; lia..|].
    apply Hp; [by vm_compute|done].
  - apply (@allocator_roundtrip debug_profile req_shell (mkAlloc 0 0 0));
      [split_and!; by vm_compute|simpl; lia..|split_and!; by vm_compute].
Defined.
