(* ===== verification/Supervisor.v ===== *)
(** The process supervisor: src/src/supervisor/process.rs, kernel.rs, health.rs
    and error.rs.

    Every reading of the monotonic clock is an argument. The critical sections
    of one operation run one after the other here; Locks.v interleaves them. *)

From S2P Require Import Prelude.
From Stdlib Require Import Sorting.Sorted.

(** * Processes and restarts *)

Inductive ProcessId :=
| Init | Kernel | Loop0Meta | Loop1Agentic | Loop2Harness | ModelAdapter | EmbeddingAdapter.

#[export] Instance ProcessId_eq_dec : EqDecision ProcessId.
Proof. solve_decision. Defined.

Definition process_index (p : ProcessId) : nat :=
  match p with
  | Init => 0 | Kernel => 1 | Loop0Meta => 2 | Loop1Agentic => 3 | Loop2Harness => 4
  | ModelAdapter => 5 | EmbeddingAdapter => 6
  end.

Definition process_of_index (n : nat) : ProcessId :=
  nth n [Init; Kernel; Loop0Meta; Loop1Agentic; Loop2Harness; ModelAdapter; EmbeddingAdapter]
    Init.

#[export] Instance ProcessId_countable : Countable ProcessId.
Proof. refine (inj_countable' process_index process_of_index _). by intros []. Defined.

Inductive ProcessState := Starting | Running | Stopping | Stopped | SFailed | Restarting.

#[export] Instance ProcessState_eq_dec : EqDecision ProcessState.
Proof. solve_decision. Defined.

(** The [Display] of a state. *)
Definition display_state (s : ProcessState) : string :=
  match s with
  | Starting => "Starting" | Running => "Running" | Stopping => "Stopping"
  | Stopped => "Stopped" | SFailed => "Failed" | Restarting => "Restarting"
  end.

Inductive SupervisorError :=
| MaxRestartsExceeded (id : ProcessId)
| ProcessNotFound (id : ProcessId)
| InvalidTransition (id : ProcessId) (from to : string)
| ShuttingDown.

(** The [Debug] of a process and the [Display] of an error. *)
Definition debug_process (p : ProcessId) : string :=
  match p with
  | Init => "Init" | Kernel => "Kernel" | Loop0Meta => "Loop0Meta"
  | Loop1Agentic => "Loop1Agentic" | Loop2Harness => "Loop2Harness"
  | ModelAdapter => "ModelAdapter" | EmbeddingAdapter => "EmbeddingAdapter"
  end.

Definition display_error (e : SupervisorError) : string :=
  match e with
  | MaxRestartsExceeded id => "process " +:+ debug_process id +:+ " exceeded max restart limit"
  | ProcessNotFound id => "process " +:+ debug_process id +:+ " not found"
  | InvalidTransition id from to =>
    "invalid state transition for " +:+ debug_process id +:+ ": " +:+ from +:+ " -> " +:+ to
  | ShuttingDown => "supervisor shutting down"
  end%string.

Record RestartPolicy := mkPolicy {
  max_restarts : Z;
  restart_window : Duration;
  backoff_base : Duration;
  backoff_max : Duration
}.

Definition default_policy : RestartPolicy :=
  mkPolicy 5 (from_secs 300) (from_millis 100) (from_secs 30).

Record RestartTracker := mkTracker {
  rt_policy : RestartPolicy;
  restart_times : list Instant;
  rt_consecutive_failures : Z
}.

Module RestartTracker.

Definition new (policy : RestartPolicy) : RestartTracker := mkTracker policy [] 0.

Definition reset (t : RestartTracker) : RestartTracker := mkTracker (rt_policy t) [] 0.

Definition current_backoff (t : RestartTracker) : Duration :=
  let exp := saturating_sub (rt_consecutive_failures t) 1 in
  let multiplier := saturating_pow 64 2 exp in
  let backoff := duration_saturating_mul (backoff_base (rt_policy t)) (cast_u 32 multiplier) in
  Z.min backoff (backoff_max (rt_policy t)).

Definition restart_count (t : RestartTracker) : Z :=
  cast_u 32 (Z.of_nat (length (restart_times t))).

Definition record_restart `{BuildProfile} (now : Instant) (t : RestartTracker)
    : outcome (result SupervisorError Duration * RestartTracker) :=
  cutoff ← instant_sub now (restart_window (rt_policy t));
  let t := mkTracker (rt_policy t)
    (List.filter (fun x => cutoff <=? x) (restart_times t)) (rt_consecutive_failures t) in
  if max_restarts (rt_policy t) <=? restart_count t then
    Ret (Err (MaxRestartsExceeded Init), t)
  else
    failures ← add_u 32 (rt_consecutive_failures t) 1;
    let t := mkTracker (rt_policy t) (restart_times t ++ [now]) failures in
    Ret (Ok (current_backoff t), t).

End RestartTracker.

Record ChildHandle := mkChild {
  ch_id : ProcessId;
  ch_state : ProcessState;
  restart_tracker : RestartTracker;
  started_at : Instant;
  ch_pid : option Z
}.

(** * Health *)

Inductive HealthLevel := Healthy | Degraded | Recovering.

Record ProcessHealth := mkProcessHealth {
  ph_id : ProcessId;
  ph_state : ProcessState;
  uptime_secs : Z;
  ph_restart_count : Z
}.

Record HealthStatus := mkHealth {
  h_status : HealthLevel;
  kernel_uptime_secs : Z;
  active_processes : list ProcessHealth;
  last_checkpoint : option string
}.

Module Health.

Definition compute (processes : list ProcessHealth) (kernel_start now : Instant)
    : HealthStatus :=
  let kernel_uptime_secs := as_secs (elapsed now kernel_start) in
  let status :=
    match processes with
    | [] => Healthy
    | _ =>
      let all_running := forallb (fun p => bool_decide (ph_state p = Running)) processes in
      let any_failed := existsb (fun p => bool_decide (ph_state p = SFailed)) processes in
      let any_restarting := existsb (fun p =>
        bool_decide (ph_state p = Restarting) || bool_decide (ph_state p = Starting))
        processes in
      if all_running then Healthy
      else if any_failed then Degraded
      else if any_restarting then Recovering
      else Degraded
    end in
  mkHealth status kernel_uptime_secs processes None.

End Health.

(** * The supervisor *)

Record KernelSupervisor := mkSupervisor {
  children : gmap ProcessId ChildHandle;
  kernel_start : Instant;
  health_state : HealthStatus
}.

Module Supervisor.

Definition new (now : Instant) : KernelSupervisor :=
  mkSupervisor ∅ now (mkHealth Healthy 0 [] None).

Definition process_health (now : Instant) (h : ChildHandle) : ProcessHealth :=
  mkProcessHealth (ch_id h) (ch_state h) (as_secs (elapsed now (started_at h)))
    (RestartTracker.restart_count (restart_tracker h)).

Section Ops.
Context `{HashOrder} `{BuildProfile}.

(** One reading of the clock stands for those of all children, which the code
    takes one after the other: only [uptime_secs] depends on it. *)
Definition refresh_health (now : Instant) (s : KernelSupervisor) : KernelSupervisor :=
  let process_healths := process_health now <$> hm_values (children s) in
  mkSupervisor (children s) (kernel_start s)
    (Health.compute process_healths (kernel_start s) now).

Definition register (now t_health : Instant) (id : ProcessId) (policy : RestartPolicy)
    (s : KernelSupervisor) : KernelSupervisor :=
  let handle := mkChild id Starting (RestartTracker.new policy) now None in
  refresh_health t_health
    (mkSupervisor (<[id := handle]> (children s)) (kernel_start s) (health_state s)).

Definition handle_failure (t_restart t_started : Instant) (id : ProcessId)
    (s : KernelSupervisor)
    : outcome (result SupervisorError unit * KernelSupervisor) :=
  match children s !! id with
  | None => Ret (Err (ProcessNotFound id), s)
  | Some h =>
    r ← RestartTracker.record_restart t_restart (restart_tracker h);
    let put h := mkSupervisor (<[id := h]> (children s)) (kernel_start s) (health_state s) in
    match r with
    | (Ok _backoff, t) => Ret (Ok tt, put (mkChild (ch_id h) Restarting t t_started (ch_pid h)))
    | (Err _, t) =>
      Ret (Err (MaxRestartsExceeded id),
           put (mkChild (ch_id h) (ch_state h) t (started_at h) (ch_pid h)))
    end
  end.

Definition update_state (t_restart t_started t_health : Instant) (id : ProcessId)
    (state : ProcessState) (s : KernelSupervisor)
    : outcome (result SupervisorError unit * KernelSupervisor) :=
  match children s !! id with
  | None => Ret (Err (ProcessNotFound id), s)
  | Some h =>
    if bool_decide (ch_state h = Stopped) && bool_decide (state = Running) then
      Ret (Err (InvalidTransition id (display_state (ch_state h)) (display_state state)), s)
    else
      let tracker := if bool_decide (state = Running)
                     then RestartTracker.reset (restart_tracker h) else restart_tracker h in
      let s := mkSupervisor
        (<[id := mkChild (ch_id h) state tracker (started_at h) (ch_pid h)]> (children s))
        (kernel_start s) (health_state s) in
      if bool_decide (state = SFailed) then
        r ← handle_failure t_restart t_started id s;
        match r with
        | (Ok _, s) => Ret (Ok tt, refresh_health t_health s)
        | (Err e, s) => Ret (Err e, s)
        end
      else Ret (Ok tt, refresh_health t_health s)
  end.

Definition health (t_health : Instant) (s : KernelSupervisor)
    : HealthStatus * KernelSupervisor :=
  let s := refresh_health t_health s in (health_state s, s).

Definition all_healthy (s : KernelSupervisor) : bool :=
  negb (bool_decide (children s = ∅))
  && forallb (fun h => bool_decide (ch_state h = Running)) (hm_values (children s)).

End Ops.
End Supervisor.

(** * The restart window *)

(** A sequence of restart attempts: the times of those that were granted. *)
Fixpoint restarts `{BuildProfile} (nows : list Instant) (t : RestartTracker)
    : outcome (list Instant * RestartTracker) :=
  match nows with
  | [] => Ret ([], t)
  | now :: rest =>
    rt ← RestartTracker.record_restart now t;
    gs ← restarts rest rt.2;
    Ret (if is_ok rt.1 then now :: gs.1 else gs.1, gs.2)
  end.

(** Attempts with resets in between: [lives] are the attempts between one reset
    and the next, and the result are those that were granted. *)
Fixpoint with_resets `{BuildProfile} (lives : list (list Instant)) (t : RestartTracker)
    : outcome (list (list Instant) * RestartTracker) :=
  match lives with
  | [] => Ret ([], t)
  | nows :: rest =>
    gs ← restarts nows t;
    rs ← with_resets rest (RestartTracker.reset gs.2);
    Ret (gs.1 :: rs.1, rs.2)
  end.

(** How many of the times [l] fall into the window that ends at [t]. *)
Definition in_window (w t : Z) (l : list Z) : nat :=
  length (List.filter (fun x => (t - w <=? x) && (x <=? t)) l).

(** An instant or duration of at most [2 ^ 60] nanoseconds (36 years). *)
Definition clock_ok (t : Z) : Prop := - 2 ^ 60 <= t <= 2 ^ 60.

Lemma instant_sub_ok t d : clock_ok t -> 0 <= d <= 2 ^ 60 -> instant_sub t d = Ret (t - d).
Proof.
  unfold clock_ok, instant_sub, nanos_per_sec. intros.
  rewrite (proj2 (Z.leb_le _ _)), (proj2 (Z.ltb_lt _ _)) by lia. done.
Qed.

Lemma in_window_app w t l1 l2 :
  in_window w t (l1 ++ l2) = (in_window w t l1 + in_window w t l2)%nat.
Proof. unfold in_window. by rewrite List.filter_app, length_app. Qed.

Lemma length_filter_le {A} (f g : A -> bool) l :
  (forall x, f x = true -> g x = true) ->
  (length (List.filter f l) <= length (List.filter g l))%nat.
Proof.
  intros Hfg. induction l as [|x l IH]; [done|]. simpl.
  destruct (f x) eqn:E; [rewrite (Hfg x E); simpl; lia|]. destruct (g x); simpl; lia.
Qed.

Lemma filter_filter_bool {A} (f g : A -> bool) l :
  (forall x, f x = true -> g x = true) ->
  List.filter f (List.filter g l) = List.filter f l.
Proof.
  intros Hfg. induction l as [|x l IH]; [done|]. simpl.
  destruct (g x) eqn:Eg; simpl.
  - by rewrite IH.
  - destruct (f x) eqn:Ef; [|done]. by rewrite (Hfg x Ef) in Eg.
Qed.

Section Window.
Context `{BuildProfile} (policy : RestartPolicy).
Hypothesis Hmax : in_u 32 (max_restarts policy).
Hypothesis Hw : 0 <= restart_window policy <= 2 ^ 60.

Abbreviation w := (restart_window policy).

(** One attempt, when the tracker holds the granted times [P] from [c] on. *)
Lemma record_restart_spec now t P c :
  rt_policy t = policy -> clock_ok now -> c <= now - w ->
  restart_times t = List.filter (fun x => c <=? x) P ->
  Z.of_nat (length P) < 2 ^ 32 -> 0 <= rt_consecutive_failures t < 2 ^ 32 - 1 ->
  exists r t', RestartTracker.record_restart now t = Ret (r, t')
  /\ rt_policy t' = policy
  /\ (forall d, r = Ok d ->
      Z.of_nat (length (List.filter (fun x => now - w <=? x) P)) < max_restarts policy
      /\ d = RestartTracker.current_backoff t'
      /\ rt_consecutive_failures t' = rt_consecutive_failures t + 1
      /\ restart_times t' = List.filter (fun x => now - w <=? x) (P ++ [now]))
  /\ (forall e, r = Err e ->
      max_restarts policy <= Z.of_nat (length (List.filter (fun x => now - w <=? x) P))
      /\ rt_consecutive_failures t' = rt_consecutive_failures t
      /\ restart_times t' = List.filter (fun x => now - w <=? x) P).
Proof.
  intros Hp Hnow Hc Ht HP Hf. unfold RestartTracker.record_restart.
  rewrite Hp, instant_sub_ok by done. cbn [mbind outcome_bind rt_policy restart_times
    rt_consecutive_failures].
  rewrite Ht, filter_filter_bool by (intros x Hx; split_bools; apply Z.leb_le; lia).
  unfold RestartTracker.restart_count. cbn [restart_times].
  set (l := List.filter (fun x => now - w <=? x) P).
  assert (Hlen : (length l <= length P)%nat) by apply filter_length_le.
  rewrite cast_u_id by (unfold in_u; lia).
  destruct (max_restarts policy <=? Z.of_nat (length l)) eqn:E; split_bools.
  - eexists _, _. split; [done|]. split_and!; [done|done|]. intros e _. split_and!; [lia|done..].
  - unfold add_u. rewrite bind_arith_u by (unfold in_u; lia).
    eexists _, _. split; [done|]. split_and!; [done| |done]. intros d [= <-].
    split_and!; [lia|done|done|]. simpl. rewrite List.filter_app. simpl.
    rewrite (proj2 (Z.leb_le (now - w) now)) by lia. done.
Qed.

Lemma in_window_snoc P now t :
  (in_window w t (P ++ [now])
   <= in_window w t P + 1)%nat
  /\ ((in_window w t (P ++ [now]) = in_window w t P)
      \/ (in_window w t (P ++ [now])
          <= length (List.filter (fun x => (now - w <=? x)%Z) P) + 1)%nat).
Proof.
  rewrite in_window_app.
  assert (in_window w t [now]
    = if (t - w <=? now) && (now <=? t) then 1%nat else 0%nat) as ->
    by (unfold in_window; simpl; by case_goal).
  destruct ((t - w <=? now) && (now <=? t)) eqn:E; [|lia]. split; [lia|]. right.
  split_bools. apply Nat.add_le_mono_r. apply length_filter_le.
  intros x Hx. split_bools. apply Z.leb_le. lia.
Qed.

Lemma restarts_spec nows : forall t P c,
  rt_policy t = policy -> Forall clock_ok nows ->
  StronglySorted Z.le nows -> Forall (fun now => c <= now - w) nows ->
  restart_times t = List.filter (fun x => c <=? x) P ->
  (forall s, Z.of_nat (in_window w s P) <= max_restarts policy) ->
  Z.of_nat (length P + length nows) < 2 ^ 32 ->
  0 <= rt_consecutive_failures t -> rt_consecutive_failures t + Z.of_nat (length nows) < 2 ^ 32 ->
  exists G t', restarts nows t = Ret (G, t') /\ rt_policy t' = policy
    /\ forall s, Z.of_nat (in_window w s (P ++ G)) <= max_restarts policy.
Proof.
  induction nows as [|now nows IH]; intros t P c Hp Hck Hso Hc Ht HQ HP Hf0 Hf;
    cbn [restarts].
  { exists [], t. split; [done|]. split; [done|]. by rewrite app_nil_r. }
  apply Forall_cons in Hck as [Hck1 Hck]. apply Forall_cons in Hc as [Hc1 Hc].
  apply StronglySorted_inv in Hso as [Hso Hle]. cbn [length] in HP, Hf.
  destruct (record_restart_spec now t P c) as (r & t1 & -> & Hp1 & Hok & Herr);
    [done..|lia|lia|]. cbn [mbind outcome_bind fst snd].
  assert (Hc' : Forall (fun now' => now - w <= now' - w) nows).
  { apply Forall_forall. intros x Hx. rewrite Forall_forall in Hle.
    specialize (Hle x Hx). lia. }
  destruct r as [d|e].
  - destruct (Hok d eq_refl) as (Hlt & _ & Hf1 & Ht1).
    destruct (IH t1 (P ++ [now]) (now - w)) as (G & t' & -> & Hp' & HG); [done..| | |lia|lia|].
    + intros s. destruct (in_window_snoc P now s) as [_ [->|Hs]]; [done|]. lia.
    + rewrite length_app. simpl. lia.
    + exists (now :: G), t'. split; [done|]. split; [done|]. intros s. specialize (HG s).
      by rewrite <- app_assoc in HG.
  - destruct (Herr e eq_refl) as (_ & Hf1 & Ht1).
    destruct (IH t1 P (now - w)) as (G & t' & -> & Hp' & HG); [done..|lia|lia|lia|].
    by exists G, t'.
Qed.

(** Attempts that the clock and the counters of the code can hold. *)
Definition attempts_ok (nows : list Instant) : Prop :=
  Forall clock_ok nows /\ StronglySorted Z.le nows /\ Z.of_nat (length nows) < 2 ^ 32.

(** The attempts after a reset, or at the start. *)
Lemma restarts_fresh nows t :
  attempts_ok nows ->
  rt_policy t = policy -> restart_times t = [] -> rt_consecutive_failures t = 0 ->
  exists G t', restarts nows t = Ret (G, t') /\ rt_policy t' = policy
    /\ forall s, Z.of_nat (in_window w s G) <= max_restarts policy.
Proof.
  intros (Hck & Hso & Hl) Hp Ht Hf.
  apply (restarts_spec nows t [] (- 2 ^ 60 - w)); try done.
  - eapply Forall_impl; [exact Hck|]. unfold clock_ok. simpl. intros. lia.
  - intros s. unfold in_window. simpl. unfold in_u in Hmax. lia.
  - by rewrite Hf.
  - rewrite Hf. lia.
Qed.

Lemma with_resets_spec lives t :
  Forall attempts_ok lives ->
  rt_policy t = policy -> restart_times t = [] -> rt_consecutive_failures t = 0 ->
  exists granted t', with_resets lives t = Ret (granted, t') /\ length granted = length lives
    /\ forall s, Forall (fun G => Z.of_nat (in_window w s G) <= max_restarts policy) granted.
Proof.
  intros Hok. revert t. induction Hok as [|nows lives Hn _ IH]; intros t Hp Ht Hf; cbn [with_resets].
  { exists [], t. split; [done|]. split; [done|]. intros s. constructor. }
  destruct (restarts_fresh nows t Hn Hp Ht Hf) as (G & t1 & -> & Hp1 & HG). rewrite bind_Ret.
  destruct (IH (RestartTracker.reset t1)) as (granted & t' & Hr & Hl & Hall); [done..|].
  cbn [fst snd]. rewrite Hr. exists (G :: granted), t'. split; [done|]. split; [simpl; by rewrite Hl|].
  intros s. constructor; [apply HG|apply Hall].
Qed.

Lemma in_window_mjoin s (granted : list (list Instant)) :
  Forall (fun G => Z.of_nat (in_window w s G) <= max_restarts policy) granted ->
  Z.of_nat (in_window w s (mjoin granted)) <= Z.of_nat (length granted) * max_restarts policy.
Proof.
  induction 1 as [|G granted HG _ IH]; [by unfold in_window|].
  change (mjoin (G :: granted)) with (G ++ mjoin granted). rewrite in_window_app.
  cbn [length]. lia.
Qed.

End Window.

(** * Properties *)

(** C20. The limit on restarts, and what a reset does to it. A tracker that is
    reset any number of times (the kernel resets it whenever the process is set
    running) grants at most [max_restarts] of the attempts between two resets in
    any window of length [restart_window], and so at most [max_restarts] times
    the number of these periods altogether; there is no other limit, and by
    [crash_loop_never_limited] a process that comes up before each failure is
    always granted its restart. No attempt panics. This is for
    windows and times of at most 2^60 nanoseconds (36 years), times that do not
    decrease and fewer than 2^32 attempts between two resets. *)
Theorem restart_window_limit `{BuildProfile} policy lives :
  in_u 32 (max_restarts policy) -> 0 <= restart_window policy <= 2 ^ 60 ->
  Forall attempts_ok lives ->
  exists granted t, with_resets lives (RestartTracker.new policy) = Ret (granted, t)
    /\ length granted = length lives
    /\ forall s,
         Forall (fun G => Z.of_nat (in_window (restart_window policy) s G) <= max_restarts policy) granted
         /\ Z.of_nat (in_window (restart_window policy) s (mjoin granted))
            <= Z.of_nat (length lives) * max_restarts policy.
Proof.
  intros Hm Hw Hok.
  destruct (with_resets_spec policy Hm Hw lives (RestartTracker.new policy)) as (granted & t & Hr & Hl & HG);
    [done..|].
  exists granted, t. split; [done|]. split; [done|]. intros s. split; [apply HG|].
  rewrite <- Hl. by apply in_window_mjoin.
Qed.

(** The backoff doubles with every consecutive failure up to the 32nd and
    is capped at [backoff_max]; from the 33rd to the 64th it is zero, because
    the multiplier is a power of two that the cast to [u32] reduces to 0. *)
Theorem backoff_spec t :
  let f := rt_consecutive_failures t in
  let base := backoff_base (rt_policy t) in
  0 <= base -> 0 <= backoff_max (rt_policy t) < duration_max -> 0 < f ->
  (f <= 32 -> RestartTracker.current_backoff t
     = Z.min (base * 2 ^ (f - 1)) (backoff_max (rt_policy t)))
  /\ (32 < f <= 64 -> RestartTracker.current_backoff t = 0).
Proof.
  intros f base Hb Hm Hf. unfold RestartTracker.current_backoff, saturating_sub.
  fold f base. rewrite Z.max_r by lia. unfold saturating_pow, u_max.
  assert (Hp : f <= 64 -> 2 ^ (f - 1) <= 2 ^ 63) by (intros; apply Z.pow_le_mono_r; lia).
  assert (Hp0 : 0 < 2 ^ (f - 1)) by (apply Z.pow_pos_nonneg; lia).
  split; intros Hle; specialize (Hp ltac:(lia)); rewrite (Z.min_r (2 ^ 64 - 1)) by lia;
    unfold cast_u, duration_saturating_mul.
  - assert (2 ^ (f - 1) <= 2 ^ 31) by (apply Z.pow_le_mono_r; lia).
    rewrite Z.mod_small by lia. lia.
  - replace (2 ^ (f - 1)) with (2 ^ (f - 33) * 2 ^ 32)
      by (rewrite <- Z.pow_add_r by lia; f_equal; lia).
    rewrite Z_mod_mult, Z.mul_0_r. lia.
Qed.

(** One crash after coming up: [Running], then [Failed]. *)
Definition crash `{HashOrder} `{BuildProfile} (now : Instant) (id : ProcessId)
    (s : KernelSupervisor) : outcome (list (result SupervisorError unit) * KernelSupervisor) :=
  r1 ← Supervisor.update_state now now now id Running s;
  r2 ← Supervisor.update_state now now now id SFailed r1.2;
  Ret ([r1.1; r2.1], r2.2).

Fixpoint crashes `{HashOrder} `{BuildProfile} (nows : list Instant) (id : ProcessId)
    (s : KernelSupervisor) : outcome (list (result SupervisorError unit) * KernelSupervisor) :=
  match nows with
  | [] => Ret ([], s)
  | now :: rest =>
    r ← crash now id s;
    rs ← crashes rest id r.2;
    Ret (r.1 ++ rs.1, rs.2)
  end.

Section Crash.
Context `{HashOrder} `{BuildProfile}.

Lemma update_running t1 t2 t3 id s h :
  children s !! id = Some h -> ch_state h <> Stopped ->
  exists s', Supervisor.update_state t1 t2 t3 id Running s = Ret (Ok tt, s')
    /\ children s' !! id = Some (mkChild (ch_id h) Running
         (RestartTracker.reset (restart_tracker h)) (started_at h) (ch_pid h)).
Proof.
  intros Hh Hst. unfold Supervisor.update_state. rewrite Hh.
  rewrite (bool_decide_false (ch_state h = Stopped)) by done. cbn [andb].
  eexists. split; [done|]. apply lookup_insert_eq.
Qed.

(** A failure right after a reset is always granted a restart. *)
Lemma update_failed t1 t2 t3 id s h :
  children s !! id = Some h -> restart_tracker h = RestartTracker.reset (restart_tracker h) ->
  1 <= max_restarts (rt_policy (restart_tracker h)) ->
  0 <= restart_window (rt_policy (restart_tracker h)) <= 2 ^ 60 -> clock_ok t1 ->
  exists s' h', Supervisor.update_state t1 t2 t3 id SFailed s = Ret (Ok tt, s')
    /\ children s' !! id = Some h' /\ ch_state h' = Restarting
    /\ rt_policy (restart_tracker h') = rt_policy (restart_tracker h).
Proof.
  intros Hh Hr Hm Hw Hck. unfold Supervisor.update_state. rewrite Hh, andb_false_r.
  rewrite (bool_decide_false (SFailed = Running)) by done.
  rewrite (bool_decide_true (SFailed = SFailed)) by done.
  unfold Supervisor.handle_failure. cbn [children].
  rewrite lookup_insert_eq. cbn [restart_tracker]. rewrite Hr.
  unfold RestartTracker.record_restart, RestartTracker.reset.
  cbn [rt_policy restart_times rt_consecutive_failures].
  rewrite instant_sub_ok by done. cbn [mbind outcome_bind List.filter].
  unfold RestartTracker.restart_count. cbn [restart_times length Z.of_nat].
  change (cast_u 32 0) with 0. rewrite (proj2 (Z.leb_gt _ 0)) by (cbn; lia).
  unfold add_u. rewrite arith_u_ok by (by split). cbn [mbind outcome_bind fst snd].
  eexists _, _. split; [done|]. split; [apply lookup_insert_eq|]. done.
Qed.

Lemma crash_spec now id s h :
  children s !! id = Some h -> ch_state h <> Stopped ->
  1 <= max_restarts (rt_policy (restart_tracker h)) ->
  0 <= restart_window (rt_policy (restart_tracker h)) <= 2 ^ 60 -> clock_ok now ->
  exists s' h', crash now id s = Ret ([Ok tt; Ok tt], s')
    /\ children s' !! id = Some h' /\ ch_state h' = Restarting
    /\ rt_policy (restart_tracker h') = rt_policy (restart_tracker h).
Proof.
  intros Hh Hst Hm Hw Hck. unfold crash.
  destruct (update_running now now now id s h) as (s1 & -> & Hh1); [done..|].
  cbn [mbind outcome_bind fst snd].
  destruct (update_failed now now now id s1 _ Hh1) as (s2 & h2 & -> & Hh2 & Hs2 & Hp2);
    [done..|].
  by exists s2, h2.
Qed.

End Crash.

(** C37. Reaching [Running] resets the restart history at once, not after a
    sustained run. So a registered process that has not been stopped, whose
    policy allows at least one restart in a window of at most 2^60 nanoseconds
    (36 years, the bound also on the readings of the clock), is restarted every time it fails after it has come up, however often and
    however fast: with one update after the other, every update that sets it
    running and every one that reports its failure succeeds, none panics, and
    after the last failure it is Restarting again. *)
Theorem crash_loop_never_limited `{HashOrder} `{BuildProfile} nows id s h :
  children s !! id = Some h -> ch_state h <> Stopped ->
  1 <= max_restarts (rt_policy (restart_tracker h)) ->
  0 <= restart_window (rt_policy (restart_tracker h)) <= 2 ^ 60 -> Forall clock_ok nows ->
  exists rs s' h', crashes nows id s = Ret (rs, s') /\ Forall (fun r => r = Ok tt) rs
    /\ length rs = (2 * length nows)%nat
    /\ children s' !! id = Some h' /\ (nows <> [] -> ch_state h' = Restarting).
Proof.
  intros Hh Hst Hm Hw Hck.
  enough (exists rs s' h', crashes nows id s = Ret (rs, s') /\ Forall (fun r => r = Ok tt) rs
    /\ length rs = (2 * length nows)%nat /\ children s' !! id = Some h'
    /\ (ch_state h' = Restarting \/ nows = [] /\ h' = h))
    as (rs & s' & h' & ? & ? & ? & ? & [?|[-> _]]); [by exists rs, s', h'..|].
  revert s h Hh Hst Hm Hw.
  induction Hck as [|now nows Hnow Hck IH]; intros s h Hh Hst Hm Hw; cbn [crashes].
  { exists [], s, h. split_and!; [done..|by right]. }
  destruct (crash_spec now id s h) as (s1 & h1 & -> & Hh1 & Hs1 & Hp1); [done..|].
  cbn [mbind outcome_bind fst snd].
  destruct (IH s1 h1) as (rs & s' & h' & -> & Hrs & Hl & Hh' & Hor);
    [done|by rewrite Hs1|by rewrite Hp1..|].
  eexists _, s', h'. split; [done|]. split_and!; [|simpl; lia|done|].
  - simpl. by repeat constructor.
  - left. destruct Hor as [?|[_ ->]]; done.
Qed.

Section HealthFacts.
Context `{HashOrder} `{BuildProfile}.

(** The states of the children, in iteration order. *)
Definition states (s : KernelSupervisor) : list ProcessState :=
  ch_state <$> hm_values (children s).

Lemma elem_of_states s st :
  st ∈ states s <-> exists id h, children s !! id = Some h /\ ch_state h = st.
Proof.
  unfold states. rewrite list_elem_of_fmap. setoid_rewrite elem_of_hm_values. naive_solver.
Qed.

Lemma states_nil s : states s = [] <-> children s = ∅.
Proof.
  split.
  - intros E. apply map_empty. intros id. destruct (children s !! id) as [h|] eqn:Hh; [|done].
    assert (ch_state h ∈ states s) as Hin by (apply elem_of_states; eauto).
    rewrite E in Hin. by apply elem_of_nil in Hin.
  - intros E. unfold states, hm_values. by rewrite E, hm_iter_empty.
Qed.

(** The level that [compute] gives to a list of states. *)
Definition level_of (l : list ProcessState) : HealthLevel :=
  if forallb (fun st => bool_decide (st = Running)) l then Healthy
  else if existsb (fun st => bool_decide (st = SFailed)) l then Degraded
  else if existsb (fun st => bool_decide (st = Restarting) || bool_decide (st = Starting)) l
  then Recovering
  else Degraded.

Lemma forallb_fmap {A B} (f : B -> bool) (g : A -> B) l :
  forallb f (g <$> l) = forallb (fun x => f (g x)) l.
Proof. induction l as [|x l IH]; [done|]. rewrite fmap_cons. cbn [forallb]. by rewrite IH. Qed.

Lemma existsb_fmap {A B} (f : B -> bool) (g : A -> B) l :
  existsb f (g <$> l) = existsb (fun x => f (g x)) l.
Proof. induction l as [|x l IH]; [done|]. rewrite fmap_cons. cbn [existsb]. by rewrite IH. Qed.

Lemma health_level now s :
  h_status (Supervisor.health now s).1 = level_of (states s).
Proof.
  assert (Hc : forall ps start, h_status (Health.compute ps start now)
    = level_of (ph_state <$> ps)).
  { intros ps start. unfold level_of. rewrite !forallb_fmap, !existsb_fmap.
    by destruct ps. }
  unfold Supervisor.health. cbn [fst Supervisor.refresh_health health_state].
  by rewrite Hc, <- list_fmap_compose.
Qed.

Lemma forallb_running l :
  forallb (fun st => bool_decide (st = Running)) l = true <-> forall st, st ∈ l -> st = Running.
Proof.
  rewrite forallb_forall. setoid_rewrite list_elem_of_In.
  by setoid_rewrite bool_decide_eq_true.
Qed.

Lemma existsb_failed l :
  existsb (fun st => bool_decide (st = SFailed)) l = true <-> SFailed ∈ l.
Proof.
  rewrite existsb_exists. setoid_rewrite <- list_elem_of_In.
  setoid_rewrite bool_decide_eq_true. naive_solver.
Qed.

Lemma existsb_recovering l :
  existsb (fun st => bool_decide (st = Restarting) || bool_decide (st = Starting)) l = true
  <-> Starting ∈ l \/ Restarting ∈ l.
Proof.
  rewrite existsb_exists. setoid_rewrite <- list_elem_of_In.
  setoid_rewrite orb_true_iff. setoid_rewrite bool_decide_eq_true. naive_solver.
Qed.

Lemma level_of_spec l :
  (level_of l = Healthy <-> forall st, st ∈ l -> st = Running)
  /\ (level_of l = Recovering <-> SFailed ∉ l /\ (Starting ∈ l \/ Restarting ∈ l)).
Proof.
  unfold level_of. rewrite <- forallb_running, <- existsb_failed, <- existsb_recovering.
  assert (Hex : forallb (fun st => bool_decide (st = Running)) l = true ->
    existsb (fun st => bool_decide (st = Restarting) || bool_decide (st = Starting)) l = false).
  { intros Ha. apply not_true_iff_false. rewrite existsb_recovering.
    intros [Hin|Hin]; by specialize (proj1 (forallb_running l) Ha _ Hin). }
  set (a := forallb _ l) in *. set (f := existsb (fun st => bool_decide (st = SFailed)) l).
  set (r := existsb _ l) in *. clearbody a f r.
  destruct a, f, r; naive_solver.
Qed.

(** The reported health depends only on the states of the children: it is
    Healthy exactly when all of them run, Recovering exactly when some are
    starting or restarting and none has failed, and Degraded otherwise. A
    supervisor without children is Healthy but not [all_healthy]. *)
Theorem health_exact now s :
  let status := h_status (Supervisor.health now s).1 in
  let state st := exists id h, children s !! id = Some h /\ ch_state h = st in
  (status = Healthy <-> forall id h, children s !! id = Some h -> ch_state h = Running)
  /\ (status = Recovering <-> ~ state SFailed /\ (state Starting \/ state Restarting))
  /\ (Supervisor.all_healthy s = true <-> children s <> ∅ /\ status = Healthy).
Proof.
  intros status state. unfold status. rewrite health_level.
  destruct (level_of_spec (states s)) as [Hh Hr].
  assert (Hall : level_of (states s) = Healthy
    <-> forall id h, children s !! id = Some h -> ch_state h = Running).
  { rewrite Hh. setoid_rewrite elem_of_states. naive_solver. }
  split_and!; [done|by rewrite Hr, !elem_of_states|].
  unfold Supervisor.all_healthy. rewrite andb_true_iff, negb_true_iff, bool_decide_eq_false.
  rewrite Hh, <- forallb_running. unfold states. by rewrite forallb_fmap.
Qed.

End HealthFacts.

(** * Witnesses *)

(** Seven attempts, a reset and two more: five and two are granted. *)
Lemma restart_window_limit_witness :
  exists granted t, @with_resets debug_profile [[0; 1; 2; 3; 4; 5; 6]; [7; 8]]
      (RestartTracker.new default_policy) = Ret (granted, t)
    /\ length <$> granted = [5%nat; 2%nat]
    /\ Z.of_nat (in_window (from_secs 300) 8 (mjoin granted)) <= 10.
Proof.
  destruct (@restart_window_limit debug_profile default_policy [[0; 1; 2; 3; 4; 5; 6]; [7; 8]])
    as (granted & t & E & _ & Hl).
  - by split.
  - by split.
  - constructor; [|constructor; [|constructor]];
      (split; [by repeat constructor|]; split; [repeat constructor; lia|done]).
  - exists granted, t. split; [exact E|]. split; [|apply (Hl 8)].
    vm_compute in E. injection E as <- _. done.
Defined.

Lemma backoff_spec_witness :
  RestartTracker.current_backoff (mkTracker default_policy [] 3) = from_millis 400
  /\ RestartTracker.current_backoff (mkTracker default_policy [] 33) = 0.
Proof.
  split.
  - destruct (backoff_spec (mkTracker default_policy [] 3)) as [-> _];
      [done|by split|done|done|done].
  - destruct (backoff_spec (mkTracker default_policy [] 33)) as [_ ->];
      [done|by split|done|by split|done].
Defined.

Lemma crash_loop_never_limited_witness :
  let s := @Supervisor.register std_order 0 0 Loop1Agentic default_policy (Supervisor.new 0) in
  exists rs s', @crashes std_order debug_profile (replicate 100 0) Loop1Agentic s = Ret (rs, s')
    /\ length rs = 200%nat.
Proof.
  intros s.
  destruct (@crash_loop_never_limited std_order debug_profile (replicate 100 0) Loop1Agentic s
    (mkChild Loop1Agentic Starting (RestartTracker.new default_policy) 0 None))
    as (rs & s' & h' & E & _ & Hl & _).
  - by vm_compute.
  - done.
  - by vm_compute.
  - by split.
  - apply Forall_replicate. by split.
  - exists rs, s'. split; [exact E|exact Hl].
Defined.
