(* ===== verification/Sections.v ===== *)
(** Programs made of critical sections, and their interleaving.

    What a task of the daemon does to shared memory is a sequence of critical
    sections: what it does while it holds a lock, or one access to an atomic.
    A program is such a sequence, [exec] runs it with nothing in between, and
    the relations of the module Tasks interleave the programs of several
    tasks. Locks.v uses it for the supervisor, Requests.v for the kernel's
    requests. *)

From S2P Require Import Prelude.

(** A program on the shared state [S], one critical section at a time:
    [Crit f k] changes the state by [f] and goes on with [k] of the state it
    found. *)
Inductive prog (S A : Type) : Type :=
| Stop (r : outcome A)
| Crit (f : S -> S) (k : S -> prog S A).
Arguments Stop {S A} r.
Arguments Crit {S A} f k.

Fixpoint bind_prog {S A B} (g : A -> prog S B) (q : prog S A) : prog S B :=
  match q with
  | Stop (Ret a) => g a
  | Stop Panic => Stop Panic
  | Crit f k => Crit f (fun s => bind_prog g (k s))
  end.

#[export] Instance prog_ret S : MRet (prog S) := fun A a => Stop (Ret a).
#[export] Instance prog_bind S : MBind (prog S) := fun A B g q => bind_prog g q.

(** A critical section with the value it computes. *)
Definition locked {S A} (f : S -> S) (g : S -> outcome A) : prog S A :=
  Crit f (fun s => Stop (g s)).

(** A program on a part of a larger state. *)
Fixpoint zoom {S S' A} (get : S -> S') (set : S' -> S -> S) (q : prog S' A) : prog S A :=
  match q with
  | Stop r => Stop r
  | Crit f k => Crit (fun s => set (f (get s)) s) (fun s => zoom get set (k (get s)))
  end.

(** A whole program, with nothing in between. *)
Fixpoint exec {S A} (q : prog S A) (s : S) : outcome A * S :=
  match q with
  | Stop r => (r, s)
  | Crit f k => exec (k s) (f s)
  end.

Lemma sections_bind {S A B} (g : A -> prog S B) (q : prog S A) s :
  exec (q ≫= g) s
  = match exec q s with
    | (Ret a, s') => exec (g a) s'
    | (Panic, s') => (Panic, s')
    end.
Proof. revert s. induction q as [[a|]|f k IH]; intros s; [done|done|]. apply IH. Qed.

Lemma exec_zoom {S S' A} (get : S -> S') (set : S' -> S -> S) (q : prog S' A) s :
  (forall s, set (get s) s = s) -> (forall x s, get (set x s) = x) ->
  (forall x y s, set x (set y s) = set x s) ->
  exec (zoom get set q) s = ((exec q (get s)).1, set (exec q (get s)).2 s).
Proof.
  intros Hid Hget Hset. revert s. induction q as [r|f k IH]; intros s; simpl; [by rewrite Hid|].
  by rewrite IH, Hget, Hset.
Qed.

(** The value and the state of a one-step operation that does not panic. *)
Definition agrees {S A} (q : prog S A) (o : outcome (A * S)) (s : S) : Prop :=
  match o with
  | Ret (a, s') => exec q s = (Ret a, s')
  | Panic => (exec q s).1 = Panic
  end.

(** * Several tasks *)

Module Tasks.

(** The shared state and what is left of the program of every task. *)
Record pool {S T : Type} := mkPool { p_state : S; p_tasks : list (prog S T) }.
Arguments pool : clear implicits.
Arguments mkPool {S T}.

(** One critical section of one task; a new task starts. *)
Inductive step {S T : Type} (programs : prog S T -> Prop) : pool S T -> pool S T -> Prop :=
| step_crit w i f k :
    p_tasks w !! i = Some (Crit f k) ->
    step programs w (mkPool (f (p_state w)) (<[i := k (p_state w)]> (p_tasks w)))
| step_spawn w q : programs q -> step programs w (mkPool (p_state w) (p_tasks w ++ [q])).

(** Connections, each of which takes one request after the other, and other
    tasks, of which any number may start. *)
Record service {S T : Type} := mkService {
  s_state : S;
  s_connections : list (prog S T);
  s_others : list (prog S T)
}.
Arguments service : clear implicits.
Arguments mkService {S T}.

Inductive serve {S T : Type} (requests others : prog S T -> Prop) : service S T -> service S T -> Prop :=
| serve_next w i r q :
    s_connections w !! i = Some (Stop r) -> requests q ->
    serve requests others w
      (mkService (s_state w) (<[i := q]> (s_connections w)) (s_others w))
| serve_crit w i f k :
    s_connections w !! i = Some (Crit f k) ->
    serve requests others w
      (mkService (f (s_state w)) (<[i := k (s_state w)]> (s_connections w)) (s_others w))
| serve_spawn w q :
    others q ->
    serve requests others w (mkService (s_state w) (s_connections w) (s_others w ++ [q]))
| serve_other w i f k :
    s_others w !! i = Some (Crit f k) ->
    serve requests others w
      (mkService (f (s_state w)) (s_connections w) (<[i := k (s_state w)]> (s_others w))).

(** A schedule: which task runs its next critical section. *)
Definition turn {S T} (i : nat) (w : pool S T) : pool S T :=
  match p_tasks w !! i with
  | Some (Crit f k) => mkPool (f (p_state w)) (<[i := k (p_state w)]> (p_tasks w))
  | _ => w
  end.

Definition schedule {S T} (turns : list nat) (w : pool S T) : pool S T :=
  foldl (fun w i => turn i w) w turns.

Lemma schedule_steps {S T} (programs : prog S T -> Prop) turns w :
  rtc (step programs) w (schedule turns w).
Proof.
  revert w. induction turns as [|i turns IH]; intros w; [apply rtc_refl|].
  transitivity (turn i w); [|apply IH]. unfold turn.
  destruct (p_tasks w !! i) as [[r|f k]|] eqn:E; [apply rtc_refl| |apply rtc_refl].
  by apply rtc_once, step_crit.
Qed.

(** Tasks that start one after the other. *)
Lemma spawn_all {S T} (programs : prog S T -> Prop) s qs :
  Forall programs qs -> rtc (step programs) (mkPool s []) (mkPool s qs).
Proof.
  intros Hq. induction qs as [|q qs IH] using rev_ind; [apply rtc_refl|].
  apply Forall_app in Hq as [Hqs [Hq _]%Forall_cons].
  eapply rtc_r; [by apply IH|]. by apply (step_spawn programs (mkPool s qs)).
Qed.

Lemma step_mono {S T} (P Q : prog S T -> Prop) w w' :
  (forall q, P q -> Q q) -> rtc (step P) w w' -> rtc (step Q) w w'.
Proof.
  intros HPQ. induction 1 as [|w1 w2 w3 Hs _ IH]; [apply rtc_refl|]. eapply rtc_l; [|exact IH].
  destruct Hs; [by apply step_crit|]. by apply step_spawn, HPQ.
Qed.

(** One critical section of a task in a pool that is spelled out. *)
Lemma crit_at {S T} (programs : prog S T -> Prop) s l i f k s' l' :
  l !! i = Some (Crit f k) -> f s = s' -> l' = <[i := k s]> l ->
  step programs (mkPool s l) (mkPool s' l').
Proof. intros Hi <- ->. by apply (step_crit programs (mkPool s l) i f k). Qed.

(** A task that runs alone does what its program does. *)
Lemma solo {S T} (programs : prog S T -> Prop) s l i q r s' :
  l !! i = Some q -> exec q s = (r, s') ->
  rtc (step programs) (mkPool s l) (mkPool s' (<[i := Stop r]> l)).
Proof.
  revert s l. induction q as [r'|f k IH]; intros s l Hi; simpl.
  - intros [= <- <-]. rewrite list_insert_id by done. apply rtc_refl.
  - intros He. eapply rtc_l; [by eapply crit_at|].
    specialize (IH s (f s) (<[i := k s]> l)). rewrite list_insert_insert_eq in IH.
    apply IH; [|done]. apply list_lookup_insert_eq. by eapply lookup_lt_Some.
Qed.

Lemma solo_at {S T} (programs : prog S T -> Prop) s l i q r s' l' :
  l !! i = Some q -> exec q s = (r, s') -> l' = <[i := Stop r]> l ->
  rtc (step programs) (mkPool s l) (mkPool s' l').
Proof. intros Hi He ->. by apply (solo programs s l i q r s'). Qed.

End Tasks.

(** * Invariants of the state *)

(** Every critical section of the program keeps [I]. *)
Fixpoint keeps {S A} (I : S -> Prop) (q : prog S A) : Prop :=
  match q with
  | Stop _ => True
  | Crit f k => forall s, I s -> I (f s) /\ keeps I (k s)
  end.

Lemma keeps_bind {S A B} I (g : A -> prog S B) q :
  keeps I q -> (forall a, keeps I (g a)) -> keeps I (q ≫= g).
Proof.
  intros Hq Hg. induction q as [[a|]|f k IH]; [apply Hg|done|].
  intros s Hs. destruct (Hq s Hs) as [Hf Hk]. split; [done|]. by apply IH.
Qed.

Lemma keeps_locked {S A} I (f : S -> S) (g : S -> outcome A) :
  (forall s, I s -> I (f s)) -> keeps I (locked f g).
Proof. intros Hf s Hs. by split; [apply Hf|]. Qed.

Lemma keeps_zoom {S S' A} I (get : S -> S') (set : S' -> S -> S) (q : prog S' A) :
  (forall x s, I s -> I (set x s)) -> keeps I (zoom get set q).
Proof.
  intros Hset. induction q as [r|f k IH]; [done|]. intros s Hs.
  split; [by apply Hset|apply IH].
Qed.

Lemma steps_keep {S T} (I : S -> Prop) (programs : prog S T -> Prop) w w' :
  (forall q, programs q -> keeps I q) ->
  rtc (Tasks.step programs) w w' ->
  I (Tasks.p_state w) -> Forall (keeps I) (Tasks.p_tasks w) -> I (Tasks.p_state w').
Proof.
  intros Hp Hr. induction Hr as [|w1 w2 w3 Hs _ IH]; [done|]. intros Hi Hq.
  destruct Hs as [w i f k Hl|w q Hq']; simpl in *.
  - destruct (Forall_lookup_1 _ _ _ _ Hq Hl _ Hi) as [Hf Hk].
    apply IH; [done|]. by apply Forall_insert.
  - apply IH; [done|]. apply Forall_app. split; [done|]. apply Forall_singleton. by apply Hp.
Qed.

(** * Results *)

(** Every result of the program satisfies [P]. *)
Fixpoint returns {S A} (P : outcome A -> Prop) (q : prog S A) : Prop :=
  match q with
  | Stop r => P r
  | Crit f k => forall s, returns P (k s)
  end.

Lemma returns_bind {S A B} P (g : A -> prog S B) q :
  P Panic -> returns (fun r => match r with Ret a => returns P (g a) | Panic => True end) q ->
  returns P (q ≫= g).
Proof. intros Hp. induction q as [[a|]|f k IH]; [done|done|]. intros Hq s. by apply IH. Qed.

Lemma returns_all {S A} (P : outcome A -> Prop) (q : prog S A) : (forall r, P r) -> returns P q.
Proof. intros HP. induction q as [r|f k IH]; [apply HP|]. intros s. apply IH. Qed.

Lemma returns_zoom {S S' A} P (get : S -> S') (set : S' -> S -> S) (q : prog S' A) :
  returns P q -> returns P (zoom get set q).
Proof. induction q as [r|f k IH]; [done|]. intros Hq s. by apply IH. Qed.

Lemma steps_return {S T} (P : outcome T -> Prop) (programs : prog S T -> Prop) w w' :
  (forall q, programs q -> returns P q) ->
  rtc (Tasks.step programs) w w' ->
  Forall (returns P) (Tasks.p_tasks w) -> Forall (returns P) (Tasks.p_tasks w').
Proof.
  intros Hp Hr. induction Hr as [|w1 w2 w3 Hs _ IH]; [done|]. intros Hq. apply IH.
  destruct Hs as [w i f k Hl|w q Hq']; simpl.
  - apply Forall_insert; [done|]. exact (Forall_lookup_1 _ _ _ _ Hq Hl _).
  - apply Forall_app. split; [done|]. apply Forall_singleton. by apply Hp.
Qed.

Lemma rtc_keeps {S} (P : S -> Prop) s s' : rtc (fun x y => P x -> P y) s s' -> P s -> P s'.
Proof. induction 1; auto. Qed.

(** * What every section does

    Every critical section of the program takes a state to one that [R] relates
    to it. *)

Section Moves.
Context {S : Type} (R : S -> S -> Prop).

Fixpoint moves {A} (q : prog S A) : Prop :=
  match q with
  | Stop _ => True
  | Crit f k => forall s, R s (f s) /\ moves (k s)
  end.

Lemma moves_bind {A B} (g : A -> prog S B) q : moves q -> (forall a, moves (g a)) -> moves (q ≫= g).
Proof.
  intros Hq Hg. induction q as [[a|]|f k IH]; [apply Hg|done|].
  intros s. destruct (Hq s) as [Hf Hk]. split; [done|]. by apply IH.
Qed.

Lemma moves_zoom {S' A} (get : S -> S') (set : S' -> S -> S) (q : prog S' A) :
  (forall x s, R s (set x s)) -> moves (zoom get set q).
Proof. intros Hm. induction q as [r|f k IH]; [done|]. intros s. split; [done|apply IH]. Qed.

Lemma moves_locked {A} (f : S -> S) (g : S -> outcome A) : (forall s, R s (f s)) -> moves (locked f g).
Proof. intros Hf s. split; [apply Hf|done]. Qed.

Lemma moves_steps {T} (programs : prog S T -> Prop) w w' :
  (forall q, programs q -> moves q) -> rtc (Tasks.step programs) w w' ->
  Forall moves (Tasks.p_tasks w) -> rtc R (Tasks.p_state w) (Tasks.p_state w').
Proof.
  intros Hp Hr. induction Hr as [|w1 w2 w3 Hs _ IH]; [done|]. intros Hq.
  destruct Hs as [w i f k Hl|w q Hq']; simpl in *.
  - destruct (Forall_lookup_1 _ _ _ _ Hq Hl (Tasks.p_state w)) as [Hf Hk].
    eapply rtc_l; [exact Hf|]. apply IH. by apply Forall_insert.
  - apply IH. apply Forall_app. split; [done|]. apply Forall_singleton. by apply Hp.
Qed.

End Moves.

(** A program on a part of the state, every section of which keeps [R']. *)
Lemma moves_zoom_part {S S' A} (R : S -> S -> Prop) (R' : S' -> S' -> Prop)
    (get : S -> S') (set : S' -> S -> S) (q : prog S' A) :
  moves R' q -> (forall x s, R' (get s) x -> R s (set x s)) -> moves R (zoom get set q).
Proof.
  intros Hq Hm. induction q as [r|f k IH]; [done|]. intros s. destruct (Hq (get s)) as [Hf Hk].
  split; [by apply Hm|by apply IH].
Qed.

(** * What the others leave true

    [R] bounds what the other tasks do between two sections of this one. The
    program, about to go on in the state [s], ends with [Q] however often the
    others move in between, and the others do not undo [Q]. *)

Section Relies.
Context {S : Type} (R : S -> S -> Prop) `{!PreOrder R}.

Fixpoint upholds {A} (Q : outcome A -> S -> Prop) (q : prog S A) (s : S) : Prop :=
  match q with
  | Stop r => forall s', R s s' -> Q r s'
  | Crit f k => forall s', R s s' -> upholds Q (k s') (f s')
  end.

Lemma upholds_later {A} Q (q : prog S A) s s' : R s s' -> upholds Q q s -> upholds Q q s'.
Proof. intros Hs. destruct q; intros Hq s2 Hs2; apply Hq; by transitivity s'. Qed.

Lemma upholds_bind {A B} Q (g : A -> prog S B) q s :
  upholds (fun r s => match r with Ret a => upholds Q (g a) s | Panic => Q Panic s end) q s ->
  upholds Q (q ≫= g) s.
Proof.
  revert s. induction q as [[a|]|f k IH]; intros s Hq; [by apply Hq|done|].
  intros s' Hs. by apply IH, Hq.
Qed.

Lemma upholds_mono {A} (Q Q' : outcome A -> S -> Prop) q s :
  (forall r s, Q r s -> Q' r s) -> upholds Q q s -> upholds Q' q s.
Proof.
  intros HQ. revert s. induction q as [r|f k IH]; intros s Hq s' Hs; [by apply HQ, Hq|].
  by apply IH, Hq.
Qed.

(** In a pool whose other tasks keep to [R], a task upholds what it upholds
    alone. *)
Definition guarded {T} (i : nat) (Q : outcome T -> S -> Prop) (w : Tasks.pool S T) : Prop :=
  (exists q, Tasks.p_tasks w !! i = Some q /\ upholds Q q (Tasks.p_state w))
  /\ forall j q, Tasks.p_tasks w !! j = Some q -> j <> i -> moves R q.

Lemma guarded_step {T} i (Q : outcome T -> S -> Prop) programs w w' :
  (forall q, programs q -> moves R q) ->
  Tasks.step programs w w' -> guarded i Q w -> guarded i Q w'.
Proof.
  intros Hp Hs [(q & Hq & Hu) Ho]. destruct Hs as [w j f k Hj|w q' Hq']; unfold guarded; simpl.
  - destruct (decide (j = i)) as [->|Hne].
    + rewrite Hj in Hq. injection Hq as <-. split.
      * eexists. split; [apply list_lookup_insert_eq; by eapply lookup_lt_Some|]. by apply Hu.
      * intros j q0 Hq0 Hne. rewrite list_lookup_insert_ne in Hq0 by done. by apply (Ho j).
    + destruct (Ho j _ Hj Hne (Tasks.p_state w)) as [Hf Hk]. split.
      * exists q. split; [by rewrite list_lookup_insert_ne|]. by eapply upholds_later.
      * intros j' q0 Hq0 Hne'. apply list_lookup_insert_Some in Hq0 as [(<- & <- & _)|[_ Hq0]];
          [done|by apply (Ho j')].
  - split.
    + exists q. split; [|done]. by apply lookup_app_l_Some.
    + intros j q0 [Hq0|[_ Hq0]]%lookup_app_Some Hne; [by apply (Ho j)|].
      apply list_lookup_singleton_Some in Hq0 as [_ <-]. by apply Hp.
Qed.

Lemma guarded_steps {T} i (Q : outcome T -> S -> Prop) programs w w' :
  (forall q, programs q -> moves R q) ->
  rtc (Tasks.step programs) w w' -> guarded i Q w -> guarded i Q w'.
Proof. intros Hp. induction 1; eauto using guarded_step. Qed.

Lemma guarded_start {T} (Q : outcome T -> S -> Prop) q s :
  upholds Q q s -> guarded 0 Q (Tasks.mkPool s [q]).
Proof. intros Hu. split; [by exists q|]. by intros [|j] q0. Qed.

End Relies.

(** * Accounting

    A measure [m] of the shared state, in states where [G] holds, and the
    balance of every task: a critical section may only raise the measure by
    what it takes off its task's balance. A task that still runs has at least
    [lo], one that has stopped with [r] a balance [v] such that [ok v r]. *)

Section Accounts.
Context {S : Type} (G : S -> Prop) (m : S -> Z) (lo : Z).

Fixpoint pays {A} (ok : Z -> outcome A -> Prop) (v : Z) (q : prog S A) : Prop :=
  match q with
  | Stop r => ok v r
  | Crit f k => lo <= v /\ forall s, G s -> exists v', m (f s) + v' <= m s + v /\ pays ok v' (k s)
  end.

Lemma pays_bind {A B} (ok : Z -> outcome B -> Prop) v (g : A -> prog S B) q :
  pays (fun v r => match r with Ret a => pays ok v (g a) | Panic => ok v Panic end) v q ->
  pays ok v (q ≫= g).
Proof.
  revert v. induction q as [[a|]|f k IH]; intros v; [done|done|]. intros [Hv Hq].
  split; [done|]. intros s Hs. destruct (Hq s Hs) as (v' & Hm & Hk). exists v'.
  split; [done|]. by apply IH.
Qed.

Lemma pays_mono {A} (ok ok' : Z -> outcome A -> Prop) v (q : prog S A) :
  (forall v r, ok v r -> ok' v r) -> pays ok v q -> pays ok' v q.
Proof.
  intros Hok. revert v. induction q as [r|f k IH]; intros v; [apply Hok|].
  intros [Hv Hq]. split; [done|]. intros s Hs. destruct (Hq s Hs) as (v' & Hm & Hk).
  exists v'. split; [done|]. by apply IH.
Qed.

(** A section that does not raise the measure. *)
Definition not_raised (s s' : S) : Prop := G s -> m s' <= m s.

Lemma pays_unraised {A} (ok : Z -> outcome A -> Prop) v (q : prog S A) :
  moves not_raised q -> lo <= v -> returns (ok v) q -> pays ok v q.
Proof.
  intros Hq Hv. induction q as [r|f k IH]; [done|]. intros Hr. split; [done|]. intros s Hs.
  destruct (Hq s) as [Hf Hk]. exists v. split; [specialize (Hf Hs); lia|]. by apply IH.
Qed.

Lemma pays_locked {A} (ok : Z -> outcome A -> Prop) v (f : S -> S) (g : S -> outcome A) :
  lo <= v -> (forall s, G s -> exists v', m (f s) + v' <= m s + v /\ ok v' (g s)) ->
  pays ok v (locked f g).
Proof. done. Qed.

(** The accounts of all tasks. *)
Definition account {T} (ok : Z -> outcome T -> Prop) (m0 : Z) (w : Tasks.pool S T) : Prop :=
  exists vs, Forall2 (pays ok) vs (Tasks.p_tasks w) /\ m (Tasks.p_state w) + sum_Z vs <= m0.

Lemma account_step {T} (ok : Z -> outcome T -> Prop) m0 (programs : prog S T -> Prop) w w' :
  (forall q, programs q -> pays ok 0 q) -> G (Tasks.p_state w) ->
  Tasks.step programs w w' -> account ok m0 w -> account ok m0 w'.
Proof.
  intros Hp HG Hs (vs & Hf & Hm). destruct Hs as [w i f k Hl|w q Hq]; simpl in *.
  - destruct (Forall2_lookup_r _ _ _ _ _ Hf Hl) as (v & Hv & _ & Hk).
    destruct (Hk _ HG) as (v' & Hm' & Hk'). exists (<[i := v']> vs).
    split; [by apply Forall2_insert|]. simpl. rewrite (sum_Z_insert _ i v) by done. lia.
  - exists (vs ++ [0]). split; [|simpl; rewrite sum_Z_app; cbn; lia].
    apply Forall2_app; [done|]. constructor; [by apply Hp|constructor].
Qed.

Lemma account_start {T} (ok : Z -> outcome T -> Prop) s : account ok (m s) (Tasks.mkPool s []).
Proof. exists []. split; [constructor|simpl; lia]. Qed.

(** The values of all results are covered, if a running task may count for
    nothing. *)
Definition value {T} (val : outcome T -> Z) (q : prog S T) : Z :=
  match q with Stop r => val r | Crit _ _ => 0 end.

Lemma account_total {T} (ok : Z -> outcome T -> Prop) (val : outcome T -> Z) m0 w :
  0 <= lo -> (forall v r, ok v r -> val r <= v) -> account ok m0 w ->
  m (Tasks.p_state w) + sum_Z (value val <$> Tasks.p_tasks w) <= m0.
Proof.
  intros Hlo Hok (vs & Hf & Hm).
  enough (sum_Z (value val <$> Tasks.p_tasks w) <= sum_Z vs) by lia.
  clear Hm. induction Hf as [|v q vs qs Hq _ IH]; [done|].
  rewrite fmap_cons, !sum_Z_cons. destruct q as [r|f k]; simpl in *; [apply Hok in Hq|]; lia.
Qed.

End Accounts.
