(* ===== verification/Locks.v ===== *)
(** The supervisor lock by lock: src/src/supervisor/kernel.rs on several tasks.

    Supervisor.v treats each operation as one step. Here an operation is a
    program whose steps are its critical sections: the children and the cached
    health are behind two locks, a state update releases the first before it
    handles a failure and again before it refreshes the health, and reading the
    health is a refresh (a snapshot, then a write) followed by a read. The
    programs are proved to do, when nothing comes in between, what the
    definitions of Supervisor.v do; the relations of Sections.v interleave
    them. *)

From S2P Require Import Prelude F64 Sections Supervisor.

(** A program on the supervisor. *)
Abbreviation sup_prog := (prog KernelSupervisor) (only parsing).

Module SupervisorProg.
Section Ops.
Context `{HashOrder} `{BuildProfile}.

(** The children are read under one lock, the health is written under the
    other. *)
Definition refresh_health (now : Instant) : sup_prog unit :=
  process_healths ← locked id
    (fun s => Ret (Supervisor.process_health now <$> hm_values (children s)));
  locked (fun s => mkSupervisor (children s) (kernel_start s)
            (Health.compute process_healths (kernel_start s) now))
    (fun _ => Ret tt).

Definition register (now t_health : Instant) (id : ProcessId) (policy : RestartPolicy)
    : sup_prog unit :=
  locked (fun s => mkSupervisor
            (<[id := mkChild id Starting (RestartTracker.new policy) now None]> (children s))
            (kernel_start s) (health_state s)) (fun _ => Ret tt);;
  refresh_health t_health.

(** One critical section. *)
Definition handle_failure (t_restart t_started : Instant) (id : ProcessId)
    : sup_prog (result SupervisorError unit) :=
  locked
    (fun s => match Supervisor.handle_failure t_restart t_started id s with
              | Ret (_, s') => s'
              | Panic => s
              end)
    (fun s => '(r, _) ← Supervisor.handle_failure t_restart t_started id s; Ret r).

(** The first critical section of [update_state]: the check of the transition
    and the new state. *)
Definition set_state (id : ProcessId) (state : ProcessState) (s : KernelSupervisor)
    : result SupervisorError KernelSupervisor :=
  match children s !! id with
  | None => Err (ProcessNotFound id)
  | Some h =>
    if bool_decide (ch_state h = Stopped) && bool_decide (state = Running) then
      Err (InvalidTransition id (display_state (ch_state h)) (display_state state))
    else
      let tracker := if bool_decide (state = Running)
                     then RestartTracker.reset (restart_tracker h) else restart_tracker h in
      Ok (mkSupervisor
        (<[id := mkChild (ch_id h) state tracker (started_at h) (ch_pid h)]> (children s))
        (kernel_start s) (health_state s))
  end.

Definition update_state (t_restart t_started t_health : Instant) (id : ProcessId)
    (state : ProcessState) : sup_prog (result SupervisorError unit) :=
  r ← locked (fun s => match set_state id state s with Ok s' => s' | Err _ => s end)
        (fun s => Ret (match set_state id state s with Ok _ => Ok tt | Err e => Err e end));
  match r with
  | Err e => mret (Err e)
  | Ok _ =>
    r ← (if bool_decide (state = SFailed) then handle_failure t_restart t_started id
         else mret (Ok tt));
    match r with
    | Err e => mret (Err e)
    | Ok _ => refresh_health t_health;; mret (Ok tt)
    end
  end.

Definition health (t_health : Instant) : sup_prog HealthStatus :=
  refresh_health t_health;;
  locked id (fun s => Ret (health_state s)).

Definition all_healthy : sup_prog bool := locked id (fun s => Ret (Supervisor.all_healthy s)).

End Ops.
End SupervisorProg.

(** * Without interleaving, the programs are the operations of Supervisor.v *)

Section Sequential.
Context `{HashOrder} `{BuildProfile}.

Lemma exec_refresh now s :
  exec (SupervisorProg.refresh_health now) s = (Ret tt, Supervisor.refresh_health now s).
Proof. done. Qed.

Lemma exec_update_state t1 t2 t3 id st s :
  agrees (SupervisorProg.update_state t1 t2 t3 id st)
    (Supervisor.update_state t1 t2 t3 id st s) s.
Proof.
  unfold SupervisorProg.update_state, Supervisor.update_state.
  assert (Hset : forall g : result SupervisorError unit -> sup_prog (result SupervisorError unit),
    exec (locked (fun s => match SupervisorProg.set_state id st s with Ok s' => s' | Err _ => s end)
      (fun s => Ret (match SupervisorProg.set_state id st s with Ok _ => Ok tt | Err e => Err e end))
      ≫= g) s
    = match SupervisorProg.set_state id st s with
      | Ok s' => exec (g (Ok tt)) s'
      | Err e => exec (g (Err e)) s
      end).
  { intros g. rewrite sections_bind. unfold locked. cbn [exec].
    by destruct (SupervisorProg.set_state id st s). }
  unfold agrees. rewrite !Hset. clear Hset. unfold SupervisorProg.set_state.
  destruct (children s !! id) as [h|]; [|done].
  destruct (bool_decide (ch_state h = Stopped) && bool_decide (st = Running)); [done|].
  set (s1 := mkSupervisor _ _ _). destruct (bool_decide (st = SFailed)).
  - rewrite !sections_bind. unfold SupervisorProg.handle_failure, locked. cbn [exec].
    by destruct (Supervisor.handle_failure t1 t2 id s1) as [[[u|e] s2]|].
  - done.
Qed.

End Sequential.

(** The programs of the supervisor, with policies whose limits fit their type. *)
Inductive operation `{HashOrder} `{BuildProfile} : sup_prog unit -> Prop :=
| op_register t1 t2 id policy :
    in_u 32 (max_restarts policy) -> operation (SupervisorProg.register t1 t2 id policy)
| op_update t1 t2 t3 id st :
    operation (SupervisorProg.update_state t1 t2 t3 id st;; mret tt)
| op_health t : operation (SupervisorProg.health t;; mret tt)
| op_all_healthy : operation (SupervisorProg.all_healthy;; mret tt).

(** * The restart limit under interleaving *)

Section Limit.
Context `{HashOrder} `{BuildProfile}.

Definition tracker_ok (t : RestartTracker) : Prop :=
  in_u 32 (max_restarts (rt_policy t))
  /\ Z.of_nat (length (restart_times t)) <= max_restarts (rt_policy t).

(** Every child is under its own name, with no more restarts on record than
    its policy allows. *)
Definition sup_ok (s : KernelSupervisor) : Prop :=
  forall id h, children s !! id = Some h -> ch_id h = id /\ tracker_ok (restart_tracker h).

Lemma sup_ok_insert s id h hs t :
  sup_ok s -> ch_id h = id -> tracker_ok (restart_tracker h) ->
  sup_ok (mkSupervisor (<[id := h]> (children s)) t hs).
Proof.
  intros Hs Hid Ht j h'. simpl. rewrite lookup_insert_Some.
  intros [[<- <-]|[_ Hj]]; [done|by apply Hs].
Qed.

Lemma record_restart_ok now t r t' :
  tracker_ok t -> RestartTracker.record_restart now t = Ret (r, t') -> tracker_ok t'.
Proof.
  intros [Hm Hl]. unfold RestartTracker.record_restart.
  destruct (instant_sub _ _) as [cutoff|]; [|done]. rewrite bind_Ret. cbv zeta.
  assert (Hf : (length (List.filter (fun x => (cutoff <=? x)%Z) (restart_times t))
    <= length (restart_times t))%nat) by apply List.filter_length_le.
  unfold RestartTracker.restart_count. cbn [restart_times rt_policy rt_consecutive_failures].
  rewrite cast_u_id by (unfold in_u in *; lia).
  destruct (max_restarts (rt_policy t) <=? _) eqn:E; split_bools.
  - intros [= <- <-]. split; [done|]. simpl. lia.
  - destruct (add_u 32 _ 1) as [n|]; [|done]. rewrite bind_Ret. intros [= <- <-].
    split; [done|]. simpl. rewrite length_app. simpl. lia.
Qed.

Lemma handle_failure_keeps t1 t2 id s r s' :
  sup_ok s -> Supervisor.handle_failure t1 t2 id s = Ret (r, s') -> sup_ok s'.
Proof.
  intros Hs. unfold Supervisor.handle_failure.
  destruct (children s !! id) as [h|] eqn:Hh; [|by intros [= <- <-]].
  destruct (Hs id h Hh) as [Hid Ht].
  destruct (RestartTracker.record_restart t1 (restart_tracker h)) as [[rr t]|] eqn:Hr; [|done].
  apply record_restart_ok in Hr; [|done]. rewrite bind_Ret.
  destruct rr; intros [= <- <-]; by apply sup_ok_insert.
Qed.

Lemma refresh_keeps t : keeps sup_ok (SupervisorProg.refresh_health t).
Proof. intros s Hs. split; [done|]. by apply keeps_locked. Qed.

Lemma update_keeps t1 t2 t3 id st : keeps sup_ok (SupervisorProg.update_state t1 t2 t3 id st).
Proof.
  apply keeps_bind.
  - apply keeps_locked. intros s Hs. unfold SupervisorProg.set_state.
    destruct (children s !! id) as [h|] eqn:Hh; [|done]. destruct (_ && _); [done|].
    destruct (Hs id h Hh) as [Hid Ht]. apply sup_ok_insert; [done..|]. simpl.
    destruct (bool_decide (st = Running)); [|done].
    destruct Ht as [Hm Hl]. split; [done|]. unfold in_u in Hm. simpl. lia.
  - intros [u|e]; [|done]. apply keeps_bind.
    + destruct (bool_decide (st = SFailed)); [|done]. apply keeps_locked. intros s Hs.
      destruct (Supervisor.handle_failure t1 t2 id s) as [[r s']|] eqn:Hf; [|done].
      by eapply handle_failure_keeps.
    + intros [u'|e]; [|done]. apply keeps_bind; [apply refresh_keeps|done].
Qed.

Lemma operation_keeps q : operation q -> keeps sup_ok q.
Proof.
  intros [t1 t2 id policy Hp|t1 t2 t3 id st|t|].
  - apply keeps_bind; [|intros _; apply refresh_keeps]. apply keeps_locked. intros s Hs.
    apply sup_ok_insert; [done..|]. split; [done|]. unfold in_u in Hp. simpl. lia.
  - apply keeps_bind; [apply update_keeps|done].
  - apply keeps_bind; [|done]. apply keeps_bind; [apply refresh_keeps|].
    intros _. by apply keeps_locked.
  - apply keeps_bind; [|done]. by apply keeps_locked.
Qed.

(** C21. The restart limit holds however the critical sections of any number of
    tasks interleave: in every reachable state every process is registered
    under its own name, and has no more restarts on record than its policy
    allows. *)
Theorem restart_limit_concurrent now w :
  rtc (Tasks.step operation) (Tasks.mkPool (Supervisor.new now) []) w ->
  forall id h, children (Tasks.p_state w) !! id = Some h ->
    ch_id h = id
    /\ Z.of_nat (length (restart_times (restart_tracker h)))
       <= max_restarts (rt_policy (restart_tracker h)).
Proof.
  intros Hr id h Hh.
  assert (Hok : sup_ok (Tasks.p_state w)).
  { eapply (steps_keep sup_ok operation); [apply operation_keeps|done| |done].
    intros j h' Hj. simpl in Hj. by rewrite lookup_empty in Hj. }
  destruct (Hok id h Hh) as [Hid [_ Hl]]. done.
Qed.

(** The operations of the supervisor, taken apart into their critical
    sections, do what their one-step definitions do whenever no other task
    runs in between: same answers (or panic), same children, same health. *)
Theorem critical_sections_agree s :
  (forall t1 t2 id policy, exec (SupervisorProg.register t1 t2 id policy) s
     = (Ret tt, Supervisor.register t1 t2 id policy s))
  /\ (forall t1 t2 t3 id st, agrees (SupervisorProg.update_state t1 t2 t3 id st)
       (Supervisor.update_state t1 t2 t3 id st s) s)
  /\ (forall t, exec (SupervisorProg.health t) s
       = (Ret (Supervisor.health t s).1, (Supervisor.health t s).2))
  /\ exec SupervisorProg.all_healthy s = (Ret (Supervisor.all_healthy s), s).
Proof.
  split_and!; [done| |done|done]. intros t1 t2 t3 id st. apply exec_update_state.
Qed.

End Limit.

(** * Two races *)

Module Races.
Section Races.
Context `{HashOrder} `{BuildProfile} (now : Instant).

(** The tasks report the health they read, or the result of their update. *)
Inductive report := RHealth (h : HealthStatus) | RUpdate (r : result SupervisorError unit).

Definition read_health : sup_prog report := h ← SupervisorProg.health now; mret (RHealth h).

Definition update (id : ProcessId) (st : ProcessState) : sup_prog report :=
  r ← SupervisorProg.update_state now now now id st; mret (RUpdate r).

Definition snapshot (s : KernelSupervisor) : list ProcessHealth :=
  Supervisor.process_health now <$> hm_values (children s).

Definition write_health (l : list ProcessHealth) (s : KernelSupervisor) : KernelSupervisor :=
  mkSupervisor (children s) (kernel_start s) (Health.compute l (kernel_start s) now).

(** What is left of a reader after its snapshot, and after its write. *)
Definition reading (l : list ProcessHealth) : sup_prog report :=
  Crit (write_health l) (fun _ => Crit id (fun s => Stop (Ret (RHealth (health_state s))))).

Definition last_read : sup_prog report := Crit id (fun s => Stop (Ret (RHealth (health_state s)))).

Definition process_state (s : KernelSupervisor) (p : ProcessId) : option ProcessState :=
  ch_state <$> children s !! p.

Definition with_state (st : ProcessState) (h : ChildHandle) : ChildHandle :=
  mkChild (ch_id h) st (restart_tracker h) (started_at h) (ch_pid h).

(** What is left of an update after its first critical section. *)
Definition updating (p : ProcessId) (st : ProcessState) : sup_prog report :=
  r ← (r ← (if bool_decide (st = SFailed) then SupervisorProg.handle_failure now now p
            else mret (Ok tt));
       match r with
       | Err e => mret (Err e)
       | Ok _ => SupervisorProg.refresh_health now;; mret (Ok tt)
       end);
  mret (RUpdate r).

Lemma read_health_sections : read_health = Crit id (fun s => reading (snapshot s)).
Proof. done. Qed.

End Races.
End Races.

Section RacesProofs.
Import Races.
Context `{HashOrder} `{BuildProfile}.

Lemma update_first now p st s h :
  children s !! p = Some h -> st <> Running ->
  exists f k, update now p st = Crit f k /\ k s = updating now p st
    /\ f s = mkSupervisor (<[p := with_state st h]> (children s)) (kernel_start s)
               (health_state s).
Proof.
  intros Hh Hst. eexists _, _. split; [reflexivity|]. unfold SupervisorProg.set_state.
  cbn [bind_prog]. unfold id. rewrite Hh, (bool_decide_eq_false_2 (st = Running)), andb_false_r by done.
  done.
Qed.

(** A stop that runs alone. *)
Lemma stop_alone now p h s :
  children s !! p = Some h ->
  exists s', exec (update now p Stopped) s = (Ret (RUpdate (Ok tt)), s')
    /\ children s' !! p = Some (with_state Stopped h).
Proof.
  intros Hh. destruct (update_first now p Stopped s h Hh) as (f & k & -> & Hk & Hf); [done|].
  cbn [exec]. rewrite Hk, Hf. eexists. split; [reflexivity|]. simpl. by rewrite lookup_insert_eq.
Qed.

(** The health can be older than the question. Whenever a process runs, a
    task that asks for the health after the update of that process to Stopped
    has returned can be told that it is Running (and that the kernel is
    healthy, if all were running): the answer is read from a cache that another
    reader can fill with an older snapshot. *)
Theorem health_can_be_stale now p h s :
  children s !! p = Some h -> ch_state h = Running ->
  exists w, rtc (Tasks.step (fun _ => False))
      (Tasks.mkPool s [read_health now; update now p Stopped]) w
    /\ Tasks.p_tasks w !! 1%nat = Some (Stop (Ret (RUpdate (Ok tt))))
    /\ process_state (Tasks.p_state w) p = Some Stopped
    /\ exists w' hs, rtc (Tasks.step (fun q => q = read_health now)) w w'
       /\ Tasks.p_tasks w' !! 2%nat = Some (Stop (Ret (RHealth hs)))
       /\ Supervisor.process_health now h ∈ active_processes hs
       /\ (Supervisor.all_healthy s = true -> h_status hs = Healthy)
       /\ process_state (Tasks.p_state w') p = Some Stopped.
Proof.
  intros Hh Hrun. destruct (stop_alone now p h s Hh) as (s1 & He & Hst).
  assert (Hp : process_state s1 p = Some Stopped) by (unfold process_state; by rewrite Hst).
  exists (Tasks.mkPool s1 [reading now (snapshot now s); Stop (Ret (RUpdate (Ok tt)))]).
  split; [|split; [done|split; [done|]]].
  { eapply rtc_l; [by apply (Tasks.step_crit _ _ 0 id (fun s => reading now (snapshot now s)))|].
    by apply (Tasks.solo_at _ _ _ 1 (update now p Stopped) (Ret (RUpdate (Ok tt)))). }
  set (s2 := write_health now (snapshot now s) (write_health now (snapshot now s1) s1)).
  exists (Tasks.mkPool s2 [last_read; Stop (Ret (RUpdate (Ok tt)));
                           Stop (Ret (RHealth (health_state s2)))]), (health_state s2).
  split; [|split; [done|split; [|split; [|done]]]].
  - set (a := reading now (snapshot now s)). set (u := Stop (Ret (RUpdate (Ok tt)))).
    eapply (rtc_l _ _ (Tasks.mkPool s1 [a; u; read_health now])).
    { by apply (Tasks.step_spawn _ (Tasks.mkPool s1 [a; u])). }
    apply (rtc_l _ _ (Tasks.mkPool s1 [a; u; reading now (snapshot now s1)])).
    { by apply (Tasks.crit_at _ _ _ 2 id (fun s => reading now (snapshot now s))). }
    apply (rtc_l _ _ (Tasks.mkPool (write_health now (snapshot now s1) s1) [a; u; last_read])).
    { by eapply (Tasks.crit_at _ _ _ 2). }
    apply (rtc_l _ _ (Tasks.mkPool s2 [last_read; u; last_read])).
    { by eapply (Tasks.crit_at _ _ _ 0). }
    apply rtc_once. by eapply (Tasks.crit_at _ _ _ 2 id).
  - unfold s2. simpl. apply list_elem_of_fmap. exists h. split; [done|].
    apply elem_of_hm_values. by exists p.
  - intros Hall. change (h_status (Supervisor.health now s).1 = Healthy).
    rewrite health_level. apply level_of_spec. apply forallb_running.
    unfold Supervisor.all_healthy in Hall. apply andb_true_iff in Hall as [_ Hall].
    unfold states. by rewrite forallb_fmap.
Qed.

(** A stopped process can be revived. Whenever a restart of a process would
    be granted, a stop of it that falls between the two critical sections of an
    update that reports its failure returns successfully, and the process then
    is Restarting, from where it can run again. *)
Theorem stop_can_be_undone now p h s t d :
  children s !! p = Some h ->
  RestartTracker.record_restart now (restart_tracker h) = Ret (Ok d, t) ->
  exists w, rtc (Tasks.step (fun _ => False))
      (Tasks.mkPool s [update now p SFailed; update now p Stopped]) w
    /\ Tasks.p_tasks w !! 1%nat = Some (Stop (Ret (RUpdate (Ok tt))))
    /\ process_state (Tasks.p_state w) p = Some Stopped
    /\ exists w', rtc (Tasks.step (fun _ => False)) w w'
       /\ Tasks.p_tasks w' !! 0%nat = Some (Stop (Ret (RUpdate (Ok tt))))
       /\ process_state (Tasks.p_state w') p = Some Restarting.
Proof.
  intros Hh Hr. destruct (update_first now p SFailed s h Hh) as (f & k & Hu & Hk & Hf); [done|].
  set (s1 := f s). assert (Hh1 : children s1 !! p = Some (with_state SFailed h))
    by (unfold s1; rewrite Hf; simpl; by rewrite lookup_insert_eq).
  destruct (stop_alone now p _ s1 Hh1) as (s2 & He & Hst).
  exists (Tasks.mkPool s2 [updating now p SFailed; Stop (Ret (RUpdate (Ok tt)))]).
  split; [|split; [done|split; [unfold process_state; simpl; by rewrite Hst|]]].
  { eapply rtc_l; [apply (Tasks.step_crit _ _ 0 f k); by rewrite Hu|]. simpl. rewrite Hk.
    by apply (Tasks.solo_at _ _ _ 1 (update now p Stopped) (Ret (RUpdate (Ok tt)))). }
  assert (exists s3, exec (updating now p SFailed) s2 = (Ret (RUpdate (Ok tt)), s3)
    /\ process_state s3 p = Some Restarting) as (s3 & He3 & Hp3).
  { unfold updating. rewrite (bool_decide_eq_true_2 (SFailed = SFailed)) by done.
    unfold SupervisorProg.handle_failure, locked. rewrite !sections_bind. cbn [exec].
    unfold Supervisor.handle_failure. rewrite Hst. cbn [restart_tracker with_state].
    rewrite Hr, bind_Ret. cbn. eexists. split; [reflexivity|].
    unfold process_state. simpl. by rewrite lookup_insert_eq. }
  exists (Tasks.mkPool s3 [Stop (Ret (RUpdate (Ok tt))); Stop (Ret (RUpdate (Ok tt)))]).
  split; [|by split]. by apply (Tasks.solo_at _ _ _ 0 (updating now p SFailed) (Ret (RUpdate (Ok tt)))).
Qed.

End RacesProofs.

(** * Witnesses *)

Lemma restart_limit_concurrent_witness :
  exists w h, rtc (Tasks.step (@operation std_order debug_profile))
      (Tasks.mkPool (Supervisor.new 0) []) w
    /\ children (Tasks.p_state w) !! Init = Some h
    /\ Z.of_nat (length (restart_times (restart_tracker h)))
       <= max_restarts (rt_policy (restart_tracker h)).
Proof.
  set (q := @SupervisorProg.register std_order 0 0 Init default_policy).
  set (w0 := Tasks.mkPool (Supervisor.new 0) [q]).
  assert (Hr : rtc (Tasks.step (@operation std_order debug_profile))
    (Tasks.mkPool (Supervisor.new 0) []) (Tasks.schedule [0%nat] w0)).
  { eapply rtc_l; [|apply Tasks.schedule_steps].
    apply (Tasks.step_spawn _ (Tasks.mkPool (Supervisor.new 0) []) q).
    apply op_register. by split. }
  exists (Tasks.schedule [0%nat] w0), (mkChild Init Starting (RestartTracker.new default_policy) 0 None).
  split; [exact Hr|]. split; [reflexivity|].
  apply (@restart_limit_concurrent std_order debug_profile 0 (Tasks.schedule [0%nat] w0) Hr Init).
  reflexivity.
Defined.

Lemma health_can_be_stale_witness :
  let h := mkChild Loop1Agentic Running (RestartTracker.new default_policy) 0 None in
  let s := mkSupervisor (<[Loop1Agentic := h]> ∅) 0 (mkHealth Healthy 0 [] None) in
  exists (w : Tasks.pool KernelSupervisor Races.report) hs, Races.process_state (Tasks.p_state w) Loop1Agentic = Some Stopped
    /\ Supervisor.process_health 1 h ∈ active_processes hs /\ h_status hs = Healthy.
Proof.
  intros h s.
  destruct (@health_can_be_stale std_order debug_profile 1 Loop1Agentic h s)
    as (w & _ & _ & _ & w' & hs & _ & _ & Hin & Hall & Hst); [reflexivity|reflexivity|].
  exists w', hs. split; [exact Hst|]. split; [exact Hin|]. apply Hall. reflexivity.
Defined.
