(* ===== verification/Agent.v ===== *)
(** The agents: src/src/agent/ (lifecycle.rs, types.rs, shell.rs,
    claude_cli.rs).

    A subprocess is the business of the operating system and of [tokio]: the
    class [Os] says what comes of a command with its input and its time limit,
    with how long it took. What the agents build from a task, and what they
    make of the outcome, is below. *)

From S2P Require Import Prelude Text F64 Scheduler.

(** * Lifecycle *)

Inductive AgentState := Idle | Busy | Done | Failed.

#[export] Instance AgentState_eq_dec : EqDecision AgentState.
Proof. solve_decision. Defined.

Module AgentState.

Definition can_execute (s : AgentState) : bool := bool_decide (s = Idle).

Definition transition_to_busy (s : AgentState) : result string unit * AgentState :=
  if negb (bool_decide (s = Idle)) then (Err "Can only start from Idle"%string, s)
  else (Ok tt, Busy).

Definition transition_to_done (s : AgentState) : result string unit * AgentState :=
  if negb (bool_decide (s = Busy)) then (Err "Can only complete from Busy"%string, s)
  else (Ok tt, Done).

Definition transition_to_failed (s : AgentState) : result string unit * AgentState :=
  if negb (bool_decide (s = Busy)) then (Err "Can only fail from Busy"%string, s)
  else (Ok tt, Failed).

Definition reset (_ : AgentState) : AgentState := Idle.

End AgentState.

(** * Text of a subprocess *)

Definition lossy_string (l : list Byte.byte) : string :=
  String.string_of_list_byte (Utf8.from_utf8_lossy l).

(** * Subprocesses *)

Record Command := mkCommand {
  program : string;
  args : list string;
  current_dir : option string;
  envs : list (string * string);
  kill_on_drop : bool
}.

Inductive ExitStatus := Exited (code : Z) | Signaled (signal : Z).

(** [ExitStatus::code] and [ExitStatus::success]. *)
Definition status_code (s : ExitStatus) : option Z :=
  match s with Exited code => Some code | Signaled _ => None end.

Definition status_success (s : ExitStatus) : bool :=
  match s with Exited code => code =? 0 | Signaled _ => false end.

(** What can come of a command. *)
Inductive ProcessOutcome :=
| SpawnFailed (e : string)
| WaitFailed (e : string)
| Finished (stdout stderr : list Byte.byte) (status : ExitStatus)
| TimedOut.

Class Os := {
  run_command : Command -> option string -> Duration -> ProcessOutcome * Duration
}.

(** * Agents *)

Record AgentResult := mkResult {
  success : bool;
  ar_output : string;
  ar_error : option string;
  exit_code : option Z;
  duration_secs : f64
}.

(** The trait [AgentType]. *)
Class AgentType (A : Type) := {
  execute : A -> string -> Z -> AgentResult;
  resource_requirements : A -> ResourceRequirements;
  agent_name : A -> string
}.

(** [Duration::as_secs_f64]. *)
Definition as_secs_f64 (d : Duration) : f64 :=
  SpecFloat.SFadd prec emax (of_int (as_secs d))
    (fdiv (of_int (d mod nanos_per_sec)) (of_int nanos_per_sec)).

(** The result of a process that ended by itself. *)
Definition finished_result (stdout stderr : list Byte.byte) (status : ExitStatus)
    (duration : f64) : AgentResult :=
  let stderr := lossy_string stderr in
  mkResult (status_success status) (lossy_string stdout)
    (if str_is_empty stderr then None else Some stderr) (status_code status) duration.

Definition failed_result (error : string) (duration : f64) : AgentResult :=
  mkResult false "" (Some error) None duration.

Record ShellAgent := mkShell { sh_shell : string; sh_cwd : option string }.

Module ShellAgent.

Definition new : ShellAgent := mkShell "/bin/sh" None.
Definition with_shell (shell : string) : ShellAgent := mkShell shell None.
Definition with_cwd (cwd : string) (a : ShellAgent) : ShellAgent :=
  mkShell (sh_shell a) (Some cwd).

Definition command (a : ShellAgent) (task : string) : Command :=
  mkCommand (sh_shell a) ["-c"%string; task] (sh_cwd a) [] true.

Definition execute `{Os} (a : ShellAgent) (task : string) (timeout_secs : Z) : AgentResult :=
  let '(outcome, elapsed) := run_command (command a task) None (from_secs timeout_secs) in
  let duration := as_secs_f64 elapsed in
  match outcome with
  | Finished stdout stderr status => finished_result stdout stderr status duration
  | SpawnFailed e | WaitFailed e =>
    failed_result ("Failed to spawn process: " +:+ e)%string duration
  | TimedOut => failed_result "Process timed out" duration
  end.

End ShellAgent.

Record ClaudeCliAgent := mkClaude {
  claude_bin : string;
  cl_cwd : option string;
  skip_permissions : bool
}.

Module ClaudeCliAgent.

Definition new : ClaudeCliAgent := mkClaude "claude" None false.
Definition with_binary (bin : string) : ClaudeCliAgent := mkClaude bin None false.
Definition with_cwd (cwd : string) (a : ClaudeCliAgent) : ClaudeCliAgent :=
  mkClaude (claude_bin a) (Some cwd) (skip_permissions a).
Definition with_skip_permissions (skip : bool) (a : ClaudeCliAgent) : ClaudeCliAgent :=
  mkClaude (claude_bin a) (cl_cwd a) skip.

Definition command (a : ClaudeCliAgent) : Command :=
  mkCommand (claude_bin a)
    (["-p"; "--output-format"; "text"]%string
     ++ if skip_permissions a then ["--dangerously-skip-permissions"%string] else [])
    (cl_cwd a) [("CLAUDECODE", "")]%string true.

Definition execute `{Os} (a : ClaudeCliAgent) (task : string) (timeout_secs : Z)
    : AgentResult :=
  let '(outcome, elapsed) := run_command (command a) (Some task) (from_secs timeout_secs) in
  let duration := as_secs_f64 elapsed in
  match outcome with
  | SpawnFailed e => failed_result ("Failed to spawn claude process: " +:+ e)%string duration
  | Finished stdout stderr status => finished_result stdout stderr status duration
  | WaitFailed e => failed_result ("Process error: " +:+ e)%string duration
  | TimedOut => failed_result "Claude CLI process timed out" duration
  end.

End ClaudeCliAgent.

#[export] Instance shell_agent `{Os} : AgentType ShellAgent :=
  {| execute := ShellAgent.execute;
     resource_requirements := fun _ => req_shell;
     agent_name := fun _ => "shell"%string |}.

#[export] Instance claude_agent `{Os} : AgentType ClaudeCliAgent :=
  {| execute := ClaudeCliAgent.execute;
     resource_requirements := fun _ => req_claude_cli;
     agent_name := fun _ => "claude_cli"%string |}.

(** * The lifecycle allows one execution *)

Inductive transition := ToBusy | ToDone | ToFailed.

#[export] Instance transition_eq_dec : EqDecision transition.
Proof. solve_decision. Defined.

(** The transitions that end an execution. *)
Definition is_end (t : transition) : bool := match t with ToBusy => false | _ => true end.

Definition attempt (t : transition) (s : AgentState) : result string unit * AgentState :=
  match t with
  | ToBusy => AgentState.transition_to_busy s
  | ToDone => AgentState.transition_to_done s
  | ToFailed => AgentState.transition_to_failed s
  end.

(** The transitions that are granted, in order, and the final state. *)
Fixpoint attempts (l : list transition) (s : AgentState) : list transition * AgentState :=
  match l with
  | [] => ([], s)
  | t :: l =>
    let '(r, s) := attempt t s in
    let '(granted, s) := attempts l s in
    (if is_ok r then t :: granted else granted, s)
  end.

Lemma attempts_final l s :
  s = Done \/ s = Failed -> attempts l s = ([], s).
Proof.
  intros Hs. induction l as [|t l IH]; [done|]. simpl.
  destruct Hs as [-> | ->], t; simpl; by rewrite IH.
Qed.

Lemma attempts_busy l :
  attempts l Busy
  = match List.find is_end l with
    | None => ([], Busy)
    | Some t => ([t], match t with ToDone => Done | _ => Failed end)
    end.
Proof.
  induction l as [|t l IH]; [done|]. destruct t; simpl.
  - rewrite IH. by destruct (List.find is_end l).
  - rewrite attempts_final by (by left). done.
  - rewrite attempts_final by (by right). done.
Qed.

(** An agent executes once. Between two resets, whatever transitions are
    tried in whatever order, an idle agent is granted a start, then at most
    one end: nothing before the first start, one start at most, and after it
    exactly the first completion or failure that is tried. The agent can
    execute again only if nothing was granted. *)
Theorem lifecycle_once (l : list transition) :
  let '(granted, s) := attempts l (AgentState.reset Busy) in
  let ends := List.filter is_end in
  (forall before after, l = before ++ ToBusy :: after -> ToBusy ∉ before ->
     granted = ToBusy :: take 1 (ends after)
     /\ s = match ends after with [] => Busy | ToDone :: _ => Done | _ => Failed end)
  /\ (ToBusy ∉ l -> granted = [] /\ s = Idle)
  /\ (AgentState.can_execute s = true <-> granted = []).
Proof.
  assert (forall l', List.find is_end l'
    = head (List.filter is_end l')) as Hfind.
  { induction l' as [|t l' IH]; [done|]. by destruct t. }
  unfold AgentState.reset. induction l as [|t l IH].
  - simpl. split; [by intros []|split; [done|by split]].
  - destruct t; cbn [attempts attempt AgentState.transition_to_busy AgentState.transition_to_done
      AgentState.transition_to_failed bool_decide decide].
    + simpl. rewrite attempts_busy, Hfind.
      assert (forall before after, ToBusy :: l = before ++ ToBusy :: after ->
        ToBusy ∉ before -> after = l) as Hcut.
      { intros [|t before] after Heq Hn; [by injection Heq|].
        injection Heq as <- _. set_solver. }
      destruct (List.filter _ l) as [|t ends] eqn:Hends; simpl.
      * split; [|set_solver]. intros before after Heq Hn.
        rewrite (Hcut _ _ Heq Hn), Hends. done.
      * split; [|split; [set_solver|by destruct t]]. intros before after Heq Hn.
        rewrite (Hcut _ _ Heq Hn), Hends. simpl. split; [done|].
        assert (t ∈ List.filter is_end l) as Hin
          by (rewrite Hends; set_solver).
        apply elem_of_filter_bool in Hin as [_ Hin]. by destruct t.
    + simpl. destruct (attempts l Idle) as [granted s]. destruct IH as (IH1 & IH2 & IH3).
      split; [|split; [set_solver|done]].
      intros [|t before] after Heq Hn; [done|]. injection Heq as <- Heq.
      apply (IH1 before); [done|set_solver].
    + simpl. destruct (attempts l Idle) as [granted s]. destruct IH as (IH1 & IH2 & IH3).
      split; [|split; [set_solver|done]].
      intros [|t before] after Heq Hn; [done|]. injection Heq as <- Heq.
      apply (IH1 before); [done|set_solver].
Qed.

(** The result of an agent is that of its subprocess. A shell agent passes
    the task to the shell as one argument; a Claude agent runs a command line
    that does not depend on the task and gives the task on the standard input.
    For both, the result is a success exactly when the process ended by itself
    with exit code 0 within the time limit; when it did not end by itself
    there is an error text, no output and no exit code; when it did, the exit
    code is its code, and an output that is UTF-8 is passed on unchanged. *)
Theorem agent_result_exact `{Os} (shell : ShellAgent) (claude : ClaudeCliAgent)
    (task : string) (secs : Z) :
  (program (ShellAgent.command shell task) = sh_shell shell
   /\ args (ShellAgent.command shell task) = ["-c"%string; task])
  /\ (forall outcome elapsed r,
       (r = execute shell task secs
        /\ run_command (ShellAgent.command shell task) None (from_secs secs) = (outcome, elapsed))
       \/ (r = execute claude task secs
           /\ run_command (ClaudeCliAgent.command claude) (Some task) (from_secs secs)
              = (outcome, elapsed)) ->
       (success r = true <-> exists out err, outcome = Finished out err (Exited 0))
       /\ duration_secs r = as_secs_f64 elapsed
       /\ match outcome with
          | Finished out err status =>
            exit_code r = status_code status
            /\ (is_text out -> String.list_byte_of_string (ar_output r) = out)
            /\ (is_text err ->
                ar_error r = if bool_decide (err = []) then None
                             else Some (String.string_of_list_byte err))
          | _ => is_Some (ar_error r) /\ ar_output r = ""%string /\ exit_code r = None
          end).
Proof.
  split; [done|]. intros outcome elapsed r Hr.
  assert (r = match outcome with
    | Finished out err status => finished_result out err status (as_secs_f64 elapsed)
    | _ => failed_result (default "" (ar_error r)) (as_secs_f64 elapsed)
    end) as ->.
  { destruct Hr as [[-> Hrun]|[-> Hrun]]; simpl;
      unfold ShellAgent.execute, ClaudeCliAgent.execute; rewrite Hrun; by destruct outcome. }
  destruct outcome as [e|e|out err status|]; simpl.
  1, 2, 4: split; [split; [done|by intros (? & ? & ?)]|by split].
  split; [|split; [done|split; [done|split]]].
  - destruct status as [code|signal]; simpl.
    + rewrite Z.eqb_eq. split; [intros ->; by eexists _, _|by intros (? & ? & [= _ _ ->])].
    + split; [done|by intros (? & ? & [=])].
  - intros Hout. unfold lossy_string. rewrite from_utf8_lossy_text by done.
    apply String.list_byte_of_string_of_list_byte.
  - intros Herr. unfold lossy_string. rewrite from_utf8_lossy_text by done.
    by destruct err.
Qed.

Example lossy_example :
  Utf8.from_utf8_lossy [Byte.x61; Byte.xf0; Byte.x9f; Byte.x62; Byte.xc3; Byte.xa9]
  = [Byte.x61] ++ Utf8.replacement ++ [Byte.x62; Byte.xc3; Byte.xa9].
Proof. by vm_compute. Qed.
