(* ===== verification/Store.v ===== *)
(** The state store: src/src/store/mod.rs, acl.rs, engine.rs and error.rs.

    The trait [StateStore] is the class of that name, and [StoreSpec] is what an
    implementation promises: the theorems on the access-control guard are
    proved against it, and the SQLite store discharges it. SQLite itself is the
    class [Sql], one operation per statement of the code, with its documented
    behaviour in [SqlLaws]. *)

From Stdlib Require Import Sorting.Sorted.
From stdpp Require Import sorting.
From S2P Require Import Prelude.

Definition bytes : Type := list Byte.byte.

Inductive StoreError :=
| Sqlite (e : string)
| PermissionDenied (identity operation key : string)
| AppendOnly (key : string)
| StoreSerialization (e : string).

(** The [Display] of the errors. *)
Definition display_store_error (e : StoreError) : string :=
  match e with
  | Sqlite e => "SQLite error: " +:+ e
  | PermissionDenied identity operation key =>
    "Permission denied: " +:+ identity +:+ " cannot " +:+ operation +:+ " on key '"
      +:+ key +:+ "'"
  | AppendOnly key => "Append-only key: delete not allowed on '" +:+ key +:+ "'"
  | StoreSerialization e => "Serialization error: " +:+ e
  end.

(** The trait, on a store of type [S]. Writing operations are given the time of
    the call. *)
Class StateStore (S : Type) := {
  ss_put : Instant -> string -> bytes -> S -> outcome (result StoreError unit * S);
  ss_get : string -> S -> result StoreError (option bytes);
  ss_delete : Instant -> string -> S -> outcome (result StoreError unit * S);
  ss_list_keys : string -> S -> result StoreError (list string);
  ss_exists : string -> S -> result StoreError bool
}.

(** What an implementation promises: it behaves like a map, and an operation
    that reports an error changes nothing. *)
Class StoreSpec (S : Type) `{StateStore S} := {
  contents : S -> gmap string bytes;
  store_ok : S -> Prop;
  put_ok now k v s r s' :
    store_ok s -> ss_put now k v s = Ret (r, s') ->
    store_ok s' /\ contents s' = match r with Ok _ => <[k := v]> (contents s)
                                 | Err _ => contents s end;
  delete_ok now k s r s' :
    store_ok s -> ss_delete now k s = Ret (r, s') ->
    store_ok s' /\ contents s' = match r with Ok _ => delete k (contents s)
                                 | Err _ => contents s end;
  get_ok k s o : store_ok s -> ss_get k s = Ok o -> o = contents s !! k;
  exists_ok k s b :
    store_ok s -> ss_exists k s = Ok b -> b = bool_decide (is_Some (contents s !! k))
}.

(** * Access control *)

Inductive ProcessIdentity :=
| IdKernel | MetaLoop | HarnessLoop | AgenticLoop | IdModelAdapter | Human.

#[export] Instance ProcessIdentity_eq_dec : EqDecision ProcessIdentity.
Proof. solve_decision. Defined.

Definition display_identity (i : ProcessIdentity) : string :=
  match i with
  | IdKernel => "Kernel" | MetaLoop => "MetaLoop" | HarnessLoop => "HarnessLoop"
  | AgenticLoop => "AgenticLoop" | IdModelAdapter => "ModelAdapter" | Human => "Human"
  end.

Record AclGuard (S : Type) := mkGuard { ag_inner : S; ag_identity : ProcessIdentity }.
Arguments mkGuard {S} ag_inner ag_identity.
Arguments ag_inner {S} a.
Arguments ag_identity {S} a.

Module Acl.

Definition is_append_only (key : string) : bool :=
  starts_with key "/audit/" || starts_with key "/evolution-log/".

Definition may_write (identity : ProcessIdentity) (key : string) : bool :=
  if bool_decide (identity = IdKernel) then true
  else if starts_with key "/policy/" then bool_decide (identity = MetaLoop)
  else if starts_with key "/meta-goals/" then bool_decide (identity = Human)
  else if starts_with key "/security/redzone/" then false
  else if starts_with key "/audit/" then true
  else if starts_with key "/circuit-breaker/" then bool_decide (identity = IdModelAdapter)
  else if starts_with key "/dag/" then bool_decide (identity = HarnessLoop)
  else if starts_with key "/task/" then bool_decide (identity = AgenticLoop)
  else if starts_with key "/evolution-log/" then bool_decide (identity = MetaLoop)
  else if starts_with key "/self-model/" then bool_decide (identity = MetaLoop)
  else true.

Definition check_write (identity : ProcessIdentity) (key operation : string)
    : result StoreError unit :=
  if bool_decide (operation = "delete"%string) && is_append_only key then
    Err (AppendOnly key)
  else if negb (may_write identity key) then
    Err (PermissionDenied (display_identity identity) operation key)
  else Ok tt.

Section Guard.
Context {S : Type} `{StateStore S}.

(** An operation on the inner store, through the guard. *)
Definition guarded (g : AclGuard S) (key operation : string)
    (op : S -> outcome (result StoreError unit * S))
    : outcome (result StoreError unit * AclGuard S) :=
  match check_write (ag_identity g) key operation with
  | Err e => Ret (Err e, g)
  | Ok _ => rs ← op (ag_inner g); Ret (rs.1, mkGuard rs.2 (ag_identity g))
  end.

Definition put (now : Instant) (key : string) (value : bytes) (g : AclGuard S)
    : outcome (result StoreError unit * AclGuard S) :=
  guarded g key "put" (ss_put now key value).

Definition get (key : string) (g : AclGuard S) : result StoreError (option bytes) :=
  ss_get key (ag_inner g).

Definition delete (now : Instant) (key : string) (g : AclGuard S)
    : outcome (result StoreError unit * AclGuard S) :=
  guarded g key "delete" (ss_delete now key).

Definition list_keys (prefix : string) (g : AclGuard S) : result StoreError (list string) :=
  ss_list_keys prefix (ag_inner g).

Definition exists_key (key : string) (g : AclGuard S) : result StoreError bool :=
  ss_exists key (ag_inner g).

End Guard.

#[export] Instance guard_store (S : Type) `{StateStore S} : StateStore (AclGuard S) :=
  {| ss_put := put; ss_get := get; ss_delete := delete;
     ss_list_keys := list_keys; ss_exists := exists_key |}.

End Acl.

(** * SQLite *)

(** The connection and the statements of the code. *)
Class Sql := {
  conn : Type;
  sql_open : string -> result string conn;
  (** [execute_batch] *)
  sql_batch : string -> conn -> result string unit * conn;
  (** [INSERT ... ON CONFLICT(key) DO UPDATE] *)
  sql_upsert : string -> bytes -> conn -> result string unit * conn;
  (** [DELETE FROM kv_store WHERE key = ?1] *)
  sql_delete : string -> conn -> result string unit * conn;
  (** [SELECT value FROM kv_store WHERE key = ?1] *)
  sql_select_value : string -> conn -> result string (option bytes);
  (** [SELECT 1 FROM kv_store WHERE key = ?1]: whether there is a row *)
  sql_select_one : string -> conn -> result string bool;
  (** [SELECT key FROM kv_store WHERE key LIKE ?1 ORDER BY key] *)
  sql_select_like : string -> conn -> result string (list string)
}.

Record WalPolicy := mkWalPolicy { write_threshold : Z; seconds_threshold : Z }.

Definition default_wal_policy : WalPolicy := mkWalPolicy 1000 60.

Record SqliteStateStore `{Sql} := mkStore {
  st_conn : conn;
  st_policy : WalPolicy;
  write_count : Z;
  last_wal_checkpoint : Instant
}.

Definition sql_err {A} (r : result string A) : result StoreError A :=
  match r with Ok a => Ok a | Err e => Err (Sqlite e) end.

Definition create_table_sql : string :=
  "CREATE TABLE IF NOT EXISTS kv_store (
                 key        TEXT PRIMARY KEY,
                 value      BLOB NOT NULL,
                 updated_at TEXT NOT NULL DEFAULT (datetime('now'))
             );".

Definition pragmas_sql : string :=
  "PRAGMA journal_mode=WAL;
             PRAGMA foreign_keys=ON;".

Definition wal_checkpoint_sql : string := "PRAGMA wal_checkpoint(TRUNCATE);".

Module Engine.
Section Ops.
Context `{Sql} `{BuildProfile}.

Definition open_with_policy (now : Instant) (path : string) (policy : WalPolicy)
    : result StoreError SqliteStateStore :=
  c ← sql_err (sql_open path);
  match sql_batch pragmas_sql c with
  | (Err e, _) => Err (Sqlite e)
  | (Ok _, c) =>
    match sql_batch create_table_sql c with
    | (Err e, _) => Err (Sqlite e)
    | (Ok _, c) => Ok (mkStore _ c policy 0 now)
    end
  end.

Definition open (now : Instant) (path : string) : result StoreError SqliteStateStore :=
  open_with_policy now path default_wal_policy.

Definition set_conn (c : conn) (s : SqliteStateStore) : SqliteStateStore :=
  mkStore _ c (st_policy s) (write_count s) (last_wal_checkpoint s).

Definition checkpoint (now : Instant) (s : SqliteStateStore)
    : result StoreError unit * SqliteStateStore :=
  match sql_batch wal_checkpoint_sql (st_conn s) with
  | (Ok _, c) => (Ok tt, mkStore _ c (st_policy s) 0 now)
  | (Err e, c) => (Err (Sqlite e), set_conn c s)
  end.

Definition maybe_checkpoint (now : Instant) (s : SqliteStateStore) : SqliteStateStore :=
  let count := write_count s in
  let elapsed := as_secs (elapsed now (last_wal_checkpoint s)) in
  if (write_threshold (st_policy s) <=? count) || (seconds_threshold (st_policy s) <=? elapsed)
  then (checkpoint now s).2
  else s.

Definition record_write (s : SqliteStateStore) : outcome SqliteStateStore :=
  n ← add_u 64 (write_count s) 1;
  Ret (mkStore _ (st_conn s) (st_policy s) n (last_wal_checkpoint s)).

(** The shared helpers, on the locked connection. *)
Definition state_store_put (key : string) (value : bytes) (c : conn)
    : result StoreError unit * conn :=
  let '(r, c) := sql_upsert key value c in (sql_err r, c).

Definition state_store_get (key : string) (c : conn) : result StoreError (option bytes) :=
  sql_err (sql_select_value key c).

Definition state_store_delete (key : string) (c : conn) : result StoreError unit * conn :=
  let '(r, c) := sql_delete key c in (sql_err r, c).

(** [format!("{prefix}%")]. *)
Definition like_prefix (prefix : string) : string := (prefix +:+ "%")%string.

Definition state_store_list_keys (prefix : string) (c : conn)
    : result StoreError (list string) := sql_err (sql_select_like (like_prefix prefix) c).

Definition state_store_exists (key : string) (c : conn) : result StoreError bool :=
  sql_err (sql_select_one key c).

(** A write statement followed by the bookkeeping. *)
Definition write_op (now : Instant) (stmt : conn -> result StoreError unit * conn)
    (s : SqliteStateStore) : outcome (result StoreError unit * SqliteStateStore) :=
  match stmt (st_conn s) with
  | (Err e, c) => Ret (Err e, set_conn c s)
  | (Ok _, c) =>
    s ← record_write (set_conn c s);
    Ret (Ok tt, maybe_checkpoint now s)
  end.

Definition put (now : Instant) (key : string) (value : bytes) (s : SqliteStateStore)
    : outcome (result StoreError unit * SqliteStateStore) :=
  write_op now (state_store_put key value) s.

Definition get (key : string) (s : SqliteStateStore) : result StoreError (option bytes) :=
  state_store_get key (st_conn s).

Definition delete (now : Instant) (key : string) (s : SqliteStateStore)
    : outcome (result StoreError unit * SqliteStateStore) :=
  write_op now (state_store_delete key) s.

Definition list_keys (prefix : string) (s : SqliteStateStore) : result StoreError (list string) :=
  state_store_list_keys prefix (st_conn s).

Definition exists_key (key : string) (s : SqliteStateStore) : result StoreError bool :=
  state_store_exists key (st_conn s).

(** ** Transactions *)

(** A transaction holds the connection, so nothing else runs on the store until
    it is committed or dropped. *)
Record Transaction := mkTx { tx_conn : conn; tx_committed : bool }.

Definition transaction (s : SqliteStateStore)
    : result StoreError Transaction * SqliteStateStore :=
  match sql_batch "BEGIN IMMEDIATE;" (st_conn s) with
  | (Err e, c) => (Err (Sqlite e), set_conn c s)
  | (Ok _, c) => (Ok (mkTx c false), s)
  end.

Definition tx_put (key : string) (value : bytes) (t : Transaction)
    : result StoreError unit * Transaction :=
  let '(r, c) := sql_upsert key value (tx_conn t) in (sql_err r, mkTx c (tx_committed t)).

Definition tx_get (key : string) (t : Transaction) : result StoreError (option bytes) :=
  sql_err (sql_select_value key (tx_conn t)).

Definition tx_delete (key : string) (t : Transaction)
    : result StoreError unit * Transaction :=
  let '(r, c) := sql_delete key (tx_conn t) in (sql_err r, mkTx c (tx_committed t)).

Definition tx_list_keys (prefix : string) (t : Transaction) : result StoreError (list string) :=
  sql_err (sql_select_like (like_prefix prefix) (tx_conn t)).

Definition tx_exists (key : string) (t : Transaction) : result StoreError bool :=
  sql_err (sql_select_one key (tx_conn t)).

(** [Drop]: a transaction that is not committed is rolled back, and errors of
    the rollback are ignored. The connection goes back to the store. *)
Definition tx_drop (t : Transaction) : conn :=
  if negb (tx_committed t) then (sql_batch "ROLLBACK;" (tx_conn t)).2 else tx_conn t.

(** [commit] consumes the transaction, which is then dropped. *)
Definition tx_commit (t : Transaction) : result StoreError unit * conn :=
  match sql_batch "COMMIT;" (tx_conn t) with
  | (Ok _, c) => (Ok tt, tx_drop (mkTx c true))
  | (Err e, c) => (Err (Sqlite e), tx_drop (mkTx c (tx_committed t)))
  end.

End Ops.
End Engine.

#[export] Instance sqlite_store `{Sql} `{BuildProfile} : StateStore SqliteStateStore :=
  {| ss_put := Engine.put; ss_get := Engine.get; ss_delete := Engine.delete;
     ss_list_keys := Engine.list_keys; ss_exists := Engine.exists_key |}.

(** * Documented behaviour of SQLite *)

(** ASCII lower case. *)
Definition lower (c : Ascii.ascii) : Ascii.ascii :=
  let n := Ascii.N_of_ascii c in
  if ((65 <=? n) && (n <=? 90))%N then Ascii.ascii_of_N (n + 32) else c.

Definition percent : Ascii.ascii := Ascii.ascii_of_nat 37.
Definition underscore : Ascii.ascii := Ascii.ascii_of_nat 95.

(** [LIKE] without an escape character: [%] matches any text, [_] any one
    character, and letters match regardless of their case. *)
Fixpoint like (p : string) : string -> bool :=
  match p with
  | EmptyString => fun s => match s with EmptyString => true | _ => false end
  | String c p =>
    if Ascii.eqb c percent then
      fix any s := like p s || match s with EmptyString => false | String _ s => any s end
    else fun s =>
      match s with
      | EmptyString => false
      | String d s => (Ascii.eqb c underscore || Ascii.eqb (lower c) (lower d)) && like p s
      end
  end.

(** [kv c] is the table that the connection sees, and [base c] the table to
    which an open transaction rolls back. A failing write or commit changes
    nothing, or rolls back the whole transaction. *)
Class SqlLaws `{Sql} := {
  kv : conn -> gmap string bytes;
  base : conn -> option (gmap string bytes);
  upsert_law k v c r c' :
    sql_upsert k v c = (r, c') ->
    match r with
    | Ok _ => kv c' = <[k := v]> (kv c) /\ base c' = base c
    | Err _ => kv c' = kv c /\ base c' = base c
               \/ base c = Some (kv c') /\ base c' = None
    end;
  sql_delete_law k c r c' :
    sql_delete k c = (r, c') ->
    match r with
    | Ok _ => kv c' = delete k (kv c) /\ base c' = base c
    | Err _ => kv c' = kv c /\ base c' = base c
               \/ base c = Some (kv c') /\ base c' = None
    end;
  select_value_law k c o : sql_select_value k c = Ok o -> o = kv c !! k;
  select_one_law k c b : sql_select_one k c = Ok b -> b = bool_decide (is_Some (kv c !! k));
  select_like_law p c l :
    sql_select_like p c = Ok l ->
    Sorted (fun a b => String.leb a b = true) l /\ NoDup l
    /\ forall k, k ∈ l <-> is_Some (kv c !! k) /\ like p k = true;
  wal_checkpoint_law c r c' :
    sql_batch wal_checkpoint_sql c = (r, c') -> kv c' = kv c /\ base c' = base c;
  begin_law c r c' :
    base c = None -> sql_batch "BEGIN IMMEDIATE;" c = (r, c') ->
    kv c' = kv c /\ base c' = match r with Ok _ => Some (kv c) | Err _ => None end;
  commit_law c r c' :
    sql_batch "COMMIT;" c = (r, c') ->
    match r with
    | Ok _ => kv c' = kv c /\ base c' = None
    | Err _ => kv c' = kv c /\ base c' = base c
               \/ base c = Some (kv c') /\ base c' = None
    end;
  rollback_law c r c' :
    sql_batch "ROLLBACK;" c = (r, c') ->
    base c' = None /\ kv c' = match base c with Some m => m | None => kv c end
}.

(** * The SQLite store is a map *)

Section Refinement.
Context `{Sql} {laws : SqlLaws} `{BuildProfile}.

(** Outside transactions, with a counter below the overflow. *)
Definition sqlite_ok (s : SqliteStateStore) : Prop := base (st_conn s) = None.

Lemma maybe_checkpoint_kv now s :
  kv (st_conn (Engine.maybe_checkpoint now s)) = kv (st_conn s)
  /\ base (st_conn (Engine.maybe_checkpoint now s)) = base (st_conn s).
Proof.
  unfold Engine.maybe_checkpoint, Engine.checkpoint. destruct (_ || _); [|done].
  destruct (sql_batch _ _) as [[|] c] eqn:E; by apply wal_checkpoint_law in E.
Qed.

Lemma write_op_spec now stmt s r s' (f : gmap string bytes -> gmap string bytes) :
  (forall c r c', stmt c = (r, c') ->
    match r with
    | Ok _ => kv c' = f (kv c) /\ base c' = base c
    | Err _ => kv c' = kv c /\ base c' = base c \/ base c = Some (kv c') /\ base c' = None
    end) ->
  sqlite_ok s -> Engine.write_op now stmt s = Ret (r, s') ->
  sqlite_ok s' /\ kv (st_conn s') = match r with
                                    | Ok _ => f (kv (st_conn s))
                                    | Err _ => kv (st_conn s)
                                    end.
Proof.
  unfold sqlite_ok, Engine.write_op, Engine.record_write. intros Hstmt Hok.
  destruct (stmt (st_conn s)) as [[u|e] c] eqn:E; apply Hstmt in E.
  - destruct (add_u _ _ _) as [n|]; [|done]. cbn [mbind outcome_bind]. intros [= <- <-].
    match goal with |- context [Engine.maybe_checkpoint now ?s1] =>
      destruct (maybe_checkpoint_kv now s1) as [-> ->] end.
    simpl. destruct E as [-> ->]. done.
  - intros [= <- <-]. simpl. destruct E as [[-> ->]|[E _]]; [done|]. congruence.
Qed.

#[export] Program Instance sqlite_spec : StoreSpec SqliteStateStore :=
  {| contents s := kv (st_conn s); store_ok := sqlite_ok |}.
Next Obligation.
  intros now k v s r s' Hok Hp.
  apply (write_op_spec now (Engine.state_store_put k v) s r s' _); [|done..].
  intros c r0 c'. unfold Engine.state_store_put.
  destruct (sql_upsert k v c) as [r1 c1] eqn:E; apply upsert_law in E. by destruct r1; intros [= <- <-].
Qed.
Next Obligation.
  intros now k s r s' Hok Hp.
  apply (write_op_spec now (Engine.state_store_delete k) s r s' _); [|done..].
  intros c r0 c'. unfold Engine.state_store_delete.
  destruct (sql_delete k c) as [r1 c1] eqn:E; apply sql_delete_law in E. by destruct r1; intros [= <- <-].
Qed.
Next Obligation.
  intros k s o _. simpl. unfold Engine.get, Engine.state_store_get, sql_err.
  destruct (sql_select_value k (st_conn s)) eqn:E; [|done]. intros [= <-].
  by apply select_value_law.
Qed.
Next Obligation.
  intros k s b _. simpl. unfold Engine.exists_key, Engine.state_store_exists, sql_err.
  destruct (sql_select_one k (st_conn s)) eqn:E; [|done]. intros [= <-].
  by apply select_one_law.
Qed.

(** ** Transactions *)

Inductive tx_op := TxPut (k : string) (v : bytes) | TxDelete (k : string).

Definition tx_step (t : Engine.Transaction) (op : tx_op)
    : result StoreError unit * Engine.Transaction :=
  match op with
  | TxPut k v => Engine.tx_put k v t
  | TxDelete k => Engine.tx_delete k t
  end.

Definition tx_apply (m : gmap string bytes) (op : tx_op) : gmap string bytes :=
  match op with TxPut k v => <[k := v]> m | TxDelete k => delete k m end.

(** Running writes until one fails, as the caller does with [?]. *)
Fixpoint tx_run (ops : list tx_op) (t : Engine.Transaction)
    : result StoreError unit * Engine.Transaction :=
  match ops with
  | [] => (Ok tt, t)
  | op :: ops =>
    match tx_step t op with
    | (Ok _, t) => tx_run ops t
    | (Err e, t) => (Err e, t)
    end
  end.

(** The transaction is open over [m0] or was rolled back to it. *)
Definition tx_over (m0 : gmap string bytes) (t : Engine.Transaction) : Prop :=
  Engine.tx_committed t = false
  /\ (base (Engine.tx_conn t) = Some m0
      \/ base (Engine.tx_conn t) = None /\ kv (Engine.tx_conn t) = m0).

Lemma tx_step_spec m0 t op r t' :
  tx_over m0 t -> base (Engine.tx_conn t) = Some m0 -> tx_step t op = (r, t') ->
  tx_over m0 t'
  /\ (r = Ok tt -> base (Engine.tx_conn t') = Some m0
      /\ kv (Engine.tx_conn t') = tx_apply (kv (Engine.tx_conn t)) op).
Proof.
  intros [Hc _] Hb. unfold tx_step, Engine.tx_put, Engine.tx_delete, tx_over.
  destruct op as [k v|k];
    [destruct (sql_upsert k v _) as [r0 c'] eqn:E; apply upsert_law in E
    |destruct (sql_delete k _) as [r0 c'] eqn:E; apply sql_delete_law in E];
    intros [= <- <-]; simpl;
    (destruct r0 as [[]|e]; [destruct E as [-> ->]; naive_solver|]);
    (split; [|done]); (split; [done|]); destruct E as [[-> ->]|[E ->]]; [by left| |by left|];
    right; (split; [done|]); congruence.
Qed.

Lemma tx_run_spec m0 ops : forall t r t',
  tx_over m0 t -> base (Engine.tx_conn t) = Some m0 -> tx_run ops t = (r, t') ->
  tx_over m0 t'
  /\ (r = Ok tt -> base (Engine.tx_conn t') = Some m0
      /\ kv (Engine.tx_conn t') = foldl tx_apply (kv (Engine.tx_conn t)) ops).
Proof.
  induction ops as [|op ops IH]; intros t r t' Ht Hb; cbn [tx_run].
  { by intros [= <- <-]. }
  destruct (tx_step t op) as [[[]|e] t1] eqn:E;
    destruct (tx_step_spec m0 t op _ _ Ht Hb E) as [Ht1 Hok].
  - destruct (Hok eq_refl) as [Hb1 Hkv1]. intros Hr.
    destruct (IH t1 r t' Ht1 Hb1 Hr) as [Ht' Hr']. split; [done|]. intros Hrok.
    destruct (Hr' Hrok) as [? Hk]. by rewrite Hk, Hkv1.
  - intros [= <- <-]. done.
Qed.

Lemma tx_drop_spec m0 t :
  tx_over m0 t -> kv (Engine.tx_drop t) = m0 /\ base (Engine.tx_drop t) = None.
Proof.
  intros [Hc Hb]. unfold Engine.tx_drop. rewrite Hc. simpl.
  destruct (sql_batch _ _) as [r c] eqn:E. apply rollback_law in E as [Hb' Hk].
  simpl. split; [|done]. rewrite Hk. destruct Hb as [->|[-> Hm]]; done.
Qed.

End Refinement.

(** * Properties *)

(** ** Access control *)

Inductive acl_op := AclPut (key : string) (value : bytes) | AclDelete (key : string).

Section AclRun.
Context {S : Type} `{StoreSpec S}.

(** One guarded write by an identity; the store is shared. *)
Definition acl_step (now : Instant) (i : ProcessIdentity) (op : acl_op) (s : S)
    : outcome (result StoreError unit * S) :=
  rg ← match op with
       | AclPut key value => Acl.put now key value (mkGuard s i)
       | AclDelete key => Acl.delete now key (mkGuard s i)
       end;
  Ret (rg.1, ag_inner rg.2).

Fixpoint acl_run (l : list (Instant * ProcessIdentity * acl_op)) (s : S) : outcome S :=
  match l with
  | [] => Ret s
  | (now, i, op) :: l => rs ← acl_step now i op s; acl_run l rs.2
  end.

Lemma acl_step_spec now i op s r s' :
  store_ok s -> acl_step now i op s = Ret (r, s') ->
  store_ok s' /\ contents s' =
    match r, op with
    | Ok _, AclPut key value => <[key := value]> (contents s)
    | Ok _, AclDelete key => delete key (contents s)
    | Err _, _ => contents s
    end
  /\ (r = Ok tt -> match op with
       | AclPut key _ => Acl.may_write i key = true
       | AclDelete key => Acl.may_write i key = true /\ Acl.is_append_only key = false
       end).
Proof.
  intros Hok. unfold acl_step.
  destruct op as [key value|key]; [unfold Acl.put|unfold Acl.delete];
    unfold Acl.guarded, Acl.check_write; cbn [ag_inner ag_identity].
  - rewrite bool_decide_false by done. cbn [andb].
    destruct (Acl.may_write i key); cbn [negb]; [|by intros [= <- <-]].
    destruct (ss_put now key value s) as [[r0 s0]|] eqn:E; [|done].
    cbn [mbind outcome_bind fst snd ag_inner]. intros [= <- <-].
    destruct (put_ok now key value s r0 s0 Hok E) as [? ->]. by destruct r0.
  - rewrite bool_decide_true by done. cbn [andb].
    destruct (Acl.is_append_only key) eqn:Ea; [by intros [= <- <-]|].
    destruct (Acl.may_write i key); cbn [negb]; [|by intros [= <- <-]].
    destruct (ss_delete now key s) as [[r0 s0]|] eqn:E; [|done].
    cbn [mbind outcome_bind fst snd ag_inner]. intros [= <- <-].
    destruct (delete_ok now key s r0 s0 Hok E) as [? ->]. by destruct r0.
Qed.

(** C17. Isolation, for every store that meets its contract: whatever guarded
    writes are made, in any order, a key changes only if one of the writers
    may write it, and an entry in an append-only namespace is never removed,
    whoever asks. *)
Theorem acl_isolation l s s' k :
  store_ok s -> acl_run l s = Ret s' ->
  store_ok s'
  /\ ((forall now i op, (now, i, op) ∈ l -> Acl.may_write i k = false) ->
      contents s' !! k = contents s !! k)
  /\ (Acl.is_append_only k = true -> is_Some (contents s !! k) -> is_Some (contents s' !! k)).
Proof.
  revert s. induction l as [|[[now i] op] l IH]; intros s Hok; cbn [acl_run].
  { by intros [= <-]. }
  destruct (acl_step now i op s) as [[r s1]|] eqn:E; [|done].
  destruct (acl_step_spec _ _ _ _ _ _ Hok E) as (Hok1 & Hc & Hr).
  cbn [mbind outcome_bind snd]. intros Hrun.
  destruct (IH s1 Hok1 Hrun) as (Hok' & Hsame & Happ). split_and!; [done| |].
  - intros Hmw. rewrite Hsame by (intros; eapply Hmw; by apply list_elem_of_further).
    pose proof (Hmw now i op (list_elem_of_here _ _)) as Hik.
    rewrite Hc. destruct r as [[]|e]; [|done]. specialize (Hr eq_refl).
    destruct op as [key value|key].
    + rewrite lookup_insert_ne; [done|]. intros ->. congruence.
    + rewrite lookup_delete_ne; [done|]. intros ->. naive_solver congruence.
  - intros Hap Hs. apply Happ; [done|]. rewrite Hc. destruct r as [[]|e]; [|done].
    specialize (Hr eq_refl). destruct op as [key value|key].
    + rewrite lookup_insert. case_decide; [by eexists|done].
    + rewrite lookup_delete_ne; [done|]. intros ->. naive_solver congruence.
Qed.

(** The append-only namespaces do not protect the value of an entry: a
    successful put by any identity on a key under [/audit/] replaces whatever
    was there. *)
Theorem audit_overwritten now i key value s s' :
  store_ok s -> starts_with key "/audit/" = true ->
  Acl.may_write i key = true
  /\ (acl_step now i (AclPut key value) s = Ret (Ok tt, s') ->
      contents s' !! key = Some value).
Proof.
  intros Hok Hk. split.
  - apply starts_with_app in Hk as [t ->]. unfold Acl.may_write.
    destruct (bool_decide (i = IdKernel)); [done|].
    assert (starts_with ("/audit/" +:+ t) "/audit/" = true) as ->
      by (apply starts_with_app; by exists t).
    done.
  - intros E. destruct (acl_step_spec _ _ _ _ _ _ Hok E) as (_ & -> & _).
    apply lookup_insert_eq.
Qed.

End AclRun.

(** ** The SQLite store *)

(** Text without wildcards. *)
Fixpoint plain (s : string) : bool :=
  match s with
  | EmptyString => true
  | String c s => negb (Ascii.eqb c percent) && negb (Ascii.eqb c underscore) && plain s
  end.

(** Starting with a prefix up to the case of ASCII letters. *)
Fixpoint prefix_nocase (p s : string) : bool :=
  match p, s with
  | EmptyString, _ => true
  | String c p, String d s => Ascii.eqb (lower c) (lower d) && prefix_nocase p s
  | String _ _, EmptyString => false
  end.

Lemma like_any s : like "%" s = true.
Proof. induction s as [|c s IH]; [done|]. simpl in *. by rewrite IH. Qed.

Lemma like_percent_cons p s :
  like (String percent p) s
  = like p s || match s with EmptyString => false | String _ s => like (String percent p) s end.
Proof. by destruct s. Qed.

(** A pattern that ends in [%] matches every text that starts with it. *)
Lemma like_prefix_refl p t : like (Engine.like_prefix p) (p +:+ t) = true.
Proof.
  unfold Engine.like_prefix. induction p as [|c p IH]; [apply like_any|].
  change (String c p +:+ ?x)%string with (String c (p +:+ x)).
  destruct (Ascii.eqb c percent) eqn:E.
  - apply Ascii.eqb_eq in E as ->. rewrite like_percent_cons.
    rewrite like_percent_cons. by rewrite IH, !orb_true_r.
  - simpl. rewrite E, Ascii.eqb_refl, IH. by rewrite orb_true_r.
Qed.

Lemma like_plain p s :
  plain p = true -> like (Engine.like_prefix p) s = prefix_nocase p s.
Proof.
  unfold Engine.like_prefix. revert s. induction p as [|c p IH]; intros s Hp; [apply like_any|].
  change (String c p +:+ "%")%string with (String c (p +:+ "%")).
  simpl in Hp. split_bools. simpl. rewrite H.
  destruct s as [|d s]; [done|]. rewrite H1, IH by done. done.
Qed.

Section Properties.
Context `{Sql} {laws : SqlLaws} `{BuildProfile}.

(** C13. Transactions are atomic. When a transaction commits after its writes,
    the store is the result of all of them; when a write fails, the commit
    fails, or the transaction is dropped, the store is what it was before, and
    either way no transaction is left open. *)
Theorem transaction_atomic s ops t s1 r t' :
  sqlite_ok s -> Engine.transaction s = (Ok t, s1) -> tx_run ops t = (r, t') ->
  let before := kv (st_conn s) in
  (kv (Engine.tx_drop t') = before /\ base (Engine.tx_drop t') = None)
  /\ forall rc c, Engine.tx_commit t' = (rc, c) -> r = Ok tt ->
      base c = None
      /\ kv c = match rc with Ok _ => foldl tx_apply before ops | Err _ => before end.
Proof.
  intros Hok Ht Hrun before. unfold Engine.transaction in Ht.
  destruct (sql_batch "BEGIN IMMEDIATE;" (st_conn s)) as [[u|e] c0] eqn:Eb; [|done].
  injection Ht as <- <-. destruct (begin_law _ _ _ Hok Eb) as [Hk0 Hb0].
  assert (Hover : tx_over before (Engine.mkTx c0 false)) by (split; [done|by left]).
  destruct (tx_run_spec before ops _ _ _ Hover Hb0 Hrun) as [Hover' Hr].
  split; [by apply tx_drop_spec|].
  intros rc c Hc Hrok. destruct (Hr Hrok) as [Hb' Hk']. unfold Engine.tx_commit in Hc.
  destruct (sql_batch "COMMIT;" (Engine.tx_conn t')) as [[u'|e] c1] eqn:Ec;
    pose proof (commit_law _ _ _ Ec) as Hlaw; injection Hc as <- <-.
  - destruct Hlaw as [Hk1 Hb1]. unfold Engine.tx_drop. simpl. split; [done|].
    rewrite Hk1, Hk'. simpl. by rewrite Hk0.
  - destruct Hover' as [Hcom _]. rewrite Hcom.
    destruct (tx_drop_spec before (Engine.mkTx c1 false)) as [? ?]; [|done].
    split; [done|]. simpl. destruct Hlaw as [[_ ->]|[Hb1 Hb2]]; [by left|].
    right. split; [done|]. congruence.
Qed.

(** The dual-trigger checkpoint policy: when WAL checkpoints succeed, after
    every successful write fewer than [write_threshold] writes and less than
    [seconds_threshold] seconds separate the store from its last
    checkpoint, and the written value is the one that is read back. *)
Theorem checkpoint_policy now k v s s' :
  (forall c, exists c', sql_batch wal_checkpoint_sql c = (Ok tt, c')) ->
  sqlite_ok s -> 0 < write_threshold (st_policy s) -> 0 < seconds_threshold (st_policy s) ->
  Engine.put now k v s = Ret (Ok tt, s') ->
  write_count s' < write_threshold (st_policy s')
  /\ as_secs (elapsed now (last_wal_checkpoint s')) < seconds_threshold (st_policy s')
  /\ forall o, Engine.get k s' = Ok o -> o = Some v.
Proof.
  intros Hwal Hok Hw Hs Hput.
  destruct (@put_ok _ _ sqlite_spec now k v s (Ok tt) s' Hok Hput) as [Hok' Hc].
  enough (Hgoal : write_count s' < write_threshold (st_policy s')
    /\ as_secs (elapsed now (last_wal_checkpoint s')) < seconds_threshold (st_policy s')).
  { split_and!; [apply Hgoal..|]. intros o Ho.
    rewrite (@get_ok _ _ sqlite_spec k s' o Hok' Ho), Hc. apply lookup_insert_eq. }
  clear Hc Hok'. unfold Engine.put, Engine.write_op, Engine.record_write in Hput.
  unfold Engine.state_store_put in Hput.
  destruct (sql_upsert k v (st_conn s)) as [[u|e] c]; [|done]. cbn [sql_err] in Hput.
  destruct (add_u _ _ _) as [n|]; [|done]. cbn [mbind outcome_bind] in Hput.
  injection Hput as <-. unfold Engine.maybe_checkpoint, Engine.checkpoint. cbn.
  destruct (write_threshold (st_policy s) <=? n) eqn:E1;
    [|destruct (seconds_threshold (st_policy s)
                <=? as_secs (elapsed now (last_wal_checkpoint s))) eqn:E2]; cbn [orb].
  3: { split_bools. simpl. lia. }
  all: destruct (Hwal c) as [c' ->]; simpl; unfold elapsed, saturating_sub;
    rewrite Z.sub_diag; by split.
Qed.

(** [list_keys] returns stored keys in order, without repetition, and every
    stored key with the prefix is among them. It is not a prefix match: for a
    prefix without [%] and [_], it returns the keys that start with the
    prefix up to the case of letters, and these two characters are not
    escaped, so that they match anything. *)
Theorem list_keys_spec prefix s l :
  Engine.list_keys prefix s = Ok l ->
  Sorted (fun a b => String.leb a b = true) l /\ NoDup l
  /\ (forall k, k ∈ l -> is_Some (kv (st_conn s) !! k))
  /\ (forall k, is_Some (kv (st_conn s) !! k) -> starts_with k prefix = true -> k ∈ l)
  /\ (plain prefix = true -> forall k, k ∈ l -> prefix_nocase prefix k = true).
Proof.
  unfold Engine.list_keys, Engine.state_store_list_keys, sql_err.
  destruct (sql_select_like _ _) as [l'|e] eqn:E; [|done]. intros [= <-].
  destruct (select_like_law _ _ _ E) as (Hso & Hnd & Hin). split_and!; [done|done| | |].
  - intros k Hk. by apply Hin in Hk as [? _].
  - intros k Hk Hp. apply Hin. split; [done|].
    apply starts_with_app in Hp as [t ->]. apply like_prefix_refl.
  - intros Hp k Hk. apply Hin in Hk as [_ Hk]. by rewrite <- like_plain.
Qed.

End Properties.

(** * A concrete connection *)

(** A database in memory on which every statement succeeds. *)
Definition mem_conn : Type := gmap string bytes * option (gmap string bytes).

Definition leb_rel (a b : string) : Prop := String.leb a b = true.

#[export] Instance leb_rel_dec a b : Decision (leb_rel a b).
Proof. unfold leb_rel. apply _. Defined.

#[export] Instance leb_rel_total : Total leb_rel.
Proof. intros a b. apply String.leb_total. Qed.

Definition mem_batch (text : string) (c : mem_conn) : result string unit * mem_conn :=
  if bool_decide (text = "BEGIN IMMEDIATE;"%string) then (Ok tt, (c.1, Some c.1))
  else if bool_decide (text = "COMMIT;"%string) then (Ok tt, (c.1, None))
  else if bool_decide (text = "ROLLBACK;"%string) then (Ok tt, (default c.1 c.2, None))
  else (Ok tt, c).

Definition mem_sql : Sql :=
  {| conn := mem_conn;
     sql_open := fun _ => Ok (∅, None);
     sql_batch := mem_batch;
     sql_upsert := fun k v c => (Ok tt, (<[k := v]> c.1, c.2));
     sql_delete := fun k c => (Ok tt, (delete k c.1, c.2));
     sql_select_value := fun k c => Ok (c.1 !! k);
     sql_select_one := fun k c => Ok (bool_decide (is_Some (c.1 !! k)));
     sql_select_like := fun p c =>
       Ok (merge_sort leb_rel (List.filter (like p) (map_to_list c.1).*1)) |}.

Definition mem_laws : @SqlLaws mem_sql.
Proof.
  refine (@Build_SqlLaws mem_sql fst snd _ _ _ _ _ _ _ _ _); simpl.
  - by intros k v c r c' [= <- <-].
  - by intros k c r c' [= <- <-].
  - by intros k c o [= <-].
  - by intros k c b [= <-].
  - intros p c l [= <-]. split_and!.
    + apply (Sorted_merge_sort leb_rel).
    + rewrite merge_sort_Permutation. rewrite <- (list_fmap_id (List.filter _ _)).
      apply NoDup_filter_fmap. rewrite list_fmap_id. apply NoDup_fst_map_to_list.
    + intros k. rewrite merge_sort_Permutation, elem_of_filter_bool.
      rewrite list_elem_of_fmap. split.
      * intros [([k' v] & -> & Hkv%elem_of_map_to_list) Hl]. split; [by eexists|done].
      * intros [[v Hv] Hl]. split; [|done]. exists (k, v).
        by rewrite elem_of_map_to_list.
  - by intros c r c' [= <- <-].
  - by intros c r c' Hb [= <- <-].
  - by intros c r c' [= <- <-].
  - intros c r c' [= <- <-]. simpl. by destruct (c.2).
Defined.

(** * Witnesses *)

Definition mem_store (m : gmap string bytes) : @SqliteStateStore mem_sql :=
  @mkStore mem_sql (m, None) default_wal_policy 0 0.

Definition mem_acl_run := @acl_run (@SqliteStateStore mem_sql)
  (@sqlite_store mem_sql release_profile).

Definition byte1 : bytes := [Byte.x01].
Definition byte2 : bytes := [Byte.x02].

Definition policy_store : @SqliteStateStore mem_sql :=
  mem_store {[ "/policy/a"%string := byte1 ]}.

Definition policy_ops : list (Instant * ProcessIdentity * acl_op) :=
  [(0, AgenticLoop, AclPut "/policy/a" byte2); (0, AgenticLoop, AclDelete "/policy/a")].

(** The agentic loop cannot change a policy. *)
Lemma acl_isolation_witness :
  mem_acl_run policy_ops policy_store = Ret policy_store
  /\ contents (StoreSpec := @sqlite_spec mem_sql mem_laws release_profile) policy_store
       !! "/policy/a"%string = Some byte1.
Proof.
  assert (Hrun : mem_acl_run policy_ops policy_store = Ret policy_store) by reflexivity.
  split; [exact Hrun|].
  destruct (@acl_isolation _ _ (@sqlite_spec mem_sql mem_laws release_profile) policy_ops
    policy_store policy_store "/policy/a" eq_refl Hrun) as (_ & Hsame & _).
  etransitivity; [apply Hsame|reflexivity].
  intros now i op Hin. apply list_elem_of_In in Hin as [E|[E|[]]];
    injection E as <- <- <-; reflexivity.
Defined.

Definition audit_store (v : bytes) : @SqliteStateStore mem_sql :=
  @mkStore mem_sql ({[ "/audit/1"%string := v ]}, None) default_wal_policy 0 0.

Definition audit_store' : @SqliteStateStore mem_sql :=
  @mkStore mem_sql ({[ "/audit/1"%string := byte2 ]}, None) default_wal_policy 1 0.

Lemma audit_overwritten_witness :
  @acl_step _ (@sqlite_store mem_sql release_profile) 0 AgenticLoop
      (AclPut "/audit/1" byte2) (audit_store byte1) = Ret (Ok tt, audit_store')
  /\ contents (StoreSpec := @sqlite_spec mem_sql mem_laws release_profile) audit_store'
       !! "/audit/1"%string = Some byte2.
Proof.
  assert (Hstep : @acl_step _ (@sqlite_store mem_sql release_profile) 0 AgenticLoop
    (AclPut "/audit/1" byte2) (audit_store byte1) = Ret (Ok tt, audit_store')) by reflexivity.
  split; [exact Hstep|].
  exact (proj2 (@audit_overwritten _ _ (@sqlite_spec mem_sql mem_laws release_profile) 0
    AgenticLoop "/audit/1" byte2 (audit_store byte1) audit_store' eq_refl eq_refl) Hstep).
Defined.

Lemma transaction_atomic_witness :
  let ops := [TxPut "a" byte1; TxPut "b" byte2; TxDelete "a"] in
  exists t s1 t' c, @Engine.transaction mem_sql (mem_store ∅) = (Ok t, s1)
    /\ @tx_run mem_sql ops t = (Ok tt, t')
    /\ @Engine.tx_commit mem_sql t' = (Ok tt, c)
    /\ @kv mem_sql mem_laws c = foldl tx_apply ∅ ops.
Proof.
  intros ops. do 4 eexists. split; [done|]. split; [done|]. split; [done|].
  edestruct (@transaction_atomic mem_sql mem_laws (mem_store ∅) ops) as [_ Hc];
    [done|done|done|].
  edestruct Hc as [_ Hkv]; [done|done|]. exact Hkv.
Defined.

Lemma checkpoint_policy_witness :
  exists s', @Engine.put mem_sql release_profile 0 "a" byte1 (mem_store ∅) = Ret (Ok tt, s')
    /\ write_count s' < 1000.
Proof.
  eexists. split; [reflexivity|].
  eapply (@checkpoint_policy mem_sql mem_laws release_profile 0 "a" byte1 (mem_store ∅));
    [intros c; by exists c|done|done|done|reflexivity].
Defined.

Lemma list_keys_spec_witness :
  exists l, @Engine.list_keys mem_sql "/task_1/"
      (mem_store (<["/task_1/x"%string := byte1]> (<["/taskA1/y"%string := byte2]> ∅))) = Ok l
    /\ "/task_1/x"%string ∈ l /\ l = ["/taskA1/y"; "/task_1/x"]%string.
Proof.
  eexists. split; [reflexivity|]. split; [|by vm_compute].
  edestruct (@list_keys_spec mem_sql mem_laws "/task_1/"
    (mem_store (<["/task_1/x"%string := byte1]> (<["/taskA1/y"%string := byte2]> ∅))))
    as (_ & _ & _ & Hin & _); [reflexivity|].
  apply Hin; [by eexists|by vm_compute].
Defined.
