(* ===== verification/Rpc.v ===== *)
(** The dispatch layer: src/src/dispatch/ (rpc.rs, contracts.rs, server.rs,
    client.rs).

    JSON values and their text are the business of [serde_json] and of the
    serializers that [serde] derives; they are the class [Json], with the
    documented behaviour the code relies on in [JsonLaws]. Sockets are the
    class [Transport]. One connection runs alone here; the accept loop and all
    connections together are in System.v. The socket file is not modelled. *)

From S2P Require Import Prelude F64 Envelope Supervisor.

(** * JSON-RPC messages *)

Record JsonRpcError {Value : Type} := mkRpcError {
  err_code : Z;
  err_message : string;
  err_data : option Value
}.
Arguments JsonRpcError : clear implicits.
Arguments mkRpcError {Value}.

Record JsonRpcRequest {Value : Type} := mkRequest {
  rq_jsonrpc : string;
  rq_method : string;
  rq_params : option Value;
  rq_id : Value
}.
Arguments JsonRpcRequest : clear implicits.
Arguments mkRequest {Value}.

Record JsonRpcResponse {Value : Type} := mkResponse {
  rs_jsonrpc : string;
  rs_result : option Value;
  rs_error : option (JsonRpcError Value);
  rs_id : Value
}.
Arguments JsonRpcResponse : clear implicits.
Arguments mkResponse {Value}.

Definition ERROR_PARSE : Z := -32700.
Definition ERROR_INVALID_REQUEST : Z := -32600.
Definition ERROR_METHOD_NOT_FOUND : Z := -32601.
Definition ERROR_INVALID_PARAMS : Z := -32602.
Definition ERROR_INTERNAL : Z := -32603.
Definition ERROR_PERMISSION_DENIED : Z := -32000.
Definition ERROR_BUDGET_EXCEEDED : Z := -32001.
Definition ERROR_SECURITY_ZONE : Z := -32002.
Definition ERROR_ENVELOPE_VERSION : Z := -32003.

Inductive RpcMethod :=
| TaskSubmit | TaskProgress | TaskComplete | TaskCancel | MLoopTrigger | Ping.

#[export] Instance RpcMethod_eq_dec : EqDecision RpcMethod.
Proof. solve_decision. Defined.

Module RpcMethod.

Definition as_str (m : RpcMethod) : string :=
  match m with
  | TaskSubmit => "task.submit"
  | TaskProgress => "task.progress"
  | TaskComplete => "task.complete"
  | TaskCancel => "task.cancel"
  | MLoopTrigger => "loop.trigger"
  | Ping => "ping"
  end.

Definition from_str (s : string) : option RpcMethod :=
  if String.eqb s "task.submit" then Some TaskSubmit
  else if String.eqb s "task.progress" then Some TaskProgress
  else if String.eqb s "task.complete" then Some TaskComplete
  else if String.eqb s "task.cancel" then Some TaskCancel
  else if String.eqb s "loop.trigger" then Some MLoopTrigger
  else if String.eqb s "ping" then Some Ping
  else None.

End RpcMethod.

(** * Loop triggers *)

Inductive TriggerKind {Value : Type} :=
| TaskDispatch (envelope : TaskEnvelope)
| TkTaskProgress (task_id dag_id phase : string) (detail : option Value)
| TkTaskComplete (task_id dag_id output : string) (tokens_used : Z) (duration_secs : f64)
| TaskFailed (task_id dag_id error : string) (retryable : bool)
| TkTaskCancel (task_id reason : string)
| MetaCycleRequest (trigger_source : string)
| MetaCycleAuthorized (cycle_id : string)
| MetaCycleComplete (cycle_id : string) (policy_changed : bool) (drift_score : f64)
| TkPing
| TkPong.
Arguments TriggerKind : clear implicits.

Record LoopTrigger {Value : Type} := mkTrigger {
  lt_seq : Z;
  lt_source : ProcessId;
  lt_target : ProcessId;
  lt_kind : TriggerKind Value;
  trace_parent : option string
}.
Arguments LoopTrigger : clear implicits.
Arguments mkTrigger {Value}.

Module LoopTrigger.

Definition new {Value} (seq : Z) (source target : ProcessId) (kind : TriggerKind Value)
    : LoopTrigger Value := mkTrigger seq source target kind None.

Definition with_trace {Value} (trace : string) (t : LoopTrigger Value) : LoopTrigger Value :=
  mkTrigger (lt_seq t) (lt_source t) (lt_target t) (lt_kind t) (Some trace).

End LoopTrigger.

Inductive TriggerError :=
| TargetNotRunning (id : ProcessId)
| Rejected (msg : string)
| Dispatch (msg : string).

Inductive ClientError :=
| Io (e : string)
| ClientSerialize (e : string)
| ClientDeserialize (e : string)
| ConnectionClosed.

(** * What the code uses of [serde_json] *)

Class Json := {
  Value : Type;
  v_null : Value;
  v_is_null : Value -> bool;
  v_string : string -> Value;
  v_bool : bool -> Value;
  v_u64 : Z -> Value;
  v_f64 : f64 -> Value;
  v_object : list (string * Value) -> Value;
  v_get : string -> Value -> option Value;
  v_as_str : Value -> option string;
  v_as_u64 : Value -> option Z;
  request_from_str : string -> result string (JsonRpcRequest Value);
  request_to_vec : JsonRpcRequest Value -> result string string;
  response_from_str : string -> result string (JsonRpcResponse Value);
  response_to_vec : JsonRpcResponse Value -> result string string;
  envelope_from_value : Value -> result string TaskEnvelope;
  trigger_from_value : Value -> result string (LoopTrigger Value);
  trigger_to_value : LoopTrigger Value -> result string Value
}.

(** The trait [TriggerSink], on a component with state [St]. *)
Class TriggerSink `{Json} (St : Type) := {
  ts_accept : LoopTrigger Value -> St -> outcome (result TriggerError unit * St)
}.

Module JsonRpcRequest.
Definition new `{Json} (method : string) (params : option Value) (id : Z)
    : JsonRpcRequest Value := mkRequest "2.0" method params (v_u64 id).
End JsonRpcRequest.

Module JsonRpcResponse.

Definition success `{Json} (id result : Value) : JsonRpcResponse Value :=
  mkResponse "2.0" (Some result) None id.

Definition error `{Json} (id : Value) (code : Z) (message : string) (data : option Value)
    : JsonRpcResponse Value :=
  mkResponse "2.0" None (Some (mkRpcError code message data)) id.

End JsonRpcResponse.

(** * The server *)

(** The trait [RequestHandler], on a handler with state [St]. *)
Class RequestHandler `{Json} (St : Type) := {
  rh_handle : RpcMethod -> option Value -> St -> outcome (result (Z * string) Value * St)
}.

Definition newline : Ascii.ascii := Ascii.ascii_of_nat 10.
Definition carriage_return : Ascii.ascii := Ascii.ascii_of_nat 13.

(** What a connection sees: a line of text (with whether the answer to it can
    be written), the end of the stream, a read error, or the shutdown signal. *)
Inductive conn_event :=
| Line (text : string) (write_ok : bool)
| Eof
| ReadError
| ShutdownSignal.

Module Server.
Section Ops.
Context `{Json} {St : Type} `{!RequestHandler St}.

Definition process_line (line : string) (h : St)
    : outcome (JsonRpcResponse Value * St) :=
  match request_from_str line with
  | Err e =>
    Ret (JsonRpcResponse.error v_null ERROR_PARSE ("Parse error: " +:+ e) None, h)
  | Ok request =>
    let id := rq_id request in
    match RpcMethod.from_str (rq_method request) with
    | None =>
      Ret (JsonRpcResponse.error id ERROR_METHOD_NOT_FOUND
             ("Unknown method: " +:+ rq_method request) None, h)
    | Some method =>
      '(r, h) ← rh_handle method (rq_params request) h;
      Ret (match r with
           | Ok result => JsonRpcResponse.success id result
           | Err (code, msg) => JsonRpcResponse.error id code msg None
           end, h)
    end
  end.

(** The bytes written for one line of input. *)
Definition response_line (r : JsonRpcResponse Value) : string :=
  (match response_to_vec r with Ok s => s | Err _ => "" end
   +:+ String newline EmptyString)%string.

(** The task of one connection: the lines it writes. *)
Fixpoint connection (events : list conn_event) (h : St)
    : outcome (list string * St) :=
  match events with
  | Line text write_ok :: events =>
    '(response, h) ← process_line text h;
    if write_ok then
      '(out, h) ← connection events h; Ret (response_line response :: out, h)
    else Ret ([], h)
  | _ => Ret ([], h)
  end.

End Ops.
End Server.

(** [PingHandler] keeps no state. *)
Definition PingHandler_handle `{Json} (method : RpcMethod) (_params : option Value)
    : result (Z * string) Value :=
  match method with
  | Ping => Ok (v_string "pong")
  | _ => Err (ERROR_INTERNAL, "Not implemented"%string)
  end.

#[export] Instance PingHandler `{Json} : RequestHandler unit :=
  {| rh_handle := fun m p s => Ret (PingHandler_handle m p, s) |}.

(** * The client *)

(** The two halves of a connected socket; [read_line] is empty at the end. *)
Class Transport (T : Type) := {
  write_all : string -> T -> outcome (result string unit * T);
  flush : T -> outcome (result string unit * T);
  read_line : T -> outcome (result string string * T)
}.

Record RpcClient (T : Type) := mkClient { cl_stream : T; next_id : Z }.
Arguments mkClient {T}.
Arguments cl_stream {T}.
Arguments next_id {T}.

Module Client.

(** [connect] on an established stream. *)
Definition connected {T} (stream : T) : RpcClient T := mkClient stream 1.

Definition call `{Json} `{Transport T} (method : string) (params : option Value)
    (c : RpcClient T) : outcome (result ClientError (JsonRpcResponse Value) * RpcClient T) :=
  let id := next_id c in
  let next := wrapping_add 64 id 1 in
  let request := JsonRpcRequest.new method params id in
  match request_to_vec request with
  | Err e => Ret (Err (ClientSerialize e), mkClient (cl_stream c) next)
  | Ok buf =>
    '(w, t) ← write_all (buf +:+ String newline EmptyString)%string (cl_stream c);
    match w with
    | Err e => Ret (Err (Io e), mkClient t next)
    | Ok _ =>
      '(f, t) ← flush t;
      match f with
      | Err e => Ret (Err (Io e), mkClient t next)
      | Ok _ =>
        '(r, t) ← read_line t;
        match r with
        | Err e => Ret (Err (Io e), mkClient t next)
        | Ok line =>
          if str_is_empty line then Ret (Err ConnectionClosed, mkClient t next)
          else match response_from_str line with
               | Ok response => Ret (Ok response, mkClient t next)
               | Err e => Ret (Err (ClientDeserialize e), mkClient t next)
               end
        end
      end
    end
  end.

End Client.

(** * Laws of the JSON library *)

(** A [null] in an optional field reads back as an absent field. *)
Definition drop_null `{Json} (o : option Value) : option Value :=
  match o with
  | Some v => if v_is_null v then None else Some v
  | None => None
  end.

Definition read_request `{Json} (r : JsonRpcRequest Value) : JsonRpcRequest Value :=
  mkRequest (rq_jsonrpc r) (rq_method r) (drop_null (rq_params r)) (rq_id r).

Definition read_error `{Json} (e : JsonRpcError Value) : JsonRpcError Value :=
  mkRpcError (err_code e) (err_message e) (drop_null (err_data e)).

Definition read_response `{Json} (r : JsonRpcResponse Value) : JsonRpcResponse Value :=
  mkResponse (rs_jsonrpc r) (drop_null (rs_result r)) (read_error <$> rs_error r) (rs_id r).

(** No line break: compact JSON escapes control characters. *)
Fixpoint no_breaks (s : string) : bool :=
  match s with
  | EmptyString => true
  | String c s =>
    negb (Ascii.eqb c newline) && negb (Ascii.eqb c carriage_return) && no_breaks s
  end.

(** The text of a message reads back as the message when its values are
    [exact]: without fractional numbers, whose text may be rounded. *)
Class JsonLaws `{Json} := {
  exact : Value -> Prop;
  exact_null : exact v_null;
  exact_string s : exact (v_string s);
  exact_u64 n : in_u 64 n -> exact (v_u64 n);
  request_text r :
    (forall v, rq_params r = Some v -> exact v) -> exact (rq_id r) ->
    exists s, request_to_vec r = Ok s /\ no_breaks s = true
      /\ request_from_str s = Ok (read_request r);
  response_text r :
    (forall v, rs_result r = Some v -> exact v) -> exact (rs_id r) ->
    (forall e, rs_error r = Some e -> err_data e = None) ->
    exists s, response_to_vec r = Ok s /\ no_breaks s = true /\ s <> ""%string
      /\ response_from_str (s +:+ String newline EmptyString)%string = Ok (read_response r);
  get_object l k :
    v_get k (v_object l) = snd <$> List.find (fun kv => String.eqb kv.1 k) l;
  as_str_string s : v_as_str (v_string s) = Some s;
  as_u64_u64 n : in_u 64 n -> v_as_u64 (v_u64 n) = Some n;
  envelope_ranges v e : envelope_from_value v = Ok e ->
    in_u 32 (max_rss_mb (resource_budget e)) /\ in_u 64 (max_tokens (resource_budget e));
  cancel_value seq source target task_id reason :
    let t := LoopTrigger.new seq source target (TkTaskCancel task_id reason) in
    exists v, trigger_to_value t = Ok v /\ trigger_from_value v = Ok t
}.

(** * Methods *)

Lemma method_roundtrip m : RpcMethod.from_str (RpcMethod.as_str m) = Some m.
Proof. by destruct m. Qed.

Lemma from_str_some s m : RpcMethod.from_str s = Some m <-> s = RpcMethod.as_str m.
Proof.
  split; [|intros ->; apply method_roundtrip].
  unfold RpcMethod.from_str.
  repeat match goal with
  | |- context [String.eqb s ?t] =>
    destruct (String.eqb_spec s t) as [->|]; [by intros [= <-]|]
  end. done.
Qed.

(** * A client and a server on one connection *)

(** The lines of a text, as [AsyncBufReadExt::lines] cuts them; [cur] is the
    line read so far. *)
Definition strip_cr (s : string) : string :=
  match String.get (String.length s - 1) s with
  | Some c => if Ascii.eqb c carriage_return
              then String.substring 0 (String.length s - 1) s else s
  | None => s
  end.

Fixpoint lines_from (cur s : string) : list string :=
  match s with
  | EmptyString => []
  | String c s =>
    if Ascii.eqb c newline then strip_cr cur :: lines_from "" s
    else lines_from (cur +:+ String c EmptyString)%string s
  end.

(** The first line of a text with its line break, as [read_line] takes it. *)
Fixpoint first_line (s : string) : string * string :=
  match s with
  | EmptyString => (""%string, ""%string)
  | String c s =>
    if Ascii.eqb c newline then (String c EmptyString, s)
    else let '(l, rest) := first_line s in (String c l, rest)
  end.

(** A stream whose other end is served by a connection task: the handler and
    the text waiting to be read. *)
Record Loopback (St : Type) := mkLoopback { lb_handler : St; lb_pending : string }.
Arguments mkLoopback {St}.
Arguments lb_handler {St}.
Arguments lb_pending {St}.

#[export] Instance loopback `{Json} {St : Type} `{!RequestHandler St}
    : Transport (Loopback St) :=
  {| write_all := fun buf t =>
       '(out, h) ← Server.connection ((fun l => Line l true) <$> lines_from "" buf)
                     (lb_handler t);
       Ret (Ok tt, mkLoopback h (lb_pending t +:+ foldr String.append "" out)%string);
     flush := fun t => Ret (Ok tt, t);
     read_line := fun t =>
       let '(l, rest) := first_line (lb_pending t) in
       Ret (Ok l, mkLoopback (lb_handler t) rest) |}.

Lemma append_nil_r s : (s +:+ "")%string = s.
Proof. induction s as [|c s IH]; [done|]. change (String c (s +:+ "") = String c s)%string.
  by rewrite IH. Qed.

Lemma append_assoc s1 s2 s3 : ((s1 +:+ s2) +:+ s3 = s1 +:+ (s2 +:+ s3))%string.
Proof.
  induction s1 as [|c s IH]; [done|].
  change (String c ((s +:+ s2) +:+ s3) = String c (s +:+ (s2 +:+ s3)))%string. by rewrite IH.
Qed.

Lemma no_breaks_app s1 s2 : no_breaks (s1 +:+ s2)%string = no_breaks s1 && no_breaks s2.
Proof.
  induction s1 as [|c s IH]; [done|].
  change (no_breaks (String c s +:+ s2)%string) with
    (negb (Ascii.eqb c newline) && negb (Ascii.eqb c carriage_return)
       && no_breaks (s +:+ s2)%string).
  rewrite IH. simpl. by rewrite andb_assoc.
Qed.

Lemma strip_cr_id s : no_breaks s = true -> strip_cr s = s.
Proof.
  intros Hs. unfold strip_cr. destruct (String.get _ s) as [c|] eqn:Hg; [|done].
  assert (forall n, String.get n s = Some c -> Ascii.eqb c carriage_return = false) as Hc.
  { clear Hg. induction s as [|d s IH]; [done|]. simpl in Hs. split_bools.
    intros [|n]; simpl; [intros [= ->]; done|by apply IH]. }
  by rewrite (Hc _ Hg).
Qed.

Lemma lines_from_line cur s :
  no_breaks (cur +:+ s)%string = true ->
  lines_from cur (s +:+ String newline EmptyString)%string = [(cur +:+ s)%string].
Proof.
  revert cur. induction s as [|c s IH]; intros cur Hs.
  - rewrite append_nil_r in *. change ([strip_cr cur] = [cur]). by rewrite strip_cr_id.
  - change (lines_from cur (String c s +:+ ?t)%string)
      with (if Ascii.eqb c newline then strip_cr cur :: lines_from "" (s +:+ t)%string
            else lines_from (cur +:+ String c EmptyString)%string (s +:+ t)%string).
    assert ((cur +:+ String c EmptyString) +:+ s = cur +:+ String c s)%string as E
      by (by rewrite append_assoc).
    assert (Ascii.eqb c newline = false) as ->.
    { rewrite no_breaks_app in Hs. simpl in Hs. by split_bools. }
    by rewrite IH; rewrite E.
Qed.

Lemma first_line_line s :
  no_breaks s = true ->
  first_line (s +:+ String newline EmptyString)%string
    = ((s +:+ String newline EmptyString)%string, ""%string).
Proof.
  induction s as [|c s IH]; [done|]. intros Hs.
  change (first_line (String c s +:+ ?t)%string)
    with (if Ascii.eqb c newline then (String c EmptyString, (s +:+ t)%string)
          else let '(l, rest) := first_line (s +:+ t)%string in (String c l, rest)).
  simpl in Hs. split_bools. rewrite H, IH by done. done.
Qed.

Section Roundtrip.
Context `{JsonLaws} {St : Type} `{!RequestHandler St}.

(** The answer to a request of a known method. *)
Definition answer (id : Value) (r : result (Z * string) Value) : JsonRpcResponse Value :=
  match r with
  | Ok result => JsonRpcResponse.success id result
  | Err (code, msg) => JsonRpcResponse.error id code msg None
  end.

Lemma response_line_text id r :
  exact id -> (forall v, r = Ok v -> exact v) ->
  exists s, Server.response_line (answer id r) = (s +:+ String newline EmptyString)%string
    /\ no_breaks s = true /\ s <> ""%string
    /\ response_from_str (s +:+ String newline EmptyString)%string
       = Ok (read_response (answer id r)).
Proof.
  intros Hid Hr.
  destruct (response_text (answer id r)) as (s & Hs & Hnb & Hne & Hp).
  - destruct r as [v|[]]; simpl; [intros ? [= <-]; by apply Hr|done].
  - by destruct r as [v|[]].
  - by destruct r as [v|[]]; simpl; [done|intros ? [= <-]].
  - exists s. unfold Server.response_line. by rewrite Hs.
Qed.

(** The request of a client arrives as one line with the same content. *)
Lemma call_line method params (c : RpcClient (Loopback St)) r h' :
  lb_pending (cl_stream c) = ""%string -> in_u 64 (next_id c) ->
  (forall v, params = Some v -> exact v) -> (forall v, r = Ok v -> exact v) ->
  (forall line, request_from_str line
      = Ok (mkRequest "2.0" method (drop_null params) (v_u64 (next_id c))) ->
    Server.process_line line (lb_handler (cl_stream c))
      = Ret (answer (v_u64 (next_id c)) r, h')) ->
  Client.call method params c
    = Ret (Ok (read_response (answer (v_u64 (next_id c)) r)),
           mkClient (mkLoopback h' "") (wrapping_add 64 (next_id c) 1)).
Proof.
  intros Hpend Hid Hpar Hr Hproc. unfold Client.call. cbv zeta.
  destruct (request_text (JsonRpcRequest.new method params (next_id c)))
    as (s & Hs & Hnb & Hp); [done|by apply exact_u64|].
  rewrite Hs. cbn [write_all loopback]. rewrite lines_from_line by done.
  cbn [fmap list_fmap Server.connection].
  change ("" +:+ s)%string with s. rewrite (Hproc s Hp), !bind_Ret. cbn [flush loopback].
  rewrite !bind_Ret. cbn [read_line loopback lb_pending lb_handler].
  rewrite Hpend. cbn [foldr].
  destruct (response_line_text (v_u64 (next_id c)) r) as (t & Ht & Hnt & Hne & Hpt);
    [by apply exact_u64|done|].
  change String.append with (@String.append). rewrite Ht.
  match goal with |- context [first_line ?x] =>
    replace x with (t +:+ String newline EmptyString)%string
      by (by rewrite (append_nil_r (t +:+ String newline EmptyString)%string)) end.
  rewrite first_line_line by done. rewrite bind_Ret.
  unfold str_is_empty. rewrite bool_decide_eq_false_2 by (by destruct t). by rewrite Hpt.
Qed.

(** C23. A call over a connection reaches the handler and brings its answer
    back. For a client of a server on an idle connection, and parameters whose
    text is exact: a call of a method the protocol knows runs the handler on
    that method and those parameters, once, and returns the handler's result
    or error under the client's own request number; a call of any other method
    returns the method-not-found error and leaves the handler alone. The
    connection is idle again, and the next call gets the next number. A null
    result arrives as an absent one. *)
Theorem rpc_roundtrip method params (c : RpcClient (Loopback St)) r h' :
  lb_pending (cl_stream c) = ""%string -> in_u 64 (next_id c) ->
  (forall v, params = Some v -> exact v) -> (forall v, r = Ok v -> exact v) ->
  match RpcMethod.from_str method with
  | Some m => rh_handle m (drop_null params) (lb_handler (cl_stream c)) = Ret (r, h')
  | None => r = Err (ERROR_METHOD_NOT_FOUND, ("Unknown method: " +:+ method)%string)
            /\ h' = lb_handler (cl_stream c)
  end ->
  Client.call method params c
    = Ret (Ok (mkResponse "2.0"
                 (match r with Ok v => drop_null (Some v) | Err _ => None end)
                 (match r with Ok _ => None | Err (code, msg) => Some (mkRpcError code msg None) end)
                 (v_u64 (next_id c))),
           mkClient (mkLoopback h' "") (wrapping_add 64 (next_id c) 1)).
Proof.
  intros Hpend Hid Hpar Hr Hm.
  rewrite (call_line method params c r h' Hpend Hid Hpar Hr); [by destruct r as [|[]]|].
  intros line Hline. unfold Server.process_line. rewrite Hline. cbn [rq_method rq_id rq_params].
  destruct (RpcMethod.from_str method) as [m|].
  - by rewrite Hm.
  - by destruct Hm as [-> ->].
Qed.

End Roundtrip.

(** * A small JSON library *)

(** Values as trees, with a text made of the binary digits of a countable
    encoding, for the values of the protocol that need no numbers beyond
    integers. It shows that the laws can hold together. *)
#[warnings="-register-all"]
Inductive jv :=
| JNull
| JString (s : string)
| JBool (b : bool)
| JU64 (n : Z)
| JF64 (x : f64)
| JObject (l : list (string * jv))
| JEnvelope (e : TaskEnvelope)
| JTrigger (t : LoopTrigger jv).

Definition jv_code (v : jv) : option (unit + string + bool + Z) :=
  match v with
  | JNull => Some (inl (inl (inl tt)))
  | JString s => Some (inl (inl (inr s)))
  | JBool b => Some (inl (inr b))
  | JU64 n => Some (inr n)
  | _ => None
  end.

Definition jv_decode (c : unit + string + bool + Z) : jv :=
  match c with
  | inl (inl (inl _)) => JNull
  | inl (inl (inr s)) => JString s
  | inl (inr b) => JBool b
  | inr n => JU64 n
  end.

Definition jv_option_code (o : option jv) : option (option (unit + string + bool + Z)) :=
  match o with None => Some None | Some v => Some <$> jv_code v end.

Definition not_null (o : option jv) : option jv :=
  match o with Some JNull => None | _ => o end.

Fixpoint pos_text (p : positive) : string :=
  match p with
  | xH => EmptyString
  | xO p => String zero_digit (pos_text p)
  | xI p => String (Ascii.ascii_of_nat 49) (pos_text p)
  end.

Fixpoint text_pos (s : string) : positive :=
  match s with
  | EmptyString => xH
  | String c s =>
    if Ascii.eqb c zero_digit then xO (text_pos s)
    else if Ascii.eqb c newline then xH else xI (text_pos s)
  end.

(** The text ends with a mark, so that it is never empty. *)
Definition code_text {A} `{Countable A} (a : A) : string := pos_text (xO (encode a)).

Definition text_code {A} `{Countable A} (s : string) : option A :=
  match text_pos s with xO p => decode p | _ => None end.

Lemma text_pos_text p : text_pos (pos_text p) = p.
Proof. induction p as [p IH|p IH|]; [| |done]; simpl; by rewrite IH. Qed.

Lemma text_pos_text_nl p : text_pos (pos_text p +:+ String newline EmptyString)%string = p.
Proof.
  induction p as [p IH|p IH|]; [| |done].
  - change (xI (text_pos (pos_text p +:+ String newline EmptyString)%string) = xI p).
    by rewrite IH.
  - change (xO (text_pos (pos_text p +:+ String newline EmptyString)%string) = xO p).
    by rewrite IH.
Qed.

Lemma pos_text_no_breaks p : no_breaks (pos_text p) = true.
Proof. induction p as [p IH|p IH|]; [..|done]; simpl; by rewrite IH. Qed.

Definition response_code (r : JsonRpcResponse jv) :
    option (string * option (unit + string + bool + Z) * option (Z * string)
            * (unit + string + bool + Z)) :=
  result ← jv_option_code (rs_result r);
  id ← jv_code (rs_id r);
  match rs_error r with
  | None => Some (rs_jsonrpc r, result, None, id)
  | Some e => match err_data e with
              | None => Some (rs_jsonrpc r, result, Some (err_code e, err_message e), id)
              | Some _ => None
              end
  end.

Definition request_code (r : JsonRpcRequest jv) :
    option (string * string * option (unit + string + bool + Z) * (unit + string + bool + Z)) :=
  params ← jv_option_code (rq_params r);
  id ← jv_code (rq_id r);
  Some (rq_jsonrpc r, rq_method r, params, id).

(** An object's field: the last of that name would be the only one; the code
    never writes two. *)
Definition jv_get (k : string) (v : jv) : option jv :=
  match v with
  | JObject l => snd <$> List.find (fun kv => String.eqb kv.1 k) l
  | _ => None
  end.

Definition in_ranges (b : ResourceBudget) : bool :=
  (0 <=? max_rss_mb b) && (max_rss_mb b <? 2 ^ 32)
  && (0 <=? max_tokens b) && (max_tokens b <? 2 ^ 64).

Definition tree_json : Json := {|
  Value := jv;
  v_null := JNull;
  v_is_null := fun v => match v with JNull => true | _ => false end;
  v_string := JString;
  v_bool := JBool;
  v_u64 := JU64;
  v_f64 := JF64;
  v_object := JObject;
  v_get := jv_get;
  v_as_str := fun v => match v with JString s => Some s | _ => None end;
  v_as_u64 := fun v => match v with JU64 n => Some n | _ => None end;
  request_from_str := fun s =>
    match text_code s with
    | Some (j, m, p, id) => Ok (mkRequest j m (not_null (jv_decode <$> p)) (jv_decode id))
    | None => Err "expected value"%string
    end;
  request_to_vec := fun r => ok_or (code_text <$> request_code r) "unsupported"%string;
  response_from_str := fun s =>
    match text_code s with
    | Some (j, r, e, id) =>
      Ok (mkResponse j (not_null (jv_decode <$> r))
            ((fun c : Z * string => mkRpcError c.1 c.2 None) <$> e) (jv_decode id))
    | None => Err "expected value"%string
    end;
  response_to_vec := fun r => ok_or (code_text <$> response_code r) "unsupported"%string;
  envelope_from_value := fun v =>
    match v with
    | JEnvelope e => if in_ranges (resource_budget e) then Ok e else Err "out of range"%string
    | _ => Err "missing field"%string
    end;
  trigger_from_value := fun v =>
    match v with JTrigger t => Ok t | _ => Err "missing field"%string end;
  trigger_to_value := fun t => Ok (JTrigger t)
|}.

Lemma jv_decode_code v c : jv_code v = Some c -> jv_decode c = v.
Proof. by destruct v; intros [= <-]. Qed.

Lemma option_code_ok (o : option jv) :
  (forall v, o = Some v -> is_Some (jv_code v)) ->
  exists c, jv_option_code o = Some c
    /\ not_null (jv_decode <$> c) = drop_null (H := tree_json) o.
Proof.
  intros Ho. destruct o as [v|]; [|by exists None].
  destruct (Ho v eq_refl) as [c Hc]. exists (Some c). simpl. rewrite Hc. split; [done|].
  simpl. rewrite (jv_decode_code v c Hc). by destruct v.
Qed.

Lemma text_code_text {A} `{Countable A} (a : A) : text_code (code_text a) = Some a.
Proof. unfold text_code, code_text. by rewrite text_pos_text, decode_encode. Qed.

Lemma text_code_text_nl {A} `{Countable A} (a : A) :
  text_code (code_text a +:+ String newline EmptyString)%string = Some a.
Proof. unfold text_code, code_text. by rewrite text_pos_text_nl, decode_encode. Qed.

Lemma tree_request_text (r : JsonRpcRequest jv) :
  (forall v, rq_params r = Some v -> is_Some (jv_code v)) -> is_Some (jv_code (rq_id r)) ->
  exists s, request_to_vec (Json := tree_json) r = Ok s /\ no_breaks s = true
    /\ request_from_str (Json := tree_json) s = Ok (read_request (H := tree_json) r).
Proof.
  intros Hp [id Hid]. destruct (option_code_ok _ Hp) as (p & Hpc & Hpd).
  assert (request_code r = Some (rq_jsonrpc r, rq_method r, p, id)) as Hc.
  { unfold request_code. rewrite Hpc. simpl. by rewrite Hid. }
  eexists. split; [unfold request_to_vec, tree_json; by rewrite Hc|].
  split; [apply pos_text_no_breaks|]. unfold request_from_str, tree_json.
  rewrite text_code_text. cbn beta iota. rewrite (jv_decode_code _ _ Hid).
  unfold read_request. f_equal. f_equal. exact Hpd.
Qed.

Lemma tree_response_text (r : JsonRpcResponse jv) :
  (forall v, rs_result r = Some v -> is_Some (jv_code v)) -> is_Some (jv_code (rs_id r)) ->
  (forall e, rs_error r = Some e -> err_data e = None) ->
  exists s, response_to_vec (Json := tree_json) r = Ok s /\ no_breaks s = true
    /\ s <> ""%string
    /\ response_from_str (Json := tree_json) (s +:+ String newline EmptyString)%string
       = Ok (read_response (H := tree_json) r).
Proof.
  destruct r as [j res err i]. cbn [rs_result rs_id rs_error]. intros Hp [id Hid] He.
  destruct (option_code_ok _ Hp) as (p & Hpc & Hpd).
  set (e := (fun e => (err_code e, err_message e)) <$> err).
  assert (response_code (mkResponse j res err i) = Some (j, p, e, id)) as Hc.
  { unfold response_code, e. cbn [rs_result rs_id rs_error rs_jsonrpc].
    rewrite Hpc. simpl. rewrite Hid. simpl. destruct err as [[code msg data]|]; [|done]. simpl.
    specialize (He _ eq_refl). simpl in He. by rewrite He. }
  eexists. split; [unfold response_to_vec, tree_json; by rewrite Hc|].
  split; [apply pos_text_no_breaks|]. split; [done|].
  unfold response_from_str, tree_json. rewrite text_code_text_nl. cbn beta iota.
  rewrite (jv_decode_code _ _ Hid). unfold read_response. f_equal. f_equal; [exact Hpd|].
  unfold e. destruct err as [[code msg data]|]; [|done]. simpl.
  specialize (He _ eq_refl). simpl in He. by rewrite He.
Qed.

Definition tree_laws : @JsonLaws tree_json.
Proof.
  refine {| exact := fun v : @Value tree_json => is_Some (jv_code v);
            request_text := tree_request_text; response_text := tree_response_text |};
    try done.
  - intros v e. unfold envelope_from_value, tree_json. destruct v as [| | | | | |e'|]; try done.
    destruct (in_ranges (resource_budget e')) eqn:E; [|done]. intros [= <-].
    unfold in_ranges, in_u in *. split_bools. lia.
  - intros seq source target task_id reason t. by exists (JTrigger t).
Defined.

Lemma rpc_roundtrip_witness :
  @Client.call tree_json (Loopback unit) (@loopback tree_json unit (@PingHandler tree_json))
    "ping" None (Client.connected (@mkLoopback unit tt ""))
  = Ret (Ok (mkResponse "2.0" (Some (JString "pong")) None (JU64 1)),
         mkClient (@mkLoopback unit tt "") 2).
Proof.
  apply (@rpc_roundtrip tree_json tree_laws unit (@PingHandler tree_json) "ping"%string None
    (Client.connected (@mkLoopback unit tt "")) (Ok (JString "pong")) tt).
  - done.
  - by split.
  - done.
  - intros v [= <-]. by eexists.
  - done.
Defined.
