(* ===== verification/Socket.v ===== *)
(** The socket file of the RPC server: the parts of src/src/dispatch/server.rs
    that touch the file system, on several servers at once.

    [serve] removes what is at its path, binds a socket there, and removes what
    is at the path again when it ends; dropping the server does so once more.
    What is removed need not be its own socket: the servers of daemons with one
    state directory share the path. *)

From S2P Require Import Prelude.

(** ** The file system, as far as sockets go *)

(** Every socket that is bound is a new file; the directories and other files
    stay as they are. [sf_dirs] are the paths that cannot be bound. *)
Record SocketFs := mkSocketFs {
  sf_sockets : gmap string nat;
  sf_next : nat;
  sf_blocked : gset string
}.

(** [std::fs::remove_file], its error ignored. *)
Definition remove_file (p : string) (fs : SocketFs) : SocketFs :=
  mkSocketFs (delete p (sf_sockets fs)) (sf_next fs) (sf_blocked fs).

(** [UnixListener::bind]: a path that is in use cannot be bound. *)
Definition bind_socket (p : string) (fs : SocketFs) : result string nat * SocketFs :=
  if bool_decide (p ∈ sf_blocked fs) then (Err "cannot create the socket"%string, fs)
  else match sf_sockets fs !! p with
       | Some _ => (Err "address in use"%string, fs)
       | None => (Ok (sf_next fs),
                  mkSocketFs (<[p := sf_next fs]> (sf_sockets fs)) (S (sf_next fs)) (sf_blocked fs))
       end.

(** ** A server *)

(** What [serve] has done, and whether the server has been dropped. [Killed]:
    the process of the server is gone, and nothing was cleaned up. *)
Inductive phase := Created | Unlinked | Listening (socket : nat) | Returned | Dropped | Killed.

#[export] Instance phase_eq_dec : EqDecision phase.
Proof. solve_decision. Defined.

Record RpcServer := mkServer { socket_path : string; sv_phase : phase }.

Module RpcServer.

Definition new (socket_path : string) : RpcServer := mkServer socket_path Created.

Definition set_phase (ph : phase) (s : RpcServer) : RpcServer := mkServer (socket_path s) ph.

(** The first thing [serve] does. *)
Definition remove_stale (s : RpcServer) (fs : SocketFs) : RpcServer * SocketFs :=
  (set_phase Unlinked s, remove_file (socket_path s) fs).

(** The second; an error ends it. *)
Definition listen (s : RpcServer) (fs : SocketFs) : RpcServer * SocketFs :=
  match bind_socket (socket_path s) fs with
  | (Ok n, fs) => (set_phase (Listening n) s, fs)
  | (Err _, fs) => (set_phase Returned s, fs)
  end.

(** The end of [serve] after the shutdown message. *)
Definition clean_up (s : RpcServer) (fs : SocketFs) : RpcServer * SocketFs :=
  (set_phase Returned s, remove_file (socket_path s) fs).

Definition drop (s : RpcServer) (fs : SocketFs) : RpcServer * SocketFs :=
  (set_phase Dropped s, remove_file (socket_path s) fs).

End RpcServer.

(** ** Several servers *)

Record world := mkWorld { w_fs : SocketFs; w_servers : list RpcServer }.

(** A server that still runs or will be dropped. *)
Definition live (s : RpcServer) : bool :=
  negb (bool_decide (sv_phase s = Dropped) || bool_decide (sv_phase s = Killed)).

(** One step of a server, by its phase. An error of [accept] ends [serve]
    without removing the socket. *)
Inductive server_step : RpcServer -> SocketFs -> RpcServer * SocketFs -> Prop :=
| sv_remove s fs : sv_phase s = Created -> server_step s fs (RpcServer.remove_stale s fs)
| sv_listen s fs : sv_phase s = Unlinked -> server_step s fs (RpcServer.listen s fs)
| sv_shutdown s fs n : sv_phase s = Listening n -> server_step s fs (RpcServer.clean_up s fs)
| sv_accept_error s fs n :
    sv_phase s = Listening n -> server_step s fs (RpcServer.set_phase Returned s, fs)
| sv_drop s fs :
    sv_phase s = Created \/ sv_phase s = Returned -> server_step s fs (RpcServer.drop s fs)
| sv_kill s fs : live s = true -> server_step s fs (RpcServer.set_phase Killed s, fs).

Inductive step (may_start : list RpcServer -> string -> Prop) : world -> world -> Prop :=
| step_server fs l i s s' fs' :
    l !! i = Some s -> server_step s fs (s', fs') ->
    step may_start (mkWorld fs l) (mkWorld fs' (<[i := s']> l))
| step_new fs l p :
    may_start l p -> step may_start (mkWorld fs l) (mkWorld fs (l ++ [RpcServer.new p])).

(** The server a client reaches at a path: the one that listens on the socket
    that is there. *)
Definition connect (p : string) (w : world) : option nat :=
  n ← sf_sockets (w_fs w) !! p;
  fst <$> list_find (fun s => sv_phase s = Listening n) (w_servers w).

(** No server that is still there uses the path. *)
Definition path_free (l : list RpcServer) (p : string) : Prop :=
  Forall (fun s => live s = true -> socket_path s <> p) l.

(** ** One server for each path *)

Record inv (w : world) : Prop := {
  iv_next p n : sf_sockets (w_fs w) !! p = Some n -> (n < sf_next (w_fs w))%nat;
  iv_inj p q n : sf_sockets (w_fs w) !! p = Some n -> sf_sockets (w_fs w) !! q = Some n -> p = q;
  iv_listen i s n : w_servers w !! i = Some s -> sv_phase s = Listening n ->
    sf_sockets (w_fs w) !! socket_path s = Some n;
  iv_unlinked i s : w_servers w !! i = Some s -> sv_phase s = Unlinked ->
    sf_sockets (w_fs w) !! socket_path s = None;
  iv_paths i j s s' : w_servers w !! i = Some s -> w_servers w !! j = Some s' ->
    live s = true -> live s' = true -> socket_path s = socket_path s' -> i = j;
  iv_owned p n : sf_sockets (w_fs w) !! p = Some n ->
    exists i s, w_servers w !! i = Some s /\ socket_path s = p
      /\ (live s = true \/ sv_phase s = Killed)
}.

(** What a step of a server may do: change the entry at its own path, to what
    its phase says, or to a new socket. *)
Record own_step (s : RpcServer) (fs : SocketFs) (s' : RpcServer) (fs' : SocketFs) : Prop := {
  os_live : live s = true;
  os_path : socket_path s' = socket_path s;
  os_other q : q <> socket_path s -> sf_sockets fs' !! q = sf_sockets fs !! q;
  os_next : (sf_next fs <= sf_next fs')%nat;
  os_value n : sf_sockets fs' !! socket_path s = Some n ->
    (sf_sockets fs !! socket_path s = Some n \/ n = sf_next fs /\ (sf_next fs < sf_next fs')%nat)
    /\ (live s' = true \/ sv_phase s' = Killed);
  os_listen n : sv_phase s' = Listening n -> sf_sockets fs' !! socket_path s = Some n;
  os_unlinked : sv_phase s' = Unlinked -> sf_sockets fs' !! socket_path s = None
}.

Lemma remove_own s fs ph :
  live s = true -> (forall n, ph <> Listening n) ->
  own_step s fs (RpcServer.set_phase ph s) (remove_file (socket_path s) fs).
Proof.
  intros Hl Hph. split; simpl; try done.
  - intros q Hq. by rewrite lookup_delete_ne.
  - intros n. by rewrite lookup_delete_eq.
  - intros n Hn. by destruct (Hph n).
  - intros _. apply lookup_delete_eq.
Qed.

Lemma leave_own s fs ph :
  live s = true -> (ph = Returned \/ ph = Killed) -> own_step s fs (RpcServer.set_phase ph s) fs.
Proof.
  intros Hl Hph. split; simpl; try done; [|by destruct Hph as [-> | ->]..].
  intros n Hn. split; [by left|]. destruct Hph as [-> | ->]; [by left|by right].
Qed.

Lemma live_phase s :
  (exists n, sv_phase s = Listening n) \/ sv_phase s = Created \/ sv_phase s = Unlinked
  \/ sv_phase s = Returned -> live s = true.
Proof. unfold live. by intros [[n ->]|[-> |[-> | ->]]]. Qed.

Lemma listen_own s fs :
  sv_phase s = Unlinked -> sf_sockets fs !! socket_path s = None ->
  own_step s fs (RpcServer.listen s fs).1 (RpcServer.listen s fs).2.
Proof.
  intros Hp Hn. pose proof (live_phase s ltac:(auto)) as Hl.
  unfold RpcServer.listen, bind_socket. case_bool_decide; [apply leave_own; auto|].
  rewrite Hn. split; simpl; try done.
  - intros q Hq. by rewrite lookup_insert_ne.
  - lia.
  - intros n. rewrite lookup_insert_eq. intros [= <-]. split; [right; split; [done|lia]|by left].
  - intros n [= <-]. apply lookup_insert_eq.
Qed.

Lemma server_step_own w i s r :
  inv w -> w_servers w !! i = Some s -> server_step s (w_fs w) r -> own_step s (w_fs w) r.1 r.2.
Proof.
  intros Hi Hl Hs. destruct w as [fs l]. simpl in *.
  destruct Hs as [s fs Hp|s fs Hp|s fs n Hp|s fs n Hp|s fs Hp|s fs Hp]; simpl.
  - apply remove_own; [apply live_phase; auto|done].
  - apply listen_own; [done|]. exact (iv_unlinked _ Hi i s Hl Hp).
  - apply remove_own; [apply live_phase; eauto|done].
  - apply leave_own; [apply live_phase; eauto|auto].
  - apply remove_own; [apply live_phase; tauto|done].
  - apply leave_own; auto.
Qed.

(** Other servers are not concerned by what happens at the path of this one. *)
Lemma inv_own fs l i s s' fs' :
  inv (mkWorld fs l) -> l !! i = Some s -> own_step s fs s' fs' ->
  inv (mkWorld fs' (<[i := s']> l)).
Proof.
  intros Hi Hl Ho. pose proof (os_other _ _ _ _ Ho) as Hother. pose proof (os_value _ _ _ _ Ho) as Hval.
  pose proof (os_next _ _ _ _ Ho) as Hnext.
  assert (forall q n, sf_sockets fs' !! q = Some n ->
    sf_sockets fs !! q = Some n \/ q = socket_path s /\ n = sf_next fs /\ (sf_next fs < sf_next fs')%nat)
    as Hold.
  { intros q n Hq. destruct (decide (q = socket_path s)) as [->|Hne].
    - destruct (Hval n Hq) as [[?|[? ?]] _]; auto.
    - left. by rewrite <- Hother. }
  assert (forall q n, sf_sockets fs !! q = Some n -> (n < sf_next fs)%nat) as Hlt by apply (iv_next _ Hi).
  assert (forall j u, <[i := s']> l !! j = Some u -> j = i /\ u = s' \/ j <> i /\ l !! j = Some u) as Hat.
  { intros j u [(<- & <- & _)|[Hne Hj]]%list_lookup_insert_Some; auto. }
  assert (forall j u, j <> i -> l !! j = Some u -> live u = true -> socket_path u <> socket_path s) as Hne.
  { intros j u Hj Hu Hlu Hp. apply Hj. exact (iv_paths _ Hi j i u s Hu Hl Hlu (os_live _ _ _ _ Ho) Hp). }
  split; simpl.
  - intros q n Hq. destruct (Hold q n Hq) as [H1|(_ & -> & ?)]; [|done]. specialize (Hlt q n H1). lia.
  - intros p q n Hp Hq. destruct (Hold p n Hp) as [H1|(-> & Hn & _)], (Hold q n Hq) as [H2|(-> & Hn' & _)];
      [by apply (iv_inj _ Hi p q n)|subst n; specialize (Hlt p _ H1); lia
      |subst n; specialize (Hlt q _ H2); lia|done].
  - intros j u n [[-> ->]|[Hj Hu]]%Hat Hp.
    + rewrite (os_path _ _ _ _ Ho). by apply (os_listen _ _ _ _ Ho).
    + rewrite Hother; [by apply (iv_listen _ Hi j)|]. apply (Hne j); [done..|].
      apply live_phase. eauto.
  - intros j u [[-> ->]|[Hj Hu]]%Hat Hp.
    + rewrite (os_path _ _ _ _ Ho). by apply (os_unlinked _ _ _ _ Ho).
    + rewrite Hother; [by apply (iv_unlinked _ Hi j)|]. apply (Hne j); [done..|].
      apply live_phase. auto.
  - intros j j' u u' [[-> ->]|[Hj Hu]]%Hat [[-> ->]|[Hj' Hu']]%Hat Hlu Hlu' Hp; [done|..].
    + destruct (Hne j' u'); [done..|]. by rewrite <- Hp, (os_path _ _ _ _ Ho).
    + destruct (Hne j u); [done..|]. by rewrite Hp, (os_path _ _ _ _ Ho).
    + by apply (iv_paths _ Hi j j' u u').
  - intros p n Hp. destruct (decide (p = socket_path s)) as [->|Hpne].
    + exists i, s'. split; [apply list_lookup_insert_eq; by eapply lookup_lt_Some|].
      split; [apply (os_path _ _ _ _ Ho)|]. by apply (Hval n).
    + rewrite Hother in Hp by done. destruct (iv_owned _ Hi p n Hp) as (j & u & Hu & Hup & Hcase).
      exists j, u. split; [|done]. rewrite list_lookup_insert_ne; [done|]. intros ->.
      simpl in Hu. rewrite Hl in Hu. by injection Hu as <-.
Qed.

Lemma inv_new fs l p :
  inv (mkWorld fs l) -> path_free l p -> inv (mkWorld fs (l ++ [RpcServer.new p])).
Proof.
  intros Hi Hp.
  assert (forall j u, (l ++ [RpcServer.new p]) !! j = Some u ->
    l !! j = Some u \/ j = length l /\ u = RpcServer.new p) as Hat.
  { intros j u [Hj|[Hj Hu]]%lookup_app_Some; [by left|right].
    apply list_lookup_singleton_Some in Hu as [? <-]. split; [lia|done]. }
  assert (forall j u, l !! j = Some u -> live u = true -> socket_path u <> p) as Hne.
  { intros j u Hu. exact (Forall_lookup_1 _ _ _ _ Hp Hu). }
  split; simpl.
  - apply (iv_next _ Hi).
  - apply (iv_inj _ Hi).
  - intros j u n [Hu|[-> ->]]%Hat Hn; [by apply (iv_listen _ Hi j)|done].
  - intros j u [Hu|[-> ->]]%Hat Hn; [by apply (iv_unlinked _ Hi j)|done].
  - intros j j' u u' [Hu|[-> ->]]%Hat [Hu'|[-> ->]]%Hat Hlu Hlu' Hpp; [by apply (iv_paths _ Hi j j' u u')|..|done].
    + by destruct (Hne j u).
    + by destruct (Hne j' u').
  - intros q n Hq. destruct (iv_owned _ Hi q n Hq) as (j & u & Hu & Hcase).
    exists j, u. split; [by apply lookup_app_l_Some|done].
Qed.

Lemma world_step_inv w w' : step path_free w w' -> inv w -> inv w'.
Proof.
  intros Hs Hi. destruct Hs as [fs l i s s' fs' Hl Hs|fs l p Hp]; [|by apply inv_new].
  eapply inv_own; [done|done|]. exact (server_step_own (mkWorld fs l) i s (s', fs') Hi Hl Hs).
Qed.

Lemma world_steps_inv w w' : rtc (step path_free) w w' -> inv w -> inv w'.
Proof. induction 1; eauto using world_step_inv. Qed.

Lemma inv_start next blocked : inv (mkWorld (mkSocketFs ∅ next blocked) []).
Proof. by split. Qed.

(** Two servers do not listen on one socket. *)
Lemma listener_unique w i j s s' n :
  inv w -> w_servers w !! i = Some s -> w_servers w !! j = Some s' ->
  sv_phase s = Listening n -> sv_phase s' = Listening n -> i = j.
Proof.
  intros Hi Hs Hs' Hn Hn'. apply (iv_paths _ Hi i j s s'); [done|done|apply live_phase; eauto..|].
  apply (iv_inj _ Hi _ _ n); [by apply (iv_listen _ Hi i)|by apply (iv_listen _ Hi j)].
Qed.

Lemma connect_some p w i :
  connect p w = Some i <->
  exists n s, sf_sockets (w_fs w) !! p = Some n /\ w_servers w !! i = Some s
    /\ sv_phase s = Listening n
    /\ forall j s', w_servers w !! j = Some s' -> (j < i)%nat -> sv_phase s' <> Listening n.
Proof.
  unfold connect. destruct (sf_sockets (w_fs w) !! p) as [n|]; simpl;
    [|split; [done|by intros (n & s & ? & _)]].
  destruct (list_find _ (w_servers w)) as [[i' s]|] eqn:Hf; simpl.
  - apply list_find_Some in Hf as (Hs & Hn & Hbefore). split.
    + intros [= ->]. exists n, s. by split_and!.
    + intros (n' & s' & [= <-] & Hs' & Hn' & Hb'). f_equal.
      destruct (lt_eq_lt_dec i i') as [[Hlt| ->]|Hlt]; [by destruct (Hbefore i s')|done|].
      by destruct (Hb' i' s).
  - split; [done|]. intros (n' & s' & [= <-] & Hs' & Hn' & _). apply list_find_None in Hf.
    by destruct (Forall_lookup_1 _ _ _ _ Hf Hs').
Qed.

(** * Properties *)

(** C26. A server keeps its socket as long as no other uses its path. Whatever
    servers start at paths that no running server uses, listen, end, fail, are
    dropped or killed: a server that listens is the one that clients reach at
    its path, and clients reach no other there; a socket that a killed server
    left behind does not keep the next one from listening; and no file is left
    at a path but by a server that still runs or was killed. *)
Theorem socket_reachable next blocked w :
  rtc (step path_free) (mkWorld (mkSocketFs ∅ next blocked) []) w ->
  (forall i s n, w_servers w !! i = Some s -> sv_phase s = Listening n ->
     connect (socket_path s) w = Some i)
  /\ (forall p i, connect p w = Some i -> exists s n, w_servers w !! i = Some s
        /\ socket_path s = p /\ sv_phase s = Listening n)
  /\ (forall i s, w_servers w !! i = Some s -> sv_phase s = Unlinked ->
        socket_path s ∉ sf_blocked (w_fs w) ->
        exists n, sv_phase (RpcServer.listen s (w_fs w)).1 = Listening n)
  /\ (forall p n, sf_sockets (w_fs w) !! p = Some n -> exists i s, w_servers w !! i = Some s
        /\ socket_path s = p /\ (live s = true \/ sv_phase s = Killed)).
Proof.
  intros Hr. pose proof (world_steps_inv _ _ Hr (inv_start next blocked)) as Hi. split_and!.
  - intros i s n Hs Hn. apply connect_some. exists n, s. split; [by apply (iv_listen _ Hi i)|].
    split; [done|]. split; [done|]. intros j s' Hs' Hlt Hn'.
    pose proof (listener_unique w i j s s' n Hi Hs Hs' Hn Hn'). lia.
  - intros p i (n & s & Hp & Hs & Hn & _)%connect_some. exists s, n. split; [done|]. split; [|done].
    apply (iv_inj _ Hi _ _ n); [by apply (iv_listen _ Hi i)|done].
  - intros i s Hs Hu Hb. exists (sf_next (w_fs w)). unfold RpcServer.listen, bind_socket.
    rewrite bool_decide_false by done. by rewrite (iv_unlinked _ Hi i s Hs Hu).
  - intros p n. apply (iv_owned _ Hi).
Qed.

(** A server is made at the path and starts to listen. *)
Definition bound (p : string) (fs : SocketFs) : SocketFs :=
  mkSocketFs (<[p := sf_next fs]> (delete p (sf_sockets fs))) (S (sf_next fs)) (sf_blocked fs).

Lemma start_listening (may_start : list RpcServer -> string -> Prop) fs l p :
  may_start l p -> p ∉ sf_blocked fs ->
  rtc (step may_start) (mkWorld fs l)
    (mkWorld (bound p fs) (l ++ [mkServer p (Listening (sf_next fs))])).
Proof.
  intros Hm Hp. eapply rtc_l; [by apply step_new|].
  assert (forall s, (l ++ [s]) !! length l = Some s) as Hl
    by (intros s; by rewrite lookup_app_r, Nat.sub_diag by lia).
  assert (forall s s' : RpcServer, <[length l := s']> (l ++ [s]) = l ++ [s']) as Hi.
  { intros s s'. by rewrite insert_app_r_alt, Nat.sub_diag by lia. }
  eapply rtc_l; [eapply step_server; [apply Hl|by apply sv_remove]|]. rewrite Hi.
  eapply rtc_l; [|apply rtc_refl].
  replace (l ++ [mkServer p (Listening (sf_next fs))]) with
    (<[length l := mkServer p (Listening (sf_next fs))]> (l ++ [mkServer p Unlinked])) by apply Hi.
  eapply step_server; [apply Hl|].
  replace (_, _) with (RpcServer.listen (mkServer p Unlinked) (remove_file p fs));
    [by apply sv_listen|].
  unfold RpcServer.listen, bind_socket. simpl. rewrite bool_decide_false by done.
  by rewrite lookup_delete_eq.
Qed.

(** Two servers at one path get in each other's way. The second takes the path
    from the first, and when the first ends, it removes the socket of the
    second, which goes on listening where no client can reach it. *)
Theorem socket_taken p next blocked :
  p ∉ blocked ->
  exists w1 w2, rtc (step (fun _ _ => True)) (mkWorld (mkSocketFs ∅ next blocked) []) w1
    /\ w_servers w1 = [mkServer p (Listening next); mkServer p (Listening (S next))]
    /\ connect p w1 = Some 1%nat
    /\ step (fun _ _ => True) w1 w2
    /\ w_servers w2 = [mkServer p Returned; mkServer p (Listening (S next))]
    /\ connect p w2 = None.
Proof.
  intros Hp. set (fs0 := mkSocketFs ∅ next blocked).
  pose proof (start_listening (fun _ _ => True) fs0 [] p I Hp) as H1.
  pose proof (start_listening (fun _ _ => True) (bound p fs0) [mkServer p (Listening next)] p I Hp) as H2.
  eexists _, (mkWorld (remove_file p (bound p (bound p fs0)))
    [mkServer p Returned; mkServer p (Listening (S next))]).
  split; [etransitivity; [exact H1|exact H2]|]. split; [done|].
  split; [|split; [|split; [done|]]].
  - apply connect_some. exists (S next), (mkServer p (Listening (S next))).
    split_and!; [apply lookup_insert_eq|done|done|].
    intros [|j] s Hs Hj; [injection Hs as <-; simpl; intros [=]; lia|lia].
  - refine (step_server _ _ [mkServer p (Listening next); mkServer p (Listening (S next))] 0
      (mkServer p (Listening next)) (mkServer p Returned) _ eq_refl _).
    by apply (sv_shutdown (mkServer p (Listening next)) _ next).
  - unfold connect. simpl. by rewrite lookup_delete_eq.
Qed.

(** * Witnesses *)

(** A server is killed, and the next one listens at its path. *)
Lemma socket_reachable_witness :
  exists w, rtc (step path_free) (mkWorld (mkSocketFs ∅ 0 ∅) []) w
    /\ w_servers w = [mkServer "kernel.sock" Killed; mkServer "kernel.sock" (Listening 1)]
    /\ connect "kernel.sock" w = Some 1%nat.
Proof.
  set (k := "kernel.sock"%string). set (fs := mkSocketFs ∅ 0 ∅).
  set (w := mkWorld (bound k (bound k fs)) [mkServer k Killed; mkServer k (Listening 1)]).
  assert (Hw : rtc (step path_free) (mkWorld fs []) w).
  { etransitivity; [apply (start_listening path_free fs [] k); [constructor|set_solver]|].
    eapply rtc_l; [by refine (step_server _ _ [_] 0 _ (mkServer k Killed) _ eq_refl _); apply (sv_kill (mkServer k _))|].
    apply (start_listening path_free (bound k fs) [mkServer k Killed] k); [by repeat constructor|set_solver]. }
  exists w. split; [exact Hw|]. split; [done|].
  by apply (proj1 (socket_reachable _ _ _ Hw) 1%nat (mkServer k (Listening 1)) 1%nat).
Defined.
