(* ===== verification/Handler.v ===== *)
(** The kernel's request handler: src/src/supervisor/handler.rs.

    The handler owns nothing: it works on the supervisor, the governor, the
    task registry and the state store, here the fields of [KernelState]. The store
    is any implementation of [StateStore]. One request is one step, which
    System.v interleaves with the other tasks of the daemon. [clock] gives the
    successive readings of the monotonic clock while one request is handled: the
    first for the health report, the next ones for the writes to the store. *)

From S2P Require Import Prelude F64 Envelope Governor Supervisor Store Rpc.

(** * The registry of tasks *)

(** [TaskRegistry]: the socket path of every active Loop 1 task. *)
Abbreviation TaskRegistry := (gmap string string) (only parsing).

Module TaskRegistry.

Definition new : TaskRegistry := ∅.

Definition register (task_id socket_path : string) (r : TaskRegistry) : TaskRegistry :=
  <[task_id := socket_path]> r.

Definition remove (task_id : string) (r : TaskRegistry) : option string * TaskRegistry :=
  (r !! task_id, delete task_id r).

Definition get (task_id : string) (r : TaskRegistry) : option string := r !! task_id.

Definition active_count (r : TaskRegistry) : nat := size r.

End TaskRegistry.

(** * The kernel's state *)

Record KernelState (S : Type) := mkKernel {
  k_supervisor : KernelSupervisor;
  k_governor : ResourceGovernor;
  task_registry : TaskRegistry;
  state_store : S;
  lock_poisoned : bool;
  trigger_seq : Z
}.
Arguments mkKernel {S}.
Arguments k_supervisor {S}.
Arguments k_governor {S}.
Arguments task_registry {S}.
Arguments state_store {S}.
Arguments lock_poisoned {S}.
Arguments trigger_seq {S}.

Abbreviation response J := (result (Z * string) (@Value J)).

Module Handler.
Section Ops.
Context `{BuildProfile} `{HashOrder} `{J : Json} {S : Type} `{StateStore S}.
Implicit Types k : KernelState S.

Definition new (supervisor : KernelSupervisor) (governor : ResourceGovernor)
    (registry : TaskRegistry) (store : S) : KernelState S :=
  mkKernel supervisor governor registry store false 1.

Definition set_supervisor (s : KernelSupervisor) k : KernelState S :=
  mkKernel s (k_governor k) (task_registry k) (state_store k) (lock_poisoned k)
    (trigger_seq k).

Definition set_governor (g : ResourceGovernor) k : KernelState S :=
  mkKernel (k_supervisor k) g (task_registry k) (state_store k) (lock_poisoned k)
    (trigger_seq k).

Definition set_registry (r : TaskRegistry) k : KernelState S :=
  mkKernel (k_supervisor k) (k_governor k) r (state_store k) (lock_poisoned k)
    (trigger_seq k).

Definition set_store (s : S) k : KernelState S :=
  mkKernel (k_supervisor k) (k_governor k) (task_registry k) s (lock_poisoned k)
    (trigger_seq k).

Definition next_seq k : Z * KernelState S :=
  (trigger_seq k,
   mkKernel (k_supervisor k) (k_governor k) (task_registry k) (state_store k)
     (lock_poisoned k) (wrapping_add 64 (trigger_seq k) 1)).

(** [params.get(key).and_then(as_str).ok_or(missing key)]. *)
Definition str_param (key : string) (params : Value) : result (Z * string) string :=
  ok_or (v ← v_get key params; v_as_str v)
    (ERROR_INVALID_PARAMS, ("missing " +:+ key)%string).

Definition require_params (params : option Value) : result (Z * string) Value :=
  ok_or params (ERROR_INVALID_PARAMS, "missing params"%string).

Definition unknown_task (task_id : string) : string := ("unknown task_id: " +:+ task_id)%string.

Definition handle_task_progress (params : option Value) k : response J :=
  params ← require_params params;
  task_id ← str_param "task_id" params;
  _dag_id ← str_param "dag_id" params;
  _phase ← str_param "phase" params;
  match TaskRegistry.get task_id (task_registry k) with
  | None => Err (ERROR_PERMISSION_DENIED, unknown_task task_id)
  | Some _ =>
    Ok (v_object [("status", v_string "acknowledged"); ("task_id", v_string task_id)]%string)
  end.

(** The parameters of [task.complete]: the task and the tokens it used. *)
Definition complete_params (params : option Value) : result (Z * string) (string * Z) :=
  params ← require_params params;
  task_id ← str_param "task_id" params;
  _dag_id ← str_param "dag_id" params;
  let tokens_used := default 0 (v ← v_get "tokens_used" params; v_as_u64 v) in
  Ok (task_id, tokens_used).

Definition handle_task_complete (params : option Value) k : response J * KernelState S :=
  match complete_params params with
  | Err e => (Err e, k)
  | Ok (task_id, tokens_used) =>
    let '(socket_path, registry) := TaskRegistry.remove task_id (task_registry k) in
    let k := set_registry registry k in
    match socket_path with
    | None => (Err (ERROR_PERMISSION_DENIED, unknown_task task_id), k)
    | Some _ =>
      let g := Governor.task_ended P1Normal 0 (k_governor k) in
      let g := if 0 <? tokens_used then Governor.tokens_used P1Normal tokens_used g else g in
      (Ok (v_object [("status", v_string "completed"); ("task_id", v_string task_id)]%string),
       set_governor g k)
    end
  end.

(** The envelope of [task.submit], parsed and validated. *)
Definition submit_params (params : option Value) : result (Z * string) TaskEnvelope :=
  params ← require_params params;
  match envelope_from_value params with
  | Err e => Err (ERROR_INVALID_PARAMS, ("invalid TaskEnvelope: " +:+ e)%string)
  | Ok envelope =>
    match Envelope.validate envelope with
    | Err e => Err (ERROR_INVALID_PARAMS,
        ("envelope validation failed: " +:+ display_envelope_error e)%string)
    | Ok _ => Ok envelope
    end
  end.

Definition handle_task_submit (params : option Value) k : outcome (response J * KernelState S) :=
  match submit_params params with
  | Err e => Ret (Err e, k)
  | Ok envelope =>
    let p := priority envelope in
    let rss_mb := max_rss_mb (resource_budget envelope) in
    decision ← Governor.check_admission (k_governor k) p rss_mb
                 (cast_u 64 (max_tokens (resource_budget envelope)));
    match decision with
    | Queued reason =>
      Ret (Ok (v_object [("status", v_string "queued");
                         ("task_id", v_string (task_id envelope));
                         ("reason", v_string reason)]%string), k)
    | Throttled reason =>
      Ret (Err (ERROR_BUDGET_EXCEEDED, ("throttled: " +:+ reason)%string), k)
    | Shed reason =>
      Ret (Err (ERROR_BUDGET_EXCEEDED, ("shed: " +:+ reason)%string), k)
    | TaskAdmitted =>
      Ret (Ok (v_object [("status", v_string "admitted");
                         ("task_id", v_string (task_id envelope))]%string),
           set_governor (Governor.task_started p rss_mb (k_governor k)) k)
    end
  end.

Definition process_running (id : ProcessId) (h : HealthStatus) : bool :=
  existsb (fun p => bool_decide (ph_id p = id) && bool_decide (ph_state p = Running))
    (active_processes h).

Definition not_running (role : string) (id : ProcessId) : response J :=
  Err (ERROR_PERMISSION_DENIED,
    (role +:+ " process " +:+ debug_process id +:+ " is not running")%string).

(** One write of a finished meta cycle; an error ends the request. *)
Definition persist (now : Instant) (key : string) (value : string) k
    : outcome (result (Z * string) unit * KernelState S) :=
  '(r, s) ← ss_put now key (String.list_byte_of_string value) (state_store k);
  Ret (match r with
       | Ok _ => Ok tt
       | Err e => Err (ERROR_INTERNAL,
           ("state store write failed: " +:+ display_store_error e)%string)
       end, set_store s k).

Definition then_persist (now : Instant) (key : string) (value : string)
    (m : outcome (result (Z * string) unit * KernelState S))
    : outcome (result (Z * string) unit * KernelState S) :=
  '(r, k) ← m;
  match r with Ok _ => persist now key value k | Err e => Ret (Err e, k) end.

Definition meta_cycle_complete (clock : nat -> Instant) (cycle_id : string)
    (policy_changed : bool) (drift_score : f64) k : outcome (response J * KernelState S) :=
  if lock_poisoned k then
    Ret (Err (ERROR_INTERNAL, "state store lock poisoned: poisoned lock: another task failed inside"%string), k)
  else
    let m := persist (clock 1%nat) "sie/identity/last_drift" (display_f64 drift_score) k in
    let m := then_persist (clock 2%nat) "sie/meta/last_cycle" cycle_id m in
    let m := if policy_changed then then_persist (clock 3%nat) "sie/policy/head" cycle_id m
             else m in
    '(r, k) ← m;
    Ret (match r with
         | Err e => Err e
         | Ok _ =>
           Ok (v_object [("status", v_string "persisted");
                         ("cycle_id", v_string cycle_id);
                         ("drift_score", v_f64 drift_score);
                         ("policy_updated", v_bool policy_changed)]%string)
         end, k).

(** The part of [handle_loop_trigger] after the processes are checked. *)
Definition route (clock : nat -> Instant) (t : LoopTrigger Value) k
    : outcome (response J * KernelState S) :=
  match lt_kind t with
  | MetaCycleRequest _ =>
    let '(seq, k) := next_seq k in
    Ret (Ok (v_object [("status", v_string "authorized");
                       ("cycle_id", v_string ("cycle-" +:+ display_int seq))]%string), k)
  | MetaCycleComplete cycle_id policy_changed drift_score =>
    meta_cycle_complete clock cycle_id policy_changed drift_score k
  | TkTaskCancel task_id _ =>
    Ret (match TaskRegistry.get task_id (task_registry k) with
         | Some _ =>
           Ok (v_object [("status", v_string "cancel_forwarded");
                         ("task_id", v_string task_id)]%string)
         | None => Err (ERROR_INVALID_PARAMS, unknown_task task_id)
         end, k)
  | _ =>
    Ret (Ok (v_object [("status", v_string "routed");
                       ("seq", v_u64 (lt_seq t));
                       ("target", v_string (debug_process (lt_target t)))]%string), k)
  end.

Definition handle_loop_trigger (clock : nat -> Instant) (params : option Value) k
    : outcome (response J * KernelState S) :=
  match require_params params with
  | Err e => Ret (Err e, k)
  | Ok params =>
    match trigger_from_value params with
    | Err e => Ret (Err (ERROR_INVALID_PARAMS, ("invalid LoopTrigger: " +:+ e)%string), k)
    | Ok t =>
      let '(health, s) := Supervisor.health (clock 0%nat) (k_supervisor k) in
      let k := set_supervisor s k in
      if negb (process_running (lt_source t) health) then
        Ret (not_running "source" (lt_source t), k)
      else if negb (bool_decide (lt_target t = Kernel))
              && negb (process_running (lt_target t) health) then
        Ret (not_running "target" (lt_target t), k)
      else route clock t k
    end
  end.

(** The parameters of [task.cancel]: the task and the reason. *)
Definition cancel_params (params : option Value) : result (Z * string) (string * string) :=
  params ← require_params params;
  task_id ← str_param "task_id" params;
  let reason := default "requested"%string (v ← v_get "reason" params; v_as_str v) in
  Ok (task_id, reason).

Definition handle_task_cancel (clock : nat -> Instant) (params : option Value) k
    : outcome (response J * KernelState S) :=
  match cancel_params params with
  | Err e => Ret (Err e, k)
  | Ok (task_id, reason) =>
    let '(seq, k) := next_seq k in
    let trigger := LoopTrigger.new seq Kernel Loop1Agentic (TkTaskCancel task_id reason) in
    match trigger_to_value trigger with
    | Err e => Ret (Err (ERROR_INTERNAL, ("serialization error: " +:+ e)%string), k)
    | Ok v => handle_loop_trigger clock (Some v) k
    end
  end.

Definition handle (clock : nat -> Instant) (method : RpcMethod) (params : option Value) k
    : outcome (response J * KernelState S) :=
  match method with
  | Ping => Ret (Ok (v_string "pong"), k)
  | TaskSubmit => handle_task_submit params k
  | TaskProgress => Ret (handle_task_progress params k, k)
  | TaskComplete => Ret (handle_task_complete params k)
  | TaskCancel => handle_task_cancel clock params k
  | MLoopTrigger => handle_loop_trigger clock params k
  end.

End Ops.
End Handler.

(** The kernel serves the connections of [Rpc]. *)
Definition kernel_handler `{BuildProfile} `{HashOrder} `{J : Json} {S : Type} `{StateStore S}
    (clock : nat -> Instant) : RequestHandler (KernelState S) :=
  {| rh_handle := Handler.handle clock |}.

(** * Frames: what an operation leaves alone *)

Section Frames.
Context `{BuildProfile} `{HashOrder} `{JL : JsonLaws} {S : Type} `{StateStore S}.
Implicit Types k : KernelState S.

(** The two states have the same governor and the same tasks. *)
Definition same_work k k' : Prop :=
  k_governor k' = k_governor k /\ task_registry k' = task_registry k.

#[export] Instance same_work_preorder : PreOrder same_work.
Proof. split; [done|]. intros k1 k2 k3 [? ?] [? ?]. split; congruence. Qed.

Lemma persist_frame now key value k r k' :
  Handler.persist now key value k = Ret (r, k') ->
  same_work k k' /\ k_supervisor k' = k_supervisor k
  /\ lock_poisoned k' = lock_poisoned k /\ trigger_seq k' = trigger_seq k.
Proof.
  unfold Handler.persist. destruct (ss_put _ _ _ _) as [[r0 s]|]; [|done].
  by intros [= <- <-].
Qed.

Lemma then_persist_frame now key value k m r k' :
  (forall r0 k0, m = Ret (r0, k0) -> same_work k k0) ->
  Handler.then_persist now key value m = Ret (r, k') -> same_work k k'.
Proof.
  intros Hm. unfold Handler.then_persist. destruct m as [[r0 k0]|]; [|done].
  specialize (Hm _ _ eq_refl). rewrite bind_Ret. destruct r0 as [u|e].
  - intros Hp. apply persist_frame in Hp as [Hp _]. by transitivity k0.
  - by intros [= <- <-].
Qed.

Lemma meta_cycle_frame clock id changed drift k r k' :
  Handler.meta_cycle_complete clock id changed drift k = Ret (r, k') -> same_work k k'.
Proof.
  unfold Handler.meta_cycle_complete. destruct (lock_poisoned k); [by intros [= <- <-]|].
  cbv zeta.
  match goal with |- (?m ≫= _) = _ -> _ => destruct m as [[r0 k0]|] eqn:Hm; [|done] end.
  intros [= _ <-]. destruct changed.
  - apply (then_persist_frame _ _ _ k) in Hm; [done|]. intros ? ? Hm2.
    apply (then_persist_frame _ _ _ k) in Hm2; [done|]. intros ? ? Hm3. by apply persist_frame in Hm3 as [? _].
  - apply (then_persist_frame _ _ _ k) in Hm; [done|]. intros ? ? Hm3. by apply persist_frame in Hm3 as [? _].
Qed.

Lemma route_frame clock t k r k' : Handler.route clock t k = Ret (r, k') -> same_work k k'.
Proof.
  unfold Handler.route. destruct (lt_kind t); try by intros [= <- <-].
  intros Hm. by apply meta_cycle_frame in Hm.
Qed.

Lemma loop_trigger_frame clock params k r k' :
  Handler.handle_loop_trigger clock params k = Ret (r, k') -> same_work k k'.
Proof.
  unfold Handler.handle_loop_trigger. destruct (Handler.require_params params) as [v|e];
    [|by intros [= <- <-]].
  destruct (trigger_from_value v) as [t|e]; [|by intros [= <- <-]].
  destruct (Supervisor.health _ _) as [h s].
  destruct (negb _); [by intros [= <- <-]|].
  destruct (_ && _); [by intros [= <- <-]|].
  intros Hr. by apply route_frame in Hr.
Qed.

Lemma task_cancel_frame clock params k r k' :
  Handler.handle_task_cancel clock params k = Ret (r, k') -> same_work k k'.
Proof.
  unfold Handler.handle_task_cancel. destruct (Handler.cancel_params params) as [[id reason]|e];
    [|by intros [= <- <-]].
  cbv beta iota zeta delta [Handler.next_seq].
  destruct (trigger_to_value _) as [v|e]; [|by intros [= <- <-]].
  intros Hr. by apply loop_trigger_frame in Hr.
Qed.

(** What a submission does to the governor. *)
Definition governor_effect (g g' : ResourceGovernor) : Prop :=
  g' = g \/ exists p rss_mb tokens, in_u 32 rss_mb /\ in_u 64 tokens
    /\ Governor.check_admission g p rss_mb tokens = Ret TaskAdmitted
    /\ g' = Governor.task_started p rss_mb g.

Lemma submit_params_spec params e :
  Handler.submit_params params = Ok e ->
  Envelope.validate e = Ok tt /\ in_u 32 (max_rss_mb (resource_budget e))
  /\ in_u 64 (max_tokens (resource_budget e)).
Proof.
  unfold Handler.submit_params. destruct params as [v|]; [|done]. simpl.
  destruct (envelope_from_value v) as [e'|] eqn:He; [|done].
  destruct (Envelope.validate e') as [[]|] eqn:Hv; [|done].
  intros [= <-]. split; [done|]. by apply (envelope_ranges v).
Qed.

Lemma task_submit_effect params k r k' :
  Handler.handle_task_submit params k = Ret (r, k') ->
  task_registry k' = task_registry k /\ governor_effect (k_governor k) (k_governor k').
Proof.
  unfold Handler.handle_task_submit.
  destruct (Handler.submit_params params) as [e|] eqn:Hp;
    [|intros [= <- <-]; split; [done|by left]].
  apply submit_params_spec in Hp as (_ & Hr & Ht). rewrite cast_u_id by done. cbv zeta.
  destruct (Governor.check_admission _ _ _ _) as [d|] eqn:Hd; [|done]. rewrite bind_Ret.
  destruct d; intros [= <- <-]; (split; [done|]); [|by left..].
  right. by exists (priority e), (max_rss_mb (resource_budget e)),
    (max_tokens (resource_budget e)).
Qed.

(** Completing a task that is not registered. *)
Lemma task_complete_unknown params k :
  task_registry k = ∅ ->
  exists e k', Handler.handle_task_complete params k = (Err e, k') /\ same_work k k'.
Proof.
  intros Hreg. unfold Handler.handle_task_complete.
  destruct (Handler.complete_params params) as [[id tokens]|e]; [|by exists e, k].
  unfold TaskRegistry.remove. rewrite Hreg, lookup_empty. eexists _, _. split; [done|].
  split; [done|]. simpl. by rewrite Hreg, delete_empty.
Qed.

Lemma task_progress_unknown params k :
  task_registry k = ∅ -> exists e, Handler.handle_task_progress params k = Err e.
Proof.
  intros Hreg. unfold Handler.handle_task_progress.
  destruct (Handler.require_params params) as [v|e]; [|by exists e]. cbn.
  destruct (Handler.str_param "task_id" v) as [id|e]; [|by exists e]. cbn.
  destruct (Handler.str_param "dag_id" v) as [dag|e]; [|by exists e]. cbn.
  destruct (Handler.str_param "phase" v) as [phase|e]; [|by exists e]. cbn.
  unfold TaskRegistry.get. rewrite Hreg, lookup_empty. by eexists.
Qed.

Lemma cancel_trigger_unknown clock seq source target id reason v k r k' :
  trigger_from_value v = Ok (LoopTrigger.new seq source target (TkTaskCancel id reason)) ->
  task_registry k = ∅ ->
  Handler.handle_loop_trigger clock (Some v) k = Ret (r, k') -> exists e, r = Err e.
Proof.
  intros Hv Hreg. unfold Handler.handle_loop_trigger. cbn [Handler.require_params ok_or].
  rewrite Hv. destruct (Supervisor.health _ _) as [h s].
  destruct (negb _); [intros [= <- <-]; by eexists|].
  destruct (_ && _); [intros [= <- <-]; by eexists|].
  unfold Handler.route. cbn [lt_kind LoopTrigger.new]. unfold TaskRegistry.get. cbn.
  rewrite Hreg, lookup_empty. intros [= <- <-]. by eexists.
Qed.

Lemma task_cancel_unknown clock params k r k' :
  task_registry k = ∅ -> Handler.handle_task_cancel clock params k = Ret (r, k') ->
  exists e, r = Err e.
Proof.
  intros Hreg. unfold Handler.handle_task_cancel.
  destruct (Handler.cancel_params params) as [[id reason]|e]; [|intros [= <- <-]; by eexists].
  cbv beta iota zeta delta [Handler.next_seq].
  destruct (cancel_value (trigger_seq k) Kernel Loop1Agentic id reason) as (v & Hv & Hr).
  rewrite Hv. by apply (cancel_trigger_unknown _ _ _ _ _ _ _ _ _ _ Hr).
Qed.

(** One request, when no task is registered. *)
Lemma handle_effect clock m params k r k' :
  task_registry k = ∅ -> Handler.handle clock m params k = Ret (r, k') ->
  task_registry k' = ∅ /\ governor_effect (k_governor k) (k_governor k').
Proof.
  intros Hreg Hh.
  assert (same_work k k' -> task_registry k' = ∅
            /\ governor_effect (k_governor k) (k_governor k')) as Hsame.
  { intros [Hg Hr]. split; [congruence|]. by left. }
  destruct m; simpl in Hh.
  - apply task_submit_effect in Hh as [Hr Hg]. split; [congruence|done].
  - injection Hh as <- <-. by apply Hsame.
  - destruct (task_complete_unknown params k Hreg) as (e & k0 & Hc & Hs).
    rewrite Hc in Hh. injection Hh as <- <-. by apply Hsame.
  - apply Hsame. by apply task_cancel_frame in Hh.
  - apply Hsame. by apply loop_trigger_frame in Hh.
  - injection Hh as <- <-. by apply Hsame.
Qed.

End Frames.

(** * The kernel at work *)

(** The steps of the kernel after start: a request is handled (by the handler
    of one connection), the health loop reports the memory pressure, or the
    supervisor changes the state of processes. *)
Inductive kstep `{BuildProfile} `{HashOrder} `{J : Json} {S : Type} `{StateStore S}
    : KernelState S -> KernelState S -> Prop :=
| step_request clock m params k r k' :
    Handler.handle clock m params k = Ret (r, k') -> kstep k k'
| step_pressure level k :
    kstep k (Handler.set_governor (Governor.update_pressure level (k_governor k)) k)
| step_supervisor s k : kstep k (Handler.set_supervisor s k).

(** The number of tasks that tier [p] counts as running. *)
Definition active {S} (p : Priority) (k : KernelState S) : Z :=
  active_tasks (usage_of (k_governor k) p).

Section Work.
Context `{BuildProfile} `{HashOrder} `{JL : JsonLaws} {S : Type} `{StateStore S}.
Implicit Types k : KernelState S.

(** No task is registered, and the governor counts the tasks it admitted. *)
Definition work_inv k : Prop :=
  task_registry k = ∅ /\ exists l, Tracking.inv (Tracking.mkSys (k_governor k) l).

Lemma governor_effect_inv g g' l :
  governor_effect g g' -> Tracking.inv (Tracking.mkSys g l) ->
  exists l', Tracking.inv (Tracking.mkSys g' l')
    /\ forall p, active_tasks (usage_of g p) <= active_tasks (usage_of g' p).
Proof.
  intros [->|(p & rss_mb & tokens & Hr & Ht & Hd & ->)] Hinv; [by exists l|].
  exists ((p, rss_mb) :: l).
  assert (Tracking.inv (Tracking.mkSys (Governor.task_started p rss_mb g) ((p, rss_mb) :: l)))
    as Hinv' by (by apply (step_inv_submit g l p rss_mb tokens)).
  split; [done|]. intros q.
  pose proof (Tracking.iv_active _ Hinv q) as Ha. simpl in Ha.
  pose proof (Tracking.iv_active _ Hinv' q) as Ha'. cbn [Tracking.gov Tracking.running] in Ha'.
  rewrite at_tier_cons in Ha'. rewrite Ha, Ha'. case_bool_decide; simpl; lia.
Qed.

Lemma kstep_inv k k' :
  kstep k k' -> work_inv k -> work_inv k' /\ forall p, active p k <= active p k'.
Proof.
  intros Hs [Hreg [l Hinv]]. destruct Hs as [clock m params k r k' Hh|level k|s k].
  - destruct (handle_effect clock m params k r k' Hreg Hh) as [Hreg' Hg].
    destruct (governor_effect_inv _ _ _ Hg Hinv) as (l' & Hinv' & Hle).
    split; [|done]. split; [done|by exists l'].
  - split; [|done]. split; [done|]. exists l.
    apply (gov_step_inv _ _ (Tracking.step_pressure _ l level) Hinv).
  - split; [|done]. split; [done|by exists l].
Qed.

Lemma ksteps_inv k k' :
  rtc kstep k k' -> work_inv k -> work_inv k' /\ forall p, active p k <= active p k'.
Proof.
  induction 1 as [k|k1 k2 k3 Hs _ IH]; [done|]. intros Hinv.
  apply kstep_inv in Hs as [Hinv2 Hle]; [|done]. destruct (IH Hinv2) as [Hinv3 Hle'].
  split; [done|]. intros p. specialize (Hle p). specialize (Hle' p). lia.
Qed.

Lemma work_inv_start s config store :
  config_ok config -> work_inv (Handler.new s (Governor.new config) TaskRegistry.new store).
Proof. intros Hc. split; [done|]. exists []. by apply gov_inv_initial. Qed.

(** A full tier admits nothing. *)
Lemma full_tier_submit k v e r k' :
  work_inv k -> envelope_from_value v = Ok e ->
  active (priority e) k = max_concurrent (budget_of (priority e)) ->
  Handler.handle_task_submit (Some v) k = Ret (r, k') -> k' = k.
Proof.
  intros [_ [l Hinv]] He Hfull.
  unfold Handler.handle_task_submit.
  destruct (Handler.submit_params (Some v)) as [e'|] eqn:Hp; [|by intros [= _ <-]].
  pose proof (submit_params_spec _ _ Hp) as (_ & Hr & Ht).
  assert (e' = e) as ->.
  { unfold Handler.submit_params in Hp. simpl in Hp. rewrite He in Hp.
    destruct (Envelope.validate e); congruence. }
  rewrite cast_u_id by done. cbv zeta.
  destruct (check_admission_spec (k_governor k) (priority e) (max_rss_mb (resource_budget e))
    (max_tokens (resource_budget e)) (Tracking.iv_ok _ Hinv) Hr Ht) as (d & Hd & Hfit & _).
  rewrite Hd, bind_Ret. destruct d; try by intros [= _ <-].
  exfalso. destruct (proj1 Hfit eq_refl) as (_ & Hlt & _). unfold active in Hfull. lia.
Qed.

End Work.

(** C15. Admitted tasks are never ended. [task.submit] counts an admitted task
    in the governor but registers it nowhere, and only registered tasks can
    report, complete or be cancelled. So from the state the daemon starts in
    (with a headroom of at most the memory ceiling, below 2^32 megabytes),
    whatever requests, health ticks and state updates come one after the other:
    no task is ever registered; every
    [task.progress], [task.complete] and [task.cancel] is answered with an
    error; the number of tasks a tier counts as running never goes down, up to
    its limit; and from the moment it reaches the limit every further
    submission to the tier is turned away, until the daemon restarts. *)
Theorem no_task_completes `{BuildProfile} `{HashOrder} `{JsonLaws} {S : Type} `{StateStore S}
    (supervisor : KernelSupervisor) (config : GovernorConfig) (store : S)
    (k k' : KernelState S) :
  config_ok config ->
  rtc kstep (Handler.new supervisor (Governor.new config) TaskRegistry.new store) k ->
  rtc kstep k k' ->
  task_registry k' = ∅
  /\ (forall clock m params r k'',
        m = TaskProgress \/ m = TaskComplete \/ m = TaskCancel ->
        Handler.handle clock m params k' = Ret (r, k'') ->
        (exists e, r = Err e) /\ k_governor k'' = k_governor k')
  /\ (forall p, active p k <= active p k' <= max_concurrent (budget_of p))
  /\ (forall v e clock r k'',
        envelope_from_value v = Ok e ->
        active (priority e) k = max_concurrent (budget_of (priority e)) ->
        Handler.handle clock TaskSubmit (Some v) k' = Ret (r, k'') -> k'' = k').
Proof.
  intros Hc Hk Hk'.
  destruct (ksteps_inv _ _ Hk (work_inv_start _ _ _ Hc)) as [Hinv _].
  destruct (ksteps_inv _ _ Hk' Hinv) as [Hinv' Hle].
  pose proof Hinv' as [Hreg [l Hg]].
  assert (forall p, active p k' <= max_concurrent (budget_of p)) as Hmax
    by apply (Tracking.iv_concurrent _ Hg).
  split; [done|]. split; [|split].
  - intros clock m params r k'' [->|[->| ->]]; simpl.
    + intros [= <- <-]. split; [by apply task_progress_unknown|done].
    + destruct (task_complete_unknown params k' Hreg) as (e & k0 & -> & [Hs _]).
      intros [= <- <-]. by split; [exists e|].
    + intros Hh. split; [by eapply task_cancel_unknown|].
      by apply task_cancel_frame in Hh as [? _].
  - intros p. split; [apply Hle|apply Hmax].
  - intros v e clock r k'' He Hfull Hh. simpl in Hh.
    apply (full_tier_submit k' v e r k''); [done|done| |done].
    specialize (Hle (priority e)). specialize (Hmax (priority e)). lia.
Qed.

(** * Submission *)

(** C30. [task.submit] is exact. For a valid envelope, in a governor whose
    counters are sound, the request is answered without a panic, and the task
    is admitted exactly when its tier and the system have room for its memory
    and its tokens; then the governor counts one more task and its memory in
    that tier, and nothing else changes. Otherwise nothing changes at all, and
    the answer is a queued status or a budget error. An envelope that does not
    parse or validate is an invalid-parameters error and changes nothing. *)
Theorem task_submit_exact `{BuildProfile} `{HashOrder} `{JsonLaws} {S : Type} `{StateStore S}
    (clock : nat -> Instant) (v : Value) (k : KernelState S) :
  gov_ok (k_governor k) ->
  match envelope_from_value v with
  | Err _ => exists msg,
      Handler.handle clock TaskSubmit (Some v) k = Ret (Err (ERROR_INVALID_PARAMS, msg), k)
  | Ok e =>
    let p := priority e in
    let rss := max_rss_mb (resource_budget e) in
    match Envelope.validate e with
    | Ok _ => exists r k', Handler.handle clock TaskSubmit (Some v) k = Ret (r, k')
      /\ (fits (k_governor k) p rss (max_tokens (resource_budget e)) ->
          r = Ok (v_object [("status", v_string "admitted");
                            ("task_id", v_string (task_id e))]%string)
          /\ k' = Handler.set_governor (Governor.task_started p rss (k_governor k)) k)
      /\ (~ fits (k_governor k) p rss (max_tokens (resource_budget e)) ->
          k' = k
          /\ ((exists reason, r = Ok (v_object [("status", v_string "queued");
                 ("task_id", v_string (task_id e)); ("reason", v_string reason)]%string))
              \/ exists msg, r = Err (ERROR_BUDGET_EXCEEDED, msg)))
    | Err _ => exists msg,
      Handler.handle clock TaskSubmit (Some v) k = Ret (Err (ERROR_INVALID_PARAMS, msg), k)
    end
  end.
Proof.
  intros Hg. simpl. unfold Handler.handle_task_submit, Handler.submit_params. simpl.
  destruct (envelope_from_value v) as [e|] eqn:He; [|by eexists].
  destruct (Envelope.validate e) as [[]|] eqn:Hv; [|by eexists].
  destruct (envelope_ranges v e He) as [Hr Ht]. rewrite cast_u_id by done. cbv zeta.
  destruct (check_admission_spec (k_governor k) (priority e) (max_rss_mb (resource_budget e))
    (max_tokens (resource_budget e)) Hg Hr Ht) as (d & Hd & Hfit & _).
  rewrite Hd, bind_Ret.
  destruct d; eexists _, _; (split; [done|]);
    (split; [intros Hf; by (apply Hfit in Hf || done)|intros Hf]).
  - by destruct Hf; apply Hfit.
  - split; [done|left]. by eexists.
  - split; [done|right]. by eexists.
  - split; [done|right]. by eexists.
Qed.

(** * Triggers *)

(** The process is registered and running. *)
Definition is_running (s : KernelSupervisor) (id : ProcessId) : Prop :=
  exists h, children s !! id = Some h /\ ch_state h = Running.

(** Every child is registered under its own name. *)
Definition keyed (s : KernelSupervisor) : Prop :=
  forall id h, children s !! id = Some h -> ch_id h = id.

Section Triggers.
Context `{BuildProfile} `{HashOrder} `{JL : JsonLaws} {S : Type} `{StateStore S}.
Implicit Types k : KernelState S.

Lemma process_running_true now s id :
  keyed s ->
  Handler.process_running id (Supervisor.health now s).1 = true <-> is_running s id.
Proof.
  intros Hk. unfold Handler.process_running, Supervisor.health, Supervisor.refresh_health. simpl.
  unfold Health.compute. cbn [active_processes].
  rewrite existsb_exists. setoid_rewrite <- list_elem_of_In.
  setoid_rewrite andb_true_iff. setoid_rewrite bool_decide_eq_true.
  setoid_rewrite list_elem_of_fmap. setoid_rewrite elem_of_hm_values. split.
  - intros (p & (h & -> & key & Hkey) & Hid & Hst). simpl in *.
    rewrite (Hk _ _ Hkey) in Hid. subst. by exists h.
  - intros (h & Hh & Hst). exists (Supervisor.process_health now h). split.
    + exists h. split; [done|by exists id].
    + simpl. by rewrite (Hk _ _ Hh).
Qed.

Lemma process_running_false now s id :
  keyed s ->
  Handler.process_running id (Supervisor.health now s).1 = false <-> ~ is_running s id.
Proof. intros Hk. by rewrite <- (process_running_true now), not_true_iff_false. Qed.

(** The guard on the source and the target of a trigger. *)
Lemma loop_trigger_cases clock v t k :
  keyed (k_supervisor k) -> trigger_from_value v = Ok t ->
  let k1 := Handler.set_supervisor (Supervisor.health (clock 0%nat) (k_supervisor k)).2 k in
  let allowed := is_running (k_supervisor k) (lt_source t)
    /\ (lt_target t = Kernel \/ is_running (k_supervisor k) (lt_target t)) in
  (allowed -> Handler.handle clock MLoopTrigger (Some v) k = Handler.route clock t k1)
  /\ (~ allowed -> exists msg, Handler.handle clock MLoopTrigger (Some v) k
        = Ret (Err (ERROR_PERMISSION_DENIED, msg), k1)).
Proof.
  intros Hk Hv k1 allowed. simpl. unfold Handler.handle_loop_trigger.
  cbn [Handler.require_params ok_or]. rewrite Hv.
  pose proof (process_running_true (clock 0%nat) (k_supervisor k) (lt_source t) Hk) as Hsrc.
  pose proof (process_running_true (clock 0%nat) (k_supervisor k) (lt_target t) Hk) as Htgt.
  unfold k1, allowed.
  destruct (Supervisor.health (clock 0%nat) (k_supervisor k)) as [h s]. simpl in *.
  rewrite <- Hsrc, <- Htgt. unfold Handler.not_running.
  destruct (Handler.process_running (lt_source t) h); cbn [negb].
  2: { split; [by intros []|]. intros _. by eexists. }
  destruct (decide (lt_target t = Kernel)) as [->|Hne].
  - rewrite bool_decide_eq_true_2 by done. cbn [negb andb]. split; [done|].
    intros Hn. destruct Hn. split; [done|by left].
  - rewrite bool_decide_eq_false_2 by done. cbn [negb andb].
    destruct (Handler.process_running (lt_target t) h); cbn [negb].
    + split; [done|]. intros Hn. destruct Hn. split; [done|by right].
    + split; [by intros [_ []]|]. intros _. by eexists.
Qed.

End Triggers.

(** A trigger acts only between running processes. When its source is a
    registered, running process and its target is the kernel or a running
    process, the trigger is routed; otherwise it is refused with a
    permission error, and the governor, the tasks, the store and the sequence
    number are as before. *)
Theorem loop_trigger_guarded `{BuildProfile} `{HashOrder} `{JsonLaws} {S : Type}
    `{StateStore S} (clock : nat -> Instant) (v : Value) (t : LoopTrigger Value)
    (k : KernelState S) :
  keyed (k_supervisor k) -> trigger_from_value v = Ok t ->
  let allowed := is_running (k_supervisor k) (lt_source t)
    /\ (lt_target t = Kernel \/ is_running (k_supervisor k) (lt_target t)) in
  (allowed -> exists s, children s = children (k_supervisor k)
     /\ Handler.handle clock MLoopTrigger (Some v) k
        = Handler.route clock t (Handler.set_supervisor s k))
  /\ (~ allowed -> exists msg k',
        Handler.handle clock MLoopTrigger (Some v) k
          = Ret (Err (ERROR_PERMISSION_DENIED, msg), k')
        /\ same_work k k' /\ state_store k' = state_store k
        /\ trigger_seq k' = trigger_seq k
        /\ children (k_supervisor k') = children (k_supervisor k)).
Proof.
  intros Hk Hv allowed.
  destruct (loop_trigger_cases clock v t k Hk Hv) as [Hyes Hno]. split.
  - intros Ha. rewrite Hyes by done. eexists. split; [|done]. done.
  - intros Ha. destruct (Hno Ha) as [msg Hm]. rewrite Hm. by eexists _, _.
Qed.

(** * The results of a meta cycle *)

(** The writes of a finished cycle, in order. *)
Definition cycle_writes (cycle_id : string) (policy_changed : bool) (drift_score : f64)
    : list (string * string) :=
  [("sie/identity/last_drift", display_f64 drift_score);
   ("sie/meta/last_cycle", cycle_id)]%string
  ++ (if policy_changed then [("sie/policy/head", cycle_id)]%string else []).

(** A map after some writes. *)
Definition after_writes (ws : list (string * string)) (m : gmap string bytes)
    : gmap string bytes :=
  foldl (fun m kv => <[kv.1 := String.list_byte_of_string kv.2]> m) m ws.

Section Persist.
Context `{BuildProfile} `{HashOrder} `{JL : JsonLaws} {S : Type} `{SS : StoreSpec S}.
Implicit Types k : KernelState S.

(** After some writes, either all of [ws] were made or an error came after a
    prefix of them. *)
Definition wrote (ws : list (string * string)) (m : gmap string bytes)
    (r : result (Z * string) unit) k : Prop :=
  store_ok (state_store k)
  /\ match r with
     | Ok _ => contents (state_store k) = after_writes ws m
     | Err (code, _) => code = ERROR_INTERNAL
       /\ exists done rest, ws = done ++ rest /\ rest <> []
          /\ contents (state_store k) = after_writes done m
     end.

Lemma persist_wrote now key value k r k' :
  store_ok (state_store k) -> Handler.persist now key value k = Ret (r, k') ->
  wrote [(key, value)] (contents (state_store k)) r k'.
Proof.
  unfold Handler.persist. intros Hok Hp. destruct (ss_put _ _ _ _) as [[r0 s]|] eqn:Hput; [|done].
  injection Hp as <- <-. destruct (put_ok _ _ _ _ _ _ Hok Hput) as [Hok' Hc].
  split; [done|]. destruct r0 as [[]|e]; simpl; [done|].
  split; [done|]. by exists [], [(key, value)].
Qed.

Lemma then_persist_wrote now key value ws m0 m r k' :
  (forall r0 k0, m = Ret (r0, k0) -> wrote ws m0 r0 k0) ->
  Handler.then_persist now key value m = Ret (r, k') ->
  wrote (ws ++ [(key, value)]) m0 r k'.
Proof.
  intros Hm. unfold Handler.then_persist. destruct m as [[r0 k0]|]; [|done].
  destruct (Hm _ _ eq_refl) as [Hok Hw]. rewrite bind_Ret. destruct r0 as [[]|[code msg]].
  - intros Hp. apply persist_wrote in Hp as [Hok' Hw']; [|done]. split; [done|].
    unfold after_writes in *. rewrite foldl_app. destruct r as [[]|[code msg]].
    + by rewrite Hw', Hw.
    + destruct Hw' as (-> & done' & rest & Heq & Hne & Hc). split; [done|].
      exists (ws ++ done'), rest. rewrite Heq, app_assoc. split; [done|]. split; [done|].
      by rewrite Hc, Hw, foldl_app.
  - intros [= <- <-]. split; [done|].
    destruct Hw as (-> & done' & rest & -> & Hne & Hc). split; [done|].
    exists done', (rest ++ [(key, value)]). rewrite app_assoc. split; [done|].
    split; [by destruct rest|done].
Qed.

Lemma meta_cycle_wrote clock id changed drift k r k' :
  lock_poisoned k = false -> store_ok (state_store k) ->
  Handler.meta_cycle_complete clock id changed drift k = Ret (r, k') ->
  exists r0, wrote (cycle_writes id changed drift) (contents (state_store k)) r0 k'
    /\ match r0 with
       | Ok _ => is_ok r = true
       | Err e => r = Err e
       end.
Proof.
  unfold Handler.meta_cycle_complete, cycle_writes. intros -> Hok. cbv zeta.
  match goal with |- (?m ≫= _) = _ -> _ => destruct m as [[r0 k0]|] eqn:Hm; [|done] end.
  rewrite bind_Ret. intros [= <- <-]. exists r0. split; [|by destruct r0].
  assert (forall r1 k1, Handler.then_persist (clock 2%nat) "sie/meta/last_cycle" id
      (Handler.persist (clock 1%nat) "sie/identity/last_drift" (display_f64 drift) k)
      = Ret (r1, k1) ->
      wrote [("sie/identity/last_drift", display_f64 drift);
             ("sie/meta/last_cycle", id)]%string (contents (state_store k)) r1 k1) as Htwo.
  { intros r1 k1. apply (then_persist_wrote _ _ _ [_]).
    intros r2 k2 Hp. by apply persist_wrote in Hp. }
  destruct changed; [|by apply Htwo].
  exact (then_persist_wrote _ _ _ _ _ _ _ _ Htwo Hm).
Qed.

End Persist.

(** Whether the handler lets a trigger through. *)
Definition trigger_allowed `{Json} (s : KernelSupervisor) (t : LoopTrigger Value) : Prop :=
  is_running s (lt_source t) /\ (lt_target t = Kernel \/ is_running s (lt_target t)).

(** C29. The results of a finished meta cycle are persisted in order, for every
    source and target. On a store that keeps its promise, a [MetaCycleComplete]
    trigger that is answered [Ok] came from a running process, for the kernel or
    for a running process, while the store's lock was not poisoned, and has
    written the drift score, the cycle and, exactly when the policy changed, the
    policy head, and nothing else. A permission error means that the source or
    the target was not running, and wrote nothing; any other error is an
    internal one, for which the store holds a proper prefix of these writes
    (they are not one transaction), and nothing new under a poisoned lock. The
    governor and the tasks are untouched. *)
Theorem meta_cycle_persisted `{BuildProfile} `{HashOrder} `{JsonLaws} {S : Type}
    `{StoreSpec S} (clock : nat -> Instant) (v : Value) (t : LoopTrigger Value)
    (cycle_id : string) (policy_changed : bool) (drift_score : f64)
    (k : KernelState S) (r : response _) (k' : KernelState S) :
  keyed (k_supervisor k) -> store_ok (state_store k) ->
  trigger_from_value v = Ok t ->
  lt_kind t = MetaCycleComplete cycle_id policy_changed drift_score ->
  Handler.handle clock MLoopTrigger (Some v) k = Ret (r, k') ->
  let ws := cycle_writes cycle_id policy_changed drift_score in
  let m := contents (state_store k) in
  store_ok (state_store k') /\ same_work k k'
  /\ match r with
     | Ok _ => trigger_allowed (k_supervisor k) t /\ lock_poisoned k = false
       /\ contents (state_store k') = after_writes ws m
     | Err (code, _) =>
       code = ERROR_PERMISSION_DENIED /\ ~ trigger_allowed (k_supervisor k) t
         /\ contents (state_store k') = m
       \/ code = ERROR_INTERNAL /\ trigger_allowed (k_supervisor k) t
         /\ exists done rest, ws = done ++ rest /\ rest <> []
            /\ (lock_poisoned k = true -> done = [])
            /\ contents (state_store k') = after_writes done m
     end.
Proof.
  intros Hk Hok Hv Hkind Hh ws m.
  assert (same_work k k') as Hsame by (by apply loop_trigger_frame in Hh).
  destruct (loop_trigger_cases clock v t k Hk Hv) as [Hyes Hno].
  assert (trigger_allowed (k_supervisor k) t \/ ~ trigger_allowed (k_supervisor k) t) as [Ha|Ha].
  { unfold trigger_allowed. rewrite <- !(process_running_true (clock 0%nat)) by done.
    destruct (Handler.process_running (lt_source t) _), (Handler.process_running (lt_target t) _),
      (decide (lt_target t = Kernel)); intuition congruence. }
  - rewrite Hyes in Hh by done. unfold Handler.route in Hh. rewrite Hkind in Hh.
    destruct (lock_poisoned k) eqn:Hlock.
    { unfold Handler.meta_cycle_complete in Hh. cbn in Hh. rewrite Hlock in Hh.
      injection Hh as <- <-. split; [done|]. split; [done|]. right. split_and!; [done..|].
      exists [], ws. split_and!; [done| |done|done]. unfold ws, cycle_writes. done. }
    apply meta_cycle_wrote in Hh as (r0 & [Hok' Hw] & Hr); [|done..].
    split; [done|]. split; [done|]. destruct r0 as [[]|[code msg]]; [by destruct r|].
    rewrite Hr. right. destruct Hw as (-> & done' & rest & Hws & Hne & Hc).
    split_and!; [done..|]. by exists done', rest.
  - destruct (Hno Ha) as [msg Hm]. rewrite Hm in Hh. injection Hh as <- <-.
    split; [done|]. split; [done|]. by left.
Qed.

(** * Witnesses *)

Definition demo_envelope : TaskEnvelope :=
  mkEnvelope "task-1" "dag-1" (mkTaskSpec "t" "" None ∅ 3) Green P1Normal
    (mkBudget 512 (from_secs 300) 100000 (lit 9 10)) []
    Envelope.default_checkpoint "2024-01-01T00:00:00Z" ENVELOPE_VERSION.

Definition demo_child (id : ProcessId) : ChildHandle :=
  mkChild id Running (RestartTracker.new default_policy) 0 None.

(** A supervisor whose kernel and meta loop are running. *)
Definition demo_supervisor : KernelSupervisor :=
  mkSupervisor (<[Kernel := demo_child Kernel]> (<[Loop0Meta := demo_child Loop0Meta]> ∅)) 0
    (mkHealth Healthy 0 [] None).

Definition demo_kernel : KernelState (@SqliteStateStore mem_sql) :=
  Handler.new demo_supervisor (Governor.new default_governor_config) TaskRegistry.new
    (mem_store ∅).

Definition demo_handle := @Handler.handle debug_profile std_order tree_json
  (@SqliteStateStore mem_sql) (@sqlite_store mem_sql debug_profile) (fun _ => 0).

Definition demo_step := @kstep debug_profile std_order tree_json
  (@SqliteStateStore mem_sql) (@sqlite_store mem_sql debug_profile).

Definition demo_started : KernelState (@SqliteStateStore mem_sql) :=
  Handler.set_governor
    (Governor.task_started P1Normal 512 (Governor.new default_governor_config)) demo_kernel.

Definition complete_value : jv :=
  JObject [("task_id", JString "task-1"); ("dag_id", JString "dag-1")]%string.

Definition demo_admitted : jv :=
  JObject [("status", JString "admitted"); ("task_id", JString "task-1")]%string.

Lemma demo_keyed : keyed demo_supervisor.
Proof.
  intros id h Hh. unfold demo_supervisor in Hh. simpl in Hh.
  apply lookup_insert_Some in Hh as [[<- <-]|[_ Hh]]; [done|].
  apply lookup_insert_Some in Hh as [[<- <-]|[_ Hh]]; [done|].
  by rewrite lookup_empty in Hh.
Qed.

(** A task is admitted; completing it is refused, and it still counts. *)
Lemma no_task_completes_witness :
  demo_handle TaskSubmit (Some (JEnvelope demo_envelope)) demo_kernel
    = Ret (Ok demo_admitted, demo_started)
  /\ task_registry demo_started = ∅
  /\ (forall r k, demo_handle TaskComplete (Some complete_value) demo_started = Ret (r, k) ->
        exists e, r = Err e)
  /\ active P1Normal demo_started = 1.
Proof.
  assert (demo_handle TaskSubmit (Some (JEnvelope demo_envelope)) demo_kernel
    = Ret (Ok demo_admitted, demo_started)) as Hsub by reflexivity.
  assert (rtc demo_step demo_kernel demo_started) as Hsteps
    by (apply rtc_once; exact (step_request _ _ _ _ _ _ Hsub)).
  split; [exact Hsub|].
  destruct (@no_task_completes debug_profile std_order tree_json tree_laws
    (@SqliteStateStore mem_sql) (@sqlite_store mem_sql debug_profile) demo_supervisor
    default_governor_config (mem_store ∅) demo_started demo_started default_config_ok Hsteps
    (rtc_refl _ _)) as (Hreg & Hno & _ & _).
  split; [exact Hreg|]. split; [|by vm_compute].
  intros r k Hh.
  exact (proj1 (Hno (fun _ => 0) TaskComplete (Some complete_value) r k
    (or_intror (or_introl eq_refl)) Hh)).
Defined.

Lemma task_submit_exact_witness :
  exists r k, demo_handle TaskSubmit (Some (JEnvelope demo_envelope)) demo_kernel = Ret (r, k)
  /\ k = demo_started.
Proof.
  destruct (@task_submit_exact debug_profile std_order tree_json tree_laws
    (@SqliteStateStore mem_sql) (@sqlite_store mem_sql debug_profile) (fun _ => 0)
    (JEnvelope demo_envelope) demo_kernel sample_gov_ok) as (r & k & Hh & Hyes & _).
  exists r, k. split; [exact Hh|]. apply Hyes.
  unfold fits. split_and!; [by left|by vm_compute..].
Defined.

Definition demo_trigger (source : ProcessId) : LoopTrigger jv :=
  LoopTrigger.new 7 source Kernel (MetaCycleComplete "c-1" true (lit 1 4)).

Lemma loop_trigger_guarded_witness :
  exists msg k, demo_handle MLoopTrigger (Some (JTrigger (demo_trigger Loop2Harness)))
    demo_kernel = Ret (Err (ERROR_PERMISSION_DENIED, msg), k)
  /\ state_store k = mem_store ∅.
Proof.
  destruct (@loop_trigger_guarded debug_profile std_order tree_json tree_laws
    (@SqliteStateStore mem_sql) (@sqlite_store mem_sql debug_profile) (fun _ => 0)
    (JTrigger (demo_trigger Loop2Harness)) (demo_trigger Loop2Harness) demo_kernel
    demo_keyed eq_refl) as [_ Hno].
  destruct Hno as (msg & k & Hh & _ & Hs & _).
  - intros [(h & Hh & _) _]. by vm_compute in Hh.
  - exists msg, k. split; [exact Hh|exact Hs].
Defined.

Lemma meta_cycle_persisted_witness :
  exists r k, demo_handle MLoopTrigger (Some (JTrigger (demo_trigger Loop0Meta)))
    demo_kernel = Ret (Ok r, k)
  /\ contents (StoreSpec := @sqlite_spec mem_sql mem_laws debug_profile) (state_store k)
       = after_writes (cycle_writes "c-1" true (lit 1 4)) ∅.
Proof.
  assert (match demo_handle MLoopTrigger (Some (JTrigger (demo_trigger Loop0Meta))) demo_kernel
          with Ret (Ok _, _) => true | _ => false end = true) as Hok by (vm_compute; reflexivity).
  destruct (demo_handle MLoopTrigger (Some (JTrigger (demo_trigger Loop0Meta))) demo_kernel)
    as [[[r|e] k]|] eqn:Hh; [|discriminate Hok..].
  exists r, k. split; [reflexivity|].
  exact (proj2 (proj2 (proj2 (proj2 (@meta_cycle_persisted debug_profile std_order tree_json tree_laws
    (@SqliteStateStore mem_sql) (@sqlite_store mem_sql debug_profile)
    (@sqlite_spec mem_sql mem_laws debug_profile) (fun _ => 0)
    (JTrigger (demo_trigger Loop0Meta)) (demo_trigger Loop0Meta) "c-1" true (lit 1 4)
    demo_kernel (Ok r) k demo_keyed eq_refl eq_refl eq_refl Hh))))).
Defined.
