(* ===== verification/Deadlock.v ===== *)
(** The locks of the kernel, and that they cannot deadlock.

    For every operation that several tasks may run at once, the order in which
    it acquires and releases the locks of the program: the reader-writer locks
    of the supervisor, the task registry, the pressure level and the graph, and
    the mutexes of the store, the allocator and the probe cache. A skeleton
    keeps nothing of an operation but this and its branches, both of which may
    be taken. The locks are not reentrant. A reader may or may not get past a
    writer that waits: tokio's lock makes it wait behind a writer in the queue.
    Only the store takes a lock while it holds another, in a fixed order. *)

From S2P Require Import Prelude.

Inductive lock :=
| LRegistry | LChildren | LHealth | LPressure | LGraph | LAllocator | LProbe
| LStore | LConn | LWriteCount | LLastCheckpoint.

#[export] Instance lock_eq_dec : EqDecision lock.
Proof. solve_decision. Defined.

Inductive mode := Shared | Exclusive.

#[export] Instance mode_eq_dec : EqDecision mode.
Proof. solve_decision. Defined.

Inductive skeleton :=
| Done
| Acquire (m : mode) (l : lock) (k : skeleton)
| Release (l : lock) (k : skeleton)
| Branch (a b : skeleton).

#[export] Instance skeleton_eq_dec : EqDecision skeleton.
Proof. solve_decision. Defined.

(** One skeleton after the other. *)
Fixpoint andthen (a b : skeleton) : skeleton :=
  match a with
  | Done => b
  | Acquire m l k => Acquire m l (andthen k b)
  | Release l k => Release l (andthen k b)
  | Branch a1 a2 => Branch (andthen a1 b) (andthen a2 b)
  end.

(** What is done while a guard lives. *)
Definition holding (m : mode) (l : lock) (body : skeleton) : skeleton :=
  Acquire m l (andthen body (Release l Done)).

Definition brief (m : mode) (l : lock) : skeleton := holding m l Done.

Declare Scope skeleton_scope.
Notation "a +> b" := (andthen a b) (at level 60, right associativity) : skeleton_scope.
Open Scope skeleton_scope.

(** * The operations *)

Module Skel.

(** supervisor/kernel.rs *)
Definition refresh_health : skeleton := brief Shared LChildren +> brief Exclusive LHealth.

Definition register : skeleton := brief Exclusive LChildren +> refresh_health.

Definition handle_failure : skeleton := brief Exclusive LChildren.

(** An unknown process or a refused transition ends the update, and so does a
    failure over the limit. *)
Definition update_state : skeleton :=
  brief Exclusive LChildren
  +> Branch Done (Branch (handle_failure +> Branch Done refresh_health) refresh_health).

Definition health : skeleton := refresh_health +> brief Shared LHealth.

Definition all_healthy : skeleton := brief Shared LChildren.

(** store/engine.rs *)
Definition checkpoint : skeleton :=
  holding Exclusive LConn
    (Branch Done (brief Exclusive LWriteCount +> brief Exclusive LLastCheckpoint)).

Definition maybe_checkpoint : skeleton :=
  brief Exclusive LWriteCount +> brief Exclusive LLastCheckpoint +> Branch checkpoint Done.

Definition record_write : skeleton := brief Exclusive LWriteCount.

(** [put] and [delete]. *)
Definition put : skeleton :=
  brief Exclusive LConn +> Branch Done (record_write +> maybe_checkpoint).

(** [get], [list_keys] and [exists]. *)
Definition read : skeleton := brief Exclusive LConn.

(** A transaction from its beginning to the end of its guard; its own
    operations use the guard. *)
Definition transaction : skeleton := brief Exclusive LConn.

(** supervisor/handler.rs *)
Definition handle_task_progress : skeleton := Branch Done (brief Shared LRegistry).

Definition handle_task_complete : skeleton := Branch Done (brief Exclusive LRegistry).

(** The read of the pressure in [check_admission]; the counters are atomics. *)
Definition handle_task_submit : skeleton := Branch Done (brief Shared LPressure).

Definition meta_cycle_complete : skeleton :=
  holding Exclusive LStore
    (Branch Done (put +> Branch Done (put +> Branch Done (Branch put Done)))).

Definition route : skeleton :=
  Branch Done (Branch meta_cycle_complete (brief Shared LRegistry)).

Definition handle_loop_trigger : skeleton :=
  Branch Done (health +> Branch Done route).

Definition handle_task_cancel : skeleton := Branch Done handle_loop_trigger.

Definition registry_register : skeleton := brief Exclusive LRegistry.

(** governor/governor.rs, hardware/probe.rs and the health loop of main.rs *)
Definition update_pressure : skeleton := brief Exclusive LPressure.

Definition probe_system : skeleton := brief Exclusive LProbe.

Definition health_tick : skeleton :=
  probe_system +> update_pressure +> health +> all_healthy.

(** dag/executor.rs and dag/runtime.rs: a tick with its two guards, and the test
    of [run] after it. *)
Definition execute_tick : skeleton :=
  brief Exclusive LGraph +> Branch Done (brief Exclusive LGraph).

Definition run_iteration : skeleton := execute_tick +> brief Shared LGraph.

Definition runtime_change : skeleton := brief Exclusive LGraph.

Definition runtime_stats : skeleton := brief Shared LGraph.

(** scheduler/allocator.rs: every method. *)
Definition allocator : skeleton := brief Exclusive LAllocator.

End Skel.

(** What the tasks of the program run. *)
Inductive operation :=
| OpRegister | OpUpdateState | OpHealth | OpAllHealthy
| OpPut | OpRead | OpCheckpoint | OpTransaction
| OpProgress | OpComplete | OpSubmit | OpTrigger | OpCancel | OpTaskRegister
| OpHealthTick | OpRunIteration | OpGraphChange | OpGraphStats | OpAllocator.

Definition skeleton_of (o : operation) : skeleton :=
  match o with
  | OpRegister => Skel.register
  | OpUpdateState => Skel.update_state
  | OpHealth => Skel.health
  | OpAllHealthy => Skel.all_healthy
  | OpPut => Skel.put
  | OpRead => Skel.read
  | OpCheckpoint => Skel.checkpoint
  | OpTransaction => Skel.transaction
  | OpProgress => Skel.handle_task_progress
  | OpComplete => Skel.handle_task_complete
  | OpSubmit => Skel.handle_task_submit
  | OpTrigger => Skel.handle_loop_trigger
  | OpCancel => Skel.handle_task_cancel
  | OpTaskRegister => Skel.registry_register
  | OpHealthTick => Skel.health_tick
  | OpRunIteration => Skel.run_iteration
  | OpGraphChange => Skel.runtime_change
  | OpGraphStats => Skel.runtime_stats
  | OpAllocator => Skel.allocator
  end.

(** * Tasks *)

(** The locks a task holds, and what it has left to do. *)
Record task := mkTask { t_held : list (mode * lock); t_left : skeleton }.

(** A task that runs some operations one after the other. *)
Definition task_of (ops : list operation) : task :=
  mkTask [] (foldr (fun o k => skeleton_of o +> k) Done ops).

(** The next thing the task does is to lock [l] exclusively. *)
Definition waiting_writer (l : lock) (t : task) : bool :=
  match t_left t with Acquire Exclusive l' _ => bool_decide (l' = l) | _ => false end.

(** The task keeps others from the lock: it holds it, or, when [queue] says that
    readers stand behind every writer that waits, it is such a writer. *)
Definition in_the_way (queue : bool) (m : mode) (l : lock) (t : task) : Prop :=
  match m with
  | Exclusive => l ∈ (t_held t).*2
  | Shared => (Exclusive, l) ∈ t_held t \/ queue && waiting_writer l t = true
  end.

#[export] Instance in_the_way_dec queue m l t : Decision (in_the_way queue m l t).
Proof. destruct m; simpl; apply _. Defined.

Definition free (queue : bool) (m : mode) (l : lock) (ts : list task) : Prop :=
  Forall (fun t => ~ in_the_way queue m l t) ts.

(** The guard of [l] is dropped. *)
Fixpoint drop_guard (l : lock) (held : list (mode * lock)) : list (mode * lock) :=
  match held with
  | [] => []
  | (m, l') :: held => if bool_decide (l' = l) then held else (m, l') :: drop_guard l held
  end.

Inductive step (queue : bool) : list task -> list task -> Prop :=
| step_acquire ts i held m l k :
    ts !! i = Some (mkTask held (Acquire m l k)) -> free queue m l ts ->
    step queue ts (<[i := mkTask ((m, l) :: held) k]> ts)
| step_release ts i held l k :
    ts !! i = Some (mkTask held (Release l k)) -> l ∈ held.*2 ->
    step queue ts (<[i := mkTask (drop_guard l held) k]> ts)
| step_left ts i held a b :
    ts !! i = Some (mkTask held (Branch a b)) -> step queue ts (<[i := mkTask held a]> ts)
| step_right ts i held a b :
    ts !! i = Some (mkTask held (Branch a b)) -> step queue ts (<[i := mkTask held b]> ts).

Definition finished (t : task) : Prop := t = mkTask [] Done.

(** * The order of the locks *)

(** The order in which locks are nested: a lock is only taken while locks of
    lower rank are held. *)
Definition rank (l : lock) : nat :=
  match l with LStore => 0 | LConn => 1 | _ => 2 end.

(** The skeleton respects the order, releases what it holds, and ends with
    nothing held. *)
Fixpoint ordered (held : list (mode * lock)) (s : skeleton) : bool :=
  match s with
  | Done => bool_decide (held = [])
  | Acquire m l k =>
    forallb (fun h => Nat.ltb (rank h.2) (rank l)) held && ordered ((m, l) :: held) k
  | Release l k => bool_decide (l ∈ held.*2) && ordered (drop_guard l held) k
  | Branch a b => ordered held a && ordered held b
  end.

Definition disciplined (t : task) : Prop := ordered (t_held t) (t_left t) = true.

(** How many steps are left. *)
Fixpoint steps_left (s : skeleton) : nat :=
  match s with
  | Done => 0
  | Acquire _ _ k | Release _ k => S (steps_left k)
  | Branch a b => S (Nat.max (steps_left a) (steps_left b))
  end.

Definition total_left (ts : list task) : nat := sum_list_with (fun t => steps_left (t_left t)) ts.

Lemma ordered_andthen held a b :
  ordered held a = true -> ordered [] b = true -> ordered held (a +> b) = true.
Proof.
  revert held. induction a as [|m l k IH|l k IH|a1 IH1 a2 IH2]; intros held Ha Hb; simpl in *.
  - by apply bool_decide_eq_true_1 in Ha as ->.
  - apply andb_true_iff in Ha as [-> Ha]. by rewrite IH.
  - apply andb_true_iff in Ha as [-> Ha]. by rewrite IH.
  - apply andb_true_iff in Ha as [Ha1 Ha2]. by rewrite IH1, IH2.
Qed.

(** Every operation respects the order. *)
Lemma operations_ordered o : ordered [] (skeleton_of o) = true.
Proof. by destruct o; vm_compute. Qed.

Lemma task_disciplined ops : disciplined (task_of ops).
Proof.
  unfold disciplined, task_of. simpl. induction ops as [|o ops IH]; [done|]. simpl.
  apply ordered_andthen; [apply operations_ordered|done].
Qed.

(** * Progress *)

Section Progress.
Context (ts : list task) (Hd : Forall disciplined ts).

Lemma disciplined_at i held k : ts !! i = Some (mkTask held k) -> ordered held k = true.
Proof. intros Hi. exact (Forall_lookup_1 _ _ _ _ Hd Hi). Qed.

(** A task that holds a lock moves, or waits for a lock of higher rank. *)
Lemma holder_moves t l :
  t ∈ ts -> l ∈ (t_held t).*2 ->
  (exists ts', step true ts ts')
  \/ exists i m l' k, ts !! i = Some (mkTask (t_held t) (Acquire m l' k)) /\ (rank l < rank l')%nat.
Proof.
  intros [i Hi]%list_elem_of_lookup Hl. destruct t as [held k]. simpl in *.
  pose proof (disciplined_at i held k Hi) as Ho. destruct k as [|m l' k|l' k|a b]; simpl in Ho.
  - apply bool_decide_eq_true_1 in Ho as ->. by apply elem_of_nil in Hl.
  - right. exists i, m, l', k. split; [done|]. apply andb_true_iff in Ho as [Ho _].
    apply list_elem_of_fmap in Hl as ([m0 l0] & -> & Hin).
    rewrite forallb_forall in Ho. apply Nat.ltb_lt, (Ho (m0, l0)). by apply list_elem_of_In.
  - left. apply andb_true_iff in Ho as [Hin _]. apply bool_decide_eq_true_1 in Hin.
    eexists. by apply (step_release true _ i held l' k).
  - left. eexists. by apply (step_left true _ i held a b).
Qed.

(** When a task waits for a lock, some task moves: the one that waits for the
    lock of the highest rank, at the latest. *)
Lemma waiting_moves n i held m l k :
  ts !! i = Some (mkTask held (Acquire m l k)) -> (2 <= rank l + n)%nat ->
  exists ts', step true ts ts'.
Proof.
  revert i held m l k. induction n as [n IH] using lt_wf_ind; intros i held m l k Hi Hn.
  assert (forall t, t ∈ ts -> l ∈ (t_held t).*2 -> exists ts', step true ts ts') as Hheld.
  { intros t Ht Hl. destruct (holder_moves t l Ht Hl) as [|(j & m' & l' & k' & Hj & Hr)]; [done|].
    assert (rank l' <= 2)%nat by (destruct l'; simpl; lia).
    apply (IH (n - 1)%nat ltac:(lia) j _ m' l' k' Hj). lia. }
  assert (forall j held' k', ts !! j = Some (mkTask held' (Acquire Exclusive l k')) ->
    exists ts', step true ts ts') as Hwriter.
  { intros j held' k' Hj. destruct (decide (free true Exclusive l ts)) as [Hf|Hf].
    - eexists. by apply (step_acquire true _ j held' Exclusive l k').
    - apply not_Forall_Exists, Exists_exists in Hf as (t & Ht & Hw); [|apply _].
      apply dec_stable in Hw. by apply (Hheld t). }
  destruct m; [|by eapply Hwriter]. destruct (decide (free true Shared l ts)) as [Hf|Hf].
  - eexists. by apply (step_acquire true _ i held Shared l k).
  - apply not_Forall_Exists, Exists_exists in Hf as (t & Ht & Hw); [|apply _].
    apply dec_stable in Hw as [Hw|Hw].
    + apply (Hheld t Ht). apply list_elem_of_fmap. by exists (Exclusive, l).
    + unfold waiting_writer in Hw. apply list_elem_of_lookup in Ht as [j Hj].
      destruct t as [held' [|[] l' k'| |]]; try done. simpl in Hw.
      apply bool_decide_eq_true_1 in Hw as ->. by eapply Hwriter.
Qed.

Lemma progress : Forall finished ts \/ exists ts', step true ts ts'.
Proof.
  destruct (decide (Forall (fun t => t_left t = Done) ts)) as [Hf|Hf].
  - left. rewrite Forall_forall in Hf, Hd |- *. intros [held k] Ht. specialize (Hf _ Ht).
    specialize (Hd _ Ht). simpl in *. subst k. unfold disciplined in Hd. simpl in Hd.
    by apply bool_decide_eq_true_1 in Hd as ->.
  - right. apply not_Forall_Exists, Exists_exists in Hf as (t & Ht & Hw); [|apply _].
    apply list_elem_of_lookup in Ht as [i Hi]. destruct t as [held [|m l k|l k|a b]]; [by destruct Hw|..].
    + apply (waiting_moves 2 i held m l k Hi). lia.
    + pose proof (disciplined_at _ _ _ Hi) as Ho. simpl in Ho.
      apply andb_true_iff in Ho as [Hin _]. apply bool_decide_eq_true_1 in Hin.
      eexists. by apply (step_release true _ i held l k).
    + eexists. by apply (step_left true _ i held a b).
Qed.

End Progress.

Lemma step_disciplined queue ts ts' : step queue ts ts' -> Forall disciplined ts -> Forall disciplined ts'.
Proof.
  intros Hs Hd. destruct Hs as [ts i held m l k Hi _|ts i held l k Hi _|ts i held a b Hi|ts i held a b Hi];
    pose proof (disciplined_at ts Hd i _ _ Hi) as Ho; simpl in Ho;
    (apply Forall_insert; [done|]); by apply andb_true_iff in Ho as [? ?].
Qed.

Lemma total_insert ts i t t' :
  ts !! i = Some t ->
  (total_left (<[i := t']> ts) + steps_left (t_left t)
   = total_left ts + steps_left (t_left t'))%nat.
Proof.
  unfold total_left. revert i. induction ts as [|x ts IH]; intros [|i]; simpl; [done|done|..].
  - intros [= ->]. lia.
  - intros Hi. specialize (IH i Hi). lia.
Qed.

Lemma step_decreases queue ts ts' : step queue ts ts' -> (total_left ts' < total_left ts)%nat.
Proof.
  intros Hs. destruct Hs as [ts i held m l k Hi _|ts i held l k Hi _|ts i held a b Hi|ts i held a b Hi];
    pose proof (total_insert ts i _ (mkTask held Done) Hi) as H0;
    match goal with |- context [<[i := ?t]> ts] => pose proof (total_insert ts i _ t Hi) end;
    simpl in *; lia.
Qed.

Lemma runs_finish n ts :
  (total_left ts <= n)%nat -> Forall disciplined ts ->
  exists ts', rtc (step true) ts ts' /\ Forall finished ts'.
Proof.
  revert ts. induction n as [|n IH]; intros ts Hn Hd;
    (destruct (progress ts Hd) as [Hf|[ts1 Hs]]; [by exists ts; split; [apply rtc_refl|]|]);
    pose proof (step_decreases _ _ _ Hs); [lia|].
  destruct (IH ts1 ltac:(lia) (step_disciplined _ _ _ Hs Hd)) as (ts2 & Hr & Hf).
  exists ts2. split; [by eapply rtc_l|done].
Qed.

(** * Properties *)

(** C5. The locks cannot deadlock. Whatever operations any number of tasks run,
    and in whatever order they are scheduled, every state that is reached can
    go on, even when every reader stands behind the writers that wait, until all
    tasks have finished and no lock is held; and no run has more steps than the
    operations have, so every run that goes on as long as it can ends there. *)
Theorem kernel_deadlock_free (tasks : list (list operation)) ts n :
  nsteps (step false) n (task_of <$> tasks) ts ->
  (n + total_left ts <= total_left (task_of <$> tasks))%nat
  /\ (Forall finished ts \/ exists ts', step true ts ts')
  /\ exists ts', rtc (step true) ts ts' /\ Forall finished ts'.
Proof.
  intros Hr.
  assert (Forall disciplined (task_of <$> tasks)) as Hd.
  { apply Forall_fmap, Forall_forall. intros ops _. apply task_disciplined. }
  assert (Forall disciplined ts /\ n + total_left ts <= total_left (task_of <$> tasks))%nat
    as [Hts Hle].
  { revert Hd. induction Hr as [|n ts1 ts2 ts3 Hs _ IH]; intros Hd; [by split|].
    apply step_decreases in Hs as Hlt. destruct (IH (step_disciplined _ _ _ Hs Hd)) as [? ?].
    split; [done|lia]. }
  split; [done|]. split; [by apply progress|by eapply runs_finish].
Qed.

(** A transaction holds the connection until its guard is dropped, so writing to
    the store itself in the meantime, on the same task, waits forever. *)
Theorem put_in_transaction_deadlocks :
  let s := holding Exclusive LConn Skel.put in
  exists ts, step false [mkTask [] s] ts /\ ~ Forall finished ts /\ forall ts', ~ step false ts ts'.
Proof.
  intros s. eexists. split; [|split].
  - apply (step_acquire false [mkTask [] s] 0 [] Exclusive LConn); [done|].
    apply Forall_singleton. simpl. by intros ?%elem_of_nil.
  - intros [Hf _]%Forall_cons. discriminate Hf.
  - intros ts' Hs. inversion Hs as [? [|i] ? ? ? ? Hi Hf|? [|i] ? ? ? Hi|? [|i] ? ? ? Hi|? [|i] ? ? ? Hi];
      simplify_eq/=.
    apply Forall_cons in Hf as [Hf _]. apply Hf. simpl. by apply list_elem_of_here.
Qed.

(** * Witnesses *)

(** Two triggers, a shutdown update and a health tick. *)
Lemma kernel_deadlock_free_witness :
  let ts := task_of <$> [[OpTrigger]; [OpTrigger; OpSubmit]; [OpUpdateState; OpUpdateState];
                         [OpHealthTick]] in
  nsteps (step false) 0 ts ts /\ exists ts', rtc (step true) ts ts' /\ Forall finished ts'.
Proof.
  intros ts. assert (nsteps (step false) 0 ts ts) as Hr by constructor. split; [exact Hr|].
  exact (proj2 (proj2 (kernel_deadlock_free [[OpTrigger]; [OpTrigger; OpSubmit];
    [OpUpdateState; OpUpdateState]; [OpHealthTick]] ts 0 Hr))).
Defined.
