(* ===== verification/Daemon.v ===== *)
(** The daemon: src/src/main.rs.

    The start, the health tick and the shutdown of [run_daemon], as one
    sequence of operations on the supervisor and the governor. [clock] gives
    the readings of the monotonic clock, one number per operation. [launch]
    puts the start together with the hardware probe, the state directory and
    the database, [main] with the command line. The tasks that run in between,
    the signal and the channels are in System.v. Logging, the runtime and the
    socket file are not modelled. *)

From S2P Require Import Prelude Text Hardware Envelope Governor Supervisor Store Rpc Handler Agent.

Module Daemon.

(** [PathBuf::join]: an absolute second path replaces the first. *)
Definition path_join (base rest : string) : string :=
  if starts_with rest "/" then rest
  else if str_is_empty base then rest
  else match String.get (String.length base - 1) base with
       | Some c => if Ascii.eqb c (Ascii.ascii_of_nat 47) then (base +:+ rest)%string
                   else (base +:+ "/" +:+ rest)%string
       | None => rest
       end.

(** The path of [resolve_state_dir]; [home] is the variable HOME. *)
Definition expand_state_dir (home : option string) (raw : string) : string :=
  if starts_with raw "~/" then
    match home with
    | Some home => path_join home (String.substring 2 (String.length raw - 2) raw)
    | None => raw
    end
  else raw.

(** The restart policies. *)
Definition loop_policy : RestartPolicy := default_policy.

Definition critical_policy : RestartPolicy :=
  mkPolicy 3 (restart_window default_policy) (backoff_base default_policy)
    (backoff_max default_policy).

Definition adapter_policy : RestartPolicy :=
  mkPolicy 10 (restart_window default_policy) (backoff_base default_policy) (from_secs 30).

Definition registrations : list (ProcessId * RestartPolicy) :=
  [(Init, critical_policy); (Kernel, critical_policy);
   (Loop0Meta, loop_policy); (Loop1Agentic, loop_policy); (Loop2Harness, loop_policy);
   (ModelAdapter, adapter_policy); (EmbeddingAdapter, adapter_policy)].

Definition governor_config (ram_total_mb : Z) : GovernorConfig :=
  mkGovernorConfig (Z.max (saturating_sub (cast_u 32 ram_total_mb) 2048) 4096) 2048.

Definition boot_order : list ProcessId :=
  [Init; Kernel; Loop0Meta; Loop1Agentic; Loop2Harness; ModelAdapter; EmbeddingAdapter].

Definition shutdown_order : list ProcessId :=
  [EmbeddingAdapter; ModelAdapter; Loop2Harness; Loop1Agentic; Loop0Meta; Kernel; Init].

Section Ops.
Context `{HashOrder} `{BuildProfile}.

Fixpoint register_all (clock : nat -> Instant) (l : list (ProcessId * RestartPolicy))
    (s : KernelSupervisor) : KernelSupervisor :=
  match l with
  | [] => s
  | (id, policy) :: l =>
    register_all (fun n => clock (S n)) l (Supervisor.register (clock 0%nat) (clock 0%nat) id policy s)
  end.

(** State updates one after the other; the first error ends them. *)
Fixpoint update_all (clock : nat -> Instant) (l : list (ProcessId * ProcessState))
    (s : KernelSupervisor) : outcome (result SupervisorError unit * KernelSupervisor) :=
  match l with
  | [] => Ret (Ok tt, s)
  | (id, st) :: l =>
    '(r, s) ← Supervisor.update_state (clock 0%nat) (clock 0%nat) (clock 0%nat) id st s;
    match r with
    | Ok _ => update_all (fun n => clock (S n)) l s
    | Err e => Ret (Err e, s)
    end
  end.

Definition boot_sequence (clock : nat -> Instant) (s : KernelSupervisor)
    : outcome (result SupervisorError unit * KernelSupervisor) :=
  '(r, s) ← update_all clock ((., Running) <$> boot_order) s;
  match r with
  | Ok _ => Ret (Ok tt, (Supervisor.health (clock 7%nat) s).2)
  | Err e => Ret (Err e, s)
  end.

Definition graceful_shutdown (clock : nat -> Instant) (s : KernelSupervisor)
    : outcome (result SupervisorError unit * KernelSupervisor) :=
  update_all clock
    (id ← shutdown_order; [(id, Stopping); (id, Stopped)]) s.

(** The start of [run_daemon], up to the handler of the RPC server. *)
Definition start {St} (clock : nat -> Instant) (ram_total_mb : Z)
    (initial_pressure : MemoryPressureLevel) (store : St)
    : outcome (result SupervisorError (KernelState St)) :=
  let supervisor := register_all clock registrations (Supervisor.new (clock 0%nat)) in
  let governor := Governor.update_pressure initial_pressure
                    (Governor.new (governor_config ram_total_mb)) in
  '(r, supervisor) ← boot_sequence (fun n => clock (8 + n)%nat) supervisor;
  match r with
  | Ok _ => Ret (Ok (Handler.new supervisor governor TaskRegistry.new store))
  | Err e => Ret (Err e)
  end.

(** One tick of [health_loop]: the new supervisor and governor, the reported
    health, and whether a warning is logged. *)
Definition health_tick (now : Instant) (level : MemoryPressureLevel)
    (s : KernelSupervisor) (g : ResourceGovernor)
    : HealthStatus * bool * KernelSupervisor * ResourceGovernor :=
  let g := Governor.update_pressure level g in
  let '(h, s) := Supervisor.health now s in
  (h, negb (Supervisor.all_healthy s), s, g).

End Ops.

(** ** From the command line to the start *)

(** [resolve_state_dir]; [create_dir_all] says whether the directory could be
    made. *)
Definition resolve_state_dir (create_dir_all : string -> bool) (home : option string)
    (raw : string) : outcome string :=
  let expanded := expand_state_dir home raw in
  if create_dir_all expanded then Ret expanded else Panic.

(** [Path::to_str]: the path if it is valid UTF-8, which the lossy conversion
    leaves as it is. *)
Definition to_str (path : string) : option string :=
  if bool_decide (lossy_string (String.list_byte_of_string path) = path)
  then Some path else None.

(** [run_daemon] up to the server, on a machine that reports [sys]; [detect] is
    [detect_pressure] of its platform. *)
Definition launch `{HashOrder} `{BuildProfile} `{Sql} (clock : nat -> Instant)
    (detect : SystemResources -> PressureResult) (sys : SysInfo)
    (create_dir_all : string -> bool) (home : option string) (state_dir : string)
    : outcome (result string (KernelState SqliteStateStore)) :=
  let hw := (Probe.probe_system (clock 0%nat) (clock 1%nat) sys None).1 in
  let initial_pressure := detect hw in
  state_path ← resolve_state_dir create_dir_all home state_dir;
  match to_str (path_join state_path "aros.db") with
  | None => Ret (Err "invalid state directory path (non-UTF8)"%string)
  | Some db_path =>
    match Engine.open (clock 2%nat) db_path with
    | Err e => Ret (Err (display_store_error e))
    | Ok store =>
      r ← start (fun n => clock (3 + n)%nat) (ram_total_mb hw) (pr_level initial_pressure) store;
      match r with
      | Err e => Ret (Err (display_error e))
      | Ok k => if create_dir_all (path_join state_path "sockets") then Ret (Ok k) else Panic
      end
    end
  end.

Inductive Commands :=
| Run (state_dir : string) (health_interval : Z) (log_level : string)
| Recommend
| Status.

Definition default_command : Commands := Run "~/.aros/state" 5 "info".

(** [main]: what is printed, and the exit code. *)
Definition main (run_daemon : string -> Z -> outcome (result string unit))
    (command : option Commands) : outcome (string * Z) :=
  match default default_command command with
  | Run state_dir health_interval _ =>
    r ← run_daemon state_dir health_interval;
    Ret (""%string, if is_ok r then 0 else 1)
  | Recommend | Status => Ret ("Not yet implemented"%string, 0)
  end.

End Daemon.

(** * The states of the processes *)

(** The state of a process, if it is registered. *)
Definition state_of (s : KernelSupervisor) (id : ProcessId) : option ProcessState :=
  ch_state <$> children s !! id.

(** What a state update means for the states of all processes. *)
Definition assign (f : ProcessId -> option ProcessState) (u : ProcessId * ProcessState)
    : ProcessId -> option ProcessState :=
  fun id => if bool_decide (id = u.1) then Some u.2 else f id.

(** The updates can all be made: the process is registered, it is not
    reported failed, and it is not started after it was stopped. *)
Fixpoint updates_ok (l : list (ProcessId * ProcessState))
    (f : ProcessId -> option ProcessState) : bool :=
  match l with
  | [] => true
  | u :: l =>
    match f u.1 with
    | None => false
    | Some old =>
      negb (bool_decide (u.2 = SFailed))
      && negb (bool_decide (old = Stopped) && bool_decide (u.2 = Running))
      && updates_ok l (assign f u)
    end
  end.

Section States.
Context `{HashOrder} `{BuildProfile}.
Implicit Types s : KernelSupervisor.

Lemma update_state_assign t1 t2 t3 id st s old :
  state_of s id = Some old -> st <> SFailed -> ~ (old = Stopped /\ st = Running) ->
  exists s', Supervisor.update_state t1 t2 t3 id st s = Ret (Ok tt, s')
    /\ (forall j, state_of s' j = assign (state_of s) (id, st) j)
    /\ (keyed s -> keyed s').
Proof.
  unfold state_of, Supervisor.update_state. intros Hold Hst Hno.
  destruct (children s !! id) as [h|] eqn:Hh; [|done]. simpl in Hold. injection Hold as <-.
  rewrite (proj2 (andb_false_iff _ _)).
  2: { rewrite !bool_decide_eq_false. destruct (decide (ch_state h = Stopped)); naive_solver. }
  rewrite (bool_decide_eq_false_2 (st = SFailed)) by done.
  eexists. split; [done|]. cbn [Supervisor.refresh_health children]. split.
  - intros j. unfold assign. cbn [fst snd]. destruct (decide (j = id)) as [->|Hj].
    + by rewrite lookup_insert_eq, (bool_decide_eq_true_2 (id = id)).
    + by rewrite lookup_insert_ne, (bool_decide_eq_false_2 (j = id)).
  - intros Hk j h' Hj. cbn [Supervisor.refresh_health children] in Hj.
    apply lookup_insert_Some in Hj as [[<- <-]|[_ Hj]]; [simpl; by apply Hk|by apply Hk].
Qed.

Lemma updates_ok_ext l f g :
  (forall id, f id = g id) -> updates_ok l f = updates_ok l g.
Proof.
  revert f g. induction l as [|u l IH]; intros f g Hfg; [done|]. simpl. rewrite Hfg.
  rewrite (IH (assign f u) (assign g u)); [done|]. intros id. unfold assign. by rewrite Hfg.
Qed.

Lemma foldl_assign_ext l f g id :
  (forall id, f id = g id) -> foldl assign f l id = foldl assign g l id.
Proof.
  revert f g. induction l as [|u l IH]; intros f g Hfg; [apply Hfg|]. simpl. apply IH.
  intros j. unfold assign. by rewrite Hfg.
Qed.

(** Stopping processes is always possible. *)
Lemma stop_updates_ok l f :
  Forall (fun u => negb (bool_decide (u.2 = SFailed)) && negb (bool_decide (u.2 = Running))
                   = true) l ->
  (forall id, is_Some (f id)) -> updates_ok l f = true.
Proof.
  intros Hl. revert f. induction Hl as [|[id st] l Hu Hl IH]; intros f Hf; [done|].
  simpl in *. destruct (Hf id) as [old ->]. split_bools.
  rewrite (bool_decide_eq_false_2 (st = SFailed)), (bool_decide_eq_false_2 (st = Running)),
    andb_false_r by done. simpl. apply IH.
  intros j. unfold assign. simpl. destruct (decide (j = id)) as [Hj|Hj].
  - rewrite bool_decide_eq_true_2 by done. by eexists.
  - by rewrite bool_decide_eq_false_2.
Qed.

(** A sequence of possible updates succeeds and has the combined effect. *)
Lemma update_all_assign clock l s :
  updates_ok l (state_of s) = true ->
  exists s', Daemon.update_all clock l s = Ret (Ok tt, s')
    /\ (forall j, state_of s' j = foldl assign (state_of s) l j)
    /\ (keyed s -> keyed s').
Proof.
  revert clock s. induction l as [|[id st] l IH]; intros clock s Hok; [by exists s|].
  simpl in Hok. destruct (state_of s id) as [old|] eqn:Hold; [|done]. split_bools.
  destruct (update_state_assign (clock 0%nat) (clock 0%nat) (clock 0%nat) id st s old)
    as (s1 & Hs1 & Hst1 & Hk1); [done|done| |].
  { intros [-> ->]. done. }
  destruct (IH (fun n => clock (S n)) s1) as (s2 & Hs2 & Hst2 & Hk2).
  { by rewrite (updates_ok_ext _ _ _ Hst1). }
  exists s2. cbn [Daemon.update_all]. rewrite Hs1, bind_Ret. split; [done|]. split.
  - intros j. rewrite Hst2. simpl. by apply foldl_assign_ext.
  - auto.
Qed.

Lemma register_all_states clock l s j :
  state_of (Daemon.register_all clock l s) j
  = if bool_decide (j ∈ l.*1) then Some Starting else state_of s j.
Proof.
  revert clock s. induction l as [|[id policy] l IH]; intros clock s; simpl; [done|].
  rewrite IH. unfold state_of. cbn [Supervisor.register Supervisor.refresh_health children].
  destruct (decide (j ∈ l.*1)) as [Hin|Hin].
  - by rewrite !bool_decide_eq_true_2 by (set_solver).
  - rewrite bool_decide_eq_false_2 by done. destruct (decide (j = id)) as [->|Hne].
    + by rewrite lookup_insert_eq, bool_decide_eq_true_2 by set_solver.
    + rewrite lookup_insert_ne by done. by rewrite bool_decide_eq_false_2 by set_solver.
Qed.

Lemma register_all_keyed clock l s : keyed s -> keyed (Daemon.register_all clock l s).
Proof.
  revert clock s. induction l as [|[id policy] l IH]; intros clock s Hk; simpl; [done|].
  apply IH. intros j h Hj. cbn [Supervisor.register Supervisor.refresh_health children] in Hj.
  apply lookup_insert_Some in Hj as [[<- <-]|[_ Hj]]; [done|by apply Hk].
Qed.

(** When every process runs, the health is good. *)
Lemma all_running_healthy now s :
  (forall id, state_of s id = Some Running) ->
  h_status (Supervisor.health now s).1 = Healthy /\ Supervisor.all_healthy s = true.
Proof.
  intros Hrun.
  assert (forall st, st ∈ states s -> st = Running) as Hall.
  { intros st (id & h & Hh & <-)%elem_of_states. specialize (Hrun id).
    unfold state_of in Hrun. rewrite Hh in Hrun. by injection Hrun. }
  split; [rewrite health_level; by apply level_of_spec|].
  unfold Supervisor.all_healthy. apply andb_true_iff. split.
  - apply negb_true_iff, bool_decide_eq_false. intros He. specialize (Hrun Init).
    unfold state_of in Hrun. by rewrite He, lookup_empty in Hrun.
  - pose proof (proj2 (forallb_running (states s)) Hall) as Hf.
    unfold states in Hf. by rewrite forallb_fmap in Hf.
Qed.

End States.

Lemma governor_config_ok ram_total_mb : config_ok (Daemon.governor_config ram_total_mb).
Proof.
  unfold config_ok, Daemon.governor_config. simpl.
  pose proof (in_u_cast 32 ram_total_mb ltac:(lia)). unfold in_u, saturating_sub in *. lia.
Qed.

(** The daemon starts and stops in order. Starting the kernel succeeds: all
    seven processes run, the health is good, no task is registered, and the
    limits of the governor leave room for its headroom whatever the memory of
    the machine. From every state in which the seven processes are registered
    (restarting, failed or running), the graceful shutdown succeeds, stops
    every process, in the reverse of the boot order, and afterwards none of
    them can be set running again. *)
Theorem daemon_lifecycle `{HashOrder} `{BuildProfile} {St : Type} (clock : nat -> Instant)
    (ram_total_mb : Z) (level : MemoryPressureLevel) (store : St) :
  (exists k, Daemon.start clock ram_total_mb level store = Ret (Ok k)
    /\ keyed (k_supervisor k)
    /\ (forall id, state_of (k_supervisor k) id = Some Running)
    /\ (forall now, h_status (Supervisor.health now (k_supervisor k)).1 = Healthy)
    /\ Supervisor.all_healthy (k_supervisor k) = true
    /\ task_registry k = ∅
    /\ config_ok (g_config (k_governor k)))
  /\ Daemon.shutdown_order = reverse Daemon.boot_order
  /\ (forall s, (forall id, is_Some (state_of s id)) ->
        exists s', Daemon.graceful_shutdown clock s = Ret (Ok tt, s')
        /\ (forall id, state_of s' id = Some Stopped)
        /\ forall t1 t2 t3 id, exists e,
             Supervisor.update_state t1 t2 t3 id Running s' = Ret (Err e, s')).
Proof.
  split; [|split; [done|]].
  - unfold Daemon.start. cbv zeta.
    set (s := Daemon.register_all _ _ _).
    assert (forall id, state_of s id = Some Starting) as Hs.
    { intros id. unfold s. rewrite register_all_states. rewrite bool_decide_eq_true_2; [done|].
      destruct id; vm_compute; set_solver. }
    destruct (update_all_assign (fun n => clock (8 + n)%nat) ((., Running) <$> Daemon.boot_order)
      s) as (s1 & Hs1 & Hst & Hk).
    { by rewrite (updates_ok_ext _ _ (fun _ => Some Starting) Hs). }
    assert (forall id, state_of s1 id = Some Running) as Hrun.
    { intros id. rewrite Hst, (foldl_assign_ext _ _ _ _ Hs). by destruct id. }
    unfold Daemon.boot_sequence. rewrite Hs1, !bind_Ret. eexists. split; [done|].
    cbn [k_supervisor Handler.new task_registry k_governor].
    assert (keyed s) as Hks by (apply register_all_keyed; intros id h Hh;
      cbn [children Supervisor.new] in Hh; by rewrite lookup_empty in Hh).
    split; [exact (Hk Hks)|]. split; [done|].
    split; [intros now; by apply (all_running_healthy now)|].
    split; [by apply (all_running_healthy 0)|]. split; [done|].
    apply governor_config_ok.
  - intros s Hs.
    destruct (update_all_assign clock
      (id ← Daemon.shutdown_order; [(id, Stopping); (id, Stopped)]) s)
      as (s1 & Hs1 & Hst & _).
    { apply stop_updates_ok; [|done]. repeat constructor. }
    assert (forall id, state_of s1 id = Some Stopped) as Hstop
      by (intros id; rewrite Hst; by destruct id).
    exists s1. split; [done|]. split; [done|]. intros t1 t2 t3 id. specialize (Hstop id).
    unfold state_of in Hstop. unfold Supervisor.update_state.
    destruct (children s1 !! id) as [h|]; [|done]. simpl in Hstop. injection Hstop as ->.
    by eexists.
Qed.

(** * The launch *)

Section Launch.
Context `{HashOrder} `{BuildProfile} `{Sql}.

(** The kernel that has started on the opened store. *)
Definition launched (detect : SystemResources -> PressureResult) (sys : SysInfo)
    (store : SqliteStateStore) (k : KernelState SqliteStateStore) : Prop :=
  (forall id, state_of (k_supervisor k) id = Some Running)
  /\ Supervisor.all_healthy (k_supervisor k) = true
  /\ Governor.current_pressure (k_governor k) = pr_level (detect (Probe.read_resources sys))
  /\ g_config (k_governor k) = Daemon.governor_config (si_total_memory sys / (1024 * 1024))
  /\ (forall p, usage_of (k_governor k) p = TierUsage.new)
  /\ task_registry k = ∅ /\ state_store k = store /\ lock_poisoned k = false.

(** C27. The launch, exactly. It panics when a directory cannot be made and reports
    an error when the path of the database is not UTF-8 or the database cannot
    be opened; in every other case it succeeds: all seven processes run, the
    governor has the detected pressure, the ceiling computed from the memory
    of the machine and no usage, no task is registered, and the store is the
    one that was opened in the state directory. *)
Theorem launch_exact clock detect sys create_dir_all home state_dir :
  let state_path := Daemon.expand_state_dir home state_dir in
  let db := Daemon.path_join state_path "aros.db" in
  let r := Daemon.launch clock detect sys create_dir_all home state_dir in
  if negb (create_dir_all state_path) then r = Panic
  else match Daemon.to_str db with
       | None => exists e, r = Ret (Err e)
       | Some _ =>
         match Engine.open (clock 2%nat) db with
         | Err e => r = Ret (Err (display_store_error e))
         | Ok store =>
           if create_dir_all (Daemon.path_join state_path "sockets") then
             exists k, r = Ret (Ok k) /\ launched detect sys store k
           else r = Panic
         end
       end.
Proof.
  cbv zeta. unfold Daemon.launch, Daemon.resolve_state_dir. cbv zeta.
  set (state_path := Daemon.expand_state_dir home state_dir).
  destruct (create_dir_all state_path); [|done]. rewrite bind_Ret. cbn [negb].
  unfold Daemon.to_str. destruct (bool_decide _); [|by eexists].
  destruct (Engine.open _ _) as [store|e]; [|done].
  destruct (daemon_lifecycle (fun n => clock (3 + n)%nat)
    (ram_total_mb (Probe.probe_system (clock 0%nat) (clock 1%nat) sys None).1)
    (pr_level (detect (Probe.probe_system (clock 0%nat) (clock 1%nat) sys None).1)) store)
    as ((k & Hk & Hkey & Hrun & Hh & Hall & Hreg & Hcfg) & _).
  rewrite Hk, bind_Ret. destruct (create_dir_all _); [|done].
  exists k. split; [done|]. unfold Daemon.start in Hk. cbv zeta in Hk.
  destruct (Daemon.boot_sequence _ _) as [[[u|e] sup]|]; [|done..].
  rewrite bind_Ret in Hk. injection Hk as <-. split_and!; try done.
  - cbn. unfold Probe.read_resources. by destruct (si_load sys) as [[]].
  - by intros [].
Qed.

End Launch.
