(* ===== verification/Requests.v ===== *)
(** The kernel's requests lock by lock: src/src/supervisor/handler.rs on
    several tasks.

    Handler.v treats a request as one step. Here a request is a program of
    critical sections on the whole kernel state: one access to the task
    registry, the sequence number or an atomic of the governor, one critical
    section of the supervisor, or the writes of a meta cycle under the lock of
    the store. The programs are put together from those of Atomics.v and
    Locks.v and proved to do, alone, what Handler.v says. Module Activity names
    what the tasks of the kernel do, and the lemmas on [moves] say which parts of
    the state each of them leaves alone; Concurrent.v uses them for any number
    of requests, state updates and health ticks whose critical sections
    interleave. *)

From S2P Require Import Prelude F64 Envelope Hardware Governor Atomics Supervisor Sections Locks.
From S2P Require Import Store Rpc Handler Daemon.

(** A program of the governor: every access to an atomic, and the read of the
    pressure, is a critical section. *)
Fixpoint of_access {A} (q : Atomics.prog A) : prog ResourceGovernor A :=
  match q with
  | Atomics.Stop r => Stop r
  | Atomics.ReadPressure k => Crit id (fun g => of_access (k (Governor.current_pressure g)))
  | Atomics.Load c k => Crit id (fun g => of_access (k (read_counter c g)))
  | Atomics.Write c r k => Crit (write_counter c r) (fun _ => of_access k)
  end.

Module HandlerProg.
Section Ops.
Context `{BuildProfile} `{HashOrder} `{J : Json} {S : Type} `{StateStore S}.
Context (st : statics).

Definition on_supervisor {A} (q : prog KernelSupervisor A) : prog (KernelState S) A :=
  zoom k_supervisor Handler.set_supervisor q.

Definition on_governor {A} (q : Atomics.prog A) : prog (KernelState S) A :=
  zoom k_governor Handler.set_governor (of_access q).

(** [fetch_add] on the sequence number. *)
Definition next_seq : prog (KernelState S) Z :=
  locked (fun k => (Handler.next_seq k).2) (fun k => Ret (Handler.next_seq k).1).

Definition registry_get (task_id : string) : prog (KernelState S) (option string) :=
  locked id (fun k => Ret (TaskRegistry.get task_id (task_registry k))).

Definition registry_remove (task_id : string) : prog (KernelState S) (option string) :=
  locked (fun k => Handler.set_registry (TaskRegistry.remove task_id (task_registry k)).2 k)
    (fun k => Ret (TaskRegistry.remove task_id (task_registry k)).1).

Definition registry_register (task_id socket_path : string) : prog (KernelState S) unit :=
  locked (fun k => Handler.set_registry (TaskRegistry.register task_id socket_path
                                           (task_registry k)) k)
    (fun _ => Ret tt).

(** The parameters of [task.progress]. *)
Definition progress_params (params : option Value) : result (Z * string) string :=
  params ← Handler.require_params params;
  task_id ← Handler.str_param "task_id" params;
  _dag_id ← Handler.str_param "dag_id" params;
  _phase ← Handler.str_param "phase" params;
  Ok task_id.

Definition handle_task_progress (params : option Value) : prog (KernelState S) (response J) :=
  match progress_params params with
  | Err e => mret (Err e)
  | Ok task_id =>
    path ← registry_get task_id;
    mret match path with
         | None => Err (ERROR_PERMISSION_DENIED, Handler.unknown_task task_id)
         | Some _ =>
           Ok (v_object [("status", v_string "acknowledged"); ("task_id", v_string task_id)]%string)
         end
  end.

Definition handle_task_complete (params : option Value) : prog (KernelState S) (response J) :=
  match Handler.complete_params params with
  | Err e => mret (Err e)
  | Ok (task_id, tokens_used) =>
    socket_path ← registry_remove task_id;
    match socket_path with
    | None => mret (Err (ERROR_PERMISSION_DENIED, Handler.unknown_task task_id))
    | Some _ =>
      on_governor (GovernorProg.task_ended st P1Normal 0);;
      (if 0 <? tokens_used then on_governor (GovernorProg.tokens_used st P1Normal tokens_used)
       else mret tt);;
      mret (Ok (v_object [("status", v_string "completed"); ("task_id", v_string task_id)]%string))
    end
  end.

(** The answer of [task.submit] to a decision. *)
Definition submit_answer (envelope : TaskEnvelope) (decision : AdmissionDecision)
    : response J :=
  match decision with
  | Queued reason =>
    Ok (v_object [("status", v_string "queued"); ("task_id", v_string (task_id envelope));
                  ("reason", v_string reason)]%string)
  | Throttled reason => Err (ERROR_BUDGET_EXCEEDED, ("throttled: " +:+ reason)%string)
  | Shed reason => Err (ERROR_BUDGET_EXCEEDED, ("shed: " +:+ reason)%string)
  | TaskAdmitted =>
    Ok (v_object [("status", v_string "admitted");
                  ("task_id", v_string (task_id envelope))]%string)
  end.

Definition handle_task_submit (params : option Value) : prog (KernelState S) (response J) :=
  match Handler.submit_params params with
  | Err e => mret (Err e)
  | Ok envelope =>
    let p := priority envelope in
    let rss_mb := max_rss_mb (resource_budget envelope) in
    decision ← on_governor (GovernorProg.check_admission st p rss_mb
                 (cast_u 64 (max_tokens (resource_budget envelope))));
    match decision with
    | TaskAdmitted =>
      on_governor (GovernorProg.task_started st p rss_mb);; mret (submit_answer envelope decision)
    | _ => mret (submit_answer envelope decision)
    end
  end.

(** The writes of a meta cycle, while the lock of the store is held. A panic in
    between poisons the lock; the writes that returned before it are made. *)
Definition poison (k : KernelState S) : KernelState S :=
  mkKernel (k_supervisor k) (k_governor k) (task_registry k) (state_store k) true (trigger_seq k).

Fixpoint persist_all (ws : list (Instant * string * string)) (k : KernelState S)
    : outcome (result (Z * string) unit) * KernelState S :=
  match ws with
  | [] => (Ret (Ok tt), k)
  | (now, key, value) :: ws =>
    match Handler.persist now key value k with
    | Panic => (Panic, poison k)
    | Ret (Err e, k) => (Ret (Err e), k)
    | Ret (Ok _, k) => persist_all ws k
    end
  end.

Definition cycle_writes (clock : nat -> Instant) (cycle_id : string) (policy_changed : bool)
    (drift_score : f64) : list (Instant * string * string) :=
  [(clock 1%nat, "sie/identity/last_drift", display_f64 drift_score);
   (clock 2%nat, "sie/meta/last_cycle", cycle_id)]%string
  ++ (if policy_changed then [(clock 3%nat, "sie/policy/head", cycle_id)]%string else []).

Definition lock_error : Z * string :=
  (ERROR_INTERNAL, "state store lock poisoned: poisoned lock: another task failed inside"%string).

(** What is done under the lock. *)
Definition with_store_lock (ws : list (Instant * string * string)) (k : KernelState S)
    : outcome (result (Z * string) unit) * KernelState S :=
  if lock_poisoned k then (Ret (Err lock_error), k) else persist_all ws k.

Definition meta_cycle_complete (clock : nat -> Instant) (cycle_id : string)
    (policy_changed : bool) (drift_score : f64) : prog (KernelState S) (response J) :=
  let ws := cycle_writes clock cycle_id policy_changed drift_score in
  r ← locked (fun k => (with_store_lock ws k).2) (fun k => (with_store_lock ws k).1);
  mret match r with
       | Err e => Err e
       | Ok _ =>
         Ok (v_object [("status", v_string "persisted");
                       ("cycle_id", v_string cycle_id);
                       ("drift_score", v_f64 drift_score);
                       ("policy_updated", v_bool policy_changed)]%string)
       end.

Definition route (clock : nat -> Instant) (t : LoopTrigger Value)
    : prog (KernelState S) (response J) :=
  match lt_kind t with
  | MetaCycleRequest _ =>
    seq ← next_seq;
    mret (Ok (v_object [("status", v_string "authorized");
                        ("cycle_id", v_string ("cycle-" +:+ display_int seq))]%string))
  | MetaCycleComplete cycle_id policy_changed drift_score =>
    meta_cycle_complete clock cycle_id policy_changed drift_score
  | TkTaskCancel task_id _ =>
    path ← registry_get task_id;
    mret match path with
         | Some _ =>
           Ok (v_object [("status", v_string "cancel_forwarded");
                         ("task_id", v_string task_id)]%string)
         | None => Err (ERROR_INVALID_PARAMS, Handler.unknown_task task_id)
         end
  | _ =>
    mret (Ok (v_object [("status", v_string "routed");
                        ("seq", v_u64 (lt_seq t));
                        ("target", v_string (debug_process (lt_target t)))]%string))
  end.

(** The checks of the processes, on the health that was read. *)
Definition guarded_route (clock : nat -> Instant) (t : LoopTrigger Value)
    (health : HealthStatus) : prog (KernelState S) (response J) :=
  if negb (Handler.process_running (lt_source t) health) then
    mret (Handler.not_running "source" (lt_source t))
  else if negb (bool_decide (lt_target t = Kernel))
          && negb (Handler.process_running (lt_target t) health) then
    mret (Handler.not_running "target" (lt_target t))
  else route clock t.

Definition handle_loop_trigger (clock : nat -> Instant) (params : option Value)
    : prog (KernelState S) (response J) :=
  match Handler.require_params params with
  | Err e => mret (Err e)
  | Ok params =>
    match trigger_from_value params with
    | Err e => mret (Err (ERROR_INVALID_PARAMS, ("invalid LoopTrigger: " +:+ e)%string))
    | Ok t =>
      health ← on_supervisor (SupervisorProg.health (clock 0%nat));
      guarded_route clock t health
    end
  end.

Definition handle_task_cancel (clock : nat -> Instant) (params : option Value)
    : prog (KernelState S) (response J) :=
  match Handler.cancel_params params with
  | Err e => mret (Err e)
  | Ok (task_id, reason) =>
    seq ← next_seq;
    let trigger := LoopTrigger.new seq Kernel Loop1Agentic (TkTaskCancel task_id reason) in
    match trigger_to_value trigger with
    | Err e => mret (Err (ERROR_INTERNAL, ("serialization error: " +:+ e)%string))
    | Ok v => handle_loop_trigger clock (Some v)
    end
  end.

Definition handle (clock : nat -> Instant) (method : RpcMethod) (params : option Value)
    : prog (KernelState S) (response J) :=
  match method with
  | Ping => mret (Ok (v_string "pong"))
  | TaskSubmit => handle_task_submit params
  | TaskProgress => handle_task_progress params
  | TaskComplete => handle_task_complete params
  | TaskCancel => handle_task_cancel clock params
  | MLoopTrigger => handle_loop_trigger clock params
  end.

(** [RpcServer::process_line], with the kernel as its handler. *)
Definition process_line (clock : nat -> Instant) (line : string)
    : prog (KernelState S) (JsonRpcResponse Value) :=
  match request_from_str line with
  | Err e =>
    mret (JsonRpcResponse.error v_null ERROR_PARSE ("Parse error: " +:+ e) None)
  | Ok request =>
    let id := rq_id request in
    match RpcMethod.from_str (rq_method request) with
    | None =>
      mret (JsonRpcResponse.error id ERROR_METHOD_NOT_FOUND
              ("Unknown method: " +:+ rq_method request) None)
    | Some method =>
      r ← handle clock method (rq_params request);
      mret match r with
           | Ok result => JsonRpcResponse.success id result
           | Err (code, msg) => JsonRpcResponse.error id code msg None
           end
    end
  end.

(** One tick of [health_loop]. *)
Definition health_tick (now : Instant) (level : MemoryPressureLevel)
    : prog (KernelState S) (HealthStatus * bool) :=
  locked (fun k => Handler.set_governor (Governor.update_pressure level (k_governor k)) k)
    (fun _ => Ret tt);;
  health ← on_supervisor (SupervisorProg.health now);
  all ← on_supervisor SupervisorProg.all_healthy;
  mret (health, negb all).

(** State updates one after the other; the first error ends them. *)
Fixpoint update_all (clock : nat -> Instant) (l : list (ProcessId * ProcessState))
    : prog (KernelState S) (result SupervisorError unit) :=
  match l with
  | [] => mret (Ok tt)
  | (id, state) :: l =>
    r ← on_supervisor (SupervisorProg.update_state (clock 0%nat) (clock 0%nat) (clock 0%nat)
                         id state);
    match r with
    | Ok _ => update_all (fun n => clock (Datatypes.S n)) l
    | Err e => mret (Err e)
    end
  end.

Definition graceful_shutdown (clock : nat -> Instant)
    : prog (KernelState S) (result SupervisorError unit) :=
  update_all clock (id ← Daemon.shutdown_order; [(id, Stopping); (id, Stopped)]).

End Ops.
End HandlerProg.

(** * Without interleaving, the programs are the operations of Handler.v *)

Lemma exec_of_access {A} (q : Atomics.prog A) g : exec (of_access q) g = Atomics.exec q g.
Proof. revert g. induction q as [r|k IH|c k IH|c r k IH]; intros g; simpl; auto. Qed.

Section Sequential.
Context `{BuildProfile} `{HashOrder} `{J : Json} {S : Type} `{StateStore S}.
Implicit Types k : KernelState S.

Lemma exec_on_supervisor {A} (q : prog KernelSupervisor A) k :
  exec (HandlerProg.on_supervisor q) k
  = ((exec q (k_supervisor k)).1, Handler.set_supervisor (exec q (k_supervisor k)).2 k).
Proof. apply exec_zoom; by intros []. Qed.

Lemma exec_on_governor {A} (q : Atomics.prog A) k :
  exec (HandlerProg.on_governor q) k
  = ((Atomics.exec q (k_governor k)).1,
     Handler.set_governor (Atomics.exec q (k_governor k)).2 k).
Proof.
  rewrite <- exec_of_access. apply exec_zoom; by intros [].
Qed.

Lemma exec_locked {A B} (f : B -> B) (g : B -> outcome A) (s : B) : exec (locked f g) s = (g s, f s).
Proof. done. Qed.

Lemma exec_mret {A B} (a : A) (s : B) : exec (mret a) s = (Ret a, s).
Proof. done. Qed.

Lemma exec_progress params k :
  exec (HandlerProg.handle_task_progress params) k
  = (Ret (Handler.handle_task_progress params k), k).
Proof.
  unfold HandlerProg.handle_task_progress, HandlerProg.progress_params, Handler.handle_task_progress.
  destruct (Handler.require_params params) as [v|e]; [|done]. simpl.
  destruct (Handler.str_param "task_id" v) as [id|e]; [|done]. simpl.
  destruct (Handler.str_param "dag_id" v) as [dag|e]; [|done]. simpl.
  destruct (Handler.str_param "phase" v) as [phase|e]; done.
Qed.

(** The tiers of the statics are those of the governor. *)
Definition tiers_of (st : statics) (g : ResourceGovernor) : Prop :=
  forall p, p ∈ st_tiers st <-> is_Some (tier_usage g !! p).

Lemma tiers_with_usage st g p f : tiers_of st g -> tiers_of st (Governor.with_usage p f g).
Proof.
  intros Ht q. rewrite (Ht q). unfold Governor.with_usage.
  destruct (tier_usage g !! p) as [u|] eqn:Hu; [|done]. simpl.
  destruct (decide (q = p)) as [->|Hne]; [by rewrite lookup_insert_eq, Hu|].
  by rewrite lookup_insert_ne.
Qed.

(** Recording tokens, whatever the order of the tiers is. *)
Lemma exec_tokens st p count g :
  tiers_of st g ->
  Atomics.exec (GovernorProg.tokens_used st p count) g
  = (Ret tt, Governor.tokens_used p count g).
Proof.
  intros Ht. rewrite <- exec_tokens_used. unfold GovernorProg.tokens_used, GovernorProg.when_tier.
  by rewrite (bool_decide_ext (p ∈ st_tiers st) (p ∈ st_tiers (statics_of g)))
    by (by rewrite (Ht p), elem_of_tiers).
Qed.

Lemma exec_complete params k :
  exec (HandlerProg.handle_task_complete (statics_of (k_governor k)) params) k
  = (Ret (Handler.handle_task_complete params k).1, (Handler.handle_task_complete params k).2).
Proof.
  unfold HandlerProg.handle_task_complete, Handler.handle_task_complete.
  destruct (Handler.complete_params params) as [[id tokens]|e]; [|done].
  rewrite sections_bind. unfold HandlerProg.registry_remove. rewrite exec_locked.
  unfold TaskRegistry.remove. cbn [fst snd]. destruct (task_registry k !! id) as [path|]; [|done].
  rewrite sections_bind, exec_on_governor. cbn [k_governor Handler.set_registry].
  rewrite exec_task_ended. cbn [fst snd]. rewrite sections_bind.
  destruct (0 <? tokens); [|done]. rewrite exec_on_governor. cbn [k_governor Handler.set_governor].
  rewrite exec_tokens; [done|]. apply tiers_with_usage. intros p. apply elem_of_tiers.
Qed.

Lemma exec_submit_request params k :
  agrees (HandlerProg.handle_task_submit (statics_of (k_governor k)) params)
    (Handler.handle_task_submit params k) k.
Proof.
  unfold HandlerProg.handle_task_submit, Handler.handle_task_submit.
  destruct (Handler.submit_params params) as [e|e]; [|done]. cbv zeta.
  unfold agrees. rewrite sections_bind, exec_on_governor, exec_check_admission. cbn [fst snd].
  destruct (Governor.check_admission _ _ _ _) as [d|]; [|done]. rewrite bind_Ret.
  destruct d; [|by destruct k..]. rewrite sections_bind, exec_on_governor.
  replace (k_governor (Handler.set_governor _ k)) with (k_governor k) by done.
  by rewrite exec_task_started.
Qed.

Lemma exec_with_store_lock clock id changed drift k :
  let ws := HandlerProg.cycle_writes clock id changed drift in
  let q := locked (fun k => (HandlerProg.with_store_lock ws k).2)
             (fun k => (HandlerProg.with_store_lock ws k).1) in
  match Handler.meta_cycle_complete clock id changed drift k with
  | Ret (r, k') => exists r0, exec q k = (Ret r0, k')
      /\ r = match r0 with
             | Err e => Err e
             | Ok _ => Ok (v_object [("status", v_string "persisted");
                                     ("cycle_id", v_string id);
                                     ("drift_score", v_f64 drift);
                                     ("policy_updated", v_bool changed)]%string)
             end
  | Panic => (exec q k).1 = Panic
  end.
Proof.
  intros ws q. subst q. rewrite exec_locked.
  unfold HandlerProg.with_store_lock, Handler.meta_cycle_complete.
  destruct (lock_poisoned k); [by eexists|]. unfold ws. cbv zeta.
  unfold HandlerProg.cycle_writes, Handler.then_persist. simpl app. cbn [HandlerProg.persist_all].
  destruct (Handler.persist _ "sie/identity/last_drift" _ k) as [[[[]|e1] k1]|];
    [|by destruct changed; eexists|by destruct changed].
  rewrite bind_Ret. destruct (Handler.persist _ "sie/meta/last_cycle" id k1) as [[[[]|e2] k2]|];
    [|by destruct changed; eexists|by destruct changed].
  destruct changed; [|by eexists]. rewrite bind_Ret. simpl.
  destruct (Handler.persist _ "sie/policy/head" id k2) as [[[[]|e3] k3]|]; by try eexists.
Qed.

Lemma exec_route clock t k :
  agrees (HandlerProg.route clock t) (Handler.route clock t k) k.
Proof.
  unfold HandlerProg.route, Handler.route. destruct (lt_kind t); try done.
  unfold agrees. pose proof (exec_with_store_lock clock cycle_id policy_changed drift_score k) as Hm.
  unfold HandlerProg.meta_cycle_complete. cbv zeta in *.
  destruct (Handler.meta_cycle_complete _ _ _ _ k) as [[r k']|].
  - destruct Hm as (r0 & Hq & ->). by rewrite sections_bind, Hq.
  - rewrite sections_bind. by destruct (exec _ k) as [[r0|] k0].
Qed.

Lemma exec_trigger clock params k :
  agrees (HandlerProg.handle_loop_trigger clock params)
    (Handler.handle_loop_trigger clock params k) k.
Proof.
  unfold HandlerProg.handle_loop_trigger, Handler.handle_loop_trigger.
  destruct (Handler.require_params params) as [v|e]; [|done].
  destruct (trigger_from_value v) as [t|e]; [|done].
  pose proof (exec_route clock t) as Hr. unfold agrees in *.
  rewrite sections_bind, exec_on_supervisor.
  change (exec (SupervisorProg.health (clock 0%nat)) (k_supervisor k))
    with (Ret (Supervisor.health (clock 0%nat) (k_supervisor k)).1,
          (Supervisor.health (clock 0%nat) (k_supervisor k)).2).
  cbn [fst snd]. destruct (Supervisor.health _ _) as [h s]. cbn [fst snd].
  unfold HandlerProg.guarded_route.
  destruct (negb _); [done|]. destruct (_ && _); [done|]. apply Hr.
Qed.

Lemma exec_cancel clock params k :
  agrees (HandlerProg.handle_task_cancel clock params)
    (Handler.handle_task_cancel clock params k) k.
Proof.
  unfold HandlerProg.handle_task_cancel, Handler.handle_task_cancel.
  destruct (Handler.cancel_params params) as [[id reason]|e]; [|done].
  pose proof (exec_trigger clock) as Ht. unfold agrees in *. rewrite sections_bind.
  unfold HandlerProg.next_seq. rewrite exec_locked.
  destruct (Handler.next_seq k) as [seq k1]. cbn [fst snd].
  destruct (trigger_to_value _) as [v|e]; [|done]. apply Ht.
Qed.

Lemma exec_update_all clock l k :
  agrees (HandlerProg.update_all clock l)
    ('(r, s) ← Daemon.update_all clock l (k_supervisor k); Ret (r, Handler.set_supervisor s k)) k.
Proof.
  revert clock k. induction l as [|[id state] l IH]; intros clock k.
  { simpl. by destruct k. }
  cbn [HandlerProg.update_all Daemon.update_all].
  pose proof (exec_update_state (clock 0%nat) (clock 0%nat) (clock 0%nat) id state
    (k_supervisor k)) as Hu. unfold agrees in *. rewrite sections_bind, exec_on_supervisor.
  destruct (exec (SupervisorProg.update_state _ _ _ id state) _) as [o s0].
  destruct (Supervisor.update_state _ _ _ id state _) as [[r s]|]; simpl in *; [|by subst o].
  injection Hu as -> ->. destruct r as [u|e]; [|done].
  specialize (IH (fun n => clock (Datatypes.S n)) (Handler.set_supervisor s k)). simpl in IH.
  by destruct (Daemon.update_all _ l s) as [[r' s']|].
Qed.

End Sequential.

(** * The tasks of the kernel *)

(** What a task reports when it has ended. *)
Inductive report {V : Type} :=
| Answer (m : RpcMethod) (params : option V) (r : result (Z * string) V)
| Registered (task_id : string)
| ShutDown (r : result SupervisorError unit)
| Finished.
Arguments report : clear implicits.

Module Activity.
Section Activity.
Context `{BuildProfile} `{HashOrder} `{J : Json} {S : Type} `{StateStore S}.
Context (st : statics).

Definition request (clock : nat -> Instant) (m : RpcMethod) (params : option Value)
    : prog (KernelState S) (report Value) :=
  r ← HandlerProg.handle st clock m params; mret (Answer m params r).

(** The call of [TaskRegistry::register] for a started task. *)
Definition registration (task_id socket_path : string) : prog (KernelState S) (report Value) :=
  HandlerProg.registry_register task_id socket_path;; mret (Registered task_id).

Definition tick (now : Instant) (level : MemoryPressureLevel)
    : prog (KernelState S) (report Value) :=
  HandlerProg.health_tick now level;; mret Finished.

Definition state_update (now : Instant) (id : ProcessId) (state : ProcessState)
    : prog (KernelState S) (report Value) :=
  HandlerProg.on_supervisor (SupervisorProg.update_state now now now id state);; mret Finished.

Definition shutdown (clock : nat -> Instant) : prog (KernelState S) (report Value) :=
  r ← HandlerProg.graceful_shutdown clock; mret (ShutDown r).

(** Everything the daemon does once it has started; [allowed] restricts the
    requests. *)
Inductive activity (allowed : RpcMethod -> option Value -> Prop)
    : prog (KernelState S) (report Value) -> Prop :=
| act_request clock m params : allowed m params -> activity allowed (request clock m params)
| act_registration task_id path : activity allowed (registration task_id path)
| act_tick now level : activity allowed (tick now level)
| act_update now id state : activity allowed (state_update now id state)
| act_shutdown clock : activity allowed (shutdown clock).

(** What goes on while the main task shuts down. *)
Inductive service : prog (KernelState S) (report Value) -> Prop :=
| srv_request clock m params : service (request clock m params)
| srv_registration task_id path : service (registration task_id path)
| srv_tick now level : service (tick now level).

End Activity.
End Activity.

(** * What a request leaves alone

    A relation between the states before and after a critical section, that
    holds when the registry, the sequence number, the store, the supervised
    processes and the governor are the same, and for the writes of the meta
    cycles that allowed requests report. *)

(** Some allowed request reports the end of the cycle. *)
Definition reported `{Json} (allowed : RpcMethod -> option Value -> Prop)
    (id : string) (changed : bool) (drift : f64) : Prop :=
  exists v t, allowed MLoopTrigger (Some v) /\ trigger_from_value v = Ok t
    /\ lt_kind t = MetaCycleComplete id changed drift.

Class Unaffected `{J : Json} {S : Type} `{StateStore S}
    (R : KernelState S -> KernelState S -> Prop) := {
  un_allowed : RpcMethod -> option Value -> Prop;
  un_same k k' : task_registry k' = task_registry k -> trigger_seq k' = trigger_seq k ->
    state_store k' = state_store k ->
    children (k_supervisor k') = children (k_supervisor k) -> k_governor k' = k_governor k -> R k k';
  un_writes clock id changed drift k : reported un_allowed id changed drift ->
    R k (HandlerProg.with_store_lock (HandlerProg.cycle_writes clock id changed drift) k).2
}.

(** The relation does not look at the counters of the governor either. *)
Class GovernorFree {S : Type} (R : KernelState S -> KernelState S -> Prop) :=
  un_governor c r k : R k (Handler.set_governor (write_counter c r (k_governor k)) k).

(** The relation does not look at the memory pressure. *)
Class PressureFree {S : Type} (R : KernelState S -> KernelState S -> Prop) :=
  un_pressure level k :
    R k (Handler.set_governor (Governor.update_pressure level (k_governor k)) k).

(** The relation does not look at the supervisor. *)
Class SupervisorFree {S : Type} (R : KernelState S -> KernelState S -> Prop) :=
  un_supervisor s k : R k (Handler.set_supervisor s k).

(** Only the cached health may differ. *)
Definition children_kept (s s' : KernelSupervisor) : Prop := children s' = children s.

Lemma health_moves `{BuildProfile} `{HashOrder} now :
  moves children_kept (SupervisorProg.health now).
Proof. intros s. split; [done|]. intros s'. split; [done|]. by intros s''. Qed.

Section Unaffected.
Context `{BuildProfile} `{HashOrder} `{J : Json} {S : Type} `{StateStore S}.
Context (st : statics) (R : KernelState S -> KernelState S -> Prop) `{!Unaffected R}.
Implicit Types k : KernelState S.

Lemma moves_supervisor `{!SupervisorFree R} {A} (q : prog KernelSupervisor A) :
  moves R (HandlerProg.on_supervisor q).
Proof. apply moves_zoom. intros x k. apply un_supervisor. Qed.

Lemma moves_kept {A} (q : prog KernelSupervisor A) :
  moves children_kept q -> moves R (HandlerProg.on_supervisor q).
Proof.
  intros Hq. apply (moves_zoom_part _ children_kept); [done|]. intros x k Hx.
  by apply un_same.
Qed.

Lemma moves_health now : moves R (HandlerProg.on_supervisor (SupervisorProg.health now)).
Proof. apply moves_kept, health_moves. Qed.

Lemma moves_governor `{!GovernorFree R} {A} (q : Atomics.prog A) :
  moves R (HandlerProg.on_governor q).
Proof.
  induction q as [r|c IH|c f IH|c r q IH]; [done|..]; intros k; (split; [|apply IH]).
  1-2: by apply un_same.
  apply un_governor.
Qed.

Lemma moves_get id : moves R (HandlerProg.registry_get id).
Proof. apply moves_locked. intros k. by apply un_same. Qed.

Lemma moves_progress params : moves R (HandlerProg.handle_task_progress params).
Proof.
  unfold HandlerProg.handle_task_progress.
  destruct (HandlerProg.progress_params params) as [id|e]; [|done].
  apply moves_bind; [apply moves_get|done].
Qed.

Lemma moves_submit `{!GovernorFree R} params : moves R (HandlerProg.handle_task_submit st params).
Proof.
  unfold HandlerProg.handle_task_submit. destruct (Handler.submit_params params) as [e|e]; [|done].
  apply moves_bind; [apply moves_governor|]. intros []; try done.
  apply moves_bind; [apply moves_governor|done].
Qed.

(** What follows the removal of a registered task. *)
Lemma moves_release `{!GovernorFree R} tokens (r : response J) :
  moves R (HandlerProg.on_governor (GovernorProg.task_ended st P1Normal 0);;
    (if 0 <? tokens then HandlerProg.on_governor (GovernorProg.tokens_used st P1Normal tokens)
     else mret tt);; mret r).
Proof.
  apply moves_bind; [apply moves_governor|]. intros _.
  apply moves_bind; [|done]. destruct (0 <? tokens); [apply moves_governor|done].
Qed.

Lemma moves_complete `{!GovernorFree R} params :
  (forall id, moves R (HandlerProg.registry_remove id)) ->
  moves R (HandlerProg.handle_task_complete st params).
Proof.
  intros Hrem. unfold HandlerProg.handle_task_complete.
  destruct (Handler.complete_params params) as [[i tokens]|e]; [|done].
  apply moves_bind; [done|]. intros [path|]; [|done]. apply moves_release.
Qed.

(** Routing a trigger of an un_allowed request, or one that reports nothing. *)
Lemma moves_route clock t :
  (forall id changed drift, lt_kind t = MetaCycleComplete id changed drift ->
     reported un_allowed id changed drift) ->
  (forall trigger_source, lt_kind t = MetaCycleRequest trigger_source ->
     moves R HandlerProg.next_seq) ->
  moves R (HandlerProg.route clock t).
Proof.
  intros Hrep Hseq. unfold HandlerProg.route. destruct (lt_kind t) eqn:E; try done.
  - apply moves_bind; [apply moves_get|done].
  - apply moves_bind; [by eapply Hseq|done].
  - apply moves_bind; [|done]. apply moves_locked. intros k. by apply un_writes, Hrep.
Qed.

Lemma moves_guarded_route clock t h :
  moves R (HandlerProg.route clock t) -> moves R (HandlerProg.guarded_route clock t h).
Proof. intros Hr. unfold HandlerProg.guarded_route. destruct (negb _); [done|]. by destruct (_ && _). Qed.

Lemma moves_trigger_of clock v t :
  trigger_from_value v = Ok t -> moves R (HandlerProg.route clock t) ->
  moves R (HandlerProg.handle_loop_trigger clock (Some v)).
Proof.
  intros Hv Hr. unfold HandlerProg.handle_loop_trigger.
  cbn [Handler.require_params ok_or]. rewrite Hv.
  apply moves_bind; [apply moves_health|]. intros h. by apply moves_guarded_route.
Qed.

Lemma moves_trigger clock params :
  un_allowed MLoopTrigger params -> moves R HandlerProg.next_seq ->
  moves R (HandlerProg.handle_loop_trigger clock params).
Proof.
  intros Hall Hseq. destruct params as [v|]; [|done].
  destruct (trigger_from_value v) as [t|e] eqn:Hv.
  - apply (moves_trigger_of _ _ _ Hv), moves_route; [|done]. intros id changed drift Hk.
    by exists v, t.
  - unfold HandlerProg.handle_loop_trigger. cbn [Handler.require_params ok_or]. by rewrite Hv.
Qed.

(** The trigger of a cancelled task, when it can be read back. *)
Lemma moves_cancel `{!JsonLaws} clock params :
  moves R HandlerProg.next_seq -> moves R (HandlerProg.handle_task_cancel clock params).
Proof.
  intros Hseq. unfold HandlerProg.handle_task_cancel.
  destruct (Handler.cancel_params params) as [[i reason]|e]; [|done].
  apply moves_bind; [done|]. intros seq. cbv zeta.
  destruct (cancel_value seq Kernel Loop1Agentic i reason) as (v & -> & Hv).
  by apply (moves_trigger_of _ _ _ Hv), moves_route.
Qed.

Lemma moves_handle `{!JsonLaws} `{!GovernorFree R} clock method params :
  un_allowed method params -> moves R HandlerProg.next_seq ->
  (forall id, moves R (HandlerProg.registry_remove id)) ->
  moves R (HandlerProg.handle st clock method params).
Proof.
  intros Hall Hseq Hrem. destruct method; simpl; [apply moves_submit|apply moves_progress
    |by apply moves_complete|by apply moves_cancel|by apply moves_trigger|done].
Qed.

Lemma moves_tick `{!PressureFree R} now level : moves R (Activity.tick now level).
Proof.
  apply moves_bind; [|done].
  apply moves_bind; [apply moves_locked; intros k; apply un_pressure|].
  intros _. apply moves_bind; [apply moves_health|]. intros h.
  apply moves_bind; [by apply moves_kept|done].
Qed.

Lemma moves_update `{!SupervisorFree R} now id state :
  moves R (Activity.state_update now id state).
Proof. apply moves_bind; [apply moves_supervisor|done]. Qed.

Lemma moves_shutdown `{!SupervisorFree R} clock : moves R (Activity.shutdown clock).
Proof.
  apply moves_bind; [|done]. unfold HandlerProg.graceful_shutdown.
  generalize (id ← Daemon.shutdown_order; [(id, Stopping); (id, Stopped)]). intros l.
  revert clock. induction l as [|[id state] l IH]; intros clock; [done|].
  apply moves_bind; [apply moves_supervisor|]. by intros [[]|e].
Qed.

Lemma moves_service `{!JsonLaws} `{!GovernorFree R} `{!PressureFree R} q :
  (forall method params, un_allowed method params) ->
  moves R HandlerProg.next_seq -> (forall id, moves R (HandlerProg.registry_remove id)) ->
  (forall id path, moves R (HandlerProg.registry_register id path)) ->
  Activity.service st q -> moves R q.
Proof.
  intros Hall Hseq Hrem Hreg [clock method params|i path|now level].
  - apply moves_bind; [by apply moves_handle|done].
  - by apply moves_bind.
  - apply moves_tick.
Qed.

Lemma moves_activity `{!JsonLaws} `{!GovernorFree R} `{!PressureFree R} `{!SupervisorFree R} q :
  moves R HandlerProg.next_seq -> (forall id, moves R (HandlerProg.registry_remove id)) ->
  (forall id path, moves R (HandlerProg.registry_register id path)) ->
  Activity.activity st un_allowed q -> moves R q.
Proof.
  intros Hseq Hrem Hreg [clock method params Hall|i path|now level|now i state|clock].
  - apply moves_bind; [by apply moves_handle|done].
  - by apply moves_bind.
  - apply moves_tick.
  - apply moves_update.
  - apply moves_shutdown.
Qed.

End Unaffected.

Lemma measure_governor {S : Type} G (m : KernelState S -> Z) :
  (forall k k', task_registry k' = task_registry k -> trigger_seq k' = trigger_seq k ->
     m k' = m k) ->
  GovernorFree (not_raised G m).
Proof. intros Hm c r k _. by rewrite (Hm k). Qed.

Lemma measure_pressure {S : Type} G (m : KernelState S -> Z) :
  (forall k k', task_registry k' = task_registry k -> trigger_seq k' = trigger_seq k ->
     m k' = m k) ->
  PressureFree (not_raised G m).
Proof. intros Hm level k _. by rewrite (Hm k). Qed.

Lemma measure_supervisor {S : Type} G (m : KernelState S -> Z) :
  (forall k k', task_registry k' = task_registry k -> trigger_seq k' = trigger_seq k ->
     m k' = m k) ->
  SupervisorFree (not_raised G m).
Proof. intros Hm s k _. by rewrite (Hm k). Qed.

(** A measure that looks at the sequence number only. *)
Section Numbers.
Context `{J : Json} {S : Type} `{StateStore S} (G : KernelState S -> Prop) (m : KernelState S -> Z).
Context (Hm : forall k k', trigger_seq k' = trigger_seq k -> m k' = m k).

Lemma unraised_remove id : moves (not_raised G m) (HandlerProg.registry_remove id).
Proof. apply moves_locked. intros k _. by rewrite (Hm k). Qed.

Lemma unraised_register id path : moves (not_raised G m) (HandlerProg.registry_register id path).
Proof. apply moves_locked. intros k _. by rewrite (Hm k). Qed.

End Numbers.

(** Applies one of these lemmas to a relation that is known to be unaffected. *)
Tactic Notation "framed" uconstr(lem) := unshelve eapply lem; try exact _.

(** The writes of a meta cycle touch the store only. *)
Lemma persist_all_frame `{BuildProfile} `{HashOrder} `{J : Json} {S : Type} `{StateStore S}
    ws (k : KernelState S) :
  task_registry (HandlerProg.persist_all ws k).2 = task_registry k
  /\ trigger_seq (HandlerProg.persist_all ws k).2 = trigger_seq k
  /\ k_governor (HandlerProg.persist_all ws k).2 = k_governor k
  /\ k_supervisor (HandlerProg.persist_all ws k).2 = k_supervisor k.
Proof.
  revert k. induction ws as [|[[now key] value] ws IH]; intros k; [done|].
  cbn [HandlerProg.persist_all]. destruct (Handler.persist now key value k) as [[[[]|e] k1]|] eqn:Hp;
    [|apply persist_frame in Hp..|done].
  - apply persist_frame in Hp as ([Hg Hr] & Hsup & _ & Hs). destruct (IH k1) as (-> & -> & -> & ->).
    by split_and!.
  - by destruct Hp as ([? ?] & ? & _ & ?).
Qed.

(** A measure that looks at the registry and the sequence number only. *)
Lemma measure_unaffected `{BuildProfile} `{HashOrder} `{J : Json} {S : Type} `{StateStore S}
    G (m : KernelState S -> Z) :
  (forall k k', task_registry k' = task_registry k -> trigger_seq k' = trigger_seq k ->
     m k' = m k) ->
  Unaffected (not_raised G m).
Proof.
  intros Hm. exists (fun _ _ => True).
  - intros k k' Hr Hs _ _ _ _. rewrite (Hm k k'); [lia|done..].
  - intros clock id changed drift k _ _. rewrite (Hm k); [lia|..];
      unfold HandlerProg.with_store_lock; destruct (lock_poisoned k); try done;
      apply persist_all_frame.
Defined.

(** * The requests alone *)

Section Alone.
Context `{BuildProfile} `{HashOrder} `{J : Json} {S : Type} `{StateStore S}.
Implicit Types k : KernelState S.

(** Every request, taken apart into the critical sections it enters (each access
    to the registry, the sequence number and an atomic of the governor on its
    own), does what its one-step definition does whenever no other task runs in
    between: the same answer, or panic, and the same kernel state. What Handler.v
    shows of a request holds for its program in this way. *)
Theorem requests_agree k clock m params :
  agrees (HandlerProg.handle (statics_of (k_governor k)) clock m params)
    (Handler.handle clock m params k) k.
Proof.
  destruct m; simpl.
  - apply exec_submit_request.
  - apply exec_progress.
  - rewrite exec_complete. by destruct (Handler.handle_task_complete params k).
  - apply exec_cancel.
  - apply exec_trigger.
  - done.
Qed.

(** So does a line of a connection. *)
Theorem lines_agree k clock line :
  agrees (HandlerProg.process_line (statics_of (k_governor k)) clock line)
    (Server.process_line (RequestHandler0 := kernel_handler clock) line k) k.
Proof.
  unfold HandlerProg.process_line, Server.process_line.
  destruct (request_from_str line) as [q|e]; [|done].
  destruct (RpcMethod.from_str (rq_method q)) as [m|]; [|done].
  pose proof (requests_agree k clock m (rq_params q)) as Ha. simpl rh_handle.
  unfold agrees in *. rewrite sections_bind.
  destruct (Handler.handle clock m (rq_params q) k) as [[r k1]|]; [by rewrite Ha|].
  by destruct (exec _ k) as [[r|] k1].
Qed.

(** So do the shutdown and a tick of the health loop. *)
Theorem upkeep_agrees k :
  (forall clock, agrees (HandlerProg.graceful_shutdown clock)
     ('(r, s) ← Daemon.graceful_shutdown clock (k_supervisor k);
      Ret (r, Handler.set_supervisor s k)) k)
  /\ (forall now level,
     let '(h, w, s, g) := Daemon.health_tick now level (k_supervisor k) (k_governor k) in
     exec (HandlerProg.health_tick now level) k
     = (Ret (h, w), Handler.set_governor g (Handler.set_supervisor s k))).
Proof. by split; [intros clock; apply exec_update_all|]. Qed.

End Alone.
