(* ===== verification/Concurrent.v ===== *)
(** The kernel's requests on several tasks: what any interleaving of the
    programs of Requests.v keeps.

    A task is completed at most once for each registration; the numbers of meta
    cycles are given out once; the results of two cycles are never mixed in the
    store; to the governor the requests are threads that submit (Ceiling.v), so
    its limits and the ceiling of the system hold up to one task for each other
    connection; and the check of a trigger can be passed by a process that has
    been stopped. *)

From S2P Require Import Prelude F64 Envelope Hardware Governor Atomics Ceiling Supervisor Sections Locks.
From S2P Require Import Store Rpc Handler Daemon Requests.

(** * Completions *)

Section Completions.
Context `{BuildProfile} `{HashOrder} `{JL : JsonLaws} {S : Type} `{StateStore S}.
Context (st : statics) (id : string).
Implicit Types k : KernelState S.

(** The end of a task that completed [id], or registered it. *)
Definition completion (r : outcome (report Value)) : Z :=
  match r with
  | Ret (Answer TaskComplete params (Ok _)) =>
    match Handler.complete_params params with
    | Ok (task_id, _) => if bool_decide (task_id = id) then 1 else 0
    | Err _ => 0
    end
  | _ => 0
  end.

Definition registered (r : outcome (report Value)) : Z :=
  match r with
  | Ret (Registered task_id) => if bool_decide (task_id = id) then 1 else 0
  | _ => 0
  end.

Definition balance (r : outcome (report Value)) : Z := completion r - registered r.

Definition present k : Z := if bool_decide (is_Some (task_registry k !! id)) then 1 else 0.

Definition covered (v : Z) (r : outcome (report Value)) : Prop := balance r <= v.

#[local] Abbreviation free := (fun _ : KernelState S => True).

#[local] Abbreviation anything := (fun (_ : RpcMethod) (_ : option Value) => True).

#[local] Instance present_unaffected : Unaffected (not_raised free present).
Proof. apply measure_unaffected. intros k k' Hr _. unfold present. by rewrite Hr. Defined.

#[local] Instance present_governor : GovernorFree (not_raised free present).
Proof. apply measure_governor. intros k k' Hr _. unfold present. by rewrite Hr. Qed.

#[local] Instance present_pressure : PressureFree (not_raised free present).
Proof. apply measure_pressure. intros k k' Hr _. unfold present. by rewrite Hr. Qed.

#[local] Instance present_supervisor : SupervisorFree (not_raised free present).
Proof. apply measure_supervisor. intros k k' Hr _. unfold present. by rewrite Hr. Qed.

Lemma present_next_seq : moves (not_raised free present) HandlerProg.next_seq.
Proof. apply moves_locked. by intros k _. Qed.

(** A completion takes its task out of the registry. *)
Lemma complete_pays params :
  pays free present 0 covered 0 (r ← HandlerProg.handle_task_complete st params;
                                 mret (Answer TaskComplete params r)).
Proof.
  unfold HandlerProg.handle_task_complete.
  destruct (Handler.complete_params params) as [[i tokens]|e] eqn:Hp; [|done].
  apply pays_bind, pays_bind, pays_locked; [done|]. intros k _.
  unfold TaskRegistry.remove. cbn [fst snd].
  destruct (task_registry k !! i) as [path|] eqn:Hi.
  - exists (if bool_decide (i = id) then 1 else 0).
    assert (Hb : 0 <= if bool_decide (i = id) then 1 else 0) by (by case_bool_decide).
    split.
    + unfold present. simpl. case_bool_decide as E.
      * subst i. by rewrite lookup_delete_eq, Hi.
      * rewrite lookup_delete_ne by done. lia.
    + apply pays_unraised; [framed moves_release|done|].
      set (v := if bool_decide (i = id) then 1 else 0) in *.
      apply returns_bind; [done|]. apply returns_all. intros [[]|]; [|done].
      apply returns_bind; [done|]. apply returns_all. intros [[]|]; [|done].
      simpl. unfold covered, balance. simpl. rewrite Hp. unfold v. lia.
  - exists 0. split; [|done]. unfold present. simpl.
    destruct (decide (i = id)) as [->|Hne].
    + by rewrite lookup_delete_eq, Hi.
    + by rewrite lookup_delete_ne.
Qed.

Lemma quiet_returns (m : RpcMethod) (params : option Value) (q : prog (KernelState S) (response _)) :
  m <> TaskComplete -> moves (not_raised free present) q ->
  pays free present 0 covered 0 (r ← q; mret (Answer m params r)).
Proof.
  intros Hm Hq. apply pays_bind, pays_unraised; [done|done|]. apply returns_all.
  intros [r|]; [|done]. destruct m; solve [done | by destruct Hm].
Qed.

Lemma activity_pays allowed q :
  Activity.activity st allowed q -> pays free present 0 covered 0 q.
Proof.
  intros [clock m params _|i path|now level|now i state|clock].
  - destruct m; try (apply quiet_returns; [done|]); simpl.
    + framed moves_submit.
    + framed moves_progress.
    + apply complete_pays.
    + framed moves_cancel. apply present_next_seq.
    + framed moves_trigger; [done|apply present_next_seq].
    + done.
  - apply pays_locked; [done|]. intros k _. unfold present. simpl.
    exists (if bool_decide (i = id) then -1 else 0). unfold covered, balance, TaskRegistry.register. simpl.
    destruct (decide (i = id)) as [->|Hne].
    + rewrite lookup_insert_eq, !bool_decide_true by done.
      split; [|done]. case_bool_decide; lia.
    + rewrite lookup_insert_ne, (bool_decide_false (i = id)) by done. split; [lia|done].
  - apply pays_unraised; [framed moves_tick|done|]. apply returns_bind; [done|].
    apply returns_all. by intros [].
  - apply pays_unraised; [framed moves_update|done|]. apply returns_bind; [done|].
    apply returns_all. by intros [].
  - apply pays_unraised; [framed moves_shutdown|done|]. apply returns_bind; [done|].
    apply returns_all. by intros [].
Qed.

(** How many tasks have completed [id], and how many have registered it. *)
Definition completions (w : Tasks.pool (KernelState S) (report Value)) : Z :=
  sum_Z (value completion <$> Tasks.p_tasks w).

Definition registrations (w : Tasks.pool (KernelState S) (report Value)) : Z :=
  sum_Z (value registered <$> Tasks.p_tasks w).

Lemma balance_total (w : Tasks.pool (KernelState S) (report Value)) :
  sum_Z (value balance <$> Tasks.p_tasks w) = completions w - registrations w.
Proof.
  unfold completions, registrations. destruct w as [k l]. simpl.
  induction l as [|q l IH]; [done|]. rewrite !fmap_cons, !sum_Z_cons, IH.
  destruct q; simpl; unfold balance; lia.
Qed.

Lemma free_steps_account {T} m lo (ok : Z -> outcome T -> Prop) m0 programs w w' :
  (forall q, programs q -> pays free m lo ok 0 q) ->
  rtc (Tasks.step programs) w w' -> account free m lo ok m0 w -> account free m lo ok m0 w'.
Proof.
  intros Hp. induction 1 as [|w1 w2 w3 Hs _ IH]; [done|]. intros Ha. apply IH.
  by eapply (account_step free m lo ok m0 programs w1 w2).
Qed.

End Completions.

(** * The numbers of meta cycles *)

Section Cycles.
Context `{BuildProfile} `{HashOrder} `{JL : JsonLaws} {S : Type} `{StateStore S}.
Context (st : statics).
Implicit Types k : KernelState S.

#[local] Abbreviation anything := (fun (_ : RpcMethod) (_ : option Value) => True).
#[local] Abbreviation all_activity := (Activity.activity st anything).

Definition field (key : string) (v : Value) : option string := x ← v_get key v; v_as_str x.

(** The cycle that a trigger was authorized to start. *)
Definition authorized_cycle (r : outcome (report Value)) : option string :=
  match r with
  | Ret (Answer MLoopTrigger _ (Ok a)) =>
    status ← field "status" a;
    if String.eqb status "authorized" then field "cycle_id" a else None
  | _ => None
  end.

Lemma status_object s l :
  field "status" (v_object (("status"%string, v_string s) :: l)) = Some s.
Proof. unfold field. rewrite get_object. simpl. by rewrite as_str_string. Qed.

Definition cycle_name (seq : Z) : string := "cycle-" +:+ display_int seq.

Lemma cycle_name_inj a b : cycle_name a = cycle_name b -> a = b.
Proof.
  intros Heq. injection Heq as Heq.
  by apply (inj (A:=Z) (B:=string) (R:=(=)) (S:=(=)) pretty).
Qed.

(** The sequence number never turns negative, and each task raises it at most
    once. *)
Definition stays_nonneg k k' : Prop := 0 <= trigger_seq k -> 0 <= trigger_seq k'.

#[local] Instance nonneg_unaffected : Unaffected stays_nonneg.
Proof.
  exists anything; [intros k k' _ Hs _ _ _; unfold stays_nonneg; by rewrite Hs|].
  intros clock i changed drift k _. unfold stays_nonneg, HandlerProg.with_store_lock.
  destruct (lock_poisoned k); [done|]. by rewrite (proj1 (proj2 (persist_all_frame _ k))).
Defined.

#[local] Instance nonneg_governor : GovernorFree stays_nonneg.
Proof. intros c r k Hk. exact Hk. Qed.

#[local] Instance nonneg_pressure : PressureFree stays_nonneg.
Proof. intros level k Hk. exact Hk. Qed.

#[local] Instance nonneg_supervisor : SupervisorFree stays_nonneg.
Proof. intros s k Hk. exact Hk. Qed.

Lemma seq_nonneg k w :
  rtc (Tasks.step all_activity) (Tasks.mkPool k []) w -> stays_nonneg k (Tasks.p_state w).
Proof.
  intros Hr Hk. apply (rtc_keeps (fun k => 0 <= trigger_seq k) k (Tasks.p_state w)); [|done].
  refine (moves_steps stays_nonneg all_activity _ w _ Hr _); [|constructor].
  intros q Hq. framed (moves_activity st);
    [|intros i k0; split; [by intros ?|done]|intros i path k0; split; [by intros ?|done]|exact Hq].
  apply moves_locked. intros k0 _. simpl. unfold wrapping_add. by apply (in_u_cast 64).
Qed.

Lemma wrapping_succ z : 0 <= z -> 0 <= wrapping_add 64 z 1 <= z + 1.
Proof.
  intros Hz. unfold wrapping_add, cast_u.
  split; [by apply Z.mod_pos_bound|by apply Z.mod_le; lia].
Qed.

(** The balance of a task that has taken a number is negative. *)
Definition any_debt {A} (v : Z) (r : outcome A) : Prop := -1 <= v.

#[local] Instance seq_unaffected :
  Unaffected (not_raised (fun k => 0 <= trigger_seq k) trigger_seq).
Proof. by apply measure_unaffected. Defined.

#[local] Instance seq_governor :
  GovernorFree (not_raised (fun k => 0 <= trigger_seq k) trigger_seq).
Proof. by apply measure_governor. Qed.

#[local] Instance seq_pressure :
  PressureFree (not_raised (fun k => 0 <= trigger_seq k) trigger_seq).
Proof. by apply measure_pressure. Qed.

#[local] Instance seq_supervisor :
  SupervisorFree (not_raised (fun k => 0 <= trigger_seq k) trigger_seq).
Proof. by apply measure_supervisor. Qed.

#[local] Abbreviation owes := (pays (fun k => 0 <= trigger_seq k) trigger_seq (-1) any_debt).

Lemma next_seq_debt {A} (g : Z -> prog (KernelState S) A) :
  (forall seq, owes (-1) (g seq)) ->
  owes 0 (HandlerProg.next_seq ≫= g).
Proof.
  intros Hg. apply pays_bind, pays_locked; [done|]. intros k Hk. exists (-1). split; [|apply Hg].
  simpl. pose proof (wrapping_succ _ Hk). lia.
Qed.

Lemma owes_unraised {A} (q : prog (KernelState S) A) v :
  -1 <= v -> moves (not_raised (fun k => 0 <= trigger_seq k) trigger_seq) q ->
  owes v q.
Proof. intros Hv Hq. apply pays_unraised; [done|done|]. by apply returns_all. Qed.

Lemma trigger_debt clock params :
  owes 0 (HandlerProg.handle_loop_trigger clock params).
Proof.
  unfold HandlerProg.handle_loop_trigger. destruct (Handler.require_params params) as [v|e]; [|done].
  destruct (trigger_from_value v) as [t|e] eqn:Hv; [|done].
  apply pays_bind, pays_unraised; [framed moves_health|done|]. apply returns_all.
  intros [h|]; [|done]. unfold HandlerProg.guarded_route.
  destruct (negb _); [done|]. destruct (_ && _); [done|].
  destruct (lt_kind t) eqn:E;
    try (apply owes_unraised; [done|]; framed moves_route;
         [intros; by exists v, t|by rewrite E]).
  unfold HandlerProg.route. rewrite E. by apply next_seq_debt.
Qed.

Lemma cancel_debt clock params :
  owes 0 (HandlerProg.handle_task_cancel clock params).
Proof.
  unfold HandlerProg.handle_task_cancel.
  destruct (Handler.cancel_params params) as [[i reason]|e]; [|done].
  apply next_seq_debt. intros seq. cbv zeta.
  destruct (cancel_value seq Kernel Loop1Agentic i reason) as (v & -> & Hv).
  apply owes_unraised; [done|]. framed (moves_trigger_of _ clock _ _ Hv). by framed moves_route.
Qed.

Lemma activity_debt q : all_activity q -> owes 0 q.
Proof.
  intros [clock method params _|i path|now level|now i state|clock].
  - apply pays_bind, (pays_mono _ _ _ any_debt); [by intros v [r|]|].
    destruct method; simpl.
    + apply owes_unraised; [done|framed moves_submit].
    + apply owes_unraised; [done|framed moves_progress].
    + apply owes_unraised; [done|framed moves_complete; by apply unraised_remove].
    + apply cancel_debt.
    + apply trigger_debt.
    + done.
  - apply owes_unraised; [done|]. apply moves_bind; [by apply unraised_register|done].
  - apply owes_unraised; [done|framed moves_tick].
  - apply owes_unraised; [done|framed moves_update].
  - apply owes_unraised; [done|framed moves_shutdown].
Qed.

(** Every task's number stays within its type and the number of the tasks. *)
Lemma seq_bound k w :
  rtc (Tasks.step all_activity) (Tasks.mkPool k []) w -> 0 <= trigger_seq k ->
  0 <= trigger_seq (Tasks.p_state w) <= trigger_seq k + Z.of_nat (length (Tasks.p_tasks w)).
Proof.
  intros Hr Hk. split; [by eapply seq_nonneg|].
  assert (account (fun k => 0 <= trigger_seq k) trigger_seq (-1) any_debt (trigger_seq k) w)
    as (vs & Hf & Hm).
  { eapply rtc_ind_r with (P := fun w => account (fun k => 0 <= trigger_seq k) trigger_seq (-1)
      any_debt (trigger_seq k) w); [apply account_start| |exact Hr].
    intros w1 w2 Hr1 Hs. eapply account_step; [apply activity_debt| |exact Hs].
    by eapply seq_nonneg. }
  assert (- Z.of_nat (length vs) <= sum_Z vs) as Hv.
  { clear Hm. induction Hf as [|v q vs qs Hq _ IH]; [done|]. rewrite sum_Z_cons. cbn [length].
    assert (-1 <= v) by (destruct q; [done|apply Hq]). lia. }
  rewrite (Forall2_length _ _ _ Hf) in Hv. lia.
Qed.

(** ** One number *)

Section Number.
Context (n : Z).

(** Whether the number has not been given out, while they do not wrap. *)
Definition fresh k : Z := if trigger_seq k <=? n then 1 else 0.

Definition in_range k : Prop := 0 <= trigger_seq k < 2 ^ 64 - 1.

(** Only a task with a balance has the number. *)
Definition has_number (v : Z) (r : outcome (report Value)) : Prop :=
  0 <= v /\ forall c, authorized_cycle r = Some c ->
    exists seq, c = cycle_name seq /\ (seq = n -> 1 <= v).

#[local] Abbreviation pay := (pays in_range fresh 0 has_number).

Lemma fresh_same k k' : trigger_seq k' = trigger_seq k -> fresh k' = fresh k.
Proof. intros Hs. unfold fresh. by rewrite Hs. Qed.

#[local] Instance fresh_unaffected : Unaffected (not_raised in_range fresh).
Proof. apply measure_unaffected. intros k k' _. apply fresh_same. Defined.

#[local] Instance fresh_governor : GovernorFree (not_raised in_range fresh).
Proof. apply measure_governor. intros k k' _. apply fresh_same. Qed.

#[local] Instance fresh_pressure : PressureFree (not_raised in_range fresh).
Proof. apply measure_pressure. intros k k' _. apply fresh_same. Qed.

#[local] Instance fresh_supervisor : SupervisorFree (not_raised in_range fresh).
Proof. apply measure_supervisor. intros k k' _. apply fresh_same. Qed.

Lemma next_in_range k :
  in_range k -> trigger_seq (Handler.next_seq k).2 = trigger_seq k + 1.
Proof.
  intros Hk. simpl. unfold wrapping_add, cast_u. apply Z.mod_small. unfold in_range in Hk. lia.
Qed.

Lemma fresh_next_seq : moves (not_raised in_range fresh) HandlerProg.next_seq.
Proof.
  apply moves_locked. intros k Hk. unfold fresh. rewrite next_in_range by done.
  destruct (Z.leb_spec (trigger_seq k + 1) n), (Z.leb_spec (trigger_seq k) n); lia.
Qed.

Lemma authorized_object params s l :
  authorized_cycle (Ret (Answer MLoopTrigger params
    (Ok (v_object (("status"%string, v_string s) :: l)))))
  = if String.eqb s "authorized" then field "cycle_id" (v_object (("status"%string, v_string s) :: l))
    else None.
Proof. cbn [authorized_cycle]. by rewrite status_object. Qed.

(** The balance for the answer to a trigger. *)
Definition has_answer (params : option Value) (v : Z) (r : outcome (response _)) : Prop :=
  match r with
  | Ret a => has_number v (Ret (Answer MLoopTrigger params a))
  | Panic => has_number v Panic
  end.

(** An answer with another status, or an error. *)
Definition other_status (r : outcome (response _)) : Prop :=
  match r with
  | Ret (Ok a) => exists s l, a = v_object (("status"%string, v_string s) :: l)
      /\ s <> "authorized"%string
  | _ => True
  end.

Lemma other_status_answer params (q : prog (KernelState S) (response _)) :
  moves (not_raised in_range fresh) q -> returns other_status q ->
  pays in_range fresh 0 (has_answer params) 0 q.
Proof.
  intros Hc Hr. apply pays_unraised; [done|done|]. clear Hc.
  induction q as [r|f k IH]; [|intros s; apply IH, Hr].
  destruct r as [[a|e]|]; [|by split..]. destruct Hr as (s & l & -> & Hs). split; [done|].
  by rewrite authorized_object, (proj2 (String.eqb_neq _ _) Hs).
Qed.

Lemma other_object s l :
  s <> "authorized"%string -> other_status (Ret (Ok (v_object (("status"%string, v_string s) :: l)))).
Proof. intros Hs. by exists s, l. Qed.

Lemma route_other_status clock t :
  (forall trigger_source, lt_kind t <> MetaCycleRequest trigger_source) ->
  returns other_status (HandlerProg.route clock t).
Proof.
  intros Hk. unfold HandlerProg.route. destruct (lt_kind t) eqn:E;
    try (by apply other_object); try (by destruct (Hk _ eq_refl)).
  - apply returns_bind; [done|]. apply returns_all.
    intros [[path|]|]; [by apply (other_object "cancel_forwarded")|done|done].
  - apply returns_bind; [done|]. apply returns_all.
    intros [[[]|e]|]; [by apply (other_object "persisted")|done|done].
Qed.

Lemma request_answer params seq_of :
  (forall seq, seq_of seq = Ok (v_object [("status", v_string "authorized");
                                         ("cycle_id", v_string (cycle_name seq))]%string)) ->
  pays in_range fresh 0 (has_answer params) 0
    (seq ← HandlerProg.next_seq; mret (seq_of seq) : prog (KernelState S) (response _)).
Proof.
  intros Hof. apply pays_bind, pays_locked; [done|]. intros k Hk.
  exists (if trigger_seq k =? n then 1 else 0). split.
  - unfold fresh. rewrite next_in_range by done.
    destruct (Z.eqb_spec (trigger_seq k) n), (Z.leb_spec (trigger_seq k + 1) n),
      (Z.leb_spec (trigger_seq k) n); lia.
  - cbn [fst Handler.next_seq]. simpl. rewrite Hof. split; [by destruct (_ =? n)|].
    rewrite authorized_object. simpl. unfold field. rewrite get_object. simpl.
    rewrite as_str_string. intros c Hc. exists (trigger_seq k). split; [congruence|].
    intros ->. by rewrite Z.eqb_refl.
Qed.

Lemma trigger_answer clock params :
  pays in_range fresh 0 (has_answer params) 0 (HandlerProg.handle_loop_trigger clock params).
Proof.
  unfold HandlerProg.handle_loop_trigger.
  destruct (Handler.require_params params) as [v|e]; [|by split].
  destruct (trigger_from_value v) as [t|e] eqn:Hv; [|by split].
  apply pays_bind, pays_unraised; [framed moves_health|done|]. apply returns_all.
  intros [h|]; [|by split]. unfold HandlerProg.guarded_route.
  destruct (negb _); [by split|]. destruct (_ && _); [by split|].
  destruct (lt_kind t) eqn:E; try (apply other_status_answer;
    [framed moves_route; [intros; by exists v, t|by rewrite E]|apply route_other_status; by rewrite E]).
  unfold HandlerProg.route. rewrite E. by apply request_answer.
Qed.

Lemma activity_number q : all_activity q -> pays in_range fresh 0 has_number 0 q.
Proof.
  intros [clock method params _|i path|now level|now i state|clock].
  - destruct (decide (method = MLoopTrigger)) as [->|Hne].
    { apply pays_bind, (pays_mono _ _ _ (has_answer params)); [by intros v [r|]|].
      apply trigger_answer. }
    apply pays_bind, pays_unraised; [|done|].
    + framed moves_handle; [done|apply fresh_next_seq|apply unraised_remove, fresh_same].
    + apply returns_all. intros [r|]; [|by split]. split; [done|]. by destruct method, r.
  - apply pays_unraised; [|done|]; [apply moves_bind; [apply unraised_register, fresh_same|done]|]. intros k. by split.
  - apply pays_unraised; [framed moves_tick|done|]. apply returns_bind; [by split|].
    apply returns_all. intros [h|]; by split.
  - apply pays_unraised; [framed moves_update|done|]. apply returns_bind; [by split|].
    apply returns_all. intros [h|]; by split.
  - apply pays_unraised; [framed moves_shutdown|done|]. apply returns_bind; [by split|].
    apply returns_all. intros [h|]; by split.
Qed.

End Number.

(** The task [i] was authorized to start the cycle [c]. *)
Definition authorized (w : Tasks.pool (KernelState S) (report Value)) (i : nat) (c : string) : Prop :=
  exists r, Tasks.p_tasks w !! i = Some (Stop r) /\ authorized_cycle r = Some c.

Lemma number_account n k w :
  rtc (Tasks.step all_activity) (Tasks.mkPool k []) w -> 0 <= trigger_seq k ->
  trigger_seq k + Z.of_nat (length (Tasks.p_tasks w)) < 2 ^ 64 - 1 ->
  account in_range (fresh n) 0 (has_number n) (fresh n k) w.
Proof.
  intros Hr Hk. eapply rtc_ind_r with (P := fun w =>
    trigger_seq k + Z.of_nat (length (Tasks.p_tasks w)) < 2 ^ 64 - 1 ->
    account in_range (fresh n) 0 (has_number n) (fresh n k) w);
    [intros _; apply account_start| |exact Hr].
  intros w1 w2 Hr1 Hs IH Hw.
  assert (length (Tasks.p_tasks w1) <= length (Tasks.p_tasks w2))%nat as Hl
    by (destruct Hs; simpl; rewrite ?length_insert, ?length_app; lia).
  eapply account_step; [apply activity_number| |exact Hs|apply IH; lia].
  pose proof (seq_bound _ _ Hr1 Hk). unfold in_range. lia.
Qed.

End Cycles.

(** * The results of meta cycles *)

Section Results.
Context `{BuildProfile} `{HashOrder} `{JL : JsonLaws} {S : Type} `{SS : StoreSpec S}.
Context (st : statics) (allowed : RpcMethod -> option Value -> Prop).
Context (Hput : forall now key value s, store_ok s ->
           exists s', ss_put now key value s = Ret (Ok tt, s')).
Implicit Types k : KernelState S.

Abbreviation drift_key := "sie/identity/last_drift"%string.
Abbreviation cycle_key := "sie/meta/last_cycle"%string.
Abbreviation head_key := "sie/policy/head"%string.

(** What the store may hold: the drift and the cycle are as they were at the
    start, or of one and the same reported cycle; the head of the policy is as
    it was, or a reported cycle that changed the policy; the rest is as it was. *)
Record consistent (m0 m : gmap string bytes) : Prop := {
  con_last : m !! drift_key = m0 !! drift_key /\ m !! cycle_key = m0 !! cycle_key
    \/ exists id changed drift, reported allowed id changed drift
       /\ m !! drift_key = Some (String.list_byte_of_string (display_f64 drift))
       /\ m !! cycle_key = Some (String.list_byte_of_string id);
  con_head : m !! head_key = m0 !! head_key
    \/ exists id drift, reported allowed id true drift
       /\ m !! head_key = Some (String.list_byte_of_string id);
  con_rest key : key <> drift_key -> key <> cycle_key -> key <> head_key ->
    m !! key = m0 !! key
}.

Lemma consistent_start m : consistent m m.
Proof. split; [by left|by left|done]. Qed.

Lemma consistent_writes m0 m id changed drift :
  reported allowed id changed drift -> consistent m0 m ->
  consistent m0 (after_writes (Handler.cycle_writes id changed drift) m).
Proof.
  intros Hr [_ Hh Hrest]. unfold after_writes, Handler.cycle_writes. rewrite foldl_app. simpl.
  assert (forall m' : gmap string bytes, m' !! head_key = m !! head_key \/ (changed = true
      /\ m' !! head_key = Some (String.list_byte_of_string id)) ->
    m' !! head_key = m0 !! head_key \/ exists id drift, reported allowed id true drift
       /\ m' !! head_key = Some (String.list_byte_of_string id)) as Hhead.
  { intros m' [Hm'|[-> Hm']]; [setoid_rewrite Hm'; exact Hh|]. right. by exists id, drift. }
  destruct changed; simpl; split.
  - right. exists id, true, drift. by simplify_map_eq.
  - apply Hhead. right. by simplify_map_eq.
  - intros key Hk1 Hk2 Hk3. rewrite !lookup_insert_ne by done. by apply Hrest.
  - right. exists id, false, drift. by simplify_map_eq.
  - apply Hhead. left. by simplify_map_eq.
  - intros key Hk1 Hk2 Hk3. rewrite !lookup_insert_ne by done. by apply Hrest.
Qed.

Lemma persist_all_wrote ws k :
  store_ok (state_store k) ->
  store_ok (state_store (HandlerProg.persist_all ws k).2)
  /\ contents (state_store (HandlerProg.persist_all ws k).2)
     = after_writes ((fun w => (w.1.2, w.2)) <$> ws) (contents (state_store k)).
Proof.
  revert k. induction ws as [|[[now key] value] ws IH]; intros k Hok; [done|].
  cbn [HandlerProg.persist_all]. unfold Handler.persist.
  destruct (Hput now key (String.list_byte_of_string value) (state_store k) Hok) as [s Hs].
  rewrite Hs. cbn. destruct (put_ok _ _ _ _ _ _ Hok Hs) as [Hok' Hc].
  destruct (IH (Handler.set_store s k) Hok') as [Ho Hw]. split; [done|].
  rewrite Hw. unfold after_writes. simpl. by rewrite Hc.
Qed.

Definition results_ok (m0 : gmap string bytes) k : Prop :=
  store_ok (state_store k) /\ consistent m0 (contents (state_store k)).

Definition keeps_results (m0 : gmap string bytes) k k' : Prop := results_ok m0 k -> results_ok m0 k'.

#[local] Instance results_unaffected m0 : Unaffected (keeps_results m0).
Proof.
  exists allowed.
  - intros k k' _ _ Hs _ _. unfold keeps_results, results_ok. by rewrite Hs.
  - intros clock id changed drift k Hr [Hok Hc]. unfold HandlerProg.with_store_lock.
    destruct (lock_poisoned k); [done|].
    destruct (persist_all_wrote (HandlerProg.cycle_writes clock id changed drift) k Hok) as [Ho Hw].
    split; [done|]. rewrite Hw. replace (_ <$> _) with (Handler.cycle_writes id changed drift)
      by (by destruct changed). by apply consistent_writes.
Defined.

#[local] Instance results_governor m0 : GovernorFree (keeps_results m0).
Proof. intros c r k Hk. exact Hk. Qed.

#[local] Instance results_pressure m0 : PressureFree (keeps_results m0).
Proof. intros level k Hk. exact Hk. Qed.

#[local] Instance results_supervisor m0 : SupervisorFree (keeps_results m0).
Proof. intros s k Hk. exact Hk. Qed.

Lemma results_steps k w :
  store_ok (state_store k) ->
  rtc (Tasks.step (Activity.activity st allowed)) (Tasks.mkPool k []) w ->
  results_ok (contents (state_store k)) (Tasks.p_state w).
Proof.
  intros Hok Hr. set (m0 := contents (state_store k)). apply (rtc_keeps (results_ok m0) k).
  - refine (moves_steps (keeps_results m0) (Activity.activity st allowed) _ w _ Hr _);
      [|constructor].
    intros q Hq. framed (moves_activity st); [..|exact Hq]; repeat intro; split; by try intro.
  - split; [done|apply consistent_start].
Qed.

End Results.

(** * The limits of the governor

    Seen from the governor, a request of the kernel is a submission or nothing,
    as long as no task is registered: the served requests refine the threads of
    Atomics.v. *)

Section Limits.
Context `{BuildProfile} `{HashOrder} `{JL : JsonLaws} {S : Type} `{StateStore S}.
Context (st : statics) (D : Z).
Implicit Types k : KernelState S.

(** Only the pressure of the governor may differ. *)
Definition governor_kept k k' : Prop :=
  k_governor k' = k_governor k
  \/ exists level, k_governor k' = Governor.update_pressure level (k_governor k).

(** What is left of the program does to the governor what is left of the
    thread does, and registers no task. *)
Fixpoint follows {A} (q : prog (KernelState S) A) (a : Atomics.prog unit) : Prop :=
  match q with
  | Stop _ => exists r, a = Atomics.Stop r
  | Crit f k => forall s, task_registry s = ∅ ->
      task_registry (f s) = ∅
      /\ ((exists a', access a (k_governor s) = Some (a', k_governor (f s)) /\ follows (k s) a')
          \/ (governor_kept s (f s) /\ follows (k s) a))
  end.

(** No task is registered, and the governor is left alone. *)
Definition idles k k' : Prop :=
  task_registry k = ∅ -> task_registry k' = ∅ /\ governor_kept k k'.

Lemma follows_idle {A} (q : prog (KernelState S) A) r :
  moves idles q -> follows q (Atomics.Stop r).
Proof.
  induction q as [r'|f k IH]; [by exists r|]. intros Hq s Hs. destruct (Hq s) as [Hf Hk].
  destruct (Hf Hs) as [Hr Hg]. split; [done|]. right. split; [done|]. by apply IH.
Qed.

Lemma follows_governor {A B B' C} (q : Atomics.prog A) (g1 : A -> prog (KernelState S) B)
    (g2 : B -> prog (KernelState S) B') (h1 : A -> Atomics.prog C)
    (h2 : C -> Atomics.prog unit) :
  (forall a, follows (bind_prog g2 (g1 a)) (Atomics.bind_prog h2 (h1 a))) ->
  follows (bind_prog g2 (bind_prog g1 (HandlerProg.on_governor q)))
    (Atomics.bind_prog h2 (Atomics.bind_prog h1 q)).
Proof.
  intros Hg. induction q as [[a|]|k IH|c k IH|c r k IH]; [apply Hg|by eexists|..];
    intros s Hs; (split; [done|]); left; eexists; (split; [done|]); apply IH.
Qed.

#[local] Instance idles_unaffected : Unaffected idles.
Proof.
  exists (fun _ _ => True).
  - intros k k' Hr _ _ _ Hg Hk. split; [congruence|by left].
  - intros clock id changed drift k _ Hk. unfold HandlerProg.with_store_lock.
    destruct (lock_poisoned k); [by split; [|left]|].
    destruct (persist_all_frame (HandlerProg.cycle_writes clock id changed drift) k)
      as (Hr & _ & Hg & _). split; [congruence|by left].
Defined.

#[local] Instance idles_pressure : PressureFree idles.
Proof. intros level k Hk. split; [done|right; by exists level]. Qed.

Lemma idles_next_seq : moves idles HandlerProg.next_seq.
Proof. apply moves_locked. intros k Hk. by split; [|left]. Qed.

#[local] Instance idles_supervisor : SupervisorFree idles.
Proof. intros s k Hk. split; [done|by left]. Qed.

(** A submission follows the governor's program for it. *)
Lemma submit_follows params e :
  Handler.submit_params params = Ok e ->
  follows (r ← HandlerProg.handle_task_submit st params; mret (Answer TaskSubmit params r))
    (program st (RSubmit (priority e) (max_rss_mb (resource_budget e))
      (max_tokens (resource_budget e)))).
Proof.
  intros He. rewrite submit_program. unfold HandlerProg.handle_task_submit. rewrite He. cbv zeta.
  destruct (submit_params_spec _ _ He) as (_ & _ & Ht). rewrite cast_u_id by done.
  apply follows_governor. intros []; try by eexists. apply follows_governor. by eexists.
Qed.

(** The requests with tasks of at most [D] megabytes. *)
Inductive served : prog (KernelState S) (report Value) -> Prop :=
| served_request clock m params :
    (forall e, Handler.submit_params params = Ok e -> max_rss_mb (resource_budget e) <= D) ->
    served (Activity.request st clock m params).

(** What the other tasks do: health ticks, state updates and the shutdown. *)
Inductive upkeep : prog (KernelState S) (report Value) -> Prop :=
| upkeep_tick now level : upkeep (Activity.tick now level)
| upkeep_update now id state : upkeep (Activity.state_update now id state)
| upkeep_shutdown clock : upkeep (Activity.shutdown clock).

Lemma upkeep_idles q : upkeep q -> moves idles q.
Proof. intros []; [framed moves_tick|framed moves_update|framed moves_shutdown]. Qed.

(** A request that is no submission leaves the governor alone. *)
Lemma request_idle clock m params :
  m <> TaskSubmit -> forall r, follows (Activity.request st clock m params) (Atomics.Stop r).
Proof.
  intros Hm r. destruct m; try done.
  - apply follows_idle, moves_bind; [framed moves_progress|done].
  - unfold Activity.request. simpl. unfold HandlerProg.handle_task_complete.
    destruct (Handler.complete_params params) as [[id tokens]|e]; [|by eexists].
    intros k Hk. unfold TaskRegistry.remove. simpl. rewrite Hk.
    split; [apply delete_empty|]. right. split; [by left|by eexists].
  - apply follows_idle, moves_bind; [|done]. framed moves_cancel. apply idles_next_seq.
  - apply follows_idle, moves_bind; [|done]. framed moves_trigger; [done|apply idles_next_seq].
  - by eexists.
Qed.

(** Everything served follows a thread that is idle or takes a request. *)
Lemma served_follows q :
  served q ->
  (forall r, follows q (Atomics.Stop r))
  \/ exists p rss_mb tokens, (forall w, Threads.request_ok D w (RSubmit p rss_mb tokens))
       /\ follows q (program st (RSubmit p rss_mb tokens)).
Proof.
  intros [clock m params Hp].
  destruct (decide (m = TaskSubmit)) as [->|Hm]; [|left; by apply request_idle].
  destruct (Handler.submit_params params) as [e|err] eqn:He.
  - right. exists (priority e), (max_rss_mb (resource_budget e)),
      (max_tokens (resource_budget e)). split; [|by apply submit_follows].
    intros w. destruct (submit_params_spec _ _ He) as (_ & [Hr _] & Ht).
    split; [split; [done|by apply Hp]|done].
  - left. intros r. unfold Activity.request. simpl. unfold HandlerProg.handle_task_submit.
    rewrite He. by eexists.
Qed.

(** The kernel with [n] idle connections, and no other task. *)
Definition listening k (n : nat) : Tasks.service (KernelState S) (report Value) :=
  Tasks.mkService k (replicate n (Stop (Ret Finished))) [].

(** The connections of the kernel and the threads of the governor; no other
    task counts. *)
Definition refines (w : Tasks.service (KernelState S) (report Value)) (t : Threads.pool) : Prop :=
  task_registry (Tasks.s_state w) = ∅ /\ Threads.p_gov t = k_governor (Tasks.s_state w)
  /\ Forall2 follows (Tasks.s_connections w) (Threads.p_threads t)
  /\ Forall (moves idles) (Tasks.s_others w).

Lemma refines_start k n :
  task_registry k = ∅ ->
  refines (listening k n) (Threads.mkPool (k_governor k) (Threads.idle n)).
Proof.
  intros Hk. split; [done|]. split; [done|]. split; [|constructor]. simpl. unfold Threads.idle.
  induction n; constructor; [by eexists|done].
Qed.

(** A section that at most sets the pressure is at most one step of the
    threads. *)
Lemma kept_refines k k' cs os ts :
  governor_kept k k' -> task_registry k' = ∅ ->
  Forall2 follows cs ts -> Forall (moves idles) os ->
  exists t', rtc (submission_step st D) (Threads.mkPool (k_governor k) ts) t'
    /\ refines (Tasks.mkService k' cs os) t'.
Proof.
  intros [Hsame|[level Hlevel]] Hreg Hcs Hos.
  - eexists. split; [apply rtc_refl|]. by split_and!.
  - eexists. split; [apply rtc_once; by apply (sub_pressure _ _ _ level)|]. by split_and!.
Qed.

Lemma refines_step w w' t :
  Tasks.serve served upkeep w w' -> refines w t ->
  exists t', rtc (submission_step st D) t t' /\ refines w' t'.
Proof.
  intros Hs (Hreg & Hg & Hf & Ho). destruct t as [g ts]. simpl in Hg.
  subst g. destruct Hs as [[k cs os] i r q Hi Hq|[k cs os] i f c Hi|[k cs os] q Hq|[k cs os] i f c Hi];
    simpl in *.
  - destruct (Forall2_lookup_l _ _ _ _ _ Hf Hi) as (a & Ha & [r' ->]).
    destruct (served_follows q Hq) as [Hidle|(p & rss_mb & tokens & Hok & Hfq)].
    + eexists. split; [apply rtc_refl|]. split_and!; [done..| |done]. simpl.
      rewrite <- (list_insert_id ts i _ Ha). by apply Forall2_insert.
    + eexists. split; [apply rtc_once; by eapply sub_request|].
      split_and!; [done..| |done]. by apply Forall2_insert.
  - destruct (Forall2_lookup_l _ _ _ _ _ Hf Hi) as (a & Ha & Hfa).
    destruct (Hfa _ Hreg) as (Hreg' & [(a' & Hac & Hk)|[Hkept Hk]]).
    + eexists. split; [apply rtc_once; by eapply sub_access|].
      split_and!; [done..| |done]. by apply Forall2_insert.
    + apply kept_refines; [done|done| |done].
      rewrite <- (list_insert_id ts i a Ha). by apply Forall2_insert.
  - eexists. split; [apply rtc_refl|]. split_and!; [done..|].
    apply Forall_app. split; [done|]. apply Forall_singleton. by apply upkeep_idles.
  - destruct (Forall_lookup_1 _ _ _ _ Ho Hi k) as [Hidle Hc]. destruct (Hidle Hreg) as [Hreg' Hkept].
    apply kept_refines; [done..|]. by apply Forall_insert.
Qed.

Lemma refines_steps w w' t :
  rtc (Tasks.serve served upkeep) w w' -> refines w t ->
  exists t', rtc (submission_step st D) t t' /\ refines w' t'.
Proof.
  intros Hr. revert t. induction Hr as [w|w1 w2 w3 Hs _ IH]; intros t Ht; [by exists t|].
  destruct (refines_step _ _ _ Hs Ht) as (t2 & Hr2 & Ht2).
  destruct (IH t2 Ht2) as (t3 & Hr3 & Ht3). exists t3. split; [by transitivity t2|done].
Qed.

End Limits.

(** * A race of the check on triggers *)

Section Race.
Context `{BuildProfile} `{HashOrder} `{JL : JsonLaws} {S : Type} `{StateStore S}.
Context (st : statics) (clock : nat -> Instant) (v : Value) (t : LoopTrigger Value).
Context (Hv : trigger_from_value v = Ok t).
Implicit Types k : KernelState S.

#[local] Abbreviation now := (clock 0%nat).

(** What is left of the request when it has read a health. *)
Definition checked (h : HealthStatus) : prog (KernelState S) (report Value) :=
  r ← HandlerProg.guarded_route clock t h; mret (Answer MLoopTrigger (Some v) r).

(** What is left of it after the snapshot, and after the write. *)
Definition last_part : prog (KernelState S) (report Value) :=
  Crit (fun k => Handler.set_supervisor (k_supervisor k) k)
    (fun k => checked (health_state (k_supervisor k))).

Definition after_snapshot (l : list ProcessHealth) : prog (KernelState S) (report Value) :=
  Crit (fun k => Handler.set_supervisor (Races.write_health now l (k_supervisor k)) k)
    (fun _ => last_part).

Lemma request_sections :
  Activity.request st clock MLoopTrigger (Some v)
  = Crit (fun k => Handler.set_supervisor (k_supervisor k) k)
      (fun k => after_snapshot (Races.snapshot now (k_supervisor k))).
Proof.
  unfold Activity.request. cbn [HandlerProg.handle]. unfold HandlerProg.handle_loop_trigger.
  cbn [Handler.require_params ok_or]. by rewrite Hv.
Qed.

Lemma exec_stop p h k :
  children (k_supervisor k) !! p = Some h ->
  exists s, exec (Activity.state_update now p Stopped) k = (Ret Finished, Handler.set_supervisor s k)
    /\ Races.process_state s p = Some Stopped.
Proof.
  intros Hh. destruct (stop_alone now p h (k_supervisor k) Hh) as (s & He & Hs).
  exists s. unfold Races.process_state. rewrite Hs. split; [|done].
  unfold Activity.state_update. rewrite sections_bind, exec_on_supervisor.
  unfold Races.update in He. rewrite sections_bind in He.
  destruct (exec (SupervisorProg.update_state now now now p Stopped) (k_supervisor k))
    as [[r|] s0]; [|done]. injection He as _ <-. done.
Qed.

(** A check that passes on an old snapshot. *)
Lemma checked_route p h k l :
  lt_source t = p -> lt_target t = Kernel -> Supervisor.process_health now h ∈ l ->
  ch_id h = p -> ch_state h = Running ->
  health_state (k_supervisor k) = Health.compute l (kernel_start (k_supervisor k)) now ->
  checked (health_state (k_supervisor k))
  = (r ← HandlerProg.route clock t; mret (Answer MLoopTrigger (Some v) r)).
Proof.
  intros Hsrc Htgt Hin Hid Hrun ->. unfold checked, HandlerProg.guarded_route.
  rewrite Hsrc, Htgt. replace (Handler.process_running p _) with true; [done|].
  symmetry. unfold Handler.process_running, Health.compute. cbn [active_processes].
  apply existsb_exists. exists (Supervisor.process_health now h).
  split; [by apply list_elem_of_In|]. simpl. by rewrite Hid, Hrun, !bool_decide_true.
Qed.

End Race.

(** * Properties *)

(** C10. A task is completed at most once for every time it is registered.
    However the critical sections of any number of requests, registrations,
    state updates and health ticks interleave, the number of [task.complete]
    requests for a task that have been answered [Ok] is at most the number of
    its registrations, less one while it is still registered. *)
Theorem completions_registered `{BuildProfile} `{HashOrder} `{JsonLaws} {S : Type} `{StateStore S}
    (st : statics) (id : string) (k : KernelState S) w :
  rtc (Tasks.step (Activity.activity st (fun _ _ => True))) (Tasks.mkPool k []) w ->
  completions id w + present id (Tasks.p_state w) <= registrations id w + present id k.
Proof.
  intros Hr. pose proof (balance_total id w) as Hb.
  assert (account (fun _ => True) (present id) 0 (covered id) (present id k) w) as Ha.
  { eapply free_steps_account; [apply activity_pays|exact Hr|]. apply account_start. }
  apply (account_total _ _ _ _ (balance id)) in Ha; [lia|done|done].
Qed.

(** C11. No meta cycle is authorized twice. However the critical sections of any
    number of requests interleave, two [loop.trigger] requests that are
    answered with an authorized cycle are given different cycles, as long as
    the sequence number does not wrap. *)
Theorem cycles_distinct `{BuildProfile} `{HashOrder} `{JsonLaws} {S : Type} `{StateStore S}
    (st : statics) (k : KernelState S) w i j c :
  rtc (Tasks.step (Activity.activity st (fun _ _ => True))) (Tasks.mkPool k []) w ->
  0 <= trigger_seq k ->
  trigger_seq k + Z.of_nat (length (Tasks.p_tasks w)) < 2 ^ 64 - 1 ->
  authorized w i c -> authorized w j c -> i = j.
Proof.
  intros Hr Hk Hw (ri & Hi & Hci) (rj & Hj & Hcj).
  destruct (decide (i = j)) as [|Hij]; [done|exfalso].
  destruct (number_account st 0 k w Hr Hk Hw) as (vs0 & Hf0 & _).
  destruct (Forall2_lookup_r _ _ _ _ _ Hf0 Hi) as (v0 & _ & _ & Hn0).
  destruct (Hn0 c Hci) as (n & -> & _).
  destruct (number_account st n k w Hr Hk Hw) as (vs & Hf & Hm).
  destruct (Forall2_lookup_r _ _ _ _ _ Hf Hi) as (vi & Hvi & _ & Hni).
  destruct (Forall2_lookup_r _ _ _ _ _ Hf Hj) as (vj & Hvj & _ & Hnj).
  destruct (Hni _ Hci) as (si & Hsi%cycle_name_inj & Hi1).
  destruct (Hnj _ Hcj) as (sj & Hsj%cycle_name_inj & Hj1).
  assert (Forall (fun z => 0 <= z) vs) as Hpos.
  { apply Forall_forall. intros v (m & Hv)%list_elem_of_lookup.
    destruct (Forall2_lookup_l _ _ _ _ _ Hf Hv) as (q & _ & Hq). by destruct q; destruct Hq. }
  pose proof (sum_Z_ge_two vs i j vi vj Hpos Hvi Hvj Hij).
  specialize (Hi1 (eq_sym Hsi)). specialize (Hj1 (eq_sym Hsj)).
  assert (0 <= fresh n (Tasks.p_state w) /\ fresh n k <= 1) as [Hf1 Hf2]
    by (unfold fresh; split; by destruct (_ <=? _)).
  lia.
Qed.

(** C8. The results of concurrent meta cycles are never mixed. However the
    critical sections of any number of requests, registrations, state updates
    and health ticks interleave, on a store whose writes succeed: the last drift
    score and the last cycle in the store are those of one and the same reported
    cycle (or those of the start), the head of the policy is a reported cycle
    that changed the policy (or that of the start), and no other key changes. *)
Theorem meta_results_consistent `{BuildProfile} `{HashOrder} `{JsonLaws} {S : Type} `{StoreSpec S}
    (st : statics) (allowed : RpcMethod -> option Value -> Prop) (k : KernelState S) w :
  (forall now key value s, store_ok s -> exists s', ss_put now key value s = Ret (Ok tt, s')) ->
  store_ok (state_store k) ->
  rtc (Tasks.step (Activity.activity st allowed)) (Tasks.mkPool k []) w ->
  consistent allowed (contents (state_store k)) (contents (state_store (Tasks.p_state w))).
Proof. intros Hput Hok Hr. by destruct (results_steps st allowed Hput k w Hok Hr). Qed.

(** C7. The requests refine the threads of the governor. From a state in which no
    task is registered (no code of the repository registers one), whatever [n]
    connections do, each with one request at a time (for tasks of at most [D]
    megabytes, any [D]), and whatever any number of health ticks, state updates and shutdowns do besides, critical section by
    critical section, is to the governor a run of [n] threads that take
    submissions one after the other. *)
Theorem requests_refine_threads `{BuildProfile} `{HashOrder} `{JsonLaws} {S : Type} `{StateStore S}
    (st : statics) (D : Z) (k : KernelState S) n w :
  task_registry k = ∅ ->
  rtc (Tasks.serve (served st D) upkeep) (listening k n) w ->
  exists t, rtc (submission_step st D) (Threads.mkPool (k_governor k) (Threads.idle n)) t
    /\ Threads.p_gov t = k_governor (Tasks.s_state w) /\ task_registry (Tasks.s_state w) = ∅.
Proof.
  intros Hk Hr.
  destruct (refines_steps st D _ _ (Threads.mkPool (k_governor k) (Threads.idle n)) Hr)
    as (t & Ht & Hreg & Hg & _); [by apply refines_start|by exists t].
Qed.

(** C3. The limits hold in the running kernel. From the state the daemon starts
    in, however the accesses of [n] connections, each with one request at a time
    for tasks of at most [D] megabytes, and of any number of health ticks, state
    updates and shutdowns interleave ([0 < n < 2^30], [D < 2^32], and no task is
    registered, as no code of the repository registers one): no tier ever counts
    more than [n - 1] tasks beyond its limit, nor more than [n - 1] times [D]
    megabytes beyond its memory, and, in whatever order the check adds up the
    tiers, the tasks together use no more than that beyond the ceiling of the
    system less its headroom. So with one connection every limit holds. *)
Theorem kernel_limits `{BuildProfile} `{HashOrder} `{JsonLaws} {S : Type} `{StateStore S}
    (clock : nat -> Instant) (ram_total_mb : Z) (level : MemoryPressureLevel) (store : S)
    (order : list Priority) (D : Z) (k : KernelState S) n w p :
  Daemon.start clock ram_total_mb level store = Ret (Ok k) ->
  (0 < n)%nat -> 0 <= D < 2 ^ 32 -> Z.of_nat n < 2 ^ 30 ->
  rtc (Tasks.serve (served (mkStatics Governor.default_budgets order
                              (Daemon.governor_config ram_total_mb)) D) upkeep)
    (listening k n) w ->
  let u := usage_of (k_governor (Tasks.s_state w)) p in
  0 <= active_tasks u <= max_concurrent (budget_of p) + (Z.of_nat n - 1)
  /\ 0 <= rss_allocated_mb u <= tb_max_rss_mb (budget_of p) + (Z.of_nat n - 1) * D
  /\ (order ≡ₚ [P0Critical; P1Normal; P2Background] ->
      let config := Daemon.governor_config ram_total_mb in
      total_rss (k_governor (Tasks.s_state w))
      <= system_rss_ceiling_mb config - headroom_mb config + (Z.of_nat n - 1) * D).
Proof.
  intros Hk Hn HD Hn' Hr.
  assert (task_registry k = ∅ /\ k_governor k = Governor.update_pressure level
    (Governor.new (Daemon.governor_config ram_total_mb))) as [Hreg Hg].
  { unfold Daemon.start in Hk. destruct (Daemon.boot_sequence _ _) as [[[[]|e] sup]|]; [|done|done].
    by injection Hk as <-. }
  destruct (refines_steps _ D _ _ (Threads.mkPool (k_governor k) (Threads.idle n)) Hr)
    as (t & Ht & _ & Hgt & _); [by apply refines_start|].
  rewrite <- Hgt. rewrite Hg in Ht.
  pose proof (submissions_are_steps _ D _ _ Ht) as Ht'.
  destruct (threads_inv (Daemon.governor_config ram_total_mb) order n D t) with p
    as [Ha Hb]; [done..|by eapply rtc_l; [apply (Threads.step_pressure _ _ _ level)|]|].
  destruct (limits_of_inv n D t p) as [Hact Hrss]; [done..|]. split_and!; [apply Hact..|apply Hrss|apply Hrss|].
  intros Ho config.
  apply (system_ceiling (mkStatics Governor.default_budgets order config) D n) with config level;
    [done|done|apply governor_config_ok|done|done|exact Ht].
Qed.

(** C16. A stopped process can still start a meta cycle. Whenever a process runs
    and a trigger of it for the kernel, the request of a meta cycle, is in progress, the update that stops the process may
    return before a second trigger of the process arrives, and the second can
    still be authorized: it is checked against a cached health that the first
    has filled with an older snapshot. *)
Theorem stopped_source_authorized `{BuildProfile} `{HashOrder} `{JsonLaws} {S : Type}
    `{StateStore S} (st : statics) (clock : nat -> Instant) (v : Value) (t : LoopTrigger Value)
    trigger_source (p : ProcessId) (h : ChildHandle) (k : KernelState S) :
  trigger_from_value v = Ok t -> lt_source t = p -> lt_target t = Kernel ->
  lt_kind t = MetaCycleRequest trigger_source ->
  children (k_supervisor k) !! p = Some h -> ch_id h = p -> ch_state h = Running ->
  let trigger := Activity.request st clock MLoopTrigger (Some v) in
  exists w, rtc (Tasks.step (fun _ => False))
      (Tasks.mkPool k [trigger; Activity.state_update (clock 0%nat) p Stopped]) w
    /\ Tasks.p_tasks w !! 1%nat = Some (Stop (Ret Finished))
    /\ Races.process_state (k_supervisor (Tasks.p_state w)) p = Some Stopped
    /\ exists w', rtc (Tasks.step (fun q => q = trigger)) w w'
       /\ authorized w' 2 (cycle_name (trigger_seq k))
       /\ Races.process_state (k_supervisor (Tasks.p_state w')) p = Some Stopped.
Proof.
  intros Hv Hsrc Htgt Hkind Hh Hid Hrun trigger. pose proof (request_sections st clock v t Hv) as Hq.
  set (now := clock 0%nat). set (l := Races.snapshot now (k_supervisor k)).
  destruct (exec_stop clock p h k Hh) as (s1 & He & Hst).
  set (k1 := Handler.set_supervisor s1 k).
  assert (Handler.set_supervisor (k_supervisor k) k = k) as Hk by (by destruct k).
  set (a := after_snapshot clock v t l). set (u := Stop (Ret Finished)).
  exists (Tasks.mkPool k1 [a; u]). split; [|split; [done|split; [done|]]].
  { apply (rtc_l _ _ (Tasks.mkPool k [a; Activity.state_update now p Stopped])).
    - unfold trigger. rewrite Hq. by eapply (Tasks.crit_at _ _ _ 0).
    - by eapply (Tasks.solo_at _ _ _ 1). }
  set (l1 := Races.snapshot now s1).
  set (k2 := Handler.set_supervisor (Races.write_health now l1 s1) k1).
  set (k3 := Handler.set_supervisor (Races.write_health now l (k_supervisor k2)) k2).
  set (c := last_part clock v t).
  assert (Hin : Supervisor.process_health now h ∈ l).
  { apply list_elem_of_fmap. exists h. split; [done|]. apply elem_of_hm_values. by exists p. }
  pose proof (checked_route clock v t p h k3 l Hsrc Htgt Hin Hid Hrun eq_refl) as Hc.
  unfold HandlerProg.route in Hc. rewrite Hkind in Hc.
  eexists (Tasks.mkPool (Handler.next_seq k3).2 [c; u; Stop (Ret (Answer MLoopTrigger (Some v)
    (Ok (v_object [("status", v_string "authorized");
                   ("cycle_id", v_string (cycle_name (trigger_seq k)))]%string))))]).
  split; [|split; [eexists; split; [done|]|done]].
  - apply (rtc_l _ _ (Tasks.mkPool k1 [a; u; trigger])).
    { by apply (Tasks.step_spawn _ (Tasks.mkPool k1 [a; u])). }
    apply (rtc_l _ _ (Tasks.mkPool k1 [a; u; after_snapshot clock v t l1])).
    { unfold trigger. rewrite Hq. by eapply (Tasks.crit_at _ _ _ 2). }
    apply (rtc_l _ _ (Tasks.mkPool k2 [a; u; c])); [by eapply (Tasks.crit_at _ _ _ 2)|].
    apply (rtc_l _ _ (Tasks.mkPool k3 [c; u; c])); [by eapply (Tasks.crit_at _ _ _ 0)|].
    apply (rtc_l _ _ (Tasks.mkPool k3 [c; u; checked clock v t (health_state (k_supervisor k3))])).
    { by eapply (Tasks.crit_at _ _ _ 2). }
    rewrite Hc. apply rtc_once. by eapply (Tasks.crit_at _ _ _ 2).
  - rewrite authorized_object. simpl. unfold field. rewrite get_object. simpl.
    by rewrite as_str_string.
Qed.

(** * Witnesses *)

Module Demo.

#[local] Existing Instances tree_json tree_laws std_order release_profile mem_sql mem_laws.
#[local] Existing Instances sqlite_store sqlite_spec.

Abbreviation store := (@SqliteStateStore mem_sql).

Definition st : statics :=
  mkStatics Governor.default_budgets [P0Critical; P1Normal; P2Background]
    (Daemon.governor_config 16384).

Definition clock (n : nat) : Instant := 0.

Abbreviation kernel := (demo_kernel : KernelState store) (only parsing).

Definition registration : prog (KernelState store) (report (@Value tree_json)) :=
  Activity.registration "task-1" "/tmp/loop1-task-1.sock".

Definition completion_request : prog (KernelState store) (report (@Value tree_json)) :=
  Activity.request st clock TaskComplete (Some complete_value).

(** A task is registered, and two tasks complete it. *)
Definition completed : Tasks.pool (KernelState store) (report (@Value tree_json)) :=
  Tasks.schedule [0; 1; 2; 1; 1]%nat
    (Tasks.mkPool kernel [registration; completion_request; completion_request]).

Definition request_value (source : string) : @Value tree_json :=
  JTrigger (LoopTrigger.new 7 Loop0Meta Kernel (MetaCycleRequest source)).

Definition cycle_request : prog (KernelState store) (report (@Value tree_json)) :=
  Activity.request st clock MLoopTrigger (Some (request_value "timer")).

(** Two requests for a cycle, interleaved. *)
Definition cycles : Tasks.pool (KernelState store) (report (@Value tree_json)) :=
  Tasks.schedule [0; 1; 0; 1; 0; 1; 1; 0]%nat
    (Tasks.mkPool kernel [cycle_request; cycle_request]).

(** Two finished cycles of which only the second changes the policy. *)
Definition finish_value (id : string) (changed : bool) : @Value tree_json :=
  JTrigger (LoopTrigger.new 7 Loop0Meta Kernel (MetaCycleComplete id changed (lit 1 4))).

Definition finish (id : string) (changed : bool) : prog (KernelState store) (report (@Value tree_json)) :=
  Activity.request st clock MLoopTrigger (Some (finish_value id changed)).

Definition reports (m : RpcMethod) (params : option (@Value tree_json)) : Prop :=
  params = Some (finish_value "c-1" false) \/ params = Some (finish_value "c-2" true).

Definition finished : Tasks.pool (KernelState store) (report (@Value tree_json)) :=
  Tasks.schedule [0; 1; 0; 1; 0; 1; 1; 0]%nat
    (Tasks.mkPool kernel [finish "c-1" false; finish "c-2" true]).

(** A task is submitted on the first of two connections, while the health loop
    ticks. *)
Definition submit_request : prog (KernelState store) (report (@Value tree_json)) :=
  Activity.request st clock TaskSubmit (Some (JEnvelope demo_envelope)).

Definition submitting (k : KernelState store)
    : Tasks.service (KernelState store) (report (@Value tree_json)) :=
  Tasks.mkService k [submit_request; Stop (Ret Finished)] [Activity.tick 0 MNormal].

Lemma submitting_serves k :
  rtc (Tasks.serve (served st 512) upkeep) (listening k 2) (submitting k).
Proof.
  eapply rtc_l.
  - apply (Tasks.serve_next _ _ (listening k 2) 0 (Ret Finished) submit_request); [done|].
    constructor. intros e He. by injection He as <-.
  - apply rtc_once. apply (Tasks.serve_spawn _ _ (Tasks.mkService k _ [])). constructor.
Qed.

End Demo.

#[local] Existing Instances tree_json tree_laws std_order release_profile mem_sql mem_laws.
#[local] Existing Instances sqlite_store sqlite_spec.

Lemma completions_registered_witness :
  completions "task-1" Demo.completed = 1
  /\ completions "task-1" Demo.completed <= registrations "task-1" Demo.completed.
Proof.
  assert (rtc (Tasks.step (Activity.activity Demo.st (fun _ _ => True)))
    (Tasks.mkPool Demo.kernel []) Demo.completed) as Hr.
  { etransitivity; [apply Tasks.spawn_all|apply Tasks.schedule_steps].
    constructor; [constructor|]. by repeat constructor. }
  split; [reflexivity|].
  pose proof (completions_registered Demo.st "task-1" Demo.kernel Demo.completed Hr) as Hc.
  exact Hc.
Defined.

Lemma cycles_distinct_witness :
  authorized Demo.cycles 0 "cycle-2" /\ authorized Demo.cycles 1 "cycle-1"
  /\ forall c, authorized Demo.cycles 0 c -> ~ authorized Demo.cycles 1 c.
Proof.
  assert (rtc (Tasks.step (Activity.activity Demo.st (fun _ _ => True)))
    (Tasks.mkPool Demo.kernel []) Demo.cycles) as Hr.
  { etransitivity; [apply Tasks.spawn_all|apply Tasks.schedule_steps]. by repeat constructor. }
  split; [eexists; by split; [reflexivity|]|]. split; [eexists; by split; [reflexivity|]|].
  intros c H0 H1.
  assert (0%nat = 1%nat) as Habs; [|discriminate Habs].
  apply (cycles_distinct Demo.st Demo.kernel Demo.cycles 0 1 c Hr); [done| |exact H0|exact H1].
  reflexivity.
Defined.

Lemma meta_results_consistent_witness :
  exists w : Tasks.pool (KernelState Demo.store) (report (@Value tree_json)),
    consistent Demo.reports ∅ (contents (state_store (Tasks.p_state w)))
    /\ contents (state_store (Tasks.p_state w)) !! "sie/meta/last_cycle"%string
       = Some (String.list_byte_of_string "c-1").
Proof.
  assert (rtc (Tasks.step (Activity.activity Demo.st Demo.reports))
    (Tasks.mkPool Demo.kernel []) Demo.finished) as Hr.
  { etransitivity; [apply Tasks.spawn_all|apply Tasks.schedule_steps].
    constructor; [constructor; by left|]. constructor; [constructor; by right|constructor]. }
  exists Demo.finished. split; [|reflexivity].
  refine (meta_results_consistent Demo.st Demo.reports Demo.kernel Demo.finished _ _ Hr); [|done].
  intros now key value s _. cbn. unfold Engine.put, Engine.write_op, Engine.record_write, add_u. cbn.
  unfold arith_u. destruct (_ && _); by eexists.
Defined.

Lemma requests_refine_threads_witness :
  exists t, rtc (submission_step Demo.st 512)
      (Threads.mkPool (k_governor Demo.kernel) (Threads.idle 2)) t
    /\ Threads.p_gov t = k_governor (Tasks.s_state (Demo.submitting Demo.kernel)).
Proof.
  destruct (requests_refine_threads Demo.st 512 Demo.kernel 2 (Demo.submitting Demo.kernel))
    as (t & Ht & Hg & _); [reflexivity|apply Demo.submitting_serves|].
  exists t. split; [exact Ht|exact Hg].
Defined.

Lemma kernel_limits_witness :
  exists k w, Daemon.start (fun _ => 0) 16384 MNormal (mem_store ∅) = Ret (Ok k)
    /\ rtc (Tasks.serve (served Demo.st 512) upkeep) (listening k 2) w
    /\ active_tasks (usage_of (k_governor (Tasks.s_state w)) P1Normal)
       <= max_concurrent (budget_of P1Normal) + 1.
Proof.
  destruct (daemon_lifecycle (fun _ => 0) 16384 MNormal (mem_store ∅)) as ((k & Hk & _) & _).
  exists k, (Demo.submitting k). split; [exact Hk|].
  pose proof (Demo.submitting_serves k) as Hr. split; [exact Hr|].
  refine (proj2 (proj1 (kernel_limits (fun _ => 0) 16384 MNormal (mem_store ∅) _ 512 k 2
    (Demo.submitting k) P1Normal Hk _ _ _ Hr))); [lia|lia|lia].
Defined.

Lemma stopped_source_authorized_witness :
  exists w : Tasks.pool (KernelState Demo.store) (report (@Value tree_json)),
    authorized w 2 "cycle-1"
    /\ Races.process_state (k_supervisor (Tasks.p_state w)) Loop0Meta = Some Stopped.
Proof.
  destruct (stopped_source_authorized Demo.st Demo.clock (Demo.request_value "timer")
    (LoopTrigger.new 7 Loop0Meta Kernel (MetaCycleRequest "timer")) "timer" Loop0Meta
    (demo_child Loop0Meta) Demo.kernel) as (_ & _ & _ & _ & w & _ & Ha & Hs); try reflexivity.
  exists w. split; [exact Ha|exact Hs].
Defined.
