(* ===== verification/Shutdown.v ===== *)
(** The shutdown of the daemon while it is still busy: [graceful_shutdown] of
    src/src/main.rs with requests and health ticks in between.

    System.v runs the critical sections of requests between two state updates of
    the shutdown; here those of requests, registrations and health ticks also
    come between those of one update. None of them touches the supervised
    processes, so the shutdown relies on no more than that. *)

From S2P Require Import Prelude F64 Envelope Hardware Governor Atomics Supervisor Sections Locks.
From S2P Require Import Store Rpc Handler Daemon Requests.

Section Shutdown.
Context `{BuildProfile} `{HashOrder} `{JL : JsonLaws} {S : Type} `{StateStore S}.
Context (st : statics).
Implicit Types k : KernelState S.

(** What the others leave alone. *)
Definition same_children k k' : Prop := children_kept (k_supervisor k) (k_supervisor k').

#[local] Instance same_children_preorder : PreOrder same_children.
Proof.
  unfold same_children, children_kept. split; [done|]. intros k1 k2 k3 H12 H23. congruence.
Qed.

#[local] Instance same_children_unaffected : Unaffected same_children.
Proof.
  exists (fun _ _ => True); [done|].
  intros clock id changed drift k _. unfold HandlerProg.with_store_lock.
  destruct (lock_poisoned k); [done|]. unfold same_children, children_kept.
  destruct (persist_all_frame (HandlerProg.cycle_writes clock id changed drift) k)
    as (_ & _ & _ & ->). done.
Defined.

#[local] Instance same_children_governor : GovernorFree same_children.
Proof. by intros c r k. Qed.

#[local] Instance same_children_pressure : PressureFree same_children.
Proof. by intros level k. Qed.

Lemma service_keeps q : Activity.service st q -> moves same_children q.
Proof. intros Hq. framed (moves_service st); [..|exact Hq]; by try intro. Qed.

Definition process_states k : ProcessId -> option ProcessState := state_of (k_supervisor k).

Lemma process_states_kept k k' id : same_children k k' -> process_states k' id = process_states k id.
Proof. unfold process_states, state_of, same_children, children_kept. by intros ->. Qed.

(** An update of a registered process, to another state than failed, and not
    from stopped to running, succeeds whatever comes in between. *)
Lemma update_upholds now id state old k Q :
  process_states k id = Some old -> state <> SFailed ->
  bool_decide (old = Stopped) && bool_decide (state = Running) = false ->
  (forall k', (forall j, process_states k' j = assign (process_states k) (id, state) j) ->
     Q (Ret (Ok tt)) k') ->
  upholds same_children Q
    (HandlerProg.on_supervisor (SupervisorProg.update_state now now now id state)) k.
Proof.
  intros Hold Hst Hok HQ k1 Hk1. rewrite <- (process_states_kept k k1) in Hold by done.
  unfold process_states, state_of in Hold.
  destruct (children (k_supervisor k1) !! id) as [h|] eqn:Hh; [|done]. injection Hold as <-.
  unfold SupervisorProg.set_state. rewrite Hh, Hok. cbn [zoom bind_prog mret prog_ret].
  rewrite (bool_decide_false (state = SFailed)) by done.
  intros k2 Hk2 k3 Hk3 k4 Hk4. apply HQ. intros j.
  rewrite (process_states_kept _ _ _ Hk4). unfold process_states, state_of, assign. simpl.
  unfold same_children, children_kept in Hk2, Hk3. simpl in Hk2, Hk3. rewrite Hk3, Hk2.
  destruct (decide (j = id)) as [->|Hne].
  - by rewrite lookup_insert_eq, (bool_decide_true (id = id)) by done.
  - rewrite lookup_insert_ne, (bool_decide_false (j = id)) by done. by rewrite Hk1.
Qed.

(** So do several of them, with their combined effect. *)
Lemma update_all_upholds clock l k (Q : outcome (result SupervisorError unit) -> KernelState S -> Prop) :
  updates_ok l (process_states k) = true ->
  (forall k', (forall j, process_states k' j = foldl assign (process_states k) l j) ->
     Q (Ret (Ok tt)) k') ->
  upholds same_children Q (HandlerProg.update_all clock l) k.
Proof.
  revert clock k. induction l as [|[id state] l IH]; intros clock k Hok HQ.
  { intros k' Hk'. apply HQ. intros j. by apply process_states_kept. }
  simpl in Hok. destruct (process_states k id) as [old|] eqn:Hold; [|done]. split_bools.
  apply upholds_bind; [apply _|]. eapply update_upholds; [done|done|by destruct (bool_decide _)|].
  intros k' Hk'. apply IH; [by rewrite (updates_ok_ext _ _ _ Hk')|].
  intros k2 Hk2. apply HQ. intros j. rewrite Hk2. simpl. by apply foldl_assign_ext.
Qed.

(** What the shutdown has done when it ends. *)
Definition all_stopped (r : outcome (report Value)) k : Prop :=
  r = Ret (ShutDown (Ok tt)) /\ forall id, process_states k id = Some Stopped.

Lemma shutdown_upholds clock k :
  (forall id, is_Some (process_states k id)) ->
  upholds same_children all_stopped (Activity.shutdown clock) k.
Proof.
  intros Hall. apply upholds_bind; [apply _|]. apply update_all_upholds.
  { apply stop_updates_ok; [|done]. repeat constructor. }
  intros k' Hk' k2 Hk2. split; [done|]. intros id. rewrite (process_states_kept k' k2) by done.
  rewrite Hk'. by destruct id.
Qed.

Lemma shutdown_guarded clock k w :
  (forall id, is_Some (process_states k id)) ->
  rtc (Tasks.step (Activity.service st)) (Tasks.mkPool k [Activity.shutdown clock]) w ->
  guarded same_children 0 all_stopped w.
Proof.
  intros Hall Hr. eapply guarded_steps; [apply _|apply service_keeps|exact Hr|].
  by apply guarded_start, shutdown_upholds.
Qed.

Lemma shutdown_end clock k w r :
  (forall id, is_Some (process_states k id)) ->
  rtc (Tasks.step (Activity.service st)) (Tasks.mkPool k [Activity.shutdown clock]) w ->
  Tasks.p_tasks w !! 0%nat = Some (Stop r) -> all_stopped r (Tasks.p_state w).
Proof.
  intros Hall Hr Hw. destruct (shutdown_guarded clock k w Hall Hr) as [(q & Hq & Hu) _].
  rewrite Hw in Hq. injection Hq as <-. by apply Hu.
Qed.

End Shutdown.

(** * Properties *)

(** C25. The shutdown is clean while requests run. However the critical sections of
    any number of requests, registrations and health ticks come between those
    of the shutdown, it never fails; once it has ended all seven processes are
    stopped, and stay so whatever goes on; and until then it can always go on to
    its end. *)
Theorem shutdown_under_load `{BuildProfile} `{HashOrder} `{JsonLaws} {S : Type} `{StateStore S}
    (st : statics) (clock : nat -> Instant) (k : KernelState S) w :
  (forall id, is_Some (state_of (k_supervisor k) id)) ->
  rtc (Tasks.step (Activity.service st)) (Tasks.mkPool k [Activity.shutdown clock]) w ->
  (forall r, Tasks.p_tasks w !! 0%nat = Some (Stop r) ->
     r = Ret (ShutDown (Ok tt)) /\ forall id, state_of (k_supervisor (Tasks.p_state w)) id = Some Stopped)
  /\ exists w', rtc (Tasks.step (fun _ => False)) w w'
     /\ Tasks.p_tasks w' !! 0%nat = Some (Stop (Ret (ShutDown (Ok tt)))).
Proof.
  intros Hall Hr. split; [intros r; by apply (shutdown_end st clock k)|].
  destruct (shutdown_guarded st clock k w Hall Hr) as [(q & Hq & _) _]. destruct w as [k1 l].
  destruct (exec q k1) as [r k2] eqn:He. exists (Tasks.mkPool k2 (<[0%nat := Stop r]> l)).
  pose proof (Tasks.solo (fun _ => False) k1 l 0 q r k2 Hq He) as Hsolo. split; [exact Hsolo|].
  assert (<[0%nat := Stop r]> l !! 0%nat = Some (Stop r)) as Hl
    by (apply list_lookup_insert_eq; by eapply lookup_lt_Some).
  simpl. rewrite Hl. destruct (shutdown_end st clock k (Tasks.mkPool k2 (<[0%nat := Stop r]> l)) r) as [-> _];
    [done| |done..].
  transitivity (Tasks.mkPool k1 l); [done|]. by eapply Tasks.step_mono; [|exact Hsolo].
Qed.

(** * Witnesses *)

#[local] Existing Instances tree_json tree_laws std_order release_profile mem_sql mem_laws.
#[local] Existing Instances sqlite_store sqlite_spec.

(** The daemon has just started, and a request comes with the shutdown. *)
Lemma shutdown_under_load_witness :
  exists k w, Daemon.start (fun _ => 0) 16384 MNormal (mem_store ∅) = Ret (Ok k)
    /\ rtc (Tasks.step (Activity.service (statics_of (k_governor k))))
         (Tasks.mkPool k [Activity.shutdown (fun _ => 0)]) w
    /\ (2 <= length (Tasks.p_tasks w))%nat
    /\ forall id, state_of (k_supervisor (Tasks.p_state w)) id = Some Stopped.
Proof.
  destruct (daemon_lifecycle (fun _ => 0) 16384 MNormal (mem_store ∅)) as ((k & Hk & _ & Hrun & _) & _).
  assert (Hall : forall id, is_Some (state_of (k_supervisor k) id)) by (intros id; rewrite Hrun; by eexists).
  set (st := statics_of (k_governor k)).
  set (w := Tasks.mkPool k [Activity.shutdown (fun _ => 0);
                            Activity.request st (fun _ => 0) TaskSubmit None]).
  assert (Hw : rtc (Tasks.step (Activity.service st))
    (Tasks.mkPool k [Activity.shutdown (fun _ => 0)]) w).
  { apply rtc_once. apply (Tasks.step_spawn _ (Tasks.mkPool k [_])). constructor. }
  destruct (shutdown_under_load st (fun _ => 0) k w Hall Hw) as (_ & w' & Hr & Hend).
  assert (Hw' : rtc (Tasks.step (Activity.service st))
    (Tasks.mkPool k [Activity.shutdown (fun _ => 0)]) w').
  { transitivity w; [exact Hw|]. by eapply Tasks.step_mono; [|exact Hr]. }
  exists k, w'. split; [exact Hk|]. split; [exact Hw'|]. split.
  - clear -Hr. remember w as w0. assert (2 <= length (Tasks.p_tasks w0))%nat by (by subst).
    clear Heqw0. induction Hr as [|w1 w2 w3 Hs _ IH]; [done|]. apply IH.
    destruct Hs; simpl; [by rewrite length_insert|done].
  - exact (proj2 (proj1 (shutdown_under_load st (fun _ => 0) k w' Hall Hw') _ Hend)).
Defined.
