(* ===== verification/System.v ===== *)
(** The whole daemon: src/src/main.rs with the accept loop of
    src/src/dispatch/server.rs.

    One system of tasks on the shared kernel state: the accept loop of the RPC
    server, one task per connection, the health loop, the signal handler and
    the main task, which shuts the others down. A connection takes the critical
    sections of a request (Requests.v) one step at a time, with steps of all
    other tasks in between; one health tick, and one state update of the
    shutdown, is one step (Shutdown.v takes these apart as well). A connection
    whose task panics ends; the end of another task that panics is not a step.
    The broadcast and
    watch channels appear as the flags that say which receivers hold a message:
    a broadcast receiver gets the messages sent after it subscribed. *)

From S2P Require Import Prelude F64 Hardware Envelope Governor Atomics Supervisor Sections Locks.
From S2P Require Import Store Rpc Handler Daemon Requests.

(** * Components *)

(** The task of one connection: whether it still runs, whether its receiver
    holds the shutdown message, the lines it has answered with the answers, the
    text it has written, and the line it works on with what is left of the
    program for it. *)
Record conn {Value S : Type} := mkConn {
  c_open : bool;
  c_rx : bool;
  c_log : list (string * JsonRpcResponse Value);
  c_out : list string;
  c_work : option (string * prog (KernelState S) (JsonRpcResponse Value))
}.
Arguments conn : clear implicits.
Arguments mkConn {Value S}.

(** The task that runs [RpcServer::serve]: spawned and not yet subscribed to
    the shutdown channel, accepting (with a message or not), or returned. *)
Inductive serve_state := Spawned | Accepting (rx : bool) | ServeEnded.

(** Where [run_daemon] is, after the start: waiting for the signal, joining the
    server, at an update of [graceful_shutdown], joining the health loop, and
    the two ways to return. *)
Inductive main_state :=
| WaitSignal
| JoinServer
| StopProcesses (todo : list (ProcessId * ProcessState))
| JoinHealth
| Returned
| Failed_ (e : SupervisorError).

Record sys {Value S : Type} := mkSys {
  s_kernel : KernelState S;
  s_conns : list (conn Value S);
  s_serve : serve_state;
  s_health : bool;
  s_signal : bool;
  s_main : main_state
}.
Arguments sys : clear implicits.
Arguments mkSys {Value S}.

Module System.
Section Steps.
Context `{HashOrder} `{BuildProfile} `{J : Json} {S : Type} `{StateStore S}.
Context (st : statics).
Implicit Types s : sys Value S.
Implicit Types c : conn Value S.

Definition set_kernel (k : KernelState S) s : sys Value S :=
  mkSys k (s_conns s) (s_serve s) (s_health s) (s_signal s) (s_main s).

Definition set_conns (cs : list (conn Value S)) s : sys Value S :=
  mkSys (s_kernel s) cs (s_serve s) (s_health s) (s_signal s) (s_main s).

Definition set_serve (v : serve_state) s : sys Value S :=
  mkSys (s_kernel s) (s_conns s) v (s_health s) (s_signal s) (s_main s).

Definition set_main (m : main_state) s : sys Value S :=
  mkSys (s_kernel s) (s_conns s) (s_serve s) (s_health s) (s_signal s) m.

(** A connection subscribes when it is accepted. *)
Definition new_conn : conn Value S := mkConn true false [] [] None.

(** [shutdown_tx.send(())]: every receiver there is gets the message. *)
Definition notify c : conn Value S :=
  mkConn (c_open c) true (c_log c) (c_out c) (c_work c).

Definition broadcast s : sys Value S :=
  mkSys (s_kernel s) (notify <$> s_conns s)
    match s_serve s with Accepting _ => Accepting true | v => v end
    (s_health s) (s_signal s) (s_main s).

Definition set_work (w : option (string * prog (KernelState S) (JsonRpcResponse Value))) c
    : conn Value S :=
  mkConn (c_open c) (c_rx c) (c_log c) (c_out c) w.

(** The answer to a line is written; when that fails the connection ends. *)
Definition answer (text : string) (r : JsonRpcResponse Value) (write_ok : bool) c : conn Value S :=
  mkConn write_ok (c_rx c) (c_log c ++ [(text, r)])
    (c_out c ++ if write_ok then [Server.response_line r] else []) None.

Definition end_conn c : conn Value S := mkConn false (c_rx c) (c_log c) (c_out c) None.

(** What the task of a connection does next: it reads a line, or its end, or
    finds the shutdown message; enters the next critical section of a request;
    answers; panics. *)
Inductive conn_step : conn Value S -> KernelState S -> conn Value S -> KernelState S -> Prop :=
| conn_line clock text c k :
    c_work c = None ->
    conn_step c k (set_work (Some (text, HandlerProg.process_line st clock text)) c) k
| conn_end e c k :
    c_work c = None -> e = Eof \/ e = ReadError \/ e = ShutdownSignal /\ c_rx c = true ->
    conn_step c k (end_conn c) k
| conn_section text f q c k :
    c_work c = Some (text, Crit f q) ->
    conn_step c k (set_work (Some (text, q k)) c) (f k)
| conn_answer text r write_ok c k :
    c_work c = Some (text, Stop (Ret r)) -> conn_step c k (answer text r write_ok c) k
| conn_panic text c k :
    c_work c = Some (text, Stop Panic) -> conn_step c k (end_conn c) k.

(** The state updates of [graceful_shutdown]. *)
Definition shutdown_updates : list (ProcessId * ProcessState) :=
  id ← Daemon.shutdown_order; [(id, Stopping); (id, Stopped)].

(** What the main task does next, if it can. *)
Definition main_step (now : Instant) s : outcome (option (sys Value S)) :=
  match s_main s with
  | WaitSignal => Ret (if s_signal s then Some (set_main JoinServer (broadcast s)) else None)
  | JoinServer =>
    Ret (match s_serve s with
         | ServeEnded => Some (set_main (StopProcesses shutdown_updates) s)
         | _ => None
         end)
  | StopProcesses ((id, state) :: todo) =>
    let k := s_kernel s in
    '(r, sup) ← Supervisor.update_state now now now id state (k_supervisor k);
    let s := set_kernel (Handler.set_supervisor sup k) s in
    Ret (Some (set_main (match r with Ok _ => StopProcesses todo | Err e => Failed_ e end) s))
  | StopProcesses [] => Ret (Some (set_main JoinHealth s))
  | JoinHealth => Ret (if s_health s then None else Some (set_main Returned s))
  | Returned | Failed_ _ => Ret None
  end.

(** SIGINT or SIGTERM has arrived: the watch channel is set. *)
Definition signal_handler (s : sys Value S) : sys Value S :=
  mkSys (s_kernel s) (s_conns s) (s_serve s) (s_health s) true (s_main s).

(** The steps of the tasks other than the main one. *)
Inductive task_step : sys Value S -> sys Value S -> Prop :=
| step_subscribe s :
    s_serve s = Spawned -> task_step s (set_serve (Accepting false) s)
| step_accept s rx :
    s_serve s = Accepting rx -> task_step s (set_conns (s_conns s ++ [new_conn]) s)
| step_serve_end s :
    s_serve s = Accepting true -> task_step s (set_serve ServeEnded s)
| step_conn s i c c' k' :
    s_conns s !! i = Some c -> c_open c = true -> conn_step c (s_kernel s) c' k' ->
    task_step s (set_kernel k' (set_conns (<[i := c']> (s_conns s)) s))
| step_health s now level h w sup g :
    s_health s = true ->
    Daemon.health_tick now level (k_supervisor (s_kernel s)) (k_governor (s_kernel s))
      = (h, w, sup, g) ->
    task_step s (set_kernel (Handler.set_governor g (Handler.set_supervisor sup (s_kernel s))) s)
| step_health_end s :
    s_signal s = true ->
    task_step s (mkSys (s_kernel s) (s_conns s) (s_serve s) false true (s_main s))
| step_signal s :
    task_step s (signal_handler s).

(** Binding the socket or accepting a connection fails: [serve] returns the
    error, which is only logged. *)
Inductive serve_fails : sys Value S -> sys Value S -> Prop :=
| step_serve_fails s : s_serve s <> ServeEnded -> serve_fails s (set_serve ServeEnded s).

Inductive step : sys Value S -> sys Value S -> Prop :=
| step_task s s' : task_step s s' -> step s s'
| step_fails s s' : serve_fails s s' -> step s s'
| step_main s now s' : main_step now s = Ret (Some s') -> step s s'.

(** The task of [health_loop] when it is spawned: it ends at once, by the panic
    of [tokio::time::interval], when the interval is zero. *)
Definition health_spawned (interval_secs : Z) : bool := negb (interval_secs =? 0).

(** The system when [run_daemon] has started its tasks. *)
Definition started (k : KernelState S) (interval_secs : Z) (signal : bool) : sys Value S :=
  mkSys k [] Spawned (health_spawned interval_secs) signal WaitSignal.

End Steps.
End System.

(** * What a request leaves alone *)

Section Requests.
Context `{HashOrder} `{BuildProfile} `{JL : JsonLaws} {S : Type} `{SS : StoreSpec S}.
Context (st : statics).
Implicit Types k : KernelState S.

(** The parts of the governor that requests do not change. *)
Definition governor_kept (g g' : ResourceGovernor) : Prop :=
  tier_budgets g' = tier_budgets g /\ g_config g' = g_config g
  /\ (forall p, is_Some (tier_usage g' !! p) <-> is_Some (tier_usage g !! p))
  /\ pressure_level g' = pressure_level g.

Lemma write_governor_kept c r g : governor_kept g (write_counter c r g).
Proof.
  unfold governor_kept, write_counter, Governor.with_usage.
  destruct (tier_usage g !! c.1) as [u|] eqn:Hu; [|done]. split_and!; [done..| |done].
  intros p. simpl. destruct (decide (p = c.1)) as [->|Hne].
  - rewrite lookup_insert_eq, Hu. by split; eexists.
  - by rewrite lookup_insert_ne.
Qed.

(** The processes and the fixed parts of the governor are the same, no task is
    registered, and the store and the sequence number stay sound. *)
Definition kept k k' : Prop :=
  children (k_supervisor k') = children (k_supervisor k)
  /\ governor_kept (k_governor k) (k_governor k')
  /\ (task_registry k = ∅ -> task_registry k' = ∅)
  /\ (store_ok (state_store k) -> store_ok (state_store k'))
  /\ (in_u 64 (trigger_seq k) -> in_u 64 (trigger_seq k')).

#[export] Instance governor_kept_preorder : PreOrder governor_kept.
Proof.
  split; [done|]. intros g1 g2 g3 (? & ? & Hu & ?) (? & ? & Hu' & ?).
  split_and!; [congruence..| |congruence]. intros p. by rewrite Hu', Hu.
Qed.

#[export] Instance kept_preorder : PreOrder kept.
Proof.
  split; [done|]. intros k1 k2 k3 (? & ? & ? & ? & ?) (? & ? & ? & ? & ?).
  split_and!; [congruence|by transitivity (k_governor k2)|auto..].
Qed.

Lemma kept_same k k' :
  task_registry k' = task_registry k -> trigger_seq k' = trigger_seq k ->
  state_store k' = state_store k -> children (k_supervisor k') = children (k_supervisor k) ->
  k_governor k' = k_governor k -> kept k k'.
Proof. intros Hr Ht Hs Hc Hg. unfold kept. by rewrite Hr, Ht, Hs, Hc, Hg. Qed.

Lemma persist_kept now key value k r k' :
  Handler.persist now key value k = Ret (r, k') -> kept k k'.
Proof.
  unfold Handler.persist. destruct (ss_put _ _ _ _) as [[r0 s]|] eqn:Hp; [|done].
  intros [= <- <-]. split_and!; [done..| |done]. intros Hok.
  by destruct (put_ok _ _ _ _ _ _ Hok Hp).
Qed.

Lemma persist_all_kept ws k : kept k (HandlerProg.persist_all ws k).2.
Proof.
  revert k. induction ws as [|[[now key] value] ws IH]; intros k; [done|].
  cbn [HandlerProg.persist_all].
  destruct (Handler.persist now key value k) as [[[[]|e] k1]|] eqn:Hp; [|by apply persist_kept in Hp|].
  - apply persist_kept in Hp. by transitivity k1.
  - by apply kept_same.
Qed.

#[local] Instance kept_unaffected : Unaffected kept.
Proof.
  exists (fun _ _ => True); [apply kept_same|].
  intros clock id changed drift k _. unfold HandlerProg.with_store_lock.
  destruct (lock_poisoned k); [done|]. apply persist_all_kept.
Defined.

#[local] Instance kept_governor : GovernorFree kept.
Proof. intros c r k. split_and!; try done. apply write_governor_kept. Qed.

Lemma next_seq_kept : moves kept HandlerProg.next_seq.
Proof.
  apply moves_locked. intros k. split_and!; try done. intros _. simpl.
  unfold wrapping_add. by apply in_u_cast.
Qed.

Lemma remove_kept id : moves kept (HandlerProg.registry_remove id).
Proof.
  apply moves_locked. intros k. split_and!; try done. intros Hr. simpl. rewrite Hr.
  apply delete_empty.
Qed.

(** Every critical section of a line keeps them. *)
Lemma line_kept clock text : moves kept (HandlerProg.process_line st clock text).
Proof.
  unfold HandlerProg.process_line. destruct (request_from_str text) as [q|e]; [|done].
  destruct (RpcMethod.from_str (rq_method q)) as [m|]; [|done].
  apply moves_bind; [|done]. framed moves_handle; [done|apply next_seq_kept|apply remove_kept].
Qed.

(** What the answer to a line says: the version, the number of the request (or
    null when it cannot be parsed), and either a result or an error. *)
Definition answers (text : string) (r : JsonRpcResponse Value) : Prop :=
  rs_jsonrpc r = "2.0"%string
  /\ rs_id r = match request_from_str text with Ok q => rq_id q | Err _ => v_null end
  /\ (is_Some (rs_result r) <-> rs_error r = None).

Definition answered_by (text : string) (r : outcome (JsonRpcResponse Value)) : Prop :=
  match r with Ret r => answers text r | Panic => True end.

Lemma line_answers clock text : returns (answered_by text) (HandlerProg.process_line st clock text).
Proof.
  unfold HandlerProg.process_line, answered_by, answers.
  destruct (request_from_str text) as [q|e]; [|by simpl; split_and!].
  destruct (RpcMethod.from_str (rq_method q)) as [m|]; [|by simpl; split_and!].
  apply returns_bind; [done|]. apply returns_all.
  by intros [[v|[code msg]]|]; simpl; [split_and!..|].
Qed.

(** The well-formed states of the kernel: every process is registered under
    its own name, the governor has the tiers, the budgets and the configuration
    of the start, no task is registered, the sequence number fits its type, and
    the store is sound. *)
Record kernel_ok k : Prop := {
  ko_keyed : keyed (k_supervisor k);
  ko_registered : forall id, is_Some (state_of (k_supervisor k) id);
  ko_budgets : tier_budgets (k_governor k) = st_budgets st;
  ko_config : g_config (k_governor k) = st_config st;
  ko_tiers : forall p, p ∈ st_tiers st <-> is_Some (tier_usage (k_governor k) !! p);
  ko_tasks : task_registry k = ∅;
  ko_seq : in_u 64 (trigger_seq k);
  ko_store : store_ok (state_store k)
}.

Lemma kept_ok k k' : kept k k' -> kernel_ok k -> kernel_ok k'.
Proof.
  intros (Hc & (Hb & Hg & Hu & _) & Ht & Hs & Hq) [? ? ? ? Htiers ? ? ?].
  split; [| |congruence|congruence| |by apply Ht|by apply Hq|by apply Hs].
  - intros id h. rewrite Hc. by apply ko_keyed0.
  - intros id. unfold state_of. rewrite Hc. by apply ko_registered0.
  - intros p. by rewrite Htiers, Hu.
Qed.

(** Another supervisor in which all processes are registered, and another
    pressure. *)
Lemma kernel_ok_supervisor sup k :
  keyed sup -> (forall id, is_Some (state_of sup id)) -> kernel_ok k ->
  kernel_ok (Handler.set_supervisor sup k).
Proof. intros Hk Hr []. by split. Qed.

Lemma kernel_ok_pressure level k :
  kernel_ok k ->
  kernel_ok (Handler.set_governor (Governor.update_pressure level (k_governor k)) k).
Proof. intros []. by split. Qed.

End Requests.

(** * The invariant of the system *)

Section Invariant.
Import System.
Context `{HashOrder} `{BuildProfile} `{JL : JsonLaws} {S : Type} `{SS : StoreSpec S}.
Context (st : statics).
Implicit Types s : sys Value S.

(** What a connection has written answers what it has read, in order; only
    after a failed write, which ends the connection, the last answer is
    missing. Only an open connection is at work, and what is left of its work
    answers the line. *)
Record conn_ok (c : conn Value S) : Prop := {
  cn_log : Forall (fun l => answers l.1 l.2) (c_log c);
  cn_out : c_out c = (fun l => Server.response_line l.2) <$> c_log c
      \/ c_open c = false /\ exists log l, c_log c = log ++ [l]
         /\ c_out c = (fun l => Server.response_line l.2) <$> log;
  cn_open : c_open c = true -> c_out c = (fun l => Server.response_line l.2) <$> c_log c;
  cn_work text q : c_work c = Some (text, q) ->
    c_open c = true /\ moves kept q /\ returns (answered_by text) q
}.

Definition stopped s (id : ProcessId) : Prop :=
  state_of (k_supervisor (s_kernel s)) id = Some Stopped.

(** What the main task has achieved so far. *)
Definition main_ok s : Prop :=
  match s_main s with
  | WaitSignal => True
  | JoinServer => s_signal s = true
  | StopProcesses todo => s_signal s = true /\ s_serve s = ServeEnded
      /\ exists finished, shutdown_updates = finished ++ todo
         /\ forall id, (id, Stopped) ∈ finished -> stopped s id
  | JoinHealth => s_signal s = true /\ s_serve s = ServeEnded /\ forall id, stopped s id
  | Returned => s_signal s = true /\ s_serve s = ServeEnded /\ s_health s = false
      /\ forall id, stopped s id
  | Failed_ _ => False
  end.

Record sys_ok s : Prop := {
  so_kernel : kernel_ok st (s_kernel s);
  so_conns : Forall conn_ok (s_conns s);
  so_main : main_ok s
}.

(** A change of the kernel that leaves the processes alone. *)
Lemma main_ok_kernel s k cs :
  children (k_supervisor k) = children (k_supervisor (s_kernel s)) ->
  main_ok s -> main_ok (set_kernel k (set_conns cs s)).
Proof.
  intros Hc. unfold main_ok, stopped, state_of. simpl. by rewrite Hc.
Qed.

(** Progress of the other tasks does not undo that of the main task. *)
Lemma main_ok_mono s s' :
  s_main s' = s_main s ->
  k_supervisor (s_kernel s') = k_supervisor (s_kernel s) ->
  (s_signal s = true -> s_signal s' = true) ->
  (s_serve s = ServeEnded -> s_serve s' = ServeEnded) ->
  (s_health s = false -> s_health s' = false) -> main_ok s -> main_ok s'.
Proof.
  intros Hm Hk Hs Hv Hh. unfold main_ok, stopped. rewrite Hm, Hk.
  destruct (s_main s) as [| |todo| | |e]; [done|auto|..|done].
  - intros (? & ? & Hf). by split_and!; [apply Hs|apply Hv|].
  - intros (? & ? & Hf). by split_and!; [apply Hs|apply Hv|].
  - intros (? & ? & ? & Hf). by split_and!; [apply Hs|apply Hv|apply Hh|].
Qed.

Lemma new_conn_ok : conn_ok new_conn.
Proof. split; [by apply Forall_nil|by left|done|done]. Qed.

Lemma notify_ok c : conn_ok c -> conn_ok (notify c).
Proof. by intros []; split. Qed.

(** An open connection that takes up other work. *)
Lemma set_work_ok c text q :
  conn_ok c -> c_open c = true -> moves kept q -> returns (answered_by text) q ->
  conn_ok (set_work (Some (text, q)) c).
Proof. intros [] ? ? ?. split; [done..|]. by intros t q' [= <- <-]. Qed.

Lemma end_conn_ok c : conn_ok c -> c_open c = true -> conn_ok (end_conn c).
Proof. intros [] Hop. split; [done| |done|done]. left. simpl. auto. Qed.

Lemma answer_ok text r ok c :
  conn_ok c -> c_open c = true -> answers text r -> conn_ok (answer text r ok c).
Proof.
  intros [Ha _ Ho _] Hop Hr. specialize (Ho Hop). split; simpl; [| | |done].
  - apply Forall_app. split; [done|]. by apply Forall_singleton.
  - destruct ok; [left|right].
    + by rewrite fmap_app, Ho.
    + split; [done|]. exists (c_log c), (text, r). by rewrite app_nil_r.
  - intros ->. by rewrite fmap_app, Ho.
Qed.

Lemma conn_step_ok c k c' k' :
  conn_ok c -> c_open c = true -> conn_step st c k c' k' -> conn_ok c' /\ kept k k'.
Proof.
  intros Hc Hop Hs. destruct Hs as [clock text c k Hw|e c k Hw He|text f q c k Hw
    |text r ok c k Hw|text c k Hw].
  - split; [|done]. apply set_work_ok; [done..|apply line_kept|apply line_answers].
  - split; [|done]. by apply end_conn_ok.
  - destruct (cn_work _ Hc _ _ Hw) as (_ & Hm & Hr). destruct (Hm k) as [Hk Hq].
    split; [|done]. by apply set_work_ok.
  - destruct (cn_work _ Hc _ _ Hw) as (_ & _ & Hr). split; [|done]. by apply answer_ok.
  - split; [|done]. by apply end_conn_ok.
Qed.

Lemma health_tick_ok now level k h w sup g :
  kernel_ok st k -> Daemon.health_tick now level (k_supervisor k) (k_governor k) = (h, w, sup, g) ->
  kernel_ok st (Handler.set_governor g (Handler.set_supervisor sup k))
  /\ children sup = children (k_supervisor k).
Proof.
  intros Hk Hh. unfold Daemon.health_tick in Hh.
  destruct (Supervisor.health now (k_supervisor k)) as [h' sup'] eqn:E.
  injection E as _ E. injection Hh as _ _ <- <-.
  assert (Hc : children sup' = children (k_supervisor k)) by (by rewrite <- E).
  split; [|done].
  apply (kernel_ok_pressure st level (Handler.set_supervisor sup' k)), kernel_ok_supervisor; [| |done].
  - intros id ch. rewrite Hc. by apply Hk.
  - intros id. unfold state_of. rewrite Hc. by apply Hk.
Qed.

Lemma task_step_ok s s' : task_step st s s' -> sys_ok s -> sys_ok s'.
Proof.
  intros Hs [Hk Hc Hm].
  destruct Hs as [s Hv|s rx Hv|s Hv|s i c c' k' Hi Hop Hst|s now level h w sup g Hh Ht
    |s Hsig|s].
  - split; [done..|]. apply (main_ok_mono s); simpl; congruence || done.
  - split; [done| |by apply (main_ok_kernel s (s_kernel s))]. apply Forall_app. split; [done|].
    apply Forall_singleton, new_conn_ok.
  - split; [done..|]. by apply (main_ok_mono s).
  - destruct (conn_step_ok c (s_kernel s) c' k') as [Hc' Hkept]; [by eapply Forall_lookup_1|done..|].
    split; [by eapply kept_ok|by apply Forall_insert|apply main_ok_kernel; [apply Hkept|done]].
  - destruct (health_tick_ok now level (s_kernel s) h w sup g Hk Ht) as [Hk' Hch].
    split; [done..|]. by apply (main_ok_kernel s _ (s_conns s)).
  - split; [done..|]. by apply (main_ok_mono s).
  - split; [done..|]. by apply (main_ok_mono s).
Qed.

(** No process is stopped before it is set stopping, and none is moved after. *)
Lemma shutdown_order_ok finished id ps todo :
  shutdown_updates = finished ++ (id, ps) :: todo ->
  (ps = Stopping \/ ps = Stopped) /\ (id, Stopped) ∉ finished.
Proof.
  assert (Hall : forall n, (n < 14)%nat -> match drop n shutdown_updates with
    | (id, ps) :: _ => bool_decide (ps = Stopping \/ ps = Stopped)
        && bool_decide ((id, Stopped) ∉ take n shutdown_updates)
    | [] => false end = true).
  { intros n Hn. do 14 (destruct n as [|n]; [by vm_compute|]). lia. }
  intros E.
  assert (length finished < 14)%nat as Hlt.
  { assert (length shutdown_updates = 14%nat) as Hl by done.
    rewrite E, length_app in Hl. simpl in Hl. lia. }
  specialize (Hall (length finished) Hlt). rewrite E, drop_app_length, take_app_length in Hall.
  by split_bools.
Qed.

Lemma main_step_ok now s s' :
  sys_ok s -> main_step now s = Ret (Some s') -> sys_ok s'.
Proof.
  intros [Hk Hc Hm]. unfold main_step, main_ok in *.
  destruct (s_main s) as [| |[|[id ps] todo]| | |e] eqn:E.
  - destruct (s_signal s) eqn:Hsig; [|done]. intros [= <-]. split; simpl; [done| |done].
    apply Forall_fmap. eapply Forall_impl; [done|]. apply notify_ok.
  - destruct (s_serve s) eqn:Hv; [done..|]. intros [= <-]. split; [done..|].
    split_and!; [done..|]. exists []. split; [done|]. by intros id ?%elem_of_nil.
  - intros [= <-]. destruct Hm as (Hsig & Hv & finished & Hf & Hst). split; [done..|].
    split_and!; [done..|]. intros id. apply Hst. rewrite app_nil_r in Hf. rewrite <- Hf.
    destruct id; vm_compute; set_solver.
  - destruct Hm as (Hsig & Hv & finished & Hf & Hst).
    destruct (shutdown_order_ok _ _ _ _ Hf) as [Hcase Hnin].
    destruct (ko_registered _ _ Hk id) as [old Hold].
    destruct (update_state_assign now now now id ps (k_supervisor (s_kernel s)) old)
      as (sup & Hu & Hnew & Hkey); [done|by destruct Hcase as [-> | ->]
      |destruct Hcase as [-> | ->]; by intros [_ ?]|].
    rewrite Hu, bind_Ret. intros [= <-].
    assert (Hk' : kernel_ok st (Handler.set_supervisor sup (s_kernel s))).
    { apply kernel_ok_supervisor; [by apply Hkey, Hk| |done]. intros j. rewrite Hnew.
      unfold assign. simpl. case_bool_decide; [by eexists|apply Hk]. }
    split; [done..|]. split_and!; [done..|]. exists (finished ++ [(id, ps)]).
    split; [by rewrite <- app_assoc|]. intros j Hj. unfold stopped. simpl. rewrite Hnew.
    unfold assign. simpl. apply elem_of_app in Hj as [Hj|Hj].
    + rewrite bool_decide_eq_false_2; [by apply Hst|]. by intros ->.
    + apply list_elem_of_singleton in Hj. injection Hj as -> <-.
      by rewrite bool_decide_eq_true_2.
  - destruct (s_health s) eqn:Hh; [done|]. intros [= <-]. split; [done..|].
    by destruct Hm as (? & ? & ?).
  - done.
  - done.
Qed.

Lemma step_ok s s' : step st s s' -> sys_ok s -> sys_ok s'.
Proof.
  intros [s1 s1' Ht|s1 s1' Hf|s1 now s1' Hm] Hok.
  - by eapply task_step_ok.
  - destruct Hf as [s2 Hv]. destruct Hok as [Hk Hc Hm]. split; [done..|].
    by apply (main_ok_mono s2).
  - by eapply main_step_ok.
Qed.

Lemma steps_ok s s' : rtc (step st) s s' -> sys_ok s -> sys_ok s'.
Proof. induction 1 as [|s1 s2 s3 Hs _ IH]; [done|]. intros Hok. by apply IH, (step_ok s1). Qed.

End Invariant.

(** * The shutdown *)

Section Shutdown.
Import System.
Context `{HashOrder} `{BuildProfile} `{JL : JsonLaws} {S : Type} `{SS : StoreSpec S}.
Context (st : statics).
Implicit Types s : sys Value S.

(** The steps that close the daemon: of the main task, and the end of the
    accept loop and of the health loop. *)
Inductive closing : sys Value S -> sys Value S -> Prop :=
| close_serve s : s_serve s = Accepting true -> closing s (set_serve ServeEnded s)
| close_health s :
    s_signal s = true -> s_health s = true ->
    closing s (mkSys (s_kernel s) (s_conns s) (s_serve s) false true (s_main s))
| close_main s now s' : main_step now s = Ret (Some s') -> closing s s'.

(** The main task waits for a server that has no message to receive. *)
Definition lost s : Prop :=
  s_main s = JoinServer /\ (s_serve s = Spawned \/ s_serve s = Accepting false).

(** The signal has arrived, and the server was not too late to hear of it. *)
Definition signalled s : Prop := s_signal s = true /\ s_serve s <> Spawned /\ ~ lost s.

Definition main_left (m : main_state) : nat :=
  match m with
  | WaitSignal => 18
  | JoinServer => 17
  | StopProcesses todo => 2 + length todo
  | JoinHealth => 1
  | Returned | Failed_ _ => 0
  end.

(** The closing steps that are left. *)
Definition closing_left s : nat :=
  main_left (s_main s) + (match s_serve s with Accepting _ => 1 | _ => 0 end)
  + (if s_health s then 1 else 0).

Lemma signalled_step s s' :
  sys_ok st s -> signalled s -> step st s s' ->
  signalled s' /\ (closing_left s' <= closing_left s)%nat.
Proof.
  intros Hok (Hsig & Hv & Hl) Hs. unfold signalled, lost, closing_left in *.
  destruct Hs as [s s' Ht|s s' Hf|s now s' Hm].
  - destruct Ht as [s E|s rx E|s E|s i c c' k' Hi Hop Hst|s now level h w sup g Hh Ht
      |s E|s]; simpl; [done|..].
    + by split; [split_and!|].
    + rewrite E. split; [|lia]. split_and!; [done..|]. intros [? [?|?]]; done.
    + by split; [split_and!|].
    + by split; [split_and!|].
    + split; [by split_and!|]. destruct (s_health s); lia.
    + by split; [split_and!|].
  - destruct Hf as [s E]. simpl. split; [|destruct (s_serve s); lia].
    split_and!; [done..|]. intros [? [?|?]]; done.
  - unfold main_step in Hm. pose proof (so_main _ _ Hok) as Hmo. unfold main_ok in Hmo.
    destruct (s_main s) as [| |[|[id ps] todo]| | |e] eqn:E.
    + rewrite Hsig in Hm. injection Hm as <-. simpl.
      destruct (s_serve s) eqn:Ev; simpl; (split; [split_and!; try done|lia]);
        intros [_ [?|?]]; done.
    + destruct (s_serve s) eqn:Ev; [done..|]. injection Hm as <-. simpl. rewrite Ev.
      split; [split_and!; try done; by intros [? _]|]. simpl. lia.
    + injection Hm as <-. simpl. split; [split_and!; try done; by intros [? _]|lia].
    + destruct (Supervisor.update_state now now now id ps (k_supervisor (s_kernel s)))
        as [[r sup]|]; [|done].
      rewrite bind_Ret in Hm. injection Hm as <-. simpl.
      destruct r; simpl; (split; [split_and!; try done; by intros [? _]|lia]).
    + destruct (s_health s) eqn:Eh; [done|]. injection Hm as <-. simpl. rewrite Eh.
      split; [split_and!; try done; by intros [? _]|lia].
    + done.
    + done.
Qed.

Lemma closing_decreases s s' :
  sys_ok st s -> closing s s' -> (closing_left s' < closing_left s)%nat.
Proof.
  intros Hok Hs. unfold closing_left. destruct Hs as [s E|s E Eh|s now s' Hm]; simpl.
  - rewrite E. lia.
  - rewrite Eh. lia.
  - unfold main_step in Hm. pose proof (so_main _ _ Hok) as Hmo. unfold main_ok in Hmo.
    destruct (s_main s) as [| |[|[id ps] todo]| | |e] eqn:E.
    + destruct (s_signal s); [|done]. injection Hm as <-. simpl.
      destruct (s_serve s); simpl; lia.
    + destruct (s_serve s) eqn:Ev; [done..|]. injection Hm as <-. simpl. rewrite Ev. simpl. lia.
    + injection Hm as <-. simpl. lia.
    + destruct (Supervisor.update_state now now now id ps (k_supervisor (s_kernel s)))
        as [[r sup]|]; [|done].
      rewrite bind_Ret in Hm. injection Hm as <-. simpl. destruct r; simpl; lia.
    + destruct (s_health s) eqn:Eh; [done|]. injection Hm as <-. simpl. rewrite Eh. lia.
    + done.
    + done.
Qed.

(** While something is left, a closing step is possible. *)
Lemma closing_enabled s (now : Instant) :
  sys_ok st s -> signalled s -> s_main s <> Returned -> exists s', closing s s'.
Proof.
  intros Hok (Hsig & Hv & Hl) Hne. pose proof (so_main _ _ Hok) as Hmo. unfold main_ok in Hmo.
  destruct (s_main s) as [| |[|[id ps] todo]| | |e] eqn:E; [..|done|done].
  - eexists. apply (close_main s now). unfold main_step. by rewrite E, Hsig.
  - destruct (s_serve s) as [|[]|] eqn:Ev; [done| | |].
    + eexists. by apply close_serve.
    + destruct Hl. split; [done|by right].
    + eexists. apply (close_main s now). unfold main_step. by rewrite E, Ev.
  - eexists. apply (close_main s now). unfold main_step. by rewrite E.
  - destruct Hmo as (_ & _ & finished & Hf & _).
    destruct (shutdown_order_ok _ _ _ _ Hf) as [Hcase _].
    destruct (ko_registered _ _ (so_kernel _ _ Hok) id) as [old Hold].
    destruct (update_state_assign now now now id ps (k_supervisor (s_kernel s)) old)
      as (sup & Hu & _); [done|by destruct Hcase as [-> | ->]
      |destruct Hcase as [-> | ->]; by intros [_ ?]|].
    eexists. apply (close_main s now). unfold main_step. by rewrite E, Hu, bind_Ret.
  - destruct (s_health s) eqn:Eh.
    + eexists. by apply close_health.
    + eexists. apply (close_main s now). unfold main_step. by rewrite E, Eh.
Qed.

Lemma closing_step s s' : closing s s' -> step st s s'.
Proof.
  intros [s1 E|s1 E Eh|s1 now s1' Hm].
  - by apply step_task, step_serve_end.
  - by apply step_task, step_health_end.
  - by eapply step_main.
Qed.

(** Once lost, the system stays lost unless the server fails. *)
Lemma lost_step s s' : lost s -> step st s s' -> ~ serve_fails s s' -> lost s'.
Proof.
  unfold lost. intros [Hm Hv] Hs Hnf. destruct Hs as [s s' Ht|s s' Hf|s now s' Hms]; [|done|].
  - destruct Ht as [s E|s rx E|s E|s i c c' k' Hi Hop Hst|s now level h w sup g Hh Ht
      |s E|s]; simpl; try done.
    + split; [done|by right].
    + exfalso. destruct Hv; congruence.
  - exfalso. unfold main_step in Hms. rewrite Hm in Hms.
    destruct Hv as [Hv|Hv]; by rewrite Hv in Hms.
Qed.

(** Only the health loop changes the pressure level. *)
Lemma frozen_step s s' :
  sys_ok st s -> s_health s = false -> step st s s' ->
  s_health s' = false
  /\ pressure_level (k_governor (s_kernel s')) = pressure_level (k_governor (s_kernel s)).
Proof.
  intros Hok Hh Hs. destruct Hs as [s s' Ht|s s' Hf|s now s' Hm].
  - destruct Ht as [s E|s rx E|s E|s i c c' k' Hi Hop Hst|s now level h w sup g Hh' Ht
      |s E|s]; [done..| |congruence|done|done].
    split; [done|]. pose proof (Forall_lookup_1 _ _ _ _ (so_conns _ _ Hok) Hi) as Hc.
    by destruct (conn_step_ok st c (s_kernel s) c' k' Hc Hop Hst) as [_ (_ & (_ & _ & _ & Hp) & _)].
  - by destruct Hf.
  - unfold main_step in Hm. destruct (s_main s) as [| |[|[id ps] todo]| | |e].
    + destruct (s_signal s); [|done]. by injection Hm as <-.
    + destruct (s_serve s); [done..|]. by injection Hm as <-.
    + by injection Hm as <-.
    + destruct (Supervisor.update_state now now now id ps _) as [[r sup]|]; [|done].
      rewrite bind_Ret in Hm. by injection Hm as <-.
    + rewrite Hh in Hm. by injection Hm as <-.
    + done.
    + done.
Qed.

(** What [Daemon.start] establishes. *)
Lemma start_shape (clock : nat -> Instant) ram level (store : S) k :
  Daemon.start clock ram level store = Ret (Ok k) ->
  exists sup, k = Handler.new sup
    (Governor.update_pressure level (Governor.new (Daemon.governor_config ram)))
    TaskRegistry.new store.
Proof.
  unfold Daemon.start. cbv zeta.
  destruct (Daemon.boot_sequence _ _) as [[[u|e] sup]|]; [|done..].
  rewrite bind_Ret. intros [= <-]. by exists sup.
Qed.

Lemma start_kernel_ok (clock : nat -> Instant) ram level (store : S) k :
  store_ok store -> Daemon.start clock ram level store = Ret (Ok k) ->
  kernel_ok (statics_of (k_governor k)) k.
Proof.
  intros Hst Hk.
  destruct (daemon_lifecycle clock ram level store) as ((k0 & Hk0 & Hkey & Hrun & _) & _).
  rewrite Hk in Hk0. injection Hk0 as <-.
  destruct (start_shape _ _ _ _ _ Hk) as [sup ->].
  split; [done|intros id; by rewrite Hrun|done|done|intros p; apply elem_of_tiers|done| |done].
  unfold in_u. cbn [trigger_seq Handler.new]. lia.
Qed.

Lemma started_ok k interval signal : kernel_ok st k -> sys_ok st (started k interval signal).
Proof. intros Hk. split; [done|by apply Forall_nil|done]. Qed.

End Shutdown.

(** * Properties *)

Section Properties.
Import System.
Context `{HashOrder} `{BuildProfile} `{JL : JsonLaws} {S : Type} `{SS : StoreSpec S}.
Context (st : statics).

(** The daemon in any state it can reach after it has started. *)
Definition reachable (s : sys Value S) : Prop :=
  exists clock ram level store k interval signal,
    store_ok store /\ Daemon.start clock ram level store = Ret (Ok k)
    /\ st = statics_of (k_governor k)
    /\ rtc (step st) (started k interval signal) s.

Lemma reachable_ok s : reachable s -> sys_ok st s.
Proof.
  intros (clock & ram & level & store & k & interval & signal & Hst & Hk & -> & Hs).
  apply (steps_ok _ _ _ Hs), started_ok. by eapply start_kernel_ok.
Qed.

(** C14. The state of the kernel is well formed in every state the daemon can
    reach, however the critical sections of the requests on all connections,
    health ticks and the state updates of the shutdown interleave: the seven
    processes are registered under their own names, the governor has the tiers,
    the budgets and the configuration it was started with, no task is
    registered, the sequence number of triggers fits its type, and the store is
    sound. *)
Theorem kernel_state_typed s s' :
  reachable s -> rtc (step st) s s' -> kernel_ok st (s_kernel s').
Proof.
  intros Hr Hs. apply so_kernel. by apply (steps_ok st s), reachable_ok.
Qed.


(** C24. The shutdown is clean. The graceful shutdown never fails, whatever
    requests and health ticks run between its state updates; when [run_daemon]
    returns, the server and the health loop have ended and all seven processes
    are stopped, and connections that are still open cannot start any of them
    again. *)
Theorem shutdown_clean s :
  reachable s ->
  (forall e, s_main s <> Failed_ e)
  /\ (s_main s = Returned -> s_serve s = ServeEnded /\ s_health s = false
      /\ forall s' id, rtc (step st) s s' -> stopped s' id).
Proof.
  intros Hr. pose proof (so_main _ _ (reachable_ok s Hr)) as Hm. unfold main_ok in Hm. split.
  - intros e He. by rewrite He in Hm.
  - intros He. rewrite He in Hm. destruct Hm as (_ & Hv & Hh & Hst). split_and!; [done..|].
    intros s' id Hs. cut (s_main s' = Returned).
    { intros He'. pose proof (so_main _ _ (steps_ok _ _ _ Hs (reachable_ok s Hr))) as Hm'.
      unfold main_ok in Hm'. rewrite He' in Hm'. apply Hm'. }
    clear -He Hs. induction Hs as [|s1 s2 s3 Hs _ IH]; [done|]. apply IH.
    destruct Hs as [s1 s2 Ht|s1 s2 Hf|s1 now s2 Hm]; [by destruct Ht|by destruct Hf|].
    unfold main_step in Hm. by rewrite He in Hm.
Qed.

(** C4. The daemon stops. After the signal, when the server had subscribed to
    the shutdown channel in time, at most twenty closing steps (of the main
    task, or the end of the accept loop or of the health loop) are left; no
    step of any task adds to them or takes this situation away, every closing
    step lowers their number, and one is possible until [run_daemon] has
    returned. In particular the daemon can always return. *)
Theorem daemon_stops s :
  reachable s -> signalled s ->
  (closing_left s <= 20)%nat
  /\ (forall s', step st s s' -> signalled s' /\ (closing_left s' <= closing_left s)%nat)
  /\ (forall s', closing s s' -> (closing_left s' < closing_left s)%nat)
  /\ (s_main s <> Returned -> exists s', closing s s')
  /\ exists s', rtc closing s s' /\ s_main s' = Returned.
Proof.
  intros Hr Hs. pose proof (reachable_ok s Hr) as Hok. split_and!.
  - unfold closing_left. assert (main_left (s_main s) <= 18)%nat.
    { pose proof (so_main _ _ Hok) as Hm. unfold main_ok in Hm.
      destruct (s_main s) as [| |todo| | |e]; simpl; try lia.
      destruct Hm as (_ & _ & finished & Hf & _). apply (f_equal length) in Hf.
      rewrite length_app in Hf. change (length shutdown_updates) with 14%nat in Hf. lia. }
    destruct (s_serve s), (s_health s); lia.
  - intros s'. by apply signalled_step.
  - intros s'. by apply (closing_decreases st).
  - intros Hm. by apply (closing_enabled st s 0).
  - clear Hr. revert Hok Hs. remember (closing_left s) as n eqn:Hn. revert s Hn.
    induction n as [n IH] using lt_wf_ind. intros s -> Hok Hs.
    assert (s_main s = Returned \/ s_main s <> Returned) as [Hm|Hm]
      by (destruct (s_main s); (by left) || by right); [by exists s|].
    destruct (closing_enabled st s 0 Hok Hs Hm) as [s1 Hc].
    pose proof (closing_step st _ _ Hc) as Hst.
    destruct (IH (closing_left s1) (closing_decreases st _ _ Hok Hc) s1 eq_refl) as (s' & Hs' & Hm').
    + by apply (step_ok st s).
    + by destruct (signalled_step st s s1 Hok Hs Hst).
    + exists s'. split; [by eapply rtc_l|done].
Qed.

(** C36. A signal during the start can be lost. The server subscribes to the
    shutdown channel only when its task first runs; when the main task sends
    the shutdown before, the message reaches nobody, and from then on, whatever
    the tasks do, [run_daemon] waits for the server and no process is ever
    stopped, unless the server fails on its own. *)
Theorem shutdown_lost k interval :
  kernel_ok st k ->
  exists s, rtc (step st) (started k interval true) s /\ lost s
    /\ forall s', rtc (fun a b => step st a b /\ ~ serve_fails a b) s s' ->
         s_main s' = JoinServer.
Proof.
  intros Hk. exists (set_main JoinServer (broadcast (started k interval true))). split; [|split].
  - apply rtc_once. by apply (step_main _ _ 0).
  - split; [done|by left].
  - intros s' Hs. cut (lost s'); [by intros [? _]|].
    assert (lost (set_main JoinServer (broadcast (started k interval true)))) as Hl
      by (split; [done|by left]).
    revert Hl. induction Hs as [|s1 s2 s3 [Hs Hnf] _ IH]; [done|]. intros Hl.
    apply IH. by apply (lost_step st s1).
Qed.

(** The health loop needs an interval. With a health interval of zero seconds
    its task ends in the panic of [tokio::time::interval] and nobody notices:
    in every state of the whole run the governor works with the memory pressure
    of the start. With any other interval, in every state in which the health
    loop has not ended, a next tick is possible that adopts whatever pressure
    the machine then has. *)
Theorem health_interval k interval signal s :
  kernel_ok st k -> rtc (step st) (started k interval signal) s ->
  if interval =? 0 then
    s_health s = false
    /\ Governor.current_pressure (k_governor (s_kernel s))
       = Governor.current_pressure (k_governor k)
  else s_health s = true -> forall level, exists s', step st s s'
    /\ Governor.current_pressure (k_governor (s_kernel s')) = level.
Proof.
  intros Hk Hs. destruct (interval =? 0) eqn:Ei.
  - assert (Hok : sys_ok st (started k interval signal)) by by apply started_ok.
    assert (Hh : s_health (started k interval signal) = false)
      by (simpl; unfold health_spawned; by rewrite Ei).
    change (k_governor k) with (k_governor (s_kernel (started k interval signal))).
    induction Hs as [|s1 s2 s3 Hs _ IH]; [done|].
    destruct (frozen_step st _ _ Hok Hh Hs) as [Hh2 Hp2].
    destruct (IH (step_ok st _ _ Hs Hok) Hh2) as [Hh3 Hp3]. split; [done|].
    unfold Governor.current_pressure in *. congruence.
  - intros Hh level.
    destruct (Daemon.health_tick 0 level (k_supervisor (s_kernel s)) (k_governor (s_kernel s)))
      as [[[h w] sup] g] eqn:Et.
    eexists. split; [by eapply step_task, step_health|]. simpl.
    unfold Daemon.health_tick in Et. destruct (Supervisor.health _ _). by injection Et as _ _ _ <-.
Qed.

End Properties.

(** * Witnesses *)

Section Witnesses.
Import System.

#[local] Instance demo_order : HashOrder := std_order.
#[local] Instance demo_profile : BuildProfile := debug_profile.
#[local] Instance demo_json : Json := tree_json.
#[local] Instance demo_json_laws : JsonLaws := tree_laws.
#[local] Instance demo_store : StateStore (@SqliteStateStore mem_sql) := sqlite_store.
#[local] Instance demo_store_spec : StoreSpec (@SqliteStateStore mem_sql) :=
  @sqlite_spec mem_sql mem_laws debug_profile.

Abbreviation demo_statics k :=
  (statics_of (k_governor (k : KernelState (@SqliteStateStore mem_sql)))) (only parsing).

(** A machine with 16 GB and an empty database. *)
Lemma demo_start :
  exists k, Daemon.start (fun _ => 0) 16384 MNormal (mem_store ∅) = Ret (Ok k)
    /\ kernel_ok (demo_statics k) k.
Proof.
  destruct (daemon_lifecycle (fun _ => 0) 16384 MNormal (mem_store ∅)) as ((k & Hk & _) & _).
  exists k. split; [exact Hk|].
  apply (start_kernel_ok (fun _ => 0) 16384 MNormal (mem_store ∅) k); [done|exact Hk].
Qed.

Lemma demo_reachable k interval signal s :
  Daemon.start (fun _ => 0) 16384 MNormal (mem_store ∅) = Ret (Ok k) ->
  rtc (step (demo_statics k)) (started k interval signal) s -> reachable (demo_statics k) s.
Proof.
  intros Hk Hs. exists (fun _ => 0), 16384, MNormal, (mem_store ∅), k, interval, signal.
  by split_and!.
Qed.

(** A connection that sends a line that is no request. *)
Lemma demo_line (st : statics) :
  exists r, HandlerProg.process_line (S := @SqliteStateStore mem_sql) st (fun _ => 0) "x" = Stop (Ret r).
Proof.
  assert (exists e, request_from_str "x" = Err e) as [e He] by (eexists; vm_compute; reflexivity).
  unfold HandlerProg.process_line. rewrite He. by eexists.
Qed.

Lemma demo_conn :
  exists k s c text r, reachable (demo_statics k) s /\ s_conns s !! 0%nat = Some c
    /\ c_open c = true /\ c_log c = [(text, r)].
Proof.
  destruct demo_start as (k & Hk & _). destruct (demo_line (demo_statics k)) as [r Hr].
  set (s1 := set_conns [new_conn] (set_serve (Accepting false) (started k 5 false))).
  set (c := set_work (S := @SqliteStateStore mem_sql) (Some ("x"%string, Stop (Ret r))) new_conn).
  set (s2 := set_kernel k (set_conns [c] s1)).
  exists k, (set_kernel k (set_conns [answer "x" r true c] s2)), (answer "x" r true c), "x"%string, r.
  split_and!; [|done..]. eapply demo_reachable; [exact Hk|].
  eapply rtc_l; [apply step_task, step_subscribe; reflexivity|].
  eapply rtc_l; [apply step_task, (step_accept _ _ false); reflexivity|].
  eapply rtc_l; [apply step_task, (step_conn _ s1 0 new_conn c k); [done..|]|].
  { unfold c. rewrite <- Hr. by apply conn_line. }
  apply rtc_once, step_task, (step_conn _ s2 0 c); [done..|]. by apply conn_answer.
Qed.

Lemma kernel_state_typed_witness :
  exists k (s : sys Value (@SqliteStateStore mem_sql)),
    kernel_ok (demo_statics k) (s_kernel s) /\ (0 < length (s_conns s))%nat.
Proof.
  destruct demo_conn as (k & s & c & text & r & Hs & Hc & _). exists k, s.
  split; [apply (kernel_state_typed (demo_statics k) s s Hs), rtc_refl|].
  apply lookup_lt_Some in Hc. exact Hc.
Defined.


Lemma shutdown_clean_witness :
  exists k s, reachable (demo_statics k) s /\ forall e, s_main s <> Failed_ e.
Proof.
  destruct demo_start as (k & Hk & _).
  assert (reachable (demo_statics k) (started k 5 true)) as Hr
    by (eapply demo_reachable; [exact Hk|apply rtc_refl]).
  exists k, (started k 5 true). split; [exact Hr|].
  apply (shutdown_clean (demo_statics k) (started k 5 true) Hr).
Defined.

Lemma daemon_stops_witness :
  exists k s s', reachable (demo_statics k) s /\ signalled s /\ rtc closing s s'
    /\ s_main s' = Returned.
Proof.
  destruct demo_start as (k & Hk & _).
  set (s := set_serve (Accepting false) (started k 5 true)).
  assert (reachable (demo_statics k) s) as Hr.
  { eapply demo_reachable; [exact Hk|]. by apply rtc_once, step_task, step_subscribe. }
  assert (signalled s) as Hs by (split_and!; [done..|by intros [? _]]).
  destruct (daemon_stops (demo_statics k) s Hr Hs) as (_ & _ & _ & _ & s' & Hc & Hm).
  exists k, s, s'. split_and!; [exact Hr|exact Hs|exact Hc|exact Hm].
Defined.

Lemma shutdown_lost_witness :
  exists k s, rtc (step (demo_statics k)) (started k 5 true) s /\ lost s.
Proof.
  destruct demo_start as (k & _ & Hok). exists k.
  destruct (shutdown_lost (demo_statics k) k 5 Hok) as (s & Hs & Hl & _).
  exists s. split; [exact Hs|exact Hl].
Defined.

Lemma health_interval_witness :
  exists k s, rtc (step (demo_statics k)) (started k 0 true) s
    /\ s_main s = JoinServer /\ s_health s = false.
Proof.
  destruct demo_start as (k & _ & Hok).
  set (s := set_main JoinServer (broadcast (started k 0 true))).
  assert (rtc (step (demo_statics k)) (started k 0 true) s) as Hs
    by (apply rtc_once; by apply (step_main _ _ 0)).
  destruct (health_interval (demo_statics k) k 0 true s Hok Hs) as [Hh _].
  exists k, s. split_and!; [exact Hs|done|exact Hh].
Defined.

End Witnesses.
