(* ===== verification/Adapter.v ===== *)
(** The model adapter: src/src/adapter/ (circuit_breaker.rs, resolver.rs,
    provider.rs and the request, response, configuration and error types).

    Identifiers of the [uuid] crate and values of [serde_json] are carried
    around and never inspected; they are type parameters. The files only
    declare the [ModelAdapter] trait: nothing implements it. *)

From S2P Require Import Prelude F64 Envelope.

(** * Types of the interface *)

Inductive LoopOrigin := Loop0Meta | Loop1Agentic | Loop2Harness.

Inductive DegradationLevel := NoDegradation | Mild | Significant.

Inductive AdapterStatus := Healthy | Degraded | AllProvidersDown.

Inductive CircuitState := Closed | HalfOpen | Open.

#[export] Instance CircuitState_eq_dec : EqDecision CircuitState.
Proof. solve_decision. Defined.

Record ProviderHealth := mkProviderHealth {
  ph_provider_id : string;
  ph_circuit_state : CircuitState;
  latency_avg_ms : Z
}.

Record AdapterHealth := mkAdapterHealth {
  ah_providers : list ProviderHealth;
  ah_status : AdapterStatus
}.

Record BudgetScope := mkScope { bs_priority : Priority; bs_loop_origin : LoopOrigin }.

Record TokenBudget := mkTokenBudget {
  tb_remaining : Z;
  tb_total : Z;
  tb_priority : Priority
}.

Inductive AdapterError :=
| NoProviderAvailable (zone : SecurityZone) (reason : string)
| AllProvidersExhausted
| BudgetExceeded (remaining requested : Z)
| ProviderError (provider message : string)
| Timeout (timeout_ms : Z)
| CircuitOpen (provider : string)
| SerializationError (msg : string)
| ConfigError (msg : string).

Inductive QualityTier := Haiku | Sonnet | Opus.

(** The derived order: the order of the variants. *)
Definition tier_rank (t : QualityTier) : Z :=
  match t with Haiku => 0 | Sonnet => 1 | Opus => 2 end.

Definition tier_lt (a b : QualityTier) : bool := tier_rank a <? tier_rank b.

Inductive MemoryTier := L1Working | L2Session | L3LongTerm | L4ErrorJournal.

Record CapabilityReq := mkCapReq {
  min_context : Z;
  supports_streaming : bool;
  req_tool_use : bool;
  req_vision : bool;
  min_quality_tier : QualityTier
}.

Definition default_capabilities : CapabilityReq := mkCapReq 8000 false false false Haiku.

Record ContextSource := mkContextSource {
  cs_tier : MemoryTier;
  token_count : Z;
  retrieval_method : option string;
  expendable : bool
}.

Record Message := mkMessage { msg_role : string; msg_content : string }.

Record ToolDef {Value : Type} := mkToolDef {
  td_name : string;
  td_description : string;
  td_parameters : Value
}.
Arguments ToolDef : clear implicits.

Record ToolCall {Value : Type} := mkToolCall {
  tc_id : string;
  tc_name : string;
  tc_arguments : Value
}.
Arguments ToolCall : clear implicits.

Record AdapterRequest {Uuid Value : Type} := mkRequest {
  request_id : Uuid;
  req_dag_id : option Uuid;
  req_task_id : option Uuid;
  req_loop_origin : LoopOrigin;
  capabilities : CapabilityReq;
  req_security_zone : SecurityZone;
  req_priority : Priority;
  token_budget_remaining : Z;
  context_sources : list ContextSource;
  require_different_provider : bool;
  messages : list Message;
  tools : option (list (ToolDef Value));
  temperature : option f64;
  req_max_tokens : option Z
}.
Arguments AdapterRequest : clear implicits.
Arguments mkRequest {Uuid Value}.

(** [AdapterRequest::simple]; [fresh] is the identifier [Uuid::new_v4] makes. *)
Definition simple_request {Uuid Value : Type} (fresh : Uuid) (messages : list Message)
    (priority : Priority) (zone : SecurityZone) : AdapterRequest Uuid Value :=
  mkRequest fresh None None Loop1Agentic default_capabilities zone priority 100000 []
    false messages None None None.

Record TierCut := mkTierCut { cut_tier : MemoryTier; suggested_reduction_tokens : Z }.

Record BudgetAdvisory := mkAdvisory {
  budget_remaining : Z;
  recommended_tier_cuts : list TierCut
}.

Record AdapterResponse {Uuid Value : Type} := mkResponse {
  resp_request_id : Uuid;
  resp_provider : string;
  resp_model : string;
  resp_degradation_level : DegradationLevel;
  tokens_in : Z;
  tokens_out : Z;
  latency_ms : Z;
  resp_content : string;
  tool_calls : option (list (ToolCall Value));
  budget_advisory : option BudgetAdvisory;
  retry_count : Z;
  resp_circuit_state : CircuitState
}.
Arguments AdapterResponse : clear implicits.

(** * Configuration *)

Record ProviderCapabilities := mkCaps {
  max_context : Z;
  cap_tool_use : bool;
  cap_vision : bool;
  cap_streaming : bool;
  max_quality_tier : QualityTier
}.

Record ProviderConfig := mkProvider {
  pc_id : string;
  pc_endpoint : string;
  pc_models : list string;
  fallback_rank : Z;
  zone_allowlist : list SecurityZone;
  pc_capabilities : ProviderCapabilities
}.

Record RetryConfig := mkRetry {
  max_retries_per_provider : Z;
  base_delay : Duration;
  jitter_max : Duration
}.

Definition default_retry : RetryConfig := mkRetry 3 (from_millis 500) (from_millis 200).

Record BudgetConfig := mkBudgetConfig {
  p0_reserved_tokens : Z;
  p1_pool_tokens : Z;
  p2_spare_only : bool
}.

Definition default_budget_config : BudgetConfig := mkBudgetConfig 50000 500000 true.

Record AdapterConfig := mkAdapterConfig {
  ac_socket_path : string;
  ac_providers : list ProviderConfig;
  ac_retry : RetryConfig;
  ac_budget : BudgetConfig
}.

Definition default_adapter_config : AdapterConfig :=
  mkAdapterConfig "/run/aros/adapter.sock" [] default_retry default_budget_config.

(** * The circuit breaker of a provider *)

Record CircuitBreakerConfig := mkCbConfig {
  failure_threshold : Z;
  open_duration : Duration;
  probe_success_count : Z
}.

Definition default_cb_config : CircuitBreakerConfig := mkCbConfig 3 (from_secs 30) 2.

Record CircuitBreaker := mkCb {
  cb_provider_id : string;
  cb_state : CircuitState;
  cb_config : CircuitBreakerConfig;
  consecutive_failures : Z;
  consecutive_successes : Z;
  last_state_change : Instant
}.

Module CircuitBreaker.

Definition new (now : Instant) (id : string) (config : CircuitBreakerConfig)
    : CircuitBreaker := mkCb id Closed config 0 0 now.

Definition recovering (now : Instant) (id : string) (config : CircuitBreakerConfig)
    : CircuitBreaker := mkCb id HalfOpen config 0 0 now.

Definition transition (now : Instant) (new_state : CircuitState) (cb : CircuitBreaker)
    : CircuitBreaker := mkCb (cb_provider_id cb) new_state (cb_config cb) 0 0 now.

(** [state] moves an expired open breaker to half open, then reports. *)
Definition state (now : Instant) (cb : CircuitBreaker) : CircuitState * CircuitBreaker :=
  let cb :=
    if bool_decide (cb_state cb = Open)
       && (open_duration (cb_config cb) <=? elapsed now (last_state_change cb))
    then transition now HalfOpen cb else cb in
  (cb_state cb, cb).

Definition set_counts (failures successes : Z) (cb : CircuitBreaker) : CircuitBreaker :=
  mkCb (cb_provider_id cb) (cb_state cb) (cb_config cb) failures successes
    (last_state_change cb).

Definition record_success `{BuildProfile} (now : Instant) (cb : CircuitBreaker)
    : outcome CircuitBreaker :=
  let cb := set_counts 0 (consecutive_successes cb) cb in
  match cb_state cb with
  | Closed => Ret cb
  | HalfOpen =>
    successes ← add_u 32 (consecutive_successes cb) 1;
    let cb := set_counts (consecutive_failures cb) successes cb in
    if probe_success_count (cb_config cb) <=? consecutive_successes cb
    then Ret (transition now Closed cb) else Ret cb
  | Open => Ret cb
  end.

Definition record_failure `{BuildProfile} (now : Instant) (cb : CircuitBreaker)
    : outcome CircuitBreaker :=
  let cb := set_counts (consecutive_failures cb) 0 cb in
  failures ← add_u 32 (consecutive_failures cb) 1;
  let cb := set_counts failures (consecutive_successes cb) cb in
  match cb_state cb with
  | Closed =>
    if failure_threshold (cb_config cb) <=? consecutive_failures cb
    then Ret (transition now Open cb) else Ret cb
  | HalfOpen => Ret (transition now Open cb)
  | Open => Ret cb
  end.

Definition allows_request (now : Instant) (cb : CircuitBreaker) : bool * CircuitBreaker :=
  let '(s, cb) := state now cb in
  (match s with Closed | HalfOpen => true | Open => false end, cb).

End CircuitBreaker.

(** * Provider resolution *)

Record ResolvedProvider := mkResolved {
  rp_config : ProviderConfig;
  rp_degradation_level : DegradationLevel
}.

Module Resolver.

Definition zone_allows (zone : SecurityZone) (allowlist : list SecurityZone) : bool :=
  bool_decide (zone ∈ allowlist).

Definition meets_capabilities (req : CapabilityReq) (provider : ProviderConfig) : bool :=
  let caps := pc_capabilities provider in
  if max_context caps <? min_context req then false
  else if supports_streaming req && negb (cap_streaming caps) then false
  else if req_tool_use req && negb (cap_tool_use caps) then false
  else if req_vision req && negb (cap_vision caps) then false
  else if tier_lt (max_quality_tier caps) (min_quality_tier req) then false
  else true.

Definition debug_zone (z : SecurityZone) : string :=
  match z with Green => "Green" | Yellow => "Yellow" | Red => "Red" end.

Definition debug_tier (t : QualityTier) : string :=
  match t with Haiku => "Haiku" | Sonnet => "Sonnet" | Opus => "Opus" end.

(** [sort_by_key] is stable: an element goes before the later elements of the
    same key. *)
Fixpoint insert_by_key {A} (key : A -> Z) (x : A) (l : list A) : list A :=
  match l with
  | [] => [x]
  | y :: l' => if key x <=? key y then x :: l else y :: insert_by_key key x l'
  end.

Definition sort_by_key {A} (key : A -> Z) (l : list A) : list A :=
  foldr (insert_by_key key) [] l.

Definition different_provider (require : bool) (last : option string) (p : ProviderConfig)
    : bool :=
  if require then
    match last with None => true | Some last => negb (bool_decide (last = pc_id p)) end
  else true.

Definition degradation_of (p : ProviderConfig) : DegradationLevel :=
  if (0 <=? fallback_rank p) && (fallback_rank p <=? 1) then NoDegradation
  else if fallback_rank p =? 2 then Mild
  else Significant.

Definition no_provider_reason (zone : SecurityZone) (caps : CapabilityReq) : string :=
  ("No provider meets requirements: zone=" +:+ debug_zone zone
   +:+ ", min_quality=" +:+ debug_tier (min_quality_tier caps)
   +:+ ", tool_use=" +:+ display_bool (req_tool_use caps)
   +:+ ", vision=" +:+ display_bool (req_vision caps))%string.

Definition resolve {Uuid Value} (req : AdapterRequest Uuid Value)
    (providers : list ProviderConfig) (available_ids : list string)
    (last_provider_id : option string) : result AdapterError ResolvedProvider :=
  let l := List.filter (fun p =>
    zone_allows (req_security_zone req) (zone_allowlist p)) providers in
  let l := List.filter (meets_capabilities (capabilities req)) l in
  let l := List.filter (fun p => bool_decide (pc_id p ∈ available_ids)) l in
  let l := List.filter
    (different_provider (require_different_provider req) last_provider_id) l in
  let candidates := (fun p => (p, degradation_of p)) <$> l in
  let candidates := sort_by_key (fun c => fallback_rank c.1) candidates in
  ok_or ((fun c => mkResolved c.1 c.2) <$> head candidates)
    (NoProviderAvailable (req_security_zone req)
       (no_provider_reason (req_security_zone req) (capabilities req))).

End Resolver.

(** * The registry of providers *)

Record ProviderRegistry := mkRegistry {
  reg_providers : list ProviderConfig;
  circuit_breakers : gmap string CircuitBreaker
}.

Module ProviderRegistry.

(** Collecting pairs into a [HashMap]: a later pair replaces an earlier one. *)
Definition collect {V} (l : list (string * V)) : gmap string V :=
  foldl (fun m kv => <[kv.1 := kv.2]> m) ∅ l.

Definition new (now : Instant) (providers : list ProviderConfig)
    (cb_config : CircuitBreakerConfig) : ProviderRegistry :=
  mkRegistry providers
    (collect ((fun p => (pc_id p, CircuitBreaker.new now (pc_id p) cb_config)) <$> providers)).

Definition recovering (now : Instant) (providers : list ProviderConfig)
    (cb_config : CircuitBreakerConfig) : ProviderRegistry :=
  mkRegistry providers
    (collect ((fun p => (pc_id p, CircuitBreaker.recovering now (pc_id p) cb_config))
                <$> providers)).

Definition with_breaker (id : string) (cb : CircuitBreaker) (r : ProviderRegistry)
    : ProviderRegistry :=
  mkRegistry (reg_providers r) (<[id := cb]> (circuit_breakers r)).

Definition is_available (now : Instant) (id : string) (r : ProviderRegistry)
    : bool * ProviderRegistry :=
  match circuit_breakers r !! id with
  | None => (false, r)
  | Some cb =>
    let '(b, cb) := CircuitBreaker.allows_request now cb in (b, with_breaker id cb r)
  end.

Definition record_success `{BuildProfile} (now : Instant) (id : string)
    (r : ProviderRegistry) : outcome ProviderRegistry :=
  match circuit_breakers r !! id with
  | None => Ret r
  | Some cb => cb ← CircuitBreaker.record_success now cb; Ret (with_breaker id cb r)
  end.

Definition record_failure `{BuildProfile} (now : Instant) (id : string)
    (r : ProviderRegistry) : outcome ProviderRegistry :=
  match circuit_breakers r !! id with
  | None => Ret r
  | Some cb => cb ← CircuitBreaker.record_failure now cb; Ret (with_breaker id cb r)
  end.

(** The entries of the health report, one per breaker. *)
Definition report `{HashOrder} (now : Instant) (breakers : gmap string CircuitBreaker)
    : list ProviderHealth :=
  (fun kv => mkProviderHealth kv.1 (CircuitBreaker.state now kv.2).1 0) <$> hm_iter breakers.

(** [health] asks every breaker for its state, which may move it. *)
Definition health `{HashOrder} (now : Instant) (r : ProviderRegistry)
    : AdapterHealth * ProviderRegistry :=
  let providers := report now (circuit_breakers r) in
  let breakers := hm_update_all (fun cb => (CircuitBreaker.state now cb).2)
    (circuit_breakers r) in
  let all_open := forallb (fun p => bool_decide (ph_circuit_state p = Open)) providers in
  let any_open := existsb (fun p => bool_decide (ph_circuit_state p = Open)) providers in
  let status :=
    if all_open then AllProvidersDown
    else if any_open then Degraded
    else Healthy in
  (mkAdapterHealth providers status, mkRegistry (reg_providers r) breakers).

End ProviderRegistry.

(** * Properties of the resolver *)

(** The requirements a provider has to meet, as the documentation of
    [resolve] lists them. *)
Record eligible {Uuid Value} (req : AdapterRequest Uuid Value) (available : list string)
    (last : option string) (p : ProviderConfig) : Prop := {
  el_zone : req_security_zone req ∈ zone_allowlist p;
  el_context : min_context (capabilities req) <= max_context (pc_capabilities p);
  el_streaming : supports_streaming (capabilities req) = true ->
    cap_streaming (pc_capabilities p) = true;
  el_tools : req_tool_use (capabilities req) = true ->
    cap_tool_use (pc_capabilities p) = true;
  el_vision : req_vision (capabilities req) = true -> cap_vision (pc_capabilities p) = true;
  el_tier : tier_rank (min_quality_tier (capabilities req))
    <= tier_rank (max_quality_tier (pc_capabilities p));
  el_available : pc_id p ∈ available;
  el_different : require_different_provider req = true -> last <> Some (pc_id p)
}.

(** The first of the least elements of a list. *)
Definition first_least {A} (key : A -> Z) (x : A) (l : list A) : Prop :=
  exists l1 l2, l = l1 ++ x :: l2
    /\ Forall (fun y => key x < key y) l1 /\ Forall (fun y => key x <= key y) l2.

Lemma head_insert_by_key {A} (key : A -> Z) (x : A) l :
  head (Resolver.insert_by_key key x l)
    = match head l with
      | None => Some x
      | Some y => Some (if key x <=? key y then x else y)
      end.
Proof. destruct l as [|y l]; simpl; [done|]. by destruct (key x <=? key y). Qed.

Lemma head_sort_by_key {A} (key : A -> Z) l :
  match head (Resolver.sort_by_key key l) with
  | None => l = []
  | Some x => first_least key x l
  end.
Proof.
  induction l as [|x l IH]; [done|]. unfold Resolver.sort_by_key in *. cbn [foldr].
  rewrite head_insert_by_key. destruct (head _) as [y|].
  - destruct IH as (l1 & l2 & -> & H1 & H2).
    destruct (key x <=? key y) eqn:Hxy; split_bools.
    + exists [], (l1 ++ y :: l2). split; [done|]. split; [done|].
      rewrite Forall_app, Forall_cons. split; [|split; [done|]].
      * eapply Forall_impl; [exact H1|]. simpl. intros. lia.
      * eapply Forall_impl; [exact H2|]. simpl. intros. lia.
    + exists (x :: l1), l2. split; [done|]. by rewrite Forall_cons.
  - subst. exists [], []. done.
Qed.

Lemma first_least_filter {A} (key : A -> Z) (f : A -> bool) x l :
  first_least key x (List.filter f l) ->
  f x = true /\ exists l1 l2, l = l1 ++ x :: l2
    /\ Forall (fun y => f y = true -> key x < key y) l1
    /\ Forall (fun y => f y = true -> key x <= key y) l2.
Proof.
  intros (f1 & f2 & Heq & H1 & H2). revert f1 Heq H1.
  induction l as [|y l IH]; intros f1 Heq H1; [by destruct f1|].
  cbn [List.filter] in Heq. destruct (f y) eqn:Hy.
  - destruct f1 as [|y' f1]; injection Heq as -> Heq.
    + split; [done|]. exists [], l. split; [done|]. split; [done|].
      rewrite Forall_forall in H2 |- *. intros z Hz Hf. apply H2. rewrite <- Heq.
      by apply elem_of_filter_bool.
    + apply Forall_cons in H1 as [Hlt H1].
      destruct (IH f1 Heq H1) as (Hx & l1 & l2 & -> & G1 & G2).
      split; [done|]. exists (y' :: l1), l2. split; [done|]. by rewrite Forall_cons.
  - destruct (IH f1 Heq H1) as (Hx & l1 & l2 & -> & G1 & G2).
    split; [done|]. exists (y :: l1), l2. split; [done|]. rewrite Forall_cons.
    split; [split; [congruence|done]|done].
Qed.

Lemma first_least_fmap {A B} (key : B -> Z) (h : A -> B) c l :
  first_least key c (h <$> l) ->
  exists x, c = h x /\ first_least (fun x => key (h x)) x l.
Proof.
  intros (f1 & f2 & Heq & H1 & H2).
  apply fmap_app_inv in Heq as (l1 & l' & -> & Heq & ->).
  symmetry in Heq. apply fmap_cons_inv in Heq as (x & l2 & -> & -> & ->).
  exists x. split; [done|]. exists l1, l2. split; [done|].
  by rewrite !Forall_fmap in H1, H2.
Qed.

Lemma meets_capabilities_true caps p :
  Resolver.meets_capabilities caps p = true <->
    min_context caps <= max_context (pc_capabilities p)
    /\ (supports_streaming caps = true -> cap_streaming (pc_capabilities p) = true)
    /\ (req_tool_use caps = true -> cap_tool_use (pc_capabilities p) = true)
    /\ (req_vision caps = true -> cap_vision (pc_capabilities p) = true)
    /\ tier_rank (min_quality_tier caps) <= tier_rank (max_quality_tier (pc_capabilities p)).
Proof.
  unfold Resolver.meets_capabilities, tier_lt.
  destruct (_ <? min_context _) eqn:Hc; split_bools; [split; [done|lia]|].
  destruct (tier_rank (max_quality_tier _) <? _) eqn:Ht; split_bools;
    destruct (supports_streaming _), (req_tool_use _), (req_vision _),
      (cap_streaming _), (cap_tool_use _), (cap_vision _); simpl; naive_solver lia.
Qed.

Lemma eligible_filters {Uuid Value} (req : AdapterRequest Uuid Value) available last p :
  (Resolver.different_provider (require_different_provider req) last p
   && bool_decide (pc_id p ∈ available)
   && Resolver.meets_capabilities (capabilities req) p
   && Resolver.zone_allows (req_security_zone req) (zone_allowlist p)) = true
  <-> eligible req available last p.
Proof.
  rewrite !andb_true_iff, meets_capabilities_true. unfold Resolver.zone_allows.
  rewrite !bool_decide_eq_true. unfold Resolver.different_provider.
  assert ((if require_different_provider req then
             match last with
             | None => true
             | Some last => negb (bool_decide (last = pc_id p))
             end
           else true) = true
          <-> (require_different_provider req = true -> last <> Some (pc_id p))) as ->.
  { destruct (require_different_provider req); [|naive_solver].
    destruct last; [|naive_solver].
    rewrite negb_true_iff, bool_decide_eq_false. naive_solver. }
  split; [intros [[[? ?] (?&?&?&?&?)] ?]; by constructor|intros []; naive_solver].
Qed.

Lemma degradation_of_rank p :
  (0 <= fallback_rank p <= 1 -> Resolver.degradation_of p = NoDegradation)
  /\ (fallback_rank p = 2 -> Resolver.degradation_of p = Mild)
  /\ (3 <= fallback_rank p -> Resolver.degradation_of p = Significant).
Proof.
  unfold Resolver.degradation_of.
  destruct (0 <=? fallback_rank p) eqn:H1, (fallback_rank p <=? 1) eqn:H2,
    (fallback_rank p =? 2) eqn:H3; simpl; split_bools; naive_solver lia.
Qed.

Lemma filter_filter {A} (f g : A -> bool) l :
  List.filter f (List.filter g l) = List.filter (fun x => f x && g x) l.
Proof.
  induction l as [|x l IH]; [done|]. cbn [List.filter].
  destruct (g x); cbn [List.filter]; destruct (f x); simpl; by rewrite IH.
Qed.

(** C22. Provider resolution is exact. When it succeeds, the chosen provider is
    one of the configured ones, allows the request's security zone, meets
    every capability requirement, is available and, for an adversarial
    request, is not the last provider used; among the providers that do, it
    has the least fallback rank, and it is the first configured of that rank;
    the reported degradation is none up to rank 1, mild at rank 2 and
    significant beyond. It fails only when no configured provider qualifies,
    and the error names the zone and the requirements. *)
Theorem resolve_spec {Uuid Value} (req : AdapterRequest Uuid Value)
    (providers : list ProviderConfig) (available : list string) (last : option string) :
  match Resolver.resolve req providers available last with
  | Ok r =>
    let p := rp_config r in
    eligible req available last p
    /\ (exists before after, providers = before ++ p :: after
        /\ Forall (fun q => eligible req available last q ->
             fallback_rank p < fallback_rank q) before
        /\ Forall (fun q => eligible req available last q ->
             fallback_rank p <= fallback_rank q) after)
    /\ (0 <= fallback_rank p <= 1 -> rp_degradation_level r = NoDegradation)
    /\ (fallback_rank p = 2 -> rp_degradation_level r = Mild)
    /\ (3 <= fallback_rank p -> rp_degradation_level r = Significant)
  | Err e =>
    Forall (fun q => ~ eligible req available last q) providers
    /\ e = NoProviderAvailable (req_security_zone req)
             (Resolver.no_provider_reason (req_security_zone req) (capabilities req))
  end.
Proof.
  unfold Resolver.resolve. cbv zeta. rewrite !filter_filter.
  match goal with |- context [Resolver.sort_by_key ?k ?l] =>
    pose proof (head_sort_by_key k l) as Hs; destruct (head (Resolver.sort_by_key k l))
  end; simpl.
  - apply first_least_fmap in Hs as (p0 & -> & Hp). simpl in *.
    apply first_least_filter in Hp as (Hel & l1 & l2 & Heq & H1 & H2).
    split; [exact (proj1 (eligible_filters req available last p0) Hel)|].
    split; [|by apply degradation_of_rank].
    exists l1, l2. split; [done|]. split; (eapply Forall_impl; [eassumption|]); simpl;
      intros q Hq Hqe; apply Hq; by apply eligible_filters.
  - apply fmap_nil_inv in Hs. split; [|done]. apply Forall_forall. intros q Hq Hqe.
    apply eligible_filters in Hqe.
    match type of Hs with List.filter ?f _ = _ =>
      assert (q ∈ List.filter f providers) as Hin by (by apply elem_of_filter_bool)
    end.
    rewrite Hs in Hin. by apply elem_of_nil in Hin.
Qed.

(** * Properties of the circuit breaker *)

(** What happens to a breaker: the outcome of a request is recorded, or a
    caller asks whether a request may go through. *)
Inductive cb_op := Succeeded | Failed | Asked.

(** A history of operations, each at its time, with the answers given. *)
Fixpoint cb_run `{BuildProfile} (ops : list (Instant * cb_op)) (cb : CircuitBreaker)
    : outcome (list bool * CircuitBreaker) :=
  match ops with
  | [] => Ret ([], cb)
  | (now, Succeeded) :: ops => cb ← CircuitBreaker.record_success now cb; cb_run ops cb
  | (now, Failed) :: ops => cb ← CircuitBreaker.record_failure now cb; cb_run ops cb
  | (now, Asked) :: ops =>
    let '(b, cb) := CircuitBreaker.allows_request now cb in
    '(answers, cb) ← cb_run ops cb; Ret (b :: answers, cb)
  end.

(** The history that records these outcomes, [true] for a success. *)
Definition outcomes (l : list (Instant * bool)) : list (Instant * cb_op) :=
  (fun x => (x.1, if x.2 : bool then Succeeded else Failed)) <$> l.

(** [l] contains [n] failures in a row. *)
Definition failure_run (n : nat) (l : list bool) : Prop :=
  exists l1 l2, l = l1 ++ replicate n false ++ l2.

Lemma failure_run_cons_false n l : failure_run n l -> failure_run n (false :: l).
Proof. intros (l1 & l2 & ->). by exists (false :: l1), l2. Qed.

Lemma failure_run_skip n f l :
  (f < n)%nat -> failure_run n (replicate f false ++ true :: l) <-> failure_run n l.
Proof.
  intros Hf. split.
  - intros (l1 & l2 & Heq). revert f Hf l1 Heq.
    induction f as [|f IH]; intros Hf l1 Heq.
    + destruct l1 as [|b l1]; [destruct n; [lia|discriminate]|].
      injection Heq as _ ->. by exists l1, l2.
    + destruct l1 as [|b l1].
      * exfalso. clear IH. change ([] ++ ?l) with l in Heq.
        assert ((replicate (S f) false ++ true :: l) !! S f
                  = (replicate n false ++ l2) !! S f) as E by (by rewrite Heq).
        rewrite lookup_app_r in E by (rewrite length_replicate; lia).
        rewrite length_replicate, Nat.sub_diag in E.
        rewrite lookup_app_l in E by (rewrite length_replicate; lia).
        rewrite lookup_replicate_2 in E by lia. discriminate.
      * injection Heq as _ Heq. apply (IH ltac:(lia) l1 Heq).
  - intros (l1 & l2 & ->). exists (replicate f false ++ true :: l1), l2.
    by rewrite <- !app_assoc.
Qed.

Lemma failure_run_short n f : (f < n)%nat -> ~ failure_run n (replicate f false).
Proof.
  intros Hf (l1 & l2 & Heq). apply (f_equal length) in Heq.
  rewrite !length_app, !length_replicate in Heq. lia.
Qed.

Section Breaker.
Context `{BuildProfile}.
Implicit Types cb : CircuitBreaker.

(** An open breaker stays open whatever is recorded. *)
Lemma open_records l cb :
  cb_state cb = Open -> 0 <= consecutive_failures cb ->
  consecutive_failures cb + Z.of_nat (length l) < 2 ^ 32 ->
  exists cb', cb_run (outcomes l) cb = Ret ([], cb') /\ cb_state cb' = Open.
Proof.
  revert cb. induction l as [|[t []] l IH]; intros cb Ho Hc Hl; simpl in *.
  - by exists cb.
  - unfold CircuitBreaker.record_success. simpl. rewrite Ho.
    change (exists cb', cb_run (outcomes l)
      (CircuitBreaker.set_counts 0 (consecutive_successes cb) cb) = Ret ([], cb')
      /\ cb_state cb' = Open).
    apply IH; simpl; [done|lia..].
  - unfold CircuitBreaker.record_failure, add_u. simpl. arith_step lia. simpl. rewrite Ho.
    match goal with |- context [Ret ?c ≫= _] => change (exists cb',
      cb_run (outcomes l) c = Ret ([], cb') /\ cb_state cb' = Open) end.
    apply IH; simpl; [done|lia..].
Qed.

(** The threshold in force: a threshold of 0 acts as 1. *)
Definition threshold cb : nat := Z.to_nat (Z.max 1 (failure_threshold (cb_config cb))).

Lemma closed_records l cb :
  cb_state cb = Closed -> in_u 32 (failure_threshold (cb_config cb)) ->
  0 <= consecutive_failures cb -> (Z.to_nat (consecutive_failures cb) < threshold cb)%nat ->
  consecutive_failures cb + Z.of_nat (length l) < 2 ^ 32 ->
  exists cb', cb_run (outcomes l) cb = Ret ([], cb') /\
    (cb_state cb' = Open /\
       failure_run (threshold cb) (replicate (Z.to_nat (consecutive_failures cb)) false ++ l.*2)
     \/ cb_state cb' = Closed /\
       ~ failure_run (threshold cb)
           (replicate (Z.to_nat (consecutive_failures cb)) false ++ l.*2)).
Proof.
  revert cb. induction l as [|[t []] l IH]; intros cb Hs Hth Hc Hlt Hl; simpl in *.
  - exists cb. split; [done|]. right. split; [done|]. rewrite app_nil_r.
    by apply failure_run_short.
  - unfold CircuitBreaker.record_success. simpl. rewrite Hs. rewrite bind_Ret.
    change (list_fmap _ _ snd l) with (l.*2).
    setoid_rewrite (failure_run_skip _ _ (l.*2) Hlt). apply (IH (CircuitBreaker.set_counts 0 _ cb)); simpl;
      [done|done|lia|unfold threshold in *; simpl in *; lia|lia].
  - unfold CircuitBreaker.record_failure, add_u. simpl. arith_step lia. simpl. rewrite Hs.
    change (list_fmap _ _ snd l) with (l.*2).
    replace (replicate (Z.to_nat (consecutive_failures cb)) false ++ false :: l.*2)
      with (replicate (Z.to_nat (consecutive_failures cb + 1)) false ++ l.*2)
      by (by rewrite Z2Nat.inj_add, replicate_add, <- app_assoc by lia).
    destruct (failure_threshold (cb_config cb) <=? consecutive_failures cb + 1) eqn:Hop;
      split_bools; rewrite bind_Ret.
    + edestruct (open_records l) as (cb' & -> & Ho); [..|exists cb'; split; [done|]].
      * done.
      * simpl. lia.
      * simpl. lia.
      * left. split; [done|]. exists [], l.*2.
        replace (threshold cb) with (Z.to_nat (consecutive_failures cb + 1))
          by (unfold threshold in *; lia). done.
    + apply (IH (CircuitBreaker.set_counts (consecutive_failures cb + 1) 0 cb)); simpl;
        [done|done|lia|unfold threshold in *; simpl in *; lia|lia].
Qed.

(** Before its window has passed an open breaker refuses, whatever happens. *)
Lemma open_refuses ops cb :
  cb_state cb = Open -> 0 <= consecutive_failures cb ->
  0 < open_duration (cb_config cb) ->
  Forall (fun op => op.1 < last_state_change cb + open_duration (cb_config cb)) ops ->
  consecutive_failures cb + Z.of_nat (length ops) < 2 ^ 32 ->
  exists cb',
    cb_run ops cb = Ret (omap (fun op => match op.2 with Asked => Some false | _ => None end)
                           ops, cb')
    /\ cb_state cb' = Open /\ cb_config cb' = cb_config cb
    /\ last_state_change cb' = last_state_change cb.
Proof.
  revert cb. induction ops as [|[t op] ops IH]; intros cb Ho Hc Hd Hops Hl;
    [by exists cb|].
  apply Forall_cons in Hops as [Ht Hops]. simpl in Ht. destruct op; cbn [cb_run].
  - unfold CircuitBreaker.record_success. simpl. rewrite Ho, bind_Ret.
    simpl in Hl. by apply (IH (CircuitBreaker.set_counts 0 (consecutive_successes cb) cb));
      simpl; [..|lia].
  - unfold CircuitBreaker.record_failure, add_u. simpl in *. arith_step lia. simpl.
    rewrite Ho, bind_Ret.
    apply (IH (CircuitBreaker.set_counts (consecutive_failures cb + 1) 0 cb)); simpl;
      [done|lia|done|done|lia].
  - assert (CircuitBreaker.allows_request t cb = (false, cb)) as ->.
    { unfold CircuitBreaker.allows_request, CircuitBreaker.state, elapsed, saturating_sub.
      rewrite (proj2 (Z.leb_gt _ _)) by lia. by rewrite andb_false_r, Ho. }
    simpl in Hl. destruct (IH cb) as (cb' & -> & ?); [done|done|done|done|lia|].
    by exists cb'.
Qed.

(** The number of probes in force: 0 acts as 1. *)
Definition probes cb : nat := Z.to_nat (Z.max 1 (probe_success_count (cb_config cb))).

(** Successful probes of a half open breaker. *)
Lemma half_open_probes ts cb :
  cb_state cb = HalfOpen -> consecutive_failures cb = 0 -> 0 <= consecutive_successes cb ->
  in_u 32 (probe_success_count (cb_config cb)) ->
  (Z.to_nat (consecutive_successes cb) < probes cb)%nat ->
  (Z.to_nat (consecutive_successes cb) + length ts <= probes cb)%nat ->
  exists cb', cb_run (outcomes ((., true) <$> ts)) cb = Ret ([], cb')
    /\ cb_config cb' = cb_config cb /\ consecutive_failures cb' = 0
    /\ cb_state cb' =
         if decide (Z.to_nat (consecutive_successes cb) + length ts = probes cb)%nat
         then Closed else HalfOpen.
Proof.
  unfold probes, in_u. revert cb.
  induction ts as [|t ts IH]; intros cb Hs Hf Hc Hp Hlt Hle; simpl in *.
  - exists cb. rewrite decide_False by lia. done.
  - unfold CircuitBreaker.record_success. simpl. rewrite Hs. unfold add_u. arith_step lia.
    simpl. destruct (probe_success_count (cb_config cb) <=? consecutive_successes cb + 1)
      eqn:Hcl; split_bools; rewrite bind_Ret.
    + assert (ts = []) as -> by (destruct ts; [done|simpl in *; lia]).
      eexists. split; [done|]. simpl. rewrite decide_True by lia. done.
    + destruct (IH (CircuitBreaker.set_counts 0 (consecutive_successes cb + 1) cb))
        as (cb' & Hrun & Hcfg & Hf' & Hst); simpl in *; [done|done|lia|lia|lia|lia|].
      exists cb'. split; [done|]. split; [done|]. split; [done|]. rewrite Hst.
      apply decide_ext. lia.
Qed.

Lemma cb_run_app ops1 ops2 cb :
  cb_run (ops1 ++ ops2) cb =
    ('(a1, cb1) ← cb_run ops1 cb; '(a2, cb2) ← cb_run ops2 cb1; Ret (a1 ++ a2, cb2)).
Proof.
  revert cb. induction ops1 as [|[t op] ops1 IH]; intros cb; cbn [app cb_run].
  - rewrite bind_Ret. by destruct (cb_run ops2 cb) as [[]|].
  - destruct op; [destruct (CircuitBreaker.record_success t cb); [apply IH|done]
                 |destruct (CircuitBreaker.record_failure t cb); [apply IH|done]|].
    destruct (CircuitBreaker.allows_request t cb) as [b cb1]. rewrite IH.
    destruct (cb_run ops1 cb1) as [[a1 cb2]|]; [|done]. rewrite !bind_Ret.
    by destruct (cb_run ops2 cb2) as [[]|].
Qed.

End Breaker.

(** A breaker trips exactly on a run of failures. From a new breaker, and
    for every history of recorded outcomes (at any times, shorter than 2^32),
    the operations succeed and the breaker is open exactly when the history
    contains as many failures in a row as the threshold (a threshold of 0
    acting as 1); otherwise it is still closed. *)
Theorem breaker_opens_exactly `{BuildProfile} (t0 : Instant) (id : string)
    (config : CircuitBreakerConfig) (l : list (Instant * bool)) :
  in_u 32 (failure_threshold config) -> Z.of_nat (length l) < 2 ^ 32 ->
  exists cb, cb_run (outcomes l) (CircuitBreaker.new t0 id config) = Ret ([], cb)
    /\ (cb_state cb = Open
         <-> failure_run (Z.to_nat (Z.max 1 (failure_threshold config))) l.*2)
    /\ (cb_state cb <> Open -> cb_state cb = Closed).
Proof.
  intros Hth Hl.
  destruct (closed_records l (CircuitBreaker.new t0 id config)) as (cb & Hrun & Hcb);
    unfold threshold in *; simpl in *; [done|done|lia|lia|lia|].
  exists cb. split; [done|].
  destruct Hcb as [[-> ?]|[-> ?]]; split; [done|done| |done]. by split.
Qed.

Lemma breaker_opens_exactly_witness :
  exists cb,
    cb_run (H := debug_profile)
      (outcomes [(1, false); (2, true); (3, false); (4, false); (5, false)])
      (CircuitBreaker.new 0 "anthropic" default_cb_config) = Ret ([], cb)
    /\ cb_state cb = Open.
Proof.
  edestruct (@breaker_opens_exactly debug_profile 0 "anthropic"%string default_cb_config
    [(1, false); (2, true); (3, false); (4, false); (5, false)]) as (cb & Hrun & Hopen & _).
  - by split.
  - by vm_compute.
  - exists cb. split; [exact Hrun|]. apply Hopen. by exists [false; true], [].
Defined.

(** C9. Recovery of an open breaker. Until its open window has passed it
    refuses every request, whatever is recorded meanwhile; the first request
    asked for after the window is let through and the breaker is half open.
    Fewer successful probes than configured keep it half open, and then one
    failure opens it for a full window from that moment; the configured number
    of successful probes (0 acting as 1) closes it. *)
Theorem breaker_recovery `{BuildProfile} (cb : CircuitBreaker)
    (ops : list (Instant * cb_op)) (now : Instant) :
  let d := open_duration (cb_config cb) in
  let probes := Z.to_nat (Z.max 1 (probe_success_count (cb_config cb))) in
  cb_state cb = Open -> 0 <= consecutive_failures cb -> 0 < d ->
  in_u 32 (probe_success_count (cb_config cb)) ->
  consecutive_failures cb + Z.of_nat (length ops) < 2 ^ 32 ->
  Forall (fun op => op.1 < last_state_change cb + d) ops ->
  last_state_change cb + d <= now ->
  exists cb',
    cb_run (ops ++ [(now, Asked)]) cb =
      Ret (omap (fun op => match op.2 with Asked => Some false | _ => None end) ops
             ++ [true], cb')
    /\ cb_state cb' = HalfOpen
    /\ (forall ts, (length ts < probes)%nat ->
          exists c, cb_run (outcomes ((., true) <$> ts)) cb' = Ret ([], c)
            /\ cb_state c = HalfOpen
            /\ forall t, exists c', cb_run [(t, Failed)] c = Ret ([], c')
                /\ cb_state c' = Open /\ last_state_change c' = t)
    /\ (forall ts, length ts = probes ->
          exists c, cb_run (outcomes ((., true) <$> ts)) cb' = Ret ([], c)
            /\ cb_state c = Closed).
Proof.
  intros d n Ho Hc Hd Hp Hl Hops Hnow.
  destruct (open_refuses ops cb) as (cb1 & Hrun & Ho1 & Hcfg & Hlast); [done..|].
  exists (CircuitBreaker.transition now HalfOpen cb1).
  rewrite cb_run_app, Hrun, bind_Ret. cbn [cb_run].
  assert (CircuitBreaker.allows_request now cb1
            = (true, CircuitBreaker.transition now HalfOpen cb1)) as ->.
  { unfold CircuitBreaker.allows_request, CircuitBreaker.state, elapsed, saturating_sub.
    rewrite Hcfg, Hlast, (proj2 (Z.leb_le _ _)) by (unfold d in *; lia).
    by rewrite (bool_decide_eq_true_2 _ Ho1). }
  split; [done|]. split; [done|].
  assert (probes (CircuitBreaker.transition now HalfOpen cb1) = n) as Hn
    by (unfold probes, n; simpl; by rewrite Hcfg).
  split; intros ts Hts.
  - destruct (half_open_probes ts (CircuitBreaker.transition now HalfOpen cb1))
      as (c & Hc1 & _ & Hf & Hst); rewrite ?Hn in *; simpl in *;
      [done|done|done|by rewrite Hcfg|lia|lia|].
    rewrite decide_False in Hst by lia. exists c. split; [done|]. split; [done|].
    intros t. exists (CircuitBreaker.transition t Open
      (CircuitBreaker.set_counts 1 0 c)). simpl.
    unfold CircuitBreaker.record_failure, add_u. simpl. rewrite Hf, Hst. done.
  - destruct (half_open_probes ts (CircuitBreaker.transition now HalfOpen cb1))
      as (c & Hc1 & _ & Hf & Hst); rewrite ?Hn in *; simpl in *;
      [done|done|done|by rewrite Hcfg|lia|lia|].
    rewrite decide_True in Hst by lia. by exists c.
Qed.

Lemma breaker_recovery_witness :
  exists cb',
    cb_run (H := debug_profile)
      ([(1000, Failed); (2000, Asked)] ++ [(from_secs 31, Asked)])
      (CircuitBreaker.transition 0 Open (CircuitBreaker.new 0 "anthropic" default_cb_config))
      = Ret ([false; true], cb')
    /\ cb_state cb' = HalfOpen.
Proof.
  destruct (@breaker_recovery debug_profile
    (CircuitBreaker.transition 0 Open (CircuitBreaker.new 0 "anthropic" default_cb_config))
    [(1000, Failed); (2000, Asked)] (from_secs 31))
    as (cb' & Hrun & Hst & _).
  - done.
  - done.
  - done.
  - by split.
  - done.
  - by repeat constructor.
  - done.
  - exists cb'. split; [exact Hrun|exact Hst].
Defined.

(** * Properties of the registry *)

Lemma state_idemp now cb :
  CircuitBreaker.state now (CircuitBreaker.state now cb).2 = CircuitBreaker.state now cb.
Proof.
  unfold CircuitBreaker.state. cbv zeta.
  destruct (bool_decide (cb_state cb = Open) && _) eqn:E; cbn [snd fst]; [done|by rewrite E].
Qed.

Lemma allows_request_state now cb :
  CircuitBreaker.allows_request now cb
    = (negb (bool_decide ((CircuitBreaker.state now cb).1 = Open)),
       (CircuitBreaker.state now cb).2).
Proof.
  unfold CircuitBreaker.allows_request. destruct (CircuitBreaker.state now cb) as [[] c];
    reflexivity.
Qed.

(** The breaker of [id] is open at [now]. *)
Definition reports_open (now : Instant) (m : gmap string CircuitBreaker) (id : string)
    : Prop :=
  exists cb, m !! id = Some cb /\ (CircuitBreaker.state now cb).1 = Open.

Section Report.
Context `{HashOrder} (now : Instant) (m : gmap string CircuitBreaker).
Let open_entry (p : ProviderHealth) : bool := bool_decide (ph_circuit_state p = Open).

Lemma elem_of_report p :
  p ∈ ProviderRegistry.report now m <-> exists id cb, m !! id = Some cb
    /\ p = mkProviderHealth id (CircuitBreaker.state now cb).1 0.
Proof.
  unfold ProviderRegistry.report. rewrite list_elem_of_fmap. split.
  - intros ([id cb] & -> & Hin). apply elem_of_hm_iter in Hin. by exists id, cb.
  - intros (id & cb & Hid & ->). exists (id, cb). by rewrite elem_of_hm_iter.
Qed.

Lemma report_ids :
  (ph_provider_id <$> ProviderRegistry.report now m) ≡ₚ (map_to_list m).*1.
Proof.
  unfold ProviderRegistry.report. rewrite <- list_fmap_compose.
  change (ph_provider_id ∘ _) with (@fst string CircuitBreaker). by rewrite hm_iter_perm.
Qed.

Lemma all_open_true :
  forallb open_entry (ProviderRegistry.report now m) = true
  <-> forall id, is_Some (m !! id) -> reports_open now m id.
Proof.
  rewrite forallb_forall. setoid_rewrite <- list_elem_of_In. setoid_rewrite elem_of_report.
  unfold open_entry. setoid_rewrite bool_decide_eq_true. split.
  - intros Hall id [cb Hid]. exists cb. split; [done|].
    apply (Hall (mkProviderHealth id (CircuitBreaker.state now cb).1 0)). by exists id, cb.
  - intros Hall p (id & cb & Hid & ->).
    destruct (Hall id) as (cb' & Hid' & Ho); [by exists cb|]. by simplify_eq/=.
Qed.

Lemma any_open_true :
  existsb open_entry (ProviderRegistry.report now m) = true
  <-> exists id, reports_open now m id.
Proof.
  rewrite existsb_exists. setoid_rewrite <- list_elem_of_In. setoid_rewrite elem_of_report.
  unfold open_entry. setoid_rewrite bool_decide_eq_true. split.
  - intros (p & (id & cb & Hid & ->) & Ho). by exists id, cb.
  - intros (id & cb & Hid & Ho). exists (mkProviderHealth id (CircuitBreaker.state now cb).1 0).
    split; [by exists id, cb|done].
Qed.

(** The three statuses. *)
Lemma all_open_false_iff :
  (m <> ∅ /\ forall id, ~ reports_open now m id)
  <-> forallb open_entry (ProviderRegistry.report now m) = false
      /\ existsb open_entry (ProviderRegistry.report now m) = false.
Proof.
  rewrite <- !not_true_iff_false, all_open_true, any_open_true. split.
  - intros [Hne Hno]. split; [|naive_solver].
    intros Hall. apply Hne, map_eq. intros id.
    rewrite lookup_empty. apply eq_None_not_Some. intros Hid. by apply (Hno id), Hall.
  - intros [Hall Hno]. split; [|naive_solver].
    intros ->. apply Hall. intros id [cb Hid]. by rewrite lookup_empty in Hid.
Qed.

End Report.

(** The health report of the registry is exact. Every provider with a
    breaker is reported once, with the state its breaker has at that moment;
    the overall status is all-down exactly when every breaker is open (so also
    for an empty registry), healthy exactly when there is a breaker and none
    is open, and degraded otherwise; and asking right after the report whether
    a provider is available agrees with the state reported for it. *)
Theorem adapter_health_exact `{HashOrder} (now : Instant) (r : ProviderRegistry) :
  let '(h, r') := ProviderRegistry.health now r in
  (ph_provider_id <$> ah_providers h) ≡ₚ (map_to_list (circuit_breakers r)).*1
  /\ (forall p, p ∈ ah_providers h -> exists cb,
        circuit_breakers r !! ph_provider_id p = Some cb
        /\ ph_circuit_state p = (CircuitBreaker.state now cb).1)
  /\ (ah_status h = AllProvidersDown <->
        forall id, is_Some (circuit_breakers r !! id) -> reports_open now (circuit_breakers r) id)
  /\ (ah_status h = Healthy <->
        circuit_breakers r <> ∅ /\ forall id, ~ reports_open now (circuit_breakers r) id)
  /\ (forall p, p ∈ ah_providers h ->
        (ProviderRegistry.is_available now (ph_provider_id p) r').1
          = negb (bool_decide (ph_circuit_state p = Open))).
Proof.
  unfold ProviderRegistry.health. cbv zeta. cbn [ah_providers ah_status].
  split; [apply report_ids|]. split; [|split; [|split]].
  - intros p (id & cb & Hid & ->)%elem_of_report. by exists cb.
  - rewrite <- all_open_true. by repeat case_match.
  - rewrite all_open_false_iff. repeat case_match; naive_solver.
  - intros p (id & cb & Hid & ->)%elem_of_report. unfold ProviderRegistry.is_available.
    unfold hm_update_all. cbn [circuit_breakers ph_provider_id].
    rewrite lookup_fmap, Hid. cbn [fmap option_fmap option_map ph_circuit_state].
    by rewrite allows_request_state, state_idemp.
Qed.
