(* ===== verification/Testing.v ===== *)
(** Unit tests as programs: what the test modules of src/src/ use of Rust.

    A unit test is an [outcome unit]: it panics when an assertion fails or when
    it unwraps an error. The files TestDag.v, TestSupervisor.v, TestAdapter.v,
    TestGovernor.v, TestHardware.v and TestHandler.v hold the unit tests of the
    repository, written on the definitions of this development; running them says that the model does what
    the authors of the code expect of the code. [suite] runs the tests of a
    module under several iteration orders of the hash maps and both build
    profiles. *)

From S2P Require Import Prelude.

(** [assert!], [assert_eq!] and [assert_ne!]. *)
Definition assert (b : bool) : outcome unit := if b then Ret tt else Panic.

Definition assert_eq {A} `{EqDecision A} (x y : A) : outcome unit :=
  assert (bool_decide (x = y)).

Definition assert_ne {A} `{EqDecision A} (x y : A) : outcome unit :=
  assert (negb (bool_decide (x = y))).

(** [Result::unwrap], [Result::unwrap_err] and [Result::is_err]. *)
Definition unwrap_ok {E A} (r : result E A) : outcome A :=
  match r with Ok a => Ret a | Err _ => Panic end.

Definition unwrap_err {E A} (r : result E A) : outcome E :=
  match r with Ok _ => Panic | Err e => Ret e end.

Definition is_err {E A} (r : result E A) : bool := negb (is_ok r).

(** [unwrap] on the answer of an operation that also returns the new state. *)
Definition done_ok {E A S} (p : result E A * S) : outcome S :=
  match p with (Ok _, s) => Ret s | (Err _, _) => Panic end.

Definition is_some {A} (o : option A) : bool := if o then true else false.
Definition is_none {A} (o : option A) : bool := negb (is_some o).

(** [str::contains]. *)
Definition str_contains (s needle : string) : bool :=
  is_some (String.index 0 needle s).

(** [Iterator::position]. *)
Definition position {A} (f : A -> bool) (l : list A) : option nat :=
  fst <$> list_find (fun x => Is_true (f x)) l.

(** * Running tests *)

Definition passes (t : outcome unit) : bool := match t with Ret _ => true | Panic => false end.

(** The settings in which the tests are run. *)
Definition settings : list (HashOrder * BuildProfile) :=
  [(std_order, debug_profile); (std_order, release_profile);
   (rev_order, debug_profile); (rev_order, release_profile)].

Definition suite (tests : HashOrder -> BuildProfile -> list (outcome unit)) : bool :=
  forallb (fun s => forallb passes (tests s.1 s.2)) settings.

Lemma suite_passes tests o p t :
  suite tests = true -> (o, p) ∈ settings -> t ∈ tests o p -> t = Ret tt.
Proof.
  unfold suite. rewrite forallb_forall. intros Hs Hin Ht.
  specialize (Hs (o, p)). rewrite forallb_forall in Hs.
  specialize (Hs (proj1 (list_elem_of_In _ _) Hin) t (proj1 (list_elem_of_In _ _) Ht)).
  by destruct t as [[]|].
Qed.
