(* ===== verification/TestDag.v ===== *)
(** The unit tests of src/src/dag/ (graph.rs, executor.rs, runtime.rs,
    persistence.rs), except the round trip of the derived serializer. *)

From S2P Require Import Prelude F64 Graph TopoSort Executor Persistence Rpc Testing.

#[local] Open Scope string_scope.

Section Tests.
Context {O : HashOrder} {P : BuildProfile}.

(** [g.add_node(make_node(id, deps)).unwrap()]. *)
Definition add (g : DagGraph) (id : string) (deps : list string) : outcome DagGraph :=
  done_ok (DagGraph.add_node g (make_node id deps)).

(** [g.get_node_mut(id).unwrap().status = status]. *)
Definition mark (g : DagGraph) (id : string) (status : NodeStatus) : outcome DagGraph :=
  _ ← unwrap (DagGraph.get_node g id);
  Ret (DagGraph.get_node_mut g id (set_status status)).

(** [g.get_node(id).unwrap().status]. *)
Definition status_in (g : DagGraph) (id : string) : outcome NodeStatus :=
  n ← unwrap (DagGraph.get_node g id); Ret (n_status n).

(** The ids of the ready nodes, in the order of the iteration. *)
Definition ready_ids (g : DagGraph) : list string := n_id <$> DagGraph.ready_nodes g.

Definition is_cycle_detected (e : DagError) : bool :=
  match e with CycleDetected _ => true | _ => false end.
Definition is_has_dependents (e : DagError) : bool :=
  match e with HasDependents _ => true | _ => false end.
Definition is_duplicate_node (e : DagError) : bool :=
  match e with DuplicateNode _ => true | _ => false end.
Definition is_node_in_progress (e : DagError) : bool :=
  match e with NodeInProgress _ => true | _ => false end.

(** * dag/graph.rs *)

Definition test_add_and_retrieve_node : outcome unit :=
  g ← add DagGraph.new "a" [];
  n ← unwrap (DagGraph.get_node g "a");
  assert_eq (n_id n) "a";;
  assert_eq (n_status n) Pending.

Definition test_ready_nodes_no_deps : outcome unit :=
  g ← add DagGraph.new "a" [];
  assert_eq (ready_ids g) ["a"].

Definition test_ready_nodes_with_deps : outcome unit :=
  g ← add DagGraph.new "a" [];
  g ← add g "b" ["a"];
  assert_eq (ready_ids g) ["a"];;
  g ← mark g "a" Done;
  assert_eq (ready_ids g) ["b"].

Definition test_cycle_detection : outcome unit :=
  g ← add DagGraph.new "a" ["b"];
  let result := (DagGraph.add_node g (make_node "b" ["a"])).1 in
  assert (is_err result);;
  e ← unwrap_err result;
  assert (is_cycle_detected e).

Definition test_remove_node : outcome unit :=
  g ← add DagGraph.new "a" [];
  '(r, g) ← DagGraph.remove_node g "a";
  removed ← unwrap_ok r;
  assert_eq (n_id removed) "a";;
  assert_eq (DagGraph.node_count g) 0%nat.

Definition test_remove_node_with_dependents_fails : outcome unit :=
  g ← add DagGraph.new "a" [];
  g ← add g "b" ["a"];
  '(result, _) ← DagGraph.remove_node g "a";
  assert (is_err result);;
  e ← unwrap_err result;
  assert (is_has_dependents e).

Definition test_is_complete : outcome unit :=
  g ← add DagGraph.new "a" [];
  g ← add g "b" ["a"];
  assert (negb (DagGraph.is_complete g));;
  g ← mark g "a" Done;
  assert (negb (DagGraph.is_complete g));;
  g ← mark g "b" Done;
  assert (DagGraph.is_complete g).

Definition test_topological_sort : outcome unit :=
  g ← add DagGraph.new "a" [];
  g ← add g "b" ["a"];
  g ← add g "c" ["b"];
  r ← topological_sort g;
  order ← unwrap_ok r;
  let pos id := unwrap (position (fun x => bool_decide (x = id)) order) in
  a ← pos "a"; b ← pos "b"; c ← pos "c";
  assert (a <? b)%nat;;
  assert (b <? c)%nat.

Definition test_duplicate_node_id : outcome unit :=
  g ← add DagGraph.new "a" [];
  let result := (DagGraph.add_node g (make_node "a" [])).1 in
  assert (is_err result);;
  e ← unwrap_err result;
  assert (is_duplicate_node e).

Definition test_ready_nodes_skips_failed : outcome unit :=
  g ← add DagGraph.new "a" [];
  g ← add g "b" ["a"];
  g ← mark g "a" Failed;
  assert_eq (ready_ids g) [].

(** * dag/executor.rs *)

Definition mock_executor (delay_ms : Z) : TaskExecutor := fun node =>
  Ok (mkNodeResult true ("Completed " +:+ n_id node) None
        (fdiv (of_int delay_ms) (of_int 1000))).

Definition failing_executor (fail_id : string) : TaskExecutor := fun node =>
  if bool_decide (n_id node = fail_id) then
    Ok (mkNodeResult false "" (Some ("Node " +:+ n_id node +:+ " failed")) (lit 1 100))
  else Ok (mkNodeResult true ("Completed " +:+ n_id node) None (lit 1 100)).

(** [executor.run], with the same tasks and order at every tick; ten ticks are
    enough for these graphs. *)
Definition run_all (ex : DagExecutor) (task_fn : TaskExecutor) (g : DagGraph)
    : outcome (result string unit * DagGraph) :=
  unwrap (Executor.run 10 (fun _ => O) (fun _ => task_fn) 0 ex g).

Definition test_execute_tick_dispatches_ready : outcome unit :=
  g ← add DagGraph.new "a" [];
  g ← add g "b" [];
  let '(results, g) := Executor.execute_tick (Executor.new 4) (mock_executor 10) g in
  assert_eq (length results) 2%nat;;
  a ← status_in g "a"; assert_eq a Done;;
  b ← status_in g "b"; assert_eq b Done.

Definition test_execute_tick_respects_max_parallel : outcome unit :=
  g ← add DagGraph.new "a" [];
  g ← add g "b" [];
  g ← add g "c" [];
  let '(results, g) := Executor.execute_tick (Executor.new 1) (mock_executor 10) g in
  assert_eq (length results) 1%nat;;
  assert_eq (DagGraph.done_count g) 1%nat.

Definition test_execute_tick_respects_dependencies : outcome unit :=
  g ← add DagGraph.new "a" [];
  g ← add g "b" ["a"];
  let '(results, g) := Executor.execute_tick (Executor.new 4) (mock_executor 10) g in
  assert_eq (er_node_id <$> results) ["a"];;
  let '(results, g) := Executor.execute_tick (Executor.new 4) (mock_executor 10) g in
  assert_eq (er_node_id <$> results) ["b"].

Definition test_run_completes_dag : outcome unit :=
  g ← add DagGraph.new "a" [];
  g ← add g "b" ["a"];
  g ← add g "c" ["a"];
  g ← add g "d" ["b"; "c"];
  '(result, g) ← run_all (Executor.new 4) (mock_executor 10) g;
  assert (is_ok result);;
  assert (DagGraph.is_complete g);;
  assert_eq (DagGraph.done_count g) 4%nat.

Definition test_run_detects_failure : outcome unit :=
  g ← add DagGraph.new "a" [];
  g ← add g "b" ["a"];
  '(result, g) ← run_all (Executor.new 4) (failing_executor "a") g;
  assert (is_err result);;
  err ← unwrap_err result;
  assert (str_contains err "failed").

(** * dag/runtime.rs *)

Definition test_add_node_runtime : outcome unit :=
  g ← add DagGraph.new "a" [];
  g ← add g "b" ["a"];
  g ← done_ok (RuntimeDag.add_node g (make_node "c" []));
  assert_eq (DagGraph.node_count g) 3%nat;;
  assert (bool_decide ("c" ∈ ready_ids g)).

Definition test_remove_pending_node : outcome unit :=
  g ← add DagGraph.new "a" [];
  g ← add g "b" [];
  '(r, g) ← RuntimeDag.remove_node g "b";
  removed ← unwrap_ok r;
  assert_eq (n_id removed) "b";;
  assert_eq (DagGraph.node_count g) 1%nat;;
  assert (is_none (DagGraph.get_node g "b")).

Definition test_remove_in_progress_fails : outcome unit :=
  g ← add DagGraph.new "a" [];
  g ← mark g "a" InProgress;
  '(result, _) ← RuntimeDag.remove_node g "a";
  assert (is_err result);;
  e ← unwrap_err result;
  assert (is_node_in_progress e).

Definition test_update_dependencies : outcome unit :=
  g ← add DagGraph.new "a" [];
  g ← add g "b" [];
  g ← add g "c" ["a"];
  g ← done_ok (RuntimeDag.update_dependencies g "c" ["b"]);
  node_c ← unwrap (DagGraph.get_node g "c");
  assert_eq (n_depends_on node_c) ["b"];;
  g ← mark g "b" Done;
  assert (bool_decide ("c" ∈ ready_ids g)).

Definition test_update_dependencies_cycle_fails : outcome unit :=
  g ← add DagGraph.new "a" [];
  g ← add g "b" ["a"];
  let '(result, g) := RuntimeDag.update_dependencies g "a" ["b"] in
  assert (is_err result);;
  e ← unwrap_err result;
  assert (is_cycle_detected e);;
  node_a ← unwrap (DagGraph.get_node g "a");
  assert_eq (n_depends_on node_a) [].

Definition test_stats : outcome unit :=
  g ← add DagGraph.new "a" [];
  g ← add g "b" [];
  g ← add g "c" [];
  g ← add g "d" [];
  g ← add g "e" [];
  g ← mark g "a" Done;
  g ← mark g "b" InProgress;
  g ← mark g "c" Failed;
  stats ← RuntimeDag.stats g;
  assert_eq (st_total stats) 5;;
  assert_eq (st_done stats) 1;;
  assert_eq (st_in_progress stats) 1;;
  assert_eq (st_failed stats) 1;;
  assert_eq (st_pending stats) 2.

(** * dag/persistence.rs *)

Section Persistence.
Context `{Disk} `{GraphJson} (node_from_str : string -> result string Node).

(** A fresh directory, and the paths below it. *)
Definition tmp : path := ["tmp"; "test"].
Definition tmp_fs : Fs := mkFs ∅ (list_to_set [["tmp"]; tmp]).
Definition make_persistence : DagPersistence := mkPersistence (tmp ++ [".aros"])%list.

Definition make_sample_graph : outcome DagGraph :=
  g ← add DagGraph.new "eng-1" [];
  g ← add g "eng-2" ["eng-1"];
  add g "eng-3" ["eng-1"].

Definition test_save_and_load_checkpoint : outcome unit :=
  g ← make_sample_graph;
  fs ← done_ok (Persistence.save_checkpoint make_persistence g tmp_fs);
  loaded ← unwrap_ok (Persistence.load_checkpoint make_persistence fs);
  assert_eq (DagGraph.node_count loaded) 3%nat;;
  assert (is_some (DagGraph.get_node loaded "eng-1"));;
  assert (is_some (DagGraph.get_node loaded "eng-2"));;
  assert (is_some (DagGraph.get_node loaded "eng-3"));;
  n ← unwrap (DagGraph.get_node loaded "eng-2");
  assert_eq (n_depends_on n) ["eng-1"].

Definition test_resume_resets_in_progress : outcome unit :=
  g ← make_sample_graph;
  g ← mark g "eng-1" Done;
  g ← mark g "eng-2" InProgress;
  g ← mark g "eng-3" InProgress;
  fs ← done_ok (Persistence.save_checkpoint make_persistence g tmp_fs);
  loaded ← unwrap_ok (Persistence.load_checkpoint make_persistence fs);
  s1 ← status_in loaded "eng-1"; assert_eq s1 Done;;
  s2 ← status_in loaded "eng-2"; assert_eq s2 Pending;;
  s3 ← status_in loaded "eng-3"; assert_eq s3 Pending.

Definition test_save_node_state : outcome unit :=
  fs ← done_ok (Persistence.save_node_state make_persistence (make_node "eng-1" []) tmp_fs);
  let p := (tmp ++ [".aros"; "state"; "node-eng-1.json"])%list in
  assert (path_exists fs p);;
  json ← unwrap_ok (read_to_string p fs);
  loaded ← unwrap_ok (node_from_str json);
  assert_eq (n_id loaded) "eng-1";;
  assert_eq (n_status loaded) Pending.

Definition test_has_checkpoint : outcome unit :=
  assert (negb (Persistence.has_checkpoint make_persistence tmp_fs));;
  g ← make_sample_graph;
  fs ← done_ok (Persistence.save_checkpoint make_persistence g tmp_fs);
  assert (Persistence.has_checkpoint make_persistence fs).

Definition test_clear_checkpoint : outcome unit :=
  g ← make_sample_graph;
  fs ← done_ok (Persistence.save_checkpoint make_persistence g tmp_fs);
  assert (Persistence.has_checkpoint make_persistence fs);;
  fs ← done_ok (Persistence.clear make_persistence fs);
  assert (negb (Persistence.has_checkpoint make_persistence fs)).

Definition is_no_checkpoint (e : PersistenceError) : bool :=
  match e with NoCheckpoint _ => true | _ => false end.

Definition test_load_nonexistent : outcome unit :=
  let result := Persistence.load_checkpoint make_persistence tmp_fs in
  assert (is_err result);;
  e ← unwrap_err result;
  assert (is_no_checkpoint e).

End Persistence.
End Tests.

(** * Running the tests *)

(** A serializer for nodes that have not run yet. *)
Definition status_code (s : NodeStatus) : nat :=
  match s with Pending => 0 | InProgress => 1 | Done => 2 | Failed => 3 | Blocked => 4 end.

Definition code_status (n : nat) : NodeStatus :=
  match n with 0 => Pending | 1 => InProgress | 2 => Done | 3 => Failed | _ => Blocked end%nat.

Definition node_code (n : Node) : string * list string * nat :=
  (n_id n, n_depends_on n, status_code (n_status n)).

Definition code_node (c : string * list string * nat) : Node :=
  let '(id, deps, s) := c in set_status (code_status s) (make_node id deps).

Definition plain_node_from_str (s : string) : result string Node :=
  ok_or (code_node <$> text_code s) "syntax".

Definition plain_json : GraphJson := {|
  graph_to_string_pretty := fun g => Ok (code_text (node_code <$> (map_to_list (nodes g)).*2));
  node_to_string_pretty := fun n => Ok (code_text (node_code n));
  graph_from_str := fun s =>
    l ← ok_or (text_code s) "syntax";
    Ok (mkDag (list_to_map ((fun c => (n_id (code_node c), code_node c)) <$> l)))
|}.

Definition dag_tests (O : HashOrder) (P : BuildProfile) : list (outcome unit) :=
  let D := good_disk in
  let J := plain_json in
  [test_add_and_retrieve_node; test_ready_nodes_no_deps; test_ready_nodes_with_deps;
   test_cycle_detection; test_remove_node; test_remove_node_with_dependents_fails;
   test_is_complete; test_topological_sort; test_duplicate_node_id;
   test_ready_nodes_skips_failed;
   test_execute_tick_dispatches_ready; test_execute_tick_respects_max_parallel;
   test_execute_tick_respects_dependencies; test_run_completes_dag; test_run_detects_failure;
   test_add_node_runtime; test_remove_pending_node; test_remove_in_progress_fails;
   test_update_dependencies; test_update_dependencies_cycle_fails; test_stats;
   test_save_and_load_checkpoint; test_resume_resets_in_progress;
   test_save_node_state plain_node_from_str; test_has_checkpoint; test_clear_checkpoint;
   test_load_nonexistent].

(** The unit tests of dag/ pass. *)
Theorem dag_tests_pass : suite dag_tests = true.
Proof. by vm_compute. Qed.
