(* ===== verification/TestSupervisor.v ===== *)
(** The unit tests of src/src/supervisor/ (process.rs, health.rs, error.rs,
    kernel.rs), except the round trips of the derived serializers. *)

From S2P Require Import Prelude F64 Supervisor Testing.

#[local] Open Scope string_scope.
#[local] Open Scope Z_scope.

#[export] Instance HealthLevel_eq_dec : EqDecision HealthLevel.
Proof. solve_decision. Defined.

Section Tests.
(** [now n] is the reading number [n] of the monotonic clock in a test. *)
Context {O : HashOrder} {P : BuildProfile} (now : nat -> Instant).

(** * supervisor/process.rs *)

Definition default_restart_policy : outcome unit :=
  let policy := default_policy in
  assert_eq (max_restarts policy) 5;;
  assert_eq (restart_window policy) (from_secs 300);;
  assert_eq (backoff_base policy) (from_millis 100);;
  assert_eq (backoff_max policy) (from_secs 30).

Definition tracker_records_restarts_within_limit : outcome unit :=
  let policy := mkPolicy 3 (from_secs 60) (from_millis 100) (from_secs 10) in
  let tracker := RestartTracker.new policy in
  '(r, tracker) ← RestartTracker.record_restart (now 0) tracker;
  d1 ← unwrap_ok r; assert_eq d1 (from_millis 100);;
  '(r, tracker) ← RestartTracker.record_restart (now 1) tracker;
  d2 ← unwrap_ok r; assert_eq d2 (from_millis 200);;
  '(r, tracker) ← RestartTracker.record_restart (now 2) tracker;
  d3 ← unwrap_ok r; assert_eq d3 (from_millis 400);;
  '(result, _) ← RestartTracker.record_restart (now 3) tracker;
  assert (is_err result).

Definition tracker_backoff_caps_at_max : outcome unit :=
  let policy := mkPolicy 100 (from_secs 600) (from_secs 1) (from_secs 5) in
  _ ← foldl (fun tracker i =>
        tracker ← tracker;
        '(r, tracker) ← RestartTracker.record_restart (now i) tracker;
        d ← unwrap_ok r;
        assert (d <=? from_secs 5);;
        Ret tracker)
      (Ret (RestartTracker.new policy)) (seq 0 10);
  Ret tt.

Definition tracker_reset_clears_history : outcome unit :=
  let policy := mkPolicy 2 (from_secs 60) (backoff_base default_policy)
                  (backoff_max default_policy) in
  tracker ← Ret (RestartTracker.new policy);
  '(r, tracker) ← RestartTracker.record_restart (now 0) tracker;
  unwrap_ok r;;
  '(r, tracker) ← RestartTracker.record_restart (now 1) tracker;
  unwrap_ok r;;
  '(r, tracker) ← RestartTracker.record_restart (now 2) tracker;
  assert (is_err r);;
  let tracker := RestartTracker.reset tracker in
  assert_eq (RestartTracker.restart_count tracker) 0;;
  assert_eq (rt_consecutive_failures tracker) 0;;
  '(r, _) ← RestartTracker.record_restart (now 3) tracker;
  assert (is_ok r).

Definition process_state_display : outcome unit :=
  assert_eq (display_state Running) "Running";;
  assert_eq (display_state SFailed) "Failed".

(** * supervisor/error.rs *)

Definition error_display_max_restarts : outcome unit :=
  let err := display_error (MaxRestartsExceeded Loop0Meta) in
  assert (str_contains err "Loop0Meta");;
  assert (str_contains err "max restart limit").

Definition error_display_not_found : outcome unit :=
  let err := display_error (ProcessNotFound ModelAdapter) in
  assert (str_contains err "ModelAdapter");;
  assert (str_contains err "not found").

Definition error_display_invalid_transition : outcome unit :=
  let msg := display_error (InvalidTransition Kernel "Running" "Starting") in
  assert (str_contains msg "Kernel");;
  assert (str_contains msg "Running");;
  assert (str_contains msg "Starting").

Definition error_display_shutting_down : outcome unit :=
  assert_eq (display_error ShuttingDown) "supervisor shutting down".

(** * supervisor/health.rs *)

Definition make_process (id : ProcessId) (state : ProcessState) : ProcessHealth :=
  mkProcessHealth id state 100 0.

(** [HealthStatus::compute(&procs, Instant::now()).status]. *)
Definition level (procs : list ProcessHealth) : HealthLevel :=
  h_status (Health.compute procs (now 0) (now 1)).

Definition all_running_is_healthy : outcome unit :=
  assert_eq (level [make_process Loop0Meta Running; make_process Loop1Agentic Running])
    Healthy.

Definition any_failed_is_degraded : outcome unit :=
  assert_eq (level [make_process Loop0Meta Running; make_process Loop1Agentic SFailed])
    Degraded.

Definition restarting_is_recovering : outcome unit :=
  assert_eq (level [make_process Loop0Meta Running; make_process ModelAdapter Restarting])
    Recovering.

Definition starting_is_recovering : outcome unit :=
  assert_eq (level [make_process Loop2Harness Starting]) Recovering.

Definition empty_processes_is_healthy : outcome unit := assert_eq (level []) Healthy.

Definition failed_takes_priority_over_restarting : outcome unit :=
  assert_eq (level [make_process Loop0Meta SFailed; make_process ModelAdapter Restarting])
    Degraded.

(** * supervisor/kernel.rs *)

(** [sv.update_state(id, state).await]; an update reads the clock up to three
    times, from reading [n] on. *)
Definition update (n : nat) (id : ProcessId) (state : ProcessState) (sv : KernelSupervisor)
    : outcome (result SupervisorError unit * KernelSupervisor) :=
  Supervisor.update_state (now n) (now (n + 1)) (now (n + 2)) id state sv.

(** The same, unwrapped. *)
Definition updated (n : nat) (id : ProcessId) (state : ProcessState) (sv : KernelSupervisor)
    : outcome KernelSupervisor := p ← update n id state sv; done_ok p.

(** [KernelSupervisor::new()] and [sv.register(id, policy).await]. *)
Definition start (id : ProcessId) (policy : RestartPolicy) : KernelSupervisor :=
  Supervisor.register (now 1) (now 2) id policy (Supervisor.new (now 0)).

Definition register_and_check_health : outcome unit :=
  let sv := start Loop0Meta default_policy in
  let '(health, _) := Supervisor.health (now 3) sv in
  assert_eq (length (active_processes health)) 1%nat;;
  p ← unwrap (active_processes health !! 0%nat);
  assert_eq (ph_id p) Loop0Meta;;
  assert_eq (ph_state p) Starting.

Definition update_to_running_makes_healthy : outcome unit :=
  let sv := start Loop0Meta default_policy in
  sv ← updated 3 Loop0Meta Running sv;
  assert (Supervisor.all_healthy sv);;
  let '(health, _) := Supervisor.health (now 6) sv in
  assert_eq (h_status health) Healthy.

Definition failure_triggers_restart : outcome unit :=
  let sv := start ModelAdapter default_policy in
  sv ← updated 3 ModelAdapter Running sv;
  sv ← updated 6 ModelAdapter SFailed sv;
  handle ← unwrap (children sv !! ModelAdapter);
  assert_eq (ch_state handle) Restarting.

Definition is_max_restarts_exceeded (id : ProcessId) (e : SupervisorError) : bool :=
  match e with MaxRestartsExceeded id' => bool_decide (id' = id) | _ => false end.
Definition is_process_not_found (id : ProcessId) (e : SupervisorError) : bool :=
  match e with ProcessNotFound id' => bool_decide (id' = id) | _ => false end.
Definition is_invalid_transition (e : SupervisorError) : bool :=
  match e with InvalidTransition _ _ _ => true | _ => false end.

Definition max_restarts_exceeded : outcome unit :=
  let policy := mkPolicy 1 (from_secs 60) (from_millis 10) (from_secs 1) in
  let sv := start Loop1Agentic policy in
  sv ← updated 3 Loop1Agentic Running sv;
  sv ← updated 6 Loop1Agentic SFailed sv;
  '(result, _) ← update 9 Loop1Agentic SFailed sv;
  assert (is_err result);;
  e ← unwrap_err result;
  assert (is_max_restarts_exceeded Loop1Agentic e).

Definition not_found_error : outcome unit :=
  '(result, _) ← update 1 EmbeddingAdapter Running (Supervisor.new (now 0));
  e ← unwrap_err result;
  assert (is_process_not_found EmbeddingAdapter e).

Definition invalid_transition_stopped_to_running : outcome unit :=
  let sv := start Loop2Harness default_policy in
  sv ← updated 3 Loop2Harness Running sv;
  sv ← updated 6 Loop2Harness Stopped sv;
  '(result, _) ← update 9 Loop2Harness Running sv;
  e ← unwrap_err result;
  assert (is_invalid_transition e).

Definition all_healthy_requires_at_least_one_process : outcome unit :=
  assert (negb (Supervisor.all_healthy (Supervisor.new (now 0)))).

Definition mixed_states_not_all_healthy : outcome unit :=
  let sv := start Loop0Meta default_policy in
  let sv := Supervisor.register (now 3) (now 4) Loop1Agentic default_policy sv in
  sv ← updated 5 Loop0Meta Running sv;
  assert (negb (Supervisor.all_healthy sv)).

Definition supervisor_tests : list (outcome unit) :=
  [default_restart_policy; tracker_records_restarts_within_limit;
   tracker_backoff_caps_at_max; tracker_reset_clears_history; process_state_display;
   error_display_max_restarts; error_display_not_found; error_display_invalid_transition;
   error_display_shutting_down; all_running_is_healthy; any_failed_is_degraded;
   restarting_is_recovering; starting_is_recovering; empty_processes_is_healthy;
   failed_takes_priority_over_restarting; register_and_check_health;
   update_to_running_makes_healthy; failure_triggers_restart; max_restarts_exceeded;
   not_found_error; invalid_transition_stopped_to_running;
   all_healthy_requires_at_least_one_process; mixed_states_not_all_healthy].

End Tests.

(** The unit tests of supervisor/ pass, with a microsecond between two readings
    of the clock. *)
Theorem supervisor_tests_pass :
  suite (fun O P => supervisor_tests (fun n => Z.of_nat n * 1000)) = true.
Proof. by vm_compute. Qed.
