(* ===== verification/TestAdapter.v ===== *)
(** The unit tests of src/src/adapter/ (circuit_breaker.rs, provider.rs,
    resolver.rs) and of src/src/agent/ (lifecycle.rs, shell.rs,
    claude_cli.rs). *)

From S2P Require Import Prelude Text F64 Envelope Scheduler Adapter Agent Testing.

#[local] Open Scope string_scope.
#[local] Open Scope Z_scope.

#[export] Instance AdapterStatus_eq_dec : EqDecision AdapterStatus.
Proof. solve_decision. Defined.

#[export] Instance DegradationLevel_eq_dec : EqDecision DegradationLevel.
Proof. solve_decision. Defined.

Module Breaker.
Section Tests.
(** [now n] is the reading number [n] of the monotonic clock in a test. *)
Context {P : BuildProfile} (now : nat -> Instant).

Definition test_starts_closed : outcome unit :=
  let cb := CircuitBreaker.new (now 0) "test" default_cb_config in
  let '(s, cb) := CircuitBreaker.state (now 1) cb in
  assert_eq s Closed;;
  let '(b, _) := CircuitBreaker.allows_request (now 2) cb in
  assert b.

(** [CircuitBreakerConfig { failure_threshold, ..Default::default() }]. *)
Definition threshold (n : Z) : CircuitBreakerConfig :=
  mkCbConfig n (open_duration default_cb_config) (probe_success_count default_cb_config).

Definition test_opens_after_threshold_failures : outcome unit :=
  let cb := CircuitBreaker.new (now 0) "test" (threshold 2) in
  cb ← CircuitBreaker.record_failure (now 1) cb;
  let '(s, cb) := CircuitBreaker.state (now 2) cb in
  assert_eq s Closed;;
  cb ← CircuitBreaker.record_failure (now 3) cb;
  let '(s, cb) := CircuitBreaker.state (now 4) cb in
  assert_eq s Open;;
  let '(b, _) := CircuitBreaker.allows_request (now 5) cb in
  assert (negb b).

Definition test_success_resets_failure_count : outcome unit :=
  let cb := CircuitBreaker.new (now 0) "test" (threshold 3) in
  cb ← CircuitBreaker.record_failure (now 1) cb;
  cb ← CircuitBreaker.record_failure (now 2) cb;
  cb ← CircuitBreaker.record_success (now 3) cb;
  cb ← CircuitBreaker.record_failure (now 4) cb;
  assert_eq (CircuitBreaker.state (now 5) cb).1 Closed.

Definition test_half_open_success_closes : outcome unit :=
  let config := mkCbConfig (failure_threshold default_cb_config)
                  (open_duration default_cb_config) 2 in
  let cb := CircuitBreaker.recovering (now 0) "test" config in
  let '(s, cb) := CircuitBreaker.state (now 1) cb in
  assert_eq s HalfOpen;;
  cb ← CircuitBreaker.record_success (now 2) cb;
  let '(s, cb) := CircuitBreaker.state (now 3) cb in
  assert_eq s HalfOpen;;
  cb ← CircuitBreaker.record_success (now 4) cb;
  assert_eq (CircuitBreaker.state (now 5) cb).1 Closed.

Definition test_half_open_failure_reopens : outcome unit :=
  let cb := CircuitBreaker.recovering (now 0) "test" default_cb_config in
  cb ← CircuitBreaker.record_failure (now 1) cb;
  assert_eq (CircuitBreaker.state (now 2) cb).1 Open.

Definition test_open_transitions_to_half_open_after_duration : outcome unit :=
  let config := mkCbConfig 1 (from_millis 0) (probe_success_count default_cb_config) in
  let cb := CircuitBreaker.new (now 0) "test" config in
  cb ← CircuitBreaker.record_failure (now 1) cb;
  assert_eq (CircuitBreaker.state (now 2) cb).1 HalfOpen.

Definition test_recovering_starts_half_open : outcome unit :=
  let cb := CircuitBreaker.recovering (now 0) "test" default_cb_config in
  assert_eq (CircuitBreaker.state (now 1) cb).1 HalfOpen.

End Tests.
End Breaker.

Module Provider.
Section Tests.
Context {O : HashOrder} {P : BuildProfile} (now : nat -> Instant).

Definition test_provider (id : string) : ProviderConfig :=
  mkProvider id ("https://" +:+ id +:+ ".example.com") ["model-1"] 1 [Green]
    (mkCaps 100000 true false true Opus).

Definition test_new_registry_all_closed : outcome unit :=
  let registry := ProviderRegistry.new (now 0) [test_provider "a"; test_provider "b"]
                    default_cb_config in
  let '(a, registry) := ProviderRegistry.is_available (now 1) "a" registry in
  assert a;;
  let '(b, _) := ProviderRegistry.is_available (now 2) "b" registry in
  assert b.

Definition test_recovering_registry_all_half_open : outcome unit :=
  let registry := ProviderRegistry.recovering (now 0) [test_provider "a"] default_cb_config in
  let '(health, _) := ProviderRegistry.health (now 1) registry in
  p ← unwrap (ah_providers health !! 0%nat);
  assert_eq (ph_circuit_state p) HalfOpen.

Definition test_failure_opens_circuit : outcome unit :=
  let registry := ProviderRegistry.new (now 0) [test_provider "a"] (Breaker.threshold 2) in
  registry ← ProviderRegistry.record_failure (now 1) "a" registry;
  let '(a, registry) := ProviderRegistry.is_available (now 2) "a" registry in
  assert a;;
  registry ← ProviderRegistry.record_failure (now 3) "a" registry;
  let '(a, _) := ProviderRegistry.is_available (now 4) "a" registry in
  assert (negb a).

Definition test_health_degraded : outcome unit :=
  let registry := ProviderRegistry.new (now 0) [test_provider "a"; test_provider "b"]
                    (Breaker.threshold 1) in
  registry ← ProviderRegistry.record_failure (now 1) "a" registry;
  let '(health, _) := ProviderRegistry.health (now 2) registry in
  assert_eq (ah_status health) Degraded.

Definition test_health_all_down : outcome unit :=
  let config := mkCbConfig 1 (from_secs 9999) (probe_success_count default_cb_config) in
  let registry := ProviderRegistry.new (now 0) [test_provider "a"; test_provider "b"] config in
  registry ← ProviderRegistry.record_failure (now 1) "a" registry;
  registry ← ProviderRegistry.record_failure (now 2) "b" registry;
  let '(health, _) := ProviderRegistry.health (now 3) registry in
  assert_eq (ah_status health) AllProvidersDown.

End Tests.
End Provider.

Module Resolution.

Definition anthropic_provider : ProviderConfig :=
  mkProvider "anthropic" "https://api.anthropic.com" ["claude-opus-4-6"] 1 [Green; Yellow]
    (mkCaps 200000 true true true Opus).

Definition ollama_provider : ProviderConfig :=
  mkProvider "ollama-local" "http://localhost:11434" ["llama3.3-70b"] 2 [Green; Yellow; Red]
    (mkCaps 128000 true false true Sonnet).

(** The identifier and the JSON values are irrelevant to the resolver. *)
Definition simple_request (zone : SecurityZone) : AdapterRequest unit unit :=
  Adapter.simple_request tt [mkMessage "user" "Hello"] P1Normal zone.

Definition with_capabilities (f : CapabilityReq -> CapabilityReq)
    (r : AdapterRequest unit unit) : AdapterRequest unit unit :=
  mkRequest (request_id r) (req_dag_id r) (req_task_id r) (req_loop_origin r)
    (f (capabilities r)) (req_security_zone r) (req_priority r) (token_budget_remaining r)
    (context_sources r) (require_different_provider r) (messages r) (tools r)
    (temperature r) (req_max_tokens r).

Definition set_require_different (b : bool) (r : AdapterRequest unit unit)
    : AdapterRequest unit unit :=
  mkRequest (request_id r) (req_dag_id r) (req_task_id r) (req_loop_origin r)
    (capabilities r) (req_security_zone r) (req_priority r) (token_budget_remaining r)
    (context_sources r) b (messages r) (tools r) (temperature r) (req_max_tokens r).

Definition set_vision (b : bool) (c : CapabilityReq) : CapabilityReq :=
  mkCapReq (min_context c) (supports_streaming c) (req_tool_use c) b (min_quality_tier c).

Definition set_min_quality_tier (t : QualityTier) (c : CapabilityReq) : CapabilityReq :=
  mkCapReq (min_context c) (supports_streaming c) (req_tool_use c) (req_vision c) t.

Definition both : list ProviderConfig := [anthropic_provider; ollama_provider].
Definition both_ids : list string := ["anthropic"; "ollama-local"].

Definition test_resolves_primary_provider : outcome unit :=
  let req := simple_request Green in
  result ← unwrap_ok (Resolver.resolve req both both_ids None);
  assert_eq (pc_id (rp_config result)) "anthropic";;
  assert_eq (rp_degradation_level result) NoDegradation.

Definition test_falls_back_when_primary_unavailable : outcome unit :=
  let req := simple_request Green in
  result ← unwrap_ok (Resolver.resolve req both ["ollama-local"] None);
  assert_eq (pc_id (rp_config result)) "ollama-local";;
  assert_eq (rp_degradation_level result) Mild.

Definition test_red_zone_only_local : outcome unit :=
  let req := simple_request Red in
  result ← unwrap_ok (Resolver.resolve req both both_ids None);
  assert_eq (pc_id (rp_config result)) "ollama-local".

Definition test_no_provider_available : outcome unit :=
  let req := simple_request Red in
  assert (is_err (Resolver.resolve req [anthropic_provider] ["anthropic"] None)).

Definition test_adversarial_different_provider : outcome unit :=
  let req := set_require_different true (simple_request Green) in
  result ← unwrap_ok (Resolver.resolve req both both_ids (Some "anthropic"));
  assert_eq (pc_id (rp_config result)) "ollama-local".

Definition test_vision_requirement_filters : outcome unit :=
  let req := with_capabilities (set_vision true) (simple_request Green) in
  result ← unwrap_ok (Resolver.resolve req both both_ids None);
  assert_eq (pc_id (rp_config result)) "anthropic".

Definition test_quality_tier_filters : outcome unit :=
  let req := with_capabilities (set_min_quality_tier Opus) (simple_request Green) in
  result ← unwrap_ok (Resolver.resolve req both both_ids None);
  assert_eq (pc_id (rp_config result)) "anthropic".

End Resolution.

Module Agents.

Definition test_initial_state_is_idle : outcome unit :=
  let state := Idle in
  assert_eq state Idle;;
  assert (AgentState.can_execute state).

Definition test_idle_to_busy_transition : outcome unit :=
  let '(r, state) := AgentState.transition_to_busy Idle in
  assert (is_ok r);;
  assert_eq state Busy;;
  assert (negb (AgentState.can_execute state)).

Definition test_busy_to_done_transition : outcome unit :=
  state ← done_ok (AgentState.transition_to_busy Idle);
  let '(r, state) := AgentState.transition_to_done state in
  assert (is_ok r);;
  assert_eq state Done.

Definition test_cannot_execute_when_busy : outcome unit :=
  state ← done_ok (AgentState.transition_to_busy Idle);
  assert (negb (AgentState.can_execute state));;
  assert (is_err (AgentState.transition_to_busy state).1).

Definition test_reset_returns_to_idle : outcome unit :=
  state ← done_ok (AgentState.transition_to_busy Idle);
  state ← done_ok (AgentState.transition_to_failed state);
  assert_eq state Failed;;
  let state := AgentState.reset state in
  assert_eq state Idle;;
  assert (AgentState.can_execute state).

Section Tests.
Context `{Os}.

Definition test_shell_execute_echo : outcome unit :=
  let result := ShellAgent.execute ShellAgent.new "echo hello" 5 in
  assert (success result);;
  assert (str_contains (ar_output result) "hello");;
  assert_eq (exit_code result) (Some 0).

Definition test_shell_execute_failure : outcome unit :=
  let result := ShellAgent.execute ShellAgent.new "exit 1" 5 in
  assert (negb (success result));;
  assert_eq (exit_code result) (Some 1).

Definition test_shell_timeout : outcome unit :=
  let result := ShellAgent.execute ShellAgent.new "sleep 10" 1 in
  assert (negb (success result));;
  e ← unwrap (ar_error result);
  assert (str_contains e "timed out").

Definition test_shell_resource_requirements : outcome unit :=
  let req := resource_requirements ShellAgent.new in
  assert_eq (cpu_millicores req) 200;;
  assert_eq (memory_mb req) 50.

Definition test_claude_cli_resource_requirements : outcome unit :=
  let req := resource_requirements ClaudeCliAgent.new in
  assert_eq (cpu_millicores req) 500;;
  assert_eq (memory_mb req) 250.

End Tests.

(** What a shell does with the commands of the tests. *)
Definition test_os : Os := {| run_command := fun cmd _ limit =>
  let finished out code := (Finished (String.list_byte_of_string out) [] (Exited code),
                            from_millis 5) in
  if bool_decide (args cmd = ["-c"; "echo hello"]) then
    finished ("hello" +:+ String (Ascii.ascii_of_nat 10) "") 0
  else if bool_decide (args cmd = ["-c"; "exit 1"]) then finished "" 1
  else if bool_decide (args cmd = ["-c"; "sleep 10"]) then
    if limit <=? from_secs 10 then (TimedOut, limit)
    else (Finished [] [] (Exited 0), from_secs 10)
  else finished "" 127 |}.

End Agents.

(** * Running the tests *)

Definition adapter_tests (now : nat -> Instant) (O : HashOrder) (P : BuildProfile)
    : list (outcome unit) :=
  [Breaker.test_starts_closed now; Breaker.test_opens_after_threshold_failures now;
   Breaker.test_success_resets_failure_count now; Breaker.test_half_open_success_closes now;
   Breaker.test_half_open_failure_reopens now;
   Breaker.test_open_transitions_to_half_open_after_duration now;
   Breaker.test_recovering_starts_half_open now;
   Provider.test_new_registry_all_closed now;
   Provider.test_recovering_registry_all_half_open now;
   Provider.test_failure_opens_circuit now; Provider.test_health_degraded now;
   Provider.test_health_all_down now;
   Resolution.test_resolves_primary_provider;
   Resolution.test_falls_back_when_primary_unavailable; Resolution.test_red_zone_only_local;
   Resolution.test_no_provider_available; Resolution.test_adversarial_different_provider;
   Resolution.test_vision_requirement_filters; Resolution.test_quality_tier_filters].

Definition agent_tests : list (outcome unit) :=
  let os := Agents.test_os in
  [Agents.test_initial_state_is_idle; Agents.test_idle_to_busy_transition;
   Agents.test_busy_to_done_transition; Agents.test_cannot_execute_when_busy;
   Agents.test_reset_returns_to_idle; Agents.test_shell_execute_echo;
   Agents.test_shell_execute_failure; Agents.test_shell_timeout;
   Agents.test_shell_resource_requirements; Agents.test_claude_cli_resource_requirements].

(** The unit tests of adapter/ pass, with a microsecond between two readings of
    the clock, and those of agent/. *)
Theorem adapter_tests_pass : suite (adapter_tests (fun n => Z.of_nat n * 1000)) = true.
Proof. by vm_compute. Qed.

Theorem agent_tests_pass : forallb passes agent_tests = true.
Proof. by vm_compute. Qed.
