(* ===== verification/TestGovernor.v ===== *)
(** The unit tests of src/src/governor/ (budget.rs, admission.rs, governor.rs)
    and of src/src/envelope/task_envelope.rs, except those of the derived
    serializers and [Debug] texts. The one that spawns threads passes whatever
    the order of their accesses. *)

From S2P Require Import Prelude F64 Calendar Hardware Envelope Governor Atomics Counters Testing.

#[local] Open Scope string_scope.
#[local] Open Scope Z_scope.

#[export] Instance AdmissionDecision_eq_dec : EqDecision AdmissionDecision.
Proof. solve_decision. Defined.

#[export] Instance RuntimeDecision_eq_dec : EqDecision RuntimeDecision.
Proof. solve_decision. Defined.

Module Budget.

Definition test_tier_budget_defaults : outcome unit :=
  let p0 := TierBudget.p0_critical in
  assert_eq (max_concurrent p0) 2;;
  assert (negb (sheddable p0));;
  let p1 := TierBudget.p1_normal in
  assert_eq (max_concurrent p1) 4;;
  assert (negb (sheddable p1));;
  let p2 := TierBudget.p2_background in
  assert_eq (max_concurrent p2) 2;;
  assert (sheddable p2).

Definition test_tier_usage_task_lifecycle : outcome unit :=
  let usage := TierUsage.record_task_start 256 TierUsage.new in
  assert_eq (active_tasks usage) 1;;
  assert_eq (rss_allocated_mb usage) 256;;
  let usage := TierUsage.record_task_start 128 usage in
  assert_eq (active_tasks usage) 2;;
  assert_eq (rss_allocated_mb usage) 384;;
  let usage := TierUsage.record_task_end 256 usage in
  assert_eq (active_tasks usage) 1;;
  assert_eq (rss_allocated_mb usage) 128;;
  let usage := TierUsage.record_task_end 128 usage in
  assert_eq (active_tasks usage) 0;;
  assert_eq (rss_allocated_mb usage) 0.

Definition test_tier_usage_rss_saturating_sub : outcome unit :=
  let usage := TierUsage.record_task_start 100 TierUsage.new in
  let usage := TierUsage.record_task_end 200 usage in
  assert_eq (rss_allocated_mb usage) 0.

Definition test_tier_usage_tokens : outcome unit :=
  let usage := TierUsage.record_tokens 1000 TierUsage.new in
  let usage := TierUsage.record_tokens 500 usage in
  assert_eq (tokens_used_this_hour usage) 1500;;
  let usage := TierUsage.reset_hourly_tokens usage in
  assert_eq (tokens_used_this_hour usage) 0.

(** Ten threads, and what is asserted of the usage when all have returned. *)
Definition usage_threads (p : Priority) : list (list usage_call) :=
  replicate 10 [CallStart p 100; CallTokens p 50].

Definition test_tier_usage_thread_safety (usage : TierUsage) : outcome unit :=
  assert_eq (active_tasks usage) 10;;
  assert_eq (rss_allocated_mb usage) 1000;;
  assert_eq (tokens_used_this_hour usage) 500.

End Budget.

Module Decisions.

Definition test_admission_decision_eq : outcome unit :=
  assert_eq TaskAdmitted TaskAdmitted;;
  assert_ne TaskAdmitted (Queued "test").

Definition test_runtime_decision_eq : outcome unit :=
  assert_eq Continue Continue;;
  assert_ne Continue (Warning "test").

End Decisions.

Module Checks.
Section Tests.
Context {O : HashOrder} {P : BuildProfile}.

Definition make_governor : ResourceGovernor := Governor.new default_governor_config.

Definition is_queued (d : AdmissionDecision) : bool :=
  match d with Queued _ => true | _ => false end.
Definition is_throttled (d : AdmissionDecision) : bool :=
  match d with Throttled _ => true | _ => false end.
Definition is_shed (d : AdmissionDecision) : bool :=
  match d with Shed _ => true | _ => false end.
Definition is_warning (d : RuntimeDecision) : bool :=
  match d with Warning _ => true | _ => false end.
Definition is_exceeded (d : RuntimeDecision) : bool :=
  match d with Exceeded _ => true | _ => false end.

Definition test_p0_admitted_under_critical_pressure : outcome unit :=
  let gov := Governor.update_pressure MCritical make_governor in
  decision ← Governor.check_admission gov P0Critical 100 1000;
  assert_eq decision TaskAdmitted.

Definition test_p2_shed_under_critical_pressure : outcome unit :=
  let gov := Governor.update_pressure MCritical make_governor in
  decision ← Governor.check_admission gov P2Background 100 1000;
  assert (is_shed decision).

Definition test_p1_admitted_under_critical_pressure : outcome unit :=
  let gov := Governor.update_pressure MCritical make_governor in
  decision ← Governor.check_admission gov P1Normal 100 1000;
  assert_eq decision TaskAdmitted.

Definition test_admission_normal_pressure : outcome unit :=
  decision ← Governor.check_admission make_governor P1Normal 100 1000;
  assert_eq decision TaskAdmitted.

Definition test_concurrent_limit_queued : outcome unit :=
  let gov := Governor.task_started P0Critical 100 make_governor in
  let gov := Governor.task_started P0Critical 100 gov in
  decision ← Governor.check_admission gov P0Critical 100 1000;
  assert (is_queued decision).

Definition test_token_budget_throttle_p1 : outcome unit :=
  let gov := Governor.tokens_used P1Normal 500000 make_governor in
  decision ← Governor.check_admission gov P1Normal 100 1000;
  assert (is_throttled decision).

Definition test_token_budget_shed_p2 : outcome unit :=
  let gov := Governor.tokens_used P2Background 200000 make_governor in
  decision ← Governor.check_admission gov P2Background 100 1000;
  assert (is_shed decision).

Definition test_rss_limit_queued : outcome unit :=
  let gov := Governor.task_started P0Critical 500 make_governor in
  decision ← Governor.check_admission gov P0Critical 100 1000;
  assert (is_queued decision).

Definition test_task_lifecycle_tracking : outcome unit :=
  let gov := Governor.task_started P1Normal 256 make_governor in
  let gov := Governor.task_started P1Normal 128 gov in
  let gov := Governor.tokens_used P1Normal 5000 gov in
  snapshot ← Governor.usage_snapshot gov;
  p1 ← unwrap (snapshot !! P1Normal);
  assert_eq (us_active_tasks p1) 2;;
  assert_eq (us_rss_allocated_mb p1) 384;;
  assert_eq (us_tokens_used_this_hour p1) 5000;;
  let gov := Governor.task_ended P1Normal 256 gov in
  snapshot ← Governor.usage_snapshot gov;
  p1 ← unwrap (snapshot !! P1Normal);
  assert_eq (us_active_tasks p1) 1;;
  assert_eq (us_rss_allocated_mb p1) 128.

Definition test_usage_snapshot_all_tiers : outcome unit :=
  snapshot ← Governor.usage_snapshot make_governor;
  assert (contains_key snapshot P0Critical);;
  assert (contains_key snapshot P1Normal);;
  assert (contains_key snapshot P2Background);;
  foldl (fun acc s =>
    acc;;
    assert_eq (us_active_tasks s) 0;;
    assert_eq (us_tokens_used_this_hour s) 0;;
    assert_eq (us_rss_allocated_mb s) 0) (Ret tt) (hm_values snapshot).

Definition test_runtime_continue : outcome unit :=
  assert_eq (Governor.check_runtime make_governor P1Normal 1000 100) Continue.

Definition test_runtime_warning_at_80_percent : outcome unit :=
  assert (is_warning (Governor.check_runtime make_governor P1Normal 410000 100)).

Definition test_runtime_exceeded : outcome unit :=
  assert (is_exceeded (Governor.check_runtime make_governor P1Normal 600000 100)).

Definition test_runtime_critical_pressure_non_p0 : outcome unit :=
  let gov := Governor.update_pressure MCritical make_governor in
  assert (is_exceeded (Governor.check_runtime gov P1Normal 100 50));;
  assert (is_exceeded (Governor.check_runtime gov P2Background 100 50));;
  assert_eq (Governor.check_runtime gov P0Critical 100 50) Continue.

Definition test_runtime_warn_pressure_non_p0 : outcome unit :=
  let gov := Governor.update_pressure MWarn make_governor in
  assert (is_warning (Governor.check_runtime gov P1Normal 100 50));;
  assert_eq (Governor.check_runtime gov P0Critical 100 50) Continue.

Definition test_reset_hourly_tokens : outcome unit :=
  let gov := Governor.tokens_used P0Critical 10000 make_governor in
  let gov := Governor.tokens_used P1Normal 50000 gov in
  let gov := Governor.tokens_used P2Background 20000 gov in
  let gov := Governor.reset_hourly_tokens gov in
  snapshot ← Governor.usage_snapshot gov;
  foldl (fun acc s => acc;; assert_eq (us_tokens_used_this_hour s) 0)
    (Ret tt) (hm_values snapshot).

Definition test_system_rss_ceiling : outcome unit :=
  let gov := Governor.new (mkGovernorConfig 500 100) in
  let gov := Governor.task_started P1Normal 350 gov in
  decision ← Governor.check_admission gov P1Normal 100 100;
  assert (is_queued decision).

Definition test_governor_config_default : outcome unit :=
  let config := default_governor_config in
  assert_eq (system_rss_ceiling_mb config) 10240;;
  assert_eq (headroom_mb config) 2048.

End Tests.
End Checks.

Module Envelopes.
Section Tests.
(** [now] is the time of the system clock, in seconds after the epoch. *)
Context {P : BuildProfile} (now : Z).

Definition sample_task_spec : TaskSpec :=
  mkTaskSpec "Test task" "Do something useful" (Some "/tmp/work") {["FOO" := "bar"]} 3.

Definition sample_envelope : outcome TaskEnvelope :=
  Envelope.new now "task-001" "dag-abc" sample_task_spec Green P1Normal.

(** Assigning the fields that the tests change. *)
Definition with_ids (task dag : string) (version : Z) (e : TaskEnvelope) : TaskEnvelope :=
  mkEnvelope task dag (task_spec e) (security_zone e) (priority e) (resource_budget e)
    (tool_endpoints e) (checkpoint_policy e) (created_at e) version.

Definition with_budget (f : ResourceBudget -> ResourceBudget) (e : TaskEnvelope)
    : TaskEnvelope :=
  mkEnvelope (task_id e) (parent_dag_id e) (task_spec e) (security_zone e) (priority e)
    (f (resource_budget e)) (tool_endpoints e) (checkpoint_policy e) (created_at e)
    (envelope_version e).

Definition set_threshold (x : f64) (b : ResourceBudget) : ResourceBudget :=
  mkBudget (max_rss_mb b) (max_wall_time b) (max_tokens b) x.
Definition set_max_tokens (z : Z) (b : ResourceBudget) : ResourceBudget :=
  mkBudget (max_rss_mb b) (max_wall_time b) z (budget_warning_threshold b).
Definition set_max_rss (z : Z) (b : ResourceBudget) : ResourceBudget :=
  mkBudget z (max_wall_time b) (max_tokens b) (budget_warning_threshold b).
Definition set_max_wall_time (d : Duration) (b : ResourceBudget) : ResourceBudget :=
  mkBudget (max_rss_mb b) d (max_tokens b) (budget_warning_threshold b).

Definition is_empty_task_id (e : EnvelopeError) : bool :=
  match e with EmptyTaskId => true | _ => false end.
Definition is_empty_dag_id (e : EnvelopeError) : bool :=
  match e with EmptyDagId => true | _ => false end.
Definition is_unsupported_version (v : Z) (e : EnvelopeError) : bool :=
  match e with UnsupportedVersion v' => v' =? v | _ => false end.
Definition is_invalid_budget (e : EnvelopeError) : bool :=
  match e with InvalidBudget _ => true | _ => false end.

Definition test_create_envelope : outcome unit :=
  env ← sample_envelope;
  assert_eq (task_id env) "task-001";;
  assert_eq (parent_dag_id env) "dag-abc";;
  assert_eq (envelope_version env) ENVELOPE_VERSION;;
  assert_eq (security_zone env) Green;;
  assert_eq (priority env) P1Normal;;
  assert (negb (str_is_empty (created_at env))).

Definition test_validate_ok : outcome unit :=
  env ← sample_envelope;
  assert (is_ok (Envelope.validate env)).

Definition test_validate_empty_task_id : outcome unit :=
  env ← sample_envelope;
  let env := with_ids "" (parent_dag_id env) (envelope_version env) env in
  err ← unwrap_err (Envelope.validate env);
  assert (is_empty_task_id err).

Definition test_validate_empty_dag_id : outcome unit :=
  env ← sample_envelope;
  let env := with_ids (task_id env) "" (envelope_version env) env in
  err ← unwrap_err (Envelope.validate env);
  assert (is_empty_dag_id err).

Definition test_validate_bad_version : outcome unit :=
  env ← sample_envelope;
  let env := with_ids (task_id env) (parent_dag_id env) 999 env in
  err ← unwrap_err (Envelope.validate env);
  assert (is_unsupported_version 999 err).

Definition test_validate_bad_threshold_high : outcome unit :=
  env ← sample_envelope;
  err ← unwrap_err (Envelope.validate (with_budget (set_threshold (lit 15 10)) env));
  assert (is_invalid_budget err).

Definition test_validate_bad_threshold_negative : outcome unit :=
  env ← sample_envelope;
  assert (is_err (Envelope.validate (with_budget (set_threshold (lit (-1) 10)) env))).

Definition test_validate_zero_tokens : outcome unit :=
  env ← sample_envelope;
  assert (is_err (Envelope.validate (with_budget (set_max_tokens 0) env))).

Definition test_validate_zero_rss : outcome unit :=
  env ← sample_envelope;
  assert (is_err (Envelope.validate (with_budget (set_max_rss 0) env))).

Definition test_validate_zero_wall_time : outcome unit :=
  env ← sample_envelope;
  assert (is_err (Envelope.validate (with_budget (set_max_wall_time 0) env))).

Definition test_token_budget_exceeded : outcome unit :=
  env ← sample_envelope;
  assert (negb (Envelope.is_token_budget_exceeded env 100000));;
  assert (Envelope.is_token_budget_exceeded env 100001).

Definition test_token_budget_warning : outcome unit :=
  env ← sample_envelope;
  assert (negb (Envelope.is_token_budget_warning env 89999));;
  assert (Envelope.is_token_budget_warning env 90000);;
  assert (Envelope.is_token_budget_warning env 100000).

Definition test_wall_time_exceeded : outcome unit :=
  env ← sample_envelope;
  assert (negb (Envelope.is_wall_time_exceeded env (from_secs 300)));;
  assert (Envelope.is_wall_time_exceeded env (from_secs 301)).

Definition test_priority_ordering : outcome unit :=
  assert (priority_index P0Critical <? priority_index P1Normal)%nat;;
  assert (priority_index P1Normal <? priority_index P2Background)%nat.

(** The threshold is compared with the literal; the test bounds the absolute
    difference by the machine epsilon. *)
Definition test_default_resource_budget : outcome unit :=
  let budget := Envelope.default_budget in
  assert_eq (max_rss_mb budget) 512;;
  assert_eq (max_wall_time budget) (from_secs 300);;
  assert_eq (max_tokens budget) 100000;;
  let diff := Floats.SpecFloat.SFabs
    (Floats.SpecFloat.SFsub prec emax (budget_warning_threshold budget) (lit 9 10)) in
  assert (flt diff (fdiv (of_int 1) (of_int (2 ^ 52)))).

Definition test_default_checkpoint_policy : outcome unit :=
  let policy := Envelope.default_checkpoint in
  assert_eq (cp_interval policy) (from_secs 60);;
  assert (cp_on_tool_call policy).

Definition test_created_at_is_iso8601 : outcome unit :=
  env ← sample_envelope;
  assert (str_contains (created_at env) "T");;
  assert (bool_decide (String.substring (String.length (created_at env) - 1) 1
                         (created_at env) = "Z"));;
  assert_eq (String.length (created_at env)) 20%nat.

Definition test_security_zone_equality : outcome unit :=
  assert_ne Green Red;;
  assert_eq Yellow Yellow.

End Tests.
End Envelopes.

(** * Running the tests *)

Definition governor_tests (O : HashOrder) (P : BuildProfile) : list (outcome unit) :=
  [Budget.test_tier_budget_defaults; Budget.test_tier_usage_task_lifecycle;
   Budget.test_tier_usage_rss_saturating_sub; Budget.test_tier_usage_tokens;
   Decisions.test_admission_decision_eq; Decisions.test_runtime_decision_eq;
   Checks.test_p0_admitted_under_critical_pressure;
   Checks.test_p2_shed_under_critical_pressure;
   Checks.test_p1_admitted_under_critical_pressure; Checks.test_admission_normal_pressure;
   Checks.test_concurrent_limit_queued; Checks.test_token_budget_throttle_p1;
   Checks.test_token_budget_shed_p2; Checks.test_rss_limit_queued;
   Checks.test_task_lifecycle_tracking; Checks.test_usage_snapshot_all_tiers;
   Checks.test_runtime_continue; Checks.test_runtime_warning_at_80_percent;
   Checks.test_runtime_exceeded; Checks.test_runtime_critical_pressure_non_p0;
   Checks.test_runtime_warn_pressure_non_p0; Checks.test_reset_hourly_tokens;
   Checks.test_system_rss_ceiling; Checks.test_governor_config_default].

Definition envelope_tests (now : Z) (O : HashOrder) (P : BuildProfile)
    : list (outcome unit) :=
  [Envelopes.test_create_envelope now; Envelopes.test_validate_ok now;
   Envelopes.test_validate_empty_task_id now; Envelopes.test_validate_empty_dag_id now;
   Envelopes.test_validate_bad_version now; Envelopes.test_validate_bad_threshold_high now;
   Envelopes.test_validate_bad_threshold_negative now;
   Envelopes.test_validate_zero_tokens now; Envelopes.test_validate_zero_rss now;
   Envelopes.test_validate_zero_wall_time now; Envelopes.test_token_budget_exceeded now;
   Envelopes.test_token_budget_warning now; Envelopes.test_wall_time_exceeded now;
   Envelopes.test_priority_ordering; Envelopes.test_default_resource_budget;
   Envelopes.test_default_checkpoint_policy; Envelopes.test_created_at_is_iso8601 now;
   Envelopes.test_security_zone_equality].

(** The unit tests of governor/ and of envelope/ pass, the latter at the start of
    1970, 2000, 2026 and 2100. *)
Theorem governor_tests_pass : suite governor_tests = true.
Proof. by vm_compute. Qed.

Theorem envelope_tests_pass :
  forallb (fun now => suite (envelope_tests now))
    [0; 946684800; 1767225600; 4102444800] = true.
Proof. by vm_compute. Qed.

(** The test of the threads, on the usage of a tier of a new governor, passes on
    every run, and some run ends. *)
Theorem thread_safety_passes config p :
  let start := Threads.mkPool (Governor.new config) (thread <$> Budget.usage_threads p) in
  (exists w, rtc turn start w /\ stopped w)
  /\ forall w, rtc turn start w -> stopped w ->
       Budget.test_tier_usage_thread_safety (usage_of (Threads.p_gov w) p) = Ret tt.
Proof.
  intros start. split; [apply (turns_end (writes_left start)); [done|apply thread_adders]|].
  intros w Hr Hs.
  assert (forall f, get_field f (usage_of (Threads.p_gov w) p)
    = read_counter (p, f) (Threads.p_gov w)) as Hu.
  { intros f. unfold read_counter, usage_of. simpl. destruct (tier_usage _ !! p); [done|].
    by destruct f. }
  assert (forall f, read_counter (p, f) (Threads.p_gov w)
    = cast_u 64 (sum_Z (calls_add (p, f) <$> Budget.usage_threads p))) as Hc.
  { intros f. rewrite (counters_sum (p, f) (Governor.new config) (Budget.usage_threads p) w);
      [by destruct p, f|split; [by destruct p; eexists|by destruct p, f]|done|done]. }
  pose proof (Hu FActive) as Ha. pose proof (Hu FRss) as Hb. pose proof (Hu FTokens) as Ht.
  rewrite Hc in Ha, Hb, Ht. unfold Budget.test_tier_usage_thread_safety. simpl in Ha, Hb, Ht.
  rewrite Ha, Hb, Ht. by destruct p.
Qed.
