(* ===== verification/TestHardware.v ===== *)
(** The unit tests of src/src/hardware/ (probe.rs, pressure.rs, thermal.rs,
    gpu.rs, power.rs) and of src/src/scheduler/ (allocator.rs, admission.rs,
    recommender.rs), except those of the derived serializers.

    A test that asks the machine it runs on takes what the machine reports as
    an argument. *)

From S2P Require Import Prelude F64 Hardware IOKit Scheduler Testing.

#[local] Open Scope string_scope.
#[local] Open Scope Z_scope.

#[export] Instance spec_float_eq_dec : EqDecision Floats.SpecFloat.spec_float.
Proof. solve_decision. Defined.

#[export] Instance GpuPressureLevel_eq_dec : EqDecision GpuPressureLevel.
Proof. solve_decision. Defined.

#[export] Instance PowerPressureLevel_eq_dec : EqDecision PowerPressureLevel.
Proof. solve_decision. Defined.

Module Probing.
Section Tests.
(** What [sysinfo] reports at the two readings, and the clock. *)
Context (sys sys' : SysInfo) (now : nat -> Instant).

(** [probe_system()] with an empty cache. *)
Definition first_probe : SystemResources * option (Instant * SystemResources) :=
  Probe.probe_system (now 0) (now 1) sys None.

Definition test_probe_returns_valid_cpu_count : outcome unit :=
  let '(res, _) := first_probe in
  assert (0 <? cpu_count res).

Definition test_probe_returns_valid_ram : outcome unit :=
  let '(res, _) := first_probe in
  assert (0 <? ram_total_mb res);;
  assert (0 <? ram_available_mb res);;
  assert (ram_available_mb res <=? ram_total_mb res).

Definition test_probe_caching : outcome unit :=
  let '(first, cache) := first_probe in
  let '(second, _) := Probe.probe_system (now 2) (now 3) sys' cache in
  assert_eq (cpu_count first) (cpu_count second);;
  assert_eq (ram_total_mb first) (ram_total_mb second);;
  assert_eq (ram_available_mb first) (ram_available_mb second);;
  assert_eq (load_avg_1 first) (load_avg_1 second);;
  assert_eq (load_avg_5 first) (load_avg_5 second);;
  assert_eq (load_avg_15 first) (load_avg_15 second).

End Tests.
End Probing.

Module Memory.
Section Tests.
(** The resources of the machine, and its two sysctl readings on macOS. *)
Context (resources : SystemResources) (kernel compressor : option Z).

Definition test_pressure_normal : outcome unit :=
  let res := Pressure.detect_from_ratio 16000 11200 in
  assert_eq (pr_level res) MNormal;;
  assert_eq (pr_source res) "ram_ratio".

Definition test_pressure_warn : outcome unit :=
  assert_eq (pr_level (Pressure.detect_from_ratio 16000 5000)) MWarn.

Definition test_pressure_critical : outcome unit :=
  assert_eq (pr_level (Pressure.detect_from_ratio 16000 1000)) MCritical.

Definition test_conservative_ram : outcome unit :=
  let res := Pressure.detect_from_ratio 16000 8000 in
  assert (ram_available_conservative_mb res <=? 8000).

(** On macOS and on the other platforms. *)
Definition test_real_pressure_detection : outcome unit :=
  let check result :=
    assert (ram_available_conservative_mb result <=? ram_available_mb resources) in
  check (Pressure.detect_pressure_macos kernel compressor resources);;
  check (Pressure.detect_pressure resources).

Definition test_worse_level : outcome unit :=
  assert_eq (Pressure.worse MNormal MWarn) MWarn;;
  assert_eq (Pressure.worse MWarn MCritical) MCritical;;
  assert_eq (Pressure.worse MCritical MNormal) MCritical.

End Tests.
End Memory.

Module Heat.
Section Tests.
(** The resources of the machine, its sysctl reading on macOS and its thermal
    zones on Linux. *)
Context (resources : SystemResources) (xcpm : option Z)
  (zones : option (list (option (option string * option string)))).

Definition mock_resources (cpus : Z) (load : f64) : SystemResources :=
  mkResources cpus 16000 8000 load load load.

Definition test_classify_xcpm_level : outcome unit :=
  let check raw level := assert_eq (Thermal.classify_xcpm_level raw) level in
  check 0 TNominal;; check (-5) TNominal;;
  check 1 TFair;; check 30 TFair;;
  check 31 TSerious;; check 60 TSerious;;
  check 61 TCritical;; check (2 ^ 31 - 1) TCritical.

(** [detect_from_load_ratio(&mock_resources(cpus, load)).level]. *)
Definition load_level (cpus load : Z) : ThermalPressureLevel :=
  th_level (Thermal.detect_from_load_ratio (mock_resources cpus (of_int load))).

Definition test_load_ratio_nominal : outcome unit :=
  let res := Thermal.detect_from_load_ratio (mock_resources 10 (of_int 2)) in
  assert_eq (th_level res) TNominal;;
  assert_eq (th_source res) "load_ratio".

Definition test_load_ratio_fair : outcome unit := assert_eq (load_level 10 8) TFair.

Definition test_load_ratio_serious : outcome unit := assert_eq (load_level 10 12) TSerious.

Definition test_load_ratio_critical : outcome unit := assert_eq (load_level 10 20) TCritical.

Definition test_load_ratio_boundaries : outcome unit :=
  assert_eq (load_level 10 7) TFair;;
  assert_eq (load_level 10 10) TSerious;;
  assert_eq (load_level 10 15) TCritical.

Definition test_zero_cpu_count_is_unavailable : outcome unit :=
  let res := Thermal.detect_from_load_ratio (mock_resources 0 (of_int 99)) in
  assert_eq (th_level res) TNominal;;
  assert_eq (th_source res) "unavailable".

(** On every platform. *)
Definition test_detect_thermal_real_hardware : outcome unit :=
  let check result := assert (bool_decide (th_source result ∈
    ["xcpm_thermal_level"; "sys_thermal_zone"; "load_ratio"; "unavailable"])) in
  check (Thermal.detect_thermal_macos xcpm resources);;
  check (Thermal.detect_thermal_linux zones resources);;
  check (Thermal.detect_thermal_other resources).

Definition test_classify_celsius : outcome unit :=
  let check celsius level := assert_eq (Thermal.classify_celsius celsius) level in
  check (of_int 20) TNominal;; check (lit 599 10) TNominal;;
  check (of_int 60) TFair;; check (lit 799 10) TFair;;
  check (of_int 80) TSerious;; check (lit 949 10) TSerious;;
  check (of_int 95) TCritical;; check (of_int 110) TCritical.

Definition line (s : string) : string := s +:+ String (Ascii.ascii_of_nat 10) "".

Definition test_parse_zone_millidegrees : outcome unit :=
  let check raw celsius := assert_eq (Thermal.parse_zone_millidegrees raw) celsius in
  check (line "52000") (Some (of_int 52));;
  check "  48500 " (Some (lit 485 10));;
  check "0" (Some fzero);;
  check "" None;;
  check "N/A" None;;
  check "52.0" None.

Definition test_max_zone_celsius_picks_hottest : outcome unit :=
  assert_eq (Thermal.max_zone_celsius [line "45000"; line "71000"; line "60000"])
    (Some (of_int 71)).

Definition test_max_zone_celsius_skips_unreadable : outcome unit :=
  assert_eq (Thermal.max_zone_celsius ["error"; ""; line "63000"; "garbage"])
    (Some (of_int 63)).

Definition test_max_zone_celsius_none_when_empty : outcome unit :=
  assert_eq (Thermal.max_zone_celsius []) None;;
  assert_eq (Thermal.max_zone_celsius ["x"; "y"]) None.

End Tests.
End Heat.

Module Gpus.
Section Tests.
Context `{IOKit}.

Definition test_classify_utilization : outcome unit :=
  let check pct level := assert_eq (Gpu.classify_utilization pct) level in
  check 0 GNominal;; check 29 GNominal;; check 30 GFair;; check 59 GFair;;
  check 60 GSerious;; check 84 GSerious;; check 85 GCritical;; check 100 GCritical.

Definition test_unavailable_is_nominal : outcome unit :=
  let r := Gpu.unavailable in
  assert_eq (gpu_level r) GNominal;;
  assert_eq (utilization_pct r) None;;
  assert_eq (gpu_source r) "unavailable".

Definition mock_resources : SystemResources :=
  mkResources 10 16000 8000 (of_int 1) (of_int 1) (of_int 1).

(** On macOS and on the other platforms. *)
Definition test_detect_gpu_real_hardware : outcome unit :=
  let check result :=
    assert (bool_decide (gpu_source result ∈ ["iokit_accelerator"; "unavailable"]));;
    if bool_decide (gpu_source result = "unavailable") then
      assert_eq (utilization_pct result) None;;
      assert_eq (gpu_level result) GNominal
    else match utilization_pct result with
         | Some pct => assert (pct <=? 100)
         | None => Ret tt
         end in
  check (Gpu.detect_gpu_macos mock_resources);;
  check (Gpu.detect_gpu mock_resources).

End Tests.
End Gpus.

Module Watts.
Section Tests.
Context `{IOKit}.

Definition test_classify_watts : outcome unit :=
  let check watts level := assert_eq (Power.classify_watts watts) level in
  check fzero PNominal;; check (lit 149 10) PNominal;;
  check (of_int 15) PFair;; check (lit 349 10) PFair;;
  check (of_int 35) PSerious;; check (lit 599 10) PSerious;;
  check (of_int 60) PCritical;; check (of_int 250) PCritical.

Definition test_unavailable_is_nominal : outcome unit :=
  let r := Power.unavailable in
  assert_eq (pw_level r) PNominal;;
  assert_eq (package_watts r) None;;
  assert_eq (pw_source r) "unavailable".

Definition mock_resources : SystemResources :=
  mkResources 10 16000 8000 (of_int 1) (of_int 1) (of_int 1).

(** On macOS and on the other platforms. *)
Definition test_detect_power_real_hardware : outcome unit :=
  let check result :=
    assert (bool_decide (pw_source result ∈ ["iokit_smc_property"; "unavailable"]));;
    if bool_decide (pw_source result = "unavailable") then
      assert_eq (package_watts result) None;;
      assert_eq (pw_level result) PNominal
    else match package_watts result with
         | Some watts =>
           assert (is_finite watts && fge watts fzero);;
           assert_eq (pw_level result) (Power.classify_watts watts)
         | None => Ret tt
         end in
  check (Power.detect_power_macos mock_resources);;
  check (Power.detect_power mock_resources).

End Tests.
End Watts.

Module Allocations.
Section Tests.
Context {P : BuildProfile}.

(** [alloc.allocate(&req)] and [alloc.release(&req)]. *)
Definition allocate (req : ResourceRequirements) (al : ResourceAllocator)
    : outcome ResourceAllocator :=
  let '(r, al) := Allocator.allocate req al in r;; Ret al.

Definition release (req : ResourceRequirements) (al : ResourceAllocator)
    : outcome ResourceAllocator :=
  let '(r, al) := Allocator.release req al in r;; Ret al.

(** Asserting what a getter returns. *)
Definition assert_get (f : AllocatorState -> Z) (al : ResourceAllocator) (z : Z)
    : outcome unit := x ← Allocator.get f al; assert_eq x z.

Definition test_allocate_and_release : outcome unit :=
  let req := req_claude_cli in
  allocator ← allocate req Allocator.new;
  assert_get allocated_cpu allocator 500;;
  assert_get allocated_memory allocator 250;;
  assert_get active_agents allocator 1;;
  allocator ← release req allocator;
  assert_get allocated_cpu allocator 0;;
  assert_get allocated_memory allocator 0;;
  assert_get active_agents allocator 0.

Definition test_active_agents_tracking : outcome unit :=
  allocator ← allocate req_claude_cli Allocator.new;
  allocator ← allocate req_shell allocator;
  assert_get active_agents allocator 2;;
  assert_get allocated_cpu allocator 700;;
  assert_get allocated_memory allocator 300;;
  allocator ← release req_claude_cli allocator;
  assert_get active_agents allocator 1;;
  assert_get allocated_cpu allocator 200;;
  assert_get allocated_memory allocator 50;;
  allocator ← release req_shell allocator;
  assert_get active_agents allocator 0.

(** Ten threads, each one critical section under the mutex: whatever order
    they run in, they run one after the other. *)
Definition ten (f : ResourceAllocator -> outcome ResourceAllocator)
    (al : ResourceAllocator) : outcome ResourceAllocator :=
  foldl (fun al _ => al ← al; f al) (Ret al) (seq 0 10).

Definition test_thread_safety : outcome unit :=
  allocator ← ten (allocate req_shell) Allocator.new;
  assert_get active_agents allocator 10;;
  assert_get allocated_cpu allocator 2000;;
  assert_get allocated_memory allocator 500;;
  allocator ← ten (release req_shell) allocator;
  assert_get active_agents allocator 0;;
  assert_get allocated_cpu allocator 0;;
  assert_get allocated_memory allocator 0.

Definition make_controller : AdmissionController := mkController 5.
Definition make_allocator : ResourceAllocator := Allocator.new.

Definition test_can_schedule_normal_pressure : outcome unit :=
  b ← Admission.can_schedule make_controller req_claude_cli make_allocator MNormal 4000 8000;
  assert b.

Definition test_cannot_schedule_critical_pressure : outcome unit :=
  b ← Admission.can_schedule make_controller req_shell make_allocator MCritical 4000 8000;
  assert (negb b).

Definition test_cannot_schedule_exhausted_cpu : outcome unit :=
  b ← Admission.can_schedule make_controller req_claude_cli make_allocator MNormal 100 8000;
  assert (negb b).

Definition test_cannot_schedule_exhausted_ram : outcome unit :=
  b ← Admission.can_schedule make_controller req_claude_cli make_allocator MNormal 4000 100;
  assert (negb b).

Definition test_cannot_schedule_max_agents : outcome unit :=
  alloc ← foldl (fun al _ => al ← al; allocate req_shell al) (Ret make_allocator) (seq 0 5);
  b ← Admission.can_schedule make_controller req_shell alloc MNormal 4000 8000;
  assert (negb b).

Definition test_available_slots : outcome unit :=
  let ctrl := make_controller in
  let req := req_claude_cli in
  n ← Admission.available_slots ctrl req make_allocator MNormal 2000 1000;
  assert_eq n 4;;
  alloc ← allocate req make_allocator;
  alloc ← allocate req alloc;
  n ← Admission.available_slots ctrl req alloc MNormal 2000 1000;
  assert_eq n 3;;
  n ← Admission.available_slots ctrl req alloc MCritical 2000 1000;
  assert_eq n 0.

End Tests.
End Allocations.

Module Recommendations.
Section Tests.
Context {P : BuildProfile} (platform arch : string).

Definition make_resources (cpus ram_total ram_available : Z) : SystemResources :=
  mkResources cpus ram_total ram_available (of_int 1) (of_int 1) (of_int 1).

Definition r : Recommender := Recommender.with_defaults.

Definition test_recommend_ample_resources : outcome unit :=
  let res := make_resources 10 16384 12000 in
  max ← Recommender.recommend_max_agents r res MNormal 250;
  assert_eq max 20.

Definition test_recommend_low_ram : outcome unit :=
  let res := make_resources 10 4096 3072 in
  max ← Recommender.recommend_max_agents r res MNormal 250;
  assert_eq max 4.

Definition test_recommend_high_cpu : outcome unit :=
  let res := make_resources 2 32768 28000 in
  max ← Recommender.recommend_max_agents r res MNormal 250;
  assert_eq max 4.

Definition test_recommend_critical_pressure : outcome unit :=
  let res := make_resources 10 16384 8000 in
  normal ← Recommender.recommend_max_agents r res MNormal 250;
  critical ← Recommender.recommend_max_agents r res MCritical 250;
  assert_eq normal 20;;
  assert_eq critical 11;;
  assert (critical <? normal).

Definition test_recommend_hard_limit : outcome unit :=
  let res := make_resources 10 16384 12000 in
  max ← Recommender.recommend_max_agents (mkRecommender 2048 3) res MNormal 250;
  assert_eq max 3.

Definition test_thermal_clamp_nominal_is_noop : outcome unit :=
  let res := make_resources 10 16384 12000 in
  base ← Recommender.recommend_max_agents r res MNormal 250;
  thermal ← Recommender.recommend_max_agents_thermal r res MNormal TNominal 250;
  assert_eq base thermal.

Definition test_thermal_clamp_reduces_with_heat : outcome unit :=
  let res := make_resources 10 16384 12000 in
  nominal ← Recommender.recommend_max_agents_thermal r res MNormal TNominal 250;
  fair ← Recommender.recommend_max_agents_thermal r res MNormal TFair 250;
  serious ← Recommender.recommend_max_agents_thermal r res MNormal TSerious 250;
  critical ← Recommender.recommend_max_agents_thermal r res MNormal TCritical 250;
  assert_eq nominal 20;;
  assert_eq fair 15;;
  assert_eq serious 10;;
  assert_eq critical 5;;
  assert ((critical <? serious) && (serious <? fair) && (fair <=? nominal)).

Definition test_thermal_clamp_never_exceeds_base : outcome unit :=
  let res := make_resources 10 16384 12000 in
  base ← Recommender.recommend_max_agents r res MNormal 250;
  foldl (fun acc thermal =>
    acc;;
    clamped ← Recommender.recommend_max_agents_thermal r res MNormal thermal 250;
    assert (clamped <=? base)) (Ret tt) [TNominal; TFair; TSerious; TCritical].

Definition test_thermal_clamp_composes_with_memory_pressure : outcome unit :=
  let res := make_resources 10 16384 8000 in
  critical_mem ← Recommender.recommend_max_agents_thermal r res MCritical TSerious 250;
  assert_eq critical_mem 5.

Definition test_thermal_clamp_zero_base_stays_zero : outcome unit :=
  let res := make_resources 10 4096 2048 in
  base ← Recommender.recommend_max_agents r res MNormal 250;
  assert_eq base 0;;
  clamped ← Recommender.recommend_max_agents_thermal r res MNormal TCritical 250;
  assert_eq clamped 0.

Definition test_recommend_config_format : outcome unit :=
  let res := make_resources 8 16384 10000 in
  output ← Recommender.recommend_config platform arch r res MNormal;
  assert (str_contains output "HARDWARE SUMMARY");;
  assert (str_contains output "AGENT CAPACITY BY TYPE");;
  assert (str_contains output "RECOMMENDED CONFIGURATION");;
  assert (str_contains output "claude_cli");;
  assert (str_contains output "shell");;
  assert (str_contains output "16384").

End Tests.
End Recommendations.

(** * Running the tests *)

(** A machine: eight processors, a load, thermal zones, and an accelerator and
    a controller whose readings are out of range and in range. *)
Definition machine : SysInfo :=
  mkSysInfo 8 (16384 * 1048576) (9000 * 1048576) (lit 21 10, lit 15 10, of_int 1).
Definition later : SysInfo :=
  mkSysInfo 8 (16384 * 1048576) (7000 * 1048576) (lit 44 10, lit 19 10, of_int 1).

Definition machine_zones : option (list (option (option string * option string))) :=
  Some [Some (Some "thermal_zone0", Some "48500"); Some (Some "cooling_device0", Some "0");
        None; Some (Some "thermal_zone1", None)].

Definition machine_iokit : IOKit := {|
  io_service_matching := fun _ => true;
  io_matching_services := fun name =>
    Some (if bool_decide (name = "AppleSMC") then [7] else [1; 2]);
  cf_string_create := fun _ => true;
  io_property := fun service key =>
    if bool_decide (key = "PerformanceStatistics") then
      Some (CFDictionary (fun k =>
        if service =? 1 then None else Some (CFNumber (Some 140) None)))
    else if bool_decide (key = "PSTR") then Some (CFNumber None (Some (lit 225 10)))
    else if bool_decide (key = "PCPC") then Some (CFNumber None (Some (of_int (-1))))
    else None
|}.

Definition hardware_tests (O : HashOrder) (P : BuildProfile) : list (outcome unit) :=
  let now n := from_millis (Z.of_nat n) in
  let res := Probe.read_resources machine in
  let I := machine_iokit in
  [Probing.test_probe_returns_valid_cpu_count machine now;
   Probing.test_probe_returns_valid_ram machine now;
   Probing.test_probe_caching machine later now;
   Memory.test_pressure_normal; Memory.test_pressure_warn; Memory.test_pressure_critical;
   Memory.test_conservative_ram;
   Memory.test_real_pressure_detection res (Some 2) (Some (3000 * 1048576));
   Memory.test_real_pressure_detection res None None; Memory.test_worse_level;
   Heat.test_classify_xcpm_level; Heat.test_load_ratio_nominal; Heat.test_load_ratio_fair;
   Heat.test_load_ratio_serious; Heat.test_load_ratio_critical;
   Heat.test_load_ratio_boundaries; Heat.test_zero_cpu_count_is_unavailable;
   Heat.test_detect_thermal_real_hardware res (Some 12) machine_zones;
   Heat.test_detect_thermal_real_hardware res None None;
   Heat.test_classify_celsius; Heat.test_parse_zone_millidegrees;
   Heat.test_max_zone_celsius_picks_hottest; Heat.test_max_zone_celsius_skips_unreadable;
   Heat.test_max_zone_celsius_none_when_empty;
   Gpus.test_classify_utilization; Gpus.test_unavailable_is_nominal;
   Gpus.test_detect_gpu_real_hardware;
   Watts.test_classify_watts; Watts.test_unavailable_is_nominal;
   Watts.test_detect_power_real_hardware].

Definition scheduler_tests (O : HashOrder) (P : BuildProfile) : list (outcome unit) :=
  [Allocations.test_allocate_and_release; Allocations.test_active_agents_tracking;
   Allocations.test_thread_safety; Allocations.test_can_schedule_normal_pressure;
   Allocations.test_cannot_schedule_critical_pressure;
   Allocations.test_cannot_schedule_exhausted_cpu;
   Allocations.test_cannot_schedule_exhausted_ram;
   Allocations.test_cannot_schedule_max_agents; Allocations.test_available_slots;
   Recommendations.test_recommend_ample_resources; Recommendations.test_recommend_low_ram;
   Recommendations.test_recommend_high_cpu; Recommendations.test_recommend_critical_pressure;
   Recommendations.test_recommend_hard_limit;
   Recommendations.test_thermal_clamp_nominal_is_noop;
   Recommendations.test_thermal_clamp_reduces_with_heat;
   Recommendations.test_thermal_clamp_never_exceeds_base;
   Recommendations.test_thermal_clamp_composes_with_memory_pressure;
   Recommendations.test_thermal_clamp_zero_base_stays_zero;
   Recommendations.test_recommend_config_format "linux" "x86_64"].

(** The unit tests of hardware/ pass on such a machine, and those of
    scheduler/. *)
Theorem hardware_tests_pass : suite hardware_tests = true.
Proof. by vm_compute. Qed.

Theorem scheduler_tests_pass : suite scheduler_tests = true.
Proof. by vm_compute. Qed.
