(* ===== verification/TestHandler.v ===== *)
(** The unit tests of src/src/supervisor/handler.rs.

    The store is the SQLite store on the database in memory of Store.v, the
    JSON values are the ones of Rpc.v. *)

From S2P Require Import Prelude F64 Envelope Governor Supervisor Store Rpc Handler Testing.

#[local] Open Scope string_scope.
#[local] Open Scope Z_scope.

#[local] Existing Instance tree_json.
#[local] Existing Instance mem_sql.

Section Tests.
(** [now n] is the reading number [n] of the monotonic clock in a test, [date]
    the time of the system clock in seconds after the epoch. *)
Context {O : HashOrder} {P : BuildProfile} (now : nat -> Instant) (date : Z).

Abbreviation kernel := (KernelState SqliteStateStore).

(** [supervisor.register(id, RestartPolicy::default()).await], at reading [n]. *)
Definition registered (n : nat) (id : ProcessId) (sv : KernelSupervisor) : KernelSupervisor :=
  Supervisor.register (now n) (now (n + 1)) id default_policy sv.

(** The same, and [update_state(id, ProcessState::Running).await.unwrap()]. *)
Definition running (n : nat) (id : ProcessId) (sv : KernelSupervisor)
    : outcome KernelSupervisor :=
  p ← Supervisor.update_state (now (n + 2)) (now (n + 3)) (now (n + 4)) id Running
        (registered n id sv);
  done_ok p.

(** [KernelRequestHandler::new] with a new governor, registry and store. *)
Definition handler_of (sv : KernelSupervisor) : outcome kernel :=
  store ← unwrap_ok (Engine.open (now 30) ":memory:");
  Ret (Handler.new sv (Governor.new default_governor_config) TaskRegistry.new store).

Definition make_handler : outcome kernel :=
  sv ← running 1 Kernel (Supervisor.new (now 0));
  sv ← running 6 Loop0Meta sv;
  sv ← running 11 Loop1Agentic sv;
  sv ← running 16 Loop2Harness sv;
  handler_of sv.

(** [handler.handle(method, params).await]. *)
Definition handle (k : kernel) (method : RpcMethod) (params : option jv)
    : outcome (result (Z * string) jv * kernel) :=
  Handler.handle (fun n => now (31 + n)) method params k.

(** [val[key] == text] and the like. *)
Definition field_is (val : jv) (key text : string) : bool :=
  match jv_get key val with Some (JString s) => bool_decide (s = text) | _ => false end.

Definition field_is_bool (val : jv) (key : string) (b : bool) : bool :=
  match jv_get key val with Some (JBool b') => Bool.eqb b' b | _ => false end.

Definition field_is_u64 (val : jv) (key : string) (z : Z) : bool :=
  match jv_get key val with Some (JU64 z') => z' =? z | _ => false end.

(** [store.get(key).unwrap().unwrap()], read as text. *)
Definition stored (k : kernel) (key : string) : outcome string :=
  o ← unwrap_ok (ss_get key (state_store k));
  bytes ← unwrap o;
  Ret (String.string_of_list_byte bytes).

(** [serde_json::to_value(trigger).unwrap()]. *)
Definition trigger_value (t : LoopTrigger jv) : outcome jv := unwrap_ok (trigger_to_value t).

Definition register_task (task socket : string) (k : kernel) : kernel :=
  Handler.set_registry (TaskRegistry.register task socket (task_registry k)) k.

Definition test_ping : outcome unit :=
  k ← make_handler;
  '(result, _) ← handle k Ping None;
  val ← unwrap_ok result;
  assert (match val with JString s => bool_decide (s = "pong") | _ => false end).

Definition test_task_progress_unknown_task : outcome unit :=
  k ← make_handler;
  let params := JObject [("task_id", JString "nonexistent"); ("dag_id", JString "dag-1");
                         ("phase", JString "executing")] in
  '(result, _) ← handle k TaskProgress (Some params);
  assert (is_err result);;
  e ← unwrap_err result;
  assert_eq e.1 ERROR_PERMISSION_DENIED.

Definition test_task_progress_known_task : outcome unit :=
  k ← make_handler;
  let k := register_task "task-1" "/tmp/loop1-task-1.sock" k in
  let params := JObject [("task_id", JString "task-1"); ("dag_id", JString "dag-1");
                         ("phase", JString "executing")] in
  '(result, _) ← handle k TaskProgress (Some params);
  assert (is_ok result);;
  val ← unwrap_ok result;
  assert (field_is val "status" "acknowledged").

Definition test_task_complete_releases_budget : outcome unit :=
  k ← make_handler;
  let k := register_task "task-2" "/tmp/loop1-task-2.sock" k in
  let k := Handler.set_governor (Governor.task_started P1Normal 256 (k_governor k)) k in
  let params := JObject [("task_id", JString "task-2"); ("dag_id", JString "dag-1");
                         ("tokens_used", JU64 5000)] in
  '(result, k) ← handle k TaskComplete (Some params);
  assert (is_ok result);;
  val ← unwrap_ok result;
  assert (field_is val "status" "completed");;
  assert (is_none (TaskRegistry.get "task-2" (task_registry k))).

Definition test_task_submit_admission : outcome unit :=
  k ← make_handler;
  envelope ← Envelope.new date "test-task" "test-dag"
               (mkTaskSpec "test task" "test" None ∅ 0) Green P1Normal;
  '(result, _) ← handle k TaskSubmit (Some (JEnvelope envelope));
  assert (is_ok result);;
  val ← unwrap_ok result;
  assert (field_is val "status" "admitted").

Definition test_loop_trigger_meta_cycle_request : outcome unit :=
  k ← make_handler;
  params ← trigger_value (LoopTrigger.new 1 Loop0Meta Kernel (MetaCycleRequest "schedule"));
  '(result, _) ← handle k MLoopTrigger (Some params);
  assert (is_ok result);;
  val ← unwrap_ok result;
  assert (field_is val "status" "authorized").

Definition test_loop_trigger_from_stopped_process_rejected : outcome unit :=
  k ← handler_of (registered 1 Loop0Meta (Supervisor.new (now 0)));
  params ← trigger_value (LoopTrigger.new 1 Loop0Meta Kernel (MetaCycleRequest "test"));
  '(result, _) ← handle k MLoopTrigger (Some params);
  assert (is_err result);;
  e ← unwrap_err result;
  assert_eq e.1 ERROR_PERMISSION_DENIED.

Definition test_task_cancel_unknown_task : outcome unit :=
  k ← make_handler;
  let params := JObject [("task_id", JString "nonexistent"); ("reason", JString "timeout")] in
  '(result, _) ← handle k TaskCancel (Some params);
  assert (is_err result).

Definition test_meta_cycle_complete_persists_to_store : outcome unit :=
  k ← make_handler;
  params ← trigger_value (LoopTrigger.new 1 Loop0Meta Kernel
             (MetaCycleComplete "cycle-42" true (lit 15 100)));
  '(result, k) ← handle k MLoopTrigger (Some params);
  assert (is_ok result);;
  val ← unwrap_ok result;
  assert (field_is val "status" "persisted");;
  assert (field_is_bool val "policy_updated" true);;
  drift ← stored k "sie/identity/last_drift";
  assert_eq drift "0.15";;
  head ← stored k "sie/policy/head";
  assert_eq head "cycle-42";;
  last_cycle ← stored k "sie/meta/last_cycle";
  assert_eq last_cycle "cycle-42".

Definition test_meta_cycle_complete_no_policy_change : outcome unit :=
  k ← make_handler;
  params ← trigger_value (LoopTrigger.new 2 Loop0Meta Kernel
             (MetaCycleComplete "cycle-43" false (lit 5 100)));
  '(result, k) ← handle k MLoopTrigger (Some params);
  assert (is_ok result);;
  val ← unwrap_ok result;
  assert (field_is_bool val "policy_updated" false);;
  drift ← stored k "sie/identity/last_drift";
  assert_eq drift "0.05";;
  head ← unwrap_ok (ss_get "sie/policy/head" (state_store k));
  assert (is_none head).

Definition test_loop_trigger_to_stopped_target_rejected : outcome unit :=
  sv ← running 1 Loop2Harness (Supervisor.new (now 0));
  k ← handler_of (registered 6 Loop1Agentic sv);
  params ← trigger_value (LoopTrigger.new 1 Loop2Harness Loop1Agentic TkPing);
  '(result, _) ← handle k MLoopTrigger (Some params);
  assert (is_err result);;
  e ← unwrap_err result;
  assert_eq e.1 ERROR_PERMISSION_DENIED;;
  assert (str_contains e.2 "target process").

Definition test_loop_trigger_to_unregistered_target_rejected : outcome unit :=
  sv ← running 1 Loop2Harness (Supervisor.new (now 0));
  k ← handler_of sv;
  params ← trigger_value (LoopTrigger.new 1 Loop2Harness Loop1Agentic TkPing);
  '(result, _) ← handle k MLoopTrigger (Some params);
  assert (is_err result);;
  e ← unwrap_err result;
  assert_eq e.1 ERROR_PERMISSION_DENIED.

Definition test_loop_trigger_to_running_target_routes : outcome unit :=
  k ← make_handler;
  params ← trigger_value (LoopTrigger.new 42 Loop2Harness Loop1Agentic TkPing);
  '(result, _) ← handle k MLoopTrigger (Some params);
  assert (is_ok result);;
  val ← unwrap_ok result;
  assert (field_is val "status" "routed");;
  assert (field_is_u64 val "seq" 42).

Definition test_loop_trigger_kernel_target_skips_target_running_check : outcome unit :=
  sv ← running 1 Loop0Meta (Supervisor.new (now 0));
  k ← handler_of sv;
  params ← trigger_value (LoopTrigger.new 1 Loop0Meta Kernel (MetaCycleRequest "test"));
  '(result, _) ← handle k MLoopTrigger (Some params);
  assert (is_ok result);;
  val ← unwrap_ok result;
  assert (field_is val "status" "authorized").

Definition test_task_registry_lifecycle : outcome unit :=
  assert_eq (TaskRegistry.active_count TaskRegistry.new) 0%nat;;
  let registry := TaskRegistry.register "t1" "/tmp/t1.sock" TaskRegistry.new in
  let registry := TaskRegistry.register "t2" "/tmp/t2.sock" registry in
  assert_eq (TaskRegistry.active_count registry) 2%nat;;
  assert (is_some (TaskRegistry.get "t1" registry));;
  assert (is_none (TaskRegistry.get "t3" registry));;
  let '(_, registry) := TaskRegistry.remove "t1" registry in
  assert_eq (TaskRegistry.active_count registry) 1%nat;;
  assert (is_none (TaskRegistry.get "t1" registry)).

Definition handler_tests : list (outcome unit) :=
  [test_ping; test_task_progress_unknown_task; test_task_progress_known_task;
   test_task_complete_releases_budget; test_task_submit_admission;
   test_loop_trigger_meta_cycle_request; test_loop_trigger_from_stopped_process_rejected;
   test_task_cancel_unknown_task; test_meta_cycle_complete_persists_to_store;
   test_meta_cycle_complete_no_policy_change; test_loop_trigger_to_stopped_target_rejected;
   test_loop_trigger_to_unregistered_target_rejected;
   test_loop_trigger_to_running_target_routes;
   test_loop_trigger_kernel_target_skips_target_running_check;
   test_task_registry_lifecycle].

End Tests.

(** The unit tests of the handler pass, with a millisecond between two readings
    of the clock, at the start of 2026. *)
Theorem handler_tests_pass :
  suite (fun O P => handler_tests (fun n => from_millis (Z.of_nat n)) 1767225600) = true.
Proof. by vm_compute. Qed.
